(* ===== verification/_CoqProject ===== *)
-Q . S2P
Prelude.v
Json.v
Text.v
Models.v
PyValue.v
Scope.v
Identity.v
Operation.v
Schema.v
QueryContract.v
Retry.v
Db.v
Manifest.v
ArtifactApi.v
Store.v
Executor.v
Labels.v
Guard.v
Replay.v
Staging.v
Transitions.v
Boundary.v
Admin.v
Config.v
Steps.v
Invariant.v
Refinement.v
RefinementRuns.v
Behaviour.v
Effects.v
Journal.v
Artifacts.v
ArtifactSafety.v
Jsonl.v
Session.v
Clients.v
Consumer.v
Runtime.v
Ordering.v
Recovery.v
Drain.v
Receipts.v
Barriers.v
Conservation.v
Reachable.v
Demo.v
Payloads.v
Producers.v
Autonomy.v
Guarantees.v
Admission.v
Lanes.v
Contracts.v
Stateful.v
Generation.v
Generations.v
Jobs.v
JobStore.v
Owner.v
Ownership.v
Url.v
Targets.v
Endpoints.v
Fences.v
Reliability.v
CallEvidence.v
Evidence.v
EvidenceFacts.v
ProcMap.v
ProcJoins.v
Publication.v
Ledger.v
PublicationFacts.v
ProcFacts.v
