(* ===== verification/Prelude.v ===== *)
(** * The graph-write journal of CortexHarness

    CortexHarness analyses source trees and documents and writes what it finds
    into a graph and a vector store, which MCP servers query.  This development
    models the part of it that must not lose or invent writes: the durable
    journal between the analyzers and the graph
    ([code-tiny/tools/graph/journal/]), the contracts of the queries it replays
    ([graph/writer/query_contract.py], [graph/schema/manifest.py]), the project
    scopes that isolate tenants ([tools/common/project_scope.py]), and the owner
    of the embedded store ([cortex_harness/storage/]): its admission lanes, its
    ingestion jobs, its leases and handles, the targets it is bound to and the
    generations its readers see.  Above it stands what decides that a call found in
    C source may be trusted: the evidence of calls, its merging, and its guarded
    publication ([tools/cplus/], [tools/common/]), and the records a run ends with.

    ** How the parts interact

    An analyzer's writer calls the producer runtime.  It writes the rows of a
    batch as an immutable payload file, registers the batch with the barriers it
    requires and produces, and claims it or leaves it deferred.  The journal is
    a SQLite database: runs, batches, barriers, row manifests, events.  A batch
    is leased under a fencing token, executed on the guarded graph driver, which
    extends every fenced mutation with a receipt, and acknowledged.  A lease
    that expires makes its batch ambiguous: it is reconciled by reading the
    receipt back, never executed blindly.  When a producer dies, the autonomous
    consumer drains its run from descriptors and payloads alone.  In a
    node-first run relationships wait for all nodes and for an endpoint audit.
    A run is published only when every staged row is accounted for.

    The embedded store is owned by one process.  Ingestion jobs are submitted
    under idempotency keys, admitted within limits, and kept in a file that the
    next owner loads.  What a job builds is a generation, a pair of a graph and a
    vector store; it is published by replacing one pointer file, and retired
    once no reader pins it.

    Observations of calls are merged into call sites; a site whose accepted
    observation is strong gives a strict call.  A staged replacement holds the
    strict calls and the stale edges they leave behind.  It is published through the
    owner's manager only when its counts were read back exactly, a ledger records
    it, and rollback serves what the ledger recorded last.

    ** Files

    - [Prelude.v]: outcomes, the transaction monad and its weakest
      preconditions, record update, tables as finite maps with SQL-like updates,
      stable ordering, automation.  [Json.v]: JSON values, canonical printing
      ([identity.canonical_json]) and parsing.  [Text.v], [PyValue.v]: the
      string methods, [str], [bool], [int] and [dict] operations of Python that
      the code uses.
    - [Models.v]: [models.py], enums with their stored values, errors by code,
      metadata, batch specifications, limits.  [Identity.v]: [identity.py].
      [Retry.v]: [retry.py].  [Scope.v]: [project_scope.py].
    - [Operation.v]: [operation.py], the descriptors of writes.  [Schema.v]:
      [graph/schema/manifest.py].  [QueryContract.v]: [query_contract.py].
      [Executor.v]: [executor.py] and [reconcile.py], what a descriptor compiles
      to.  [Guard.v]: [guard.py], the wrapped driver and its receipts.
      [Labels.v], [Replay.v]: theorems on these.
    - [Db.v]: the nine tables with their constraints, transactions, events.
      [Manifest.v]: classification and staging of row manifests.  [Store.v],
      [Transitions.v], [Boundary.v], [Admin.v]: the methods of [SQLiteJournal]
      ([sqlite_store.py]): runs, enqueue, barriers, claims and recovery; fenced
      transitions; the production boundary and the audit; administration.
      [Config.v]: [config.py].
    - [ArtifactApi.v]: what the store asks of the payload files, as a class.
      [Artifacts.v]: [artifacts.py], implementing it over a volume whose every
      system call may fail.  [ArtifactSafety.v], [Jsonl.v]: rules and lemmas.
      [Payloads.v]: the instance and its guarantees.
    - [Steps.v]: the abstract journal, a transition system on the tables up to
      events.  [Invariant.v]: its invariants.  [Refinement.v],
      [RefinementRuns.v]: every method is a sequence of its steps.
      [Behaviour.v], [Effects.v]: what single methods return and change.
      [Journal.v]: the calls clients make and the databases they reach.
      [Staging.v], [Barriers.v], [Conservation.v], [Reachable.v]: the invariants
      of manifests and barriers.
    - [Session.v], [Clients.v]: programs that call the journal and the graph,
      where state survives an exception.  [Runtime.v]: [runtime.py], the
      producer; [Ordering.v], [Producers.v]: what its batches wait for.
      [Consumer.v]: [consumer.py]; [Recovery.v], [Drain.v], [Receipts.v],
      [Autonomy.v]: it is a client, it terminates, it acknowledges only what the
      graph confirms.
    - [Admission.v], [Lanes.v]: the bounded lane as interleaved steps of tasks.
    - [Contracts.v]: [storage/contracts.py].  [Stateful.v]: methods of mutable
      objects, whose changes survive an exception.  [Generation.v]:
      [generation.py], each method cut at its locks; [Generations.v]: their
      interleavings with failing writes and crashes.  [Jobs.v]: the jobs of
      [gateway.py]; [JobStore.v]: a job table through calls, writes and restarts.
      [Owner.v], [Ownership.v]: [gateway.py], starting, draining and closing with
      its leases and handles.  [Url.v]: [urlsplit] and [urlunsplit].  [Targets.v]:
      [targets.py]; [Endpoints.v], [Fences.v]: canonical endpoints, and targets as
      fences of generations.
    - [Reliability.v]: [common/reliability.py], phases, outcomes and records of a
      run.  [CallEvidence.v]: [common/call_evidence.py] and the bundle states of
      [cplus/proc_source_map.py].  [Evidence.v], [EvidenceFacts.v],
      [ProcJoins.v]: [cplus/evidence_merge.py].  [ProcMap.v], [ProcFacts.v]: the
      source maps of [cplus/proc_source_map.py] and their reconciliation.
      [Publication.v], [Ledger.v]: [cplus/guarded_publication.py], up to the
      read-back and from there on; [PublicationFacts.v]: what publication promises,
      also over the manager of [Generation.v].
    - [Demo.v], [Guarantees.v]: a journal evaluated by the kernel, and the
      theorems on every reachable journal.

    ** What the theorems show

    - Order: a leased batch finds the producers of its barriers acknowledged;
      relationships wait for the nodes they join, in node-first runs for all
      nodes and the audit; lanes start tasks in the order they came.
    - Exactly once: an acknowledgement is final, a stale token changes nothing,
      a batch that recovery acknowledges has its receipt in the graph, over a
      driver that obeys the laws of receipts.
    - Accounts: manifests are classified completely, counters are exact, a
      drained run has acknowledged exactly its unique rows, publication needs
      that; lanes count what happens.
    - Generations: readers see the last publication, recovery selects it, what
      they hold is not removed, and what was retired does not come back.  Jobs: what
      a successful write of the job file held survives restarts, finished jobs stay
      finished, a key never makes a second job.
    - Ownership: an open handle is covered by both leases, ready means probed.
      Targets: canonical endpoints hold no secrets, a manifest fences its topology, a
      child accepts only the target its own settings resolve to.
    - Calls: a merge conserves evidence identities, a strict call is backed by strong
      evidence, every trusted site is staged again or listed as stale, publication
      fails closed, the active generation flips exactly when it was published.
      Pro*C: strict rows lie where an entry of exact spans puts them, calls are
      accounted for, a sidecar fails closed.
    - Assumptions that the code does not enforce are hypotheses, and where the code
      breaks a promise without them a theorem beside it shows how: a directory
      synchronisation that fails after the pointer was replaced
      ([Generations.late_failure_loses_selection]; excluded from what readers see
      and hold, not from what is retired); untyped keyword arguments of
      [update_job] ([JobStore.untyped_detail_unloadable]; excluded from restarts
      and resubmissions, not from the survival of jobs); a request cancelled twice,
      and a cancelled publication of the active generation
      ([Ownership.abandoned_thread_outlives_leases],
      [Ownership.cancelled_publication_makes_ready]: each excluded where it matters
      by a switch of [faults]), as is a duplicate handle that does not close; an
      entry of exact spans with a shorter original span
      ([ProcFacts.exact_span_escapes]); two calls with one evidence identity
      ([EvidenceFacts.macro_calls_collapse]).
    - Refinement: the methods of the store implement the abstract journal, and
      the producer and the consumer act only through these methods; the bounded
      ledger shows the end of the unbounded history.
    - Payloads: never partial, never overwritten, read back as written, refused
      when tampered with.
    - Round trips: canonical JSON, descriptors, configuration through the
      environment, payload rows, results of runs.  Bounds: retries, lanes,
      details of failures.  Termination: the drain loop, the lane, the
      phases, the binary search for a line.

    ** Modelling choices, fuel and bounds

    Python exceptions are values of [exn]; messages and details are left out.  A
    method of the store is a function of an environment (clock, free space,
    fresh token), its arguments and the database.  Times are integers in
    microseconds, in the code formatted as fixed-width UTC texts that order the
    same way.  A JSON column that the code writes with [canonical_json] holds
    the value it stands for; [run_metadata_json_inj] in [Identity.v] shows that
    equal metadata texts mean equal metadata.  Parsing JSON takes the length of
    its text as fuel, which [loads_canonical] shows to be enough for every
    printed value; the drain loop takes fuel, and [drain_terminates] shows twice
    the number of batches to be enough; every other recursion is structural.
    SHA-256, UUIDs of names, the graph driver, path resolution of the operating
    system, file locks, the system calls' failures, the scheduler, and [float] and
    [round] where they print are parameters.  Strings are byte
    strings and the case and space functions are those of ASCII.

    ** Not modelled

    Of opening the SQLite file, what is not a change of its tables: locking, WAL
    mode, PRAGMA statements and integrity checks, file modes, placement checks,
    orphan cleanup; [purge_run] as the two transactions it uses, it is one call
    here; JSON booleans where an
    integer version is expected; texts that are JSON but not canonical;
    directories, links, ownership and modes of payload files;
    [attach_journal_config]; draining or closing a gateway while it starts; details
    of failures that are no JSON values (the branches of [_bounded_json_value] for
    an [Enum] and for other objects); the file a result of a run is written to; the
    Cypher that deletes stale edges.  Of the rest of the repository: the analyzers, the
    drivers, the writer that builds Cypher batches, sync, retrieval, MCP servers,
    the construction of backend clients, document ingestion, CLIs and installers:
    they are clients of libraries and processes, or formatting. *)
From stdpp Require Export base gmap strings list sorting pretty.
From Stdlib Require Export ZArith Lia.
From Stdlib Require Export Ascii String.
#[global] Close Scope string_scope.
Abbreviation length := List.length (only parsing).


Declare Scope journal_scope.
Delimit Scope journal_scope with J.

(** * Outcomes and the transaction monad *)

(** The outcome of a Python call: a value, or a raised exception. *)
Inductive result (E A : Type) : Type :=
  | Ok (a : A)
  | Err (e : E).
Arguments Ok {E A} a.
Arguments Err {E A} e.

#[export] Instance result_ret E : MRet (result E) := λ A a, Ok a.
#[export] Instance result_bind E : MBind (result E) := λ A B f m,
  match m with Ok a => f a | Err e => Err e end.
#[export] Instance result_fmap E : FMap (result E) := λ A B f m,
  match m with Ok a => Ok (f a) | Err e => Err e end.

Definition is_ok {E A} (m : result E A) : bool :=
  match m with Ok _ => true | Err _ => false end.

(** The body of a [with self._transaction():] block.  A raised exception
    carries no state: the caller rolls back to the state before the block. *)
Definition tx (S E A : Type) : Type := S → result E (A * S).

#[export] Instance tx_ret S E : MRet (tx S E) := λ A a s, Ok (a, s).
#[export] Instance tx_bind S E : MBind (tx S E) := λ A B f m s,
  match m s with Ok (a, s') => f a s' | Err e => Err e end.

Section tx.
Context {S E : Type}.

Definition tx_get : tx S E S := λ s, Ok (s, s).
Definition tx_gets {A} (f : S → A) : tx S E A := λ s, Ok (f s, s).
Definition tx_modify (f : S → S) : tx S E unit := λ s, Ok (tt, f s).
Definition tx_raise {A} (e : E) : tx S E A := λ _, Err e.
Definition tx_lift {A} (m : result E A) : tx S E A := λ s,
  match m with Ok a => Ok (a, s) | Err e => Err e end.
(** [if cond: raise e] *)
Definition tx_reject (cond : bool) (e : E) : tx S E unit := λ s,
  if cond then Err e else Ok (tt, s).
(** [for x in xs: body(x)] *)
Fixpoint tx_for {A} (body : A → tx S E unit) (xs : list A) : tx S E unit :=
  match xs with
  | [] => mret ()
  | x :: xs => mbind (λ _, tx_for body xs) (body x)
  end.

(** Weakest precondition of a block that commits: what must hold before it
    for [Q] to hold of the returned value and the committed state.  A block
    that raises leaves the state untouched and is discharged by rollback. *)
Definition wp {A} (m : tx S E A) (Q : A → S → Prop) (s : S) : Prop :=
  match m s with Ok (a, s') => Q a s' | Err _ => True end.

Lemma wp_elim {A} (m : tx S E A) Q s a s' :
  wp m Q s → m s = Ok (a, s') → Q a s'.
Proof. unfold wp. intros H Heq. by rewrite Heq in H. Qed.

Lemma wp_intro {A} (m : tx S E A) (Q : A → S → Prop) s :
  (∀ a s', m s = Ok (a, s') → Q a s') → wp m Q s.
Proof. unfold wp. destruct (m s) as [[a s']|]; eauto. Qed.

Lemma wp_mono {A} (m : tx S E A) (Q Q' : A → S → Prop) s :
  wp m Q s → (∀ a s', Q a s' → Q' a s') → wp m Q' s.
Proof. unfold wp. destruct (m s) as [[a s']|]; eauto. Qed.

Lemma wp_bind {A B} (m : tx S E A) (f : A → tx S E B) Q s :
  wp m (λ a s', wp (f a) Q s') s → wp (mbind f m) Q s.
Proof. unfold wp, mbind, tx_bind. by destruct (m s) as [[a s']|]. Qed.

Lemma wp_ret {A} (a : A) (Q : A → S → Prop) s : Q a s → wp (mret a) Q s.
Proof. done. Qed.
Lemma wp_get (Q : S → S → Prop) s : Q s s → wp tx_get Q s.
Proof. done. Qed.
Lemma wp_gets {A} (f : S → A) (Q : A → S → Prop) s : Q (f s) s → wp (tx_gets f) Q s.
Proof. done. Qed.
Lemma wp_modify f (Q : unit → S → Prop) s : Q tt (f s) → wp (tx_modify f) Q s.
Proof. done. Qed.
Lemma wp_raise {A} e (Q : A → S → Prop) s : wp (tx_raise e) Q s.
Proof. done. Qed.
Lemma wp_lift {A} (m : result E A) (Q : A → S → Prop) s :
  (∀ a, m = Ok a → Q a s) → wp (tx_lift m) Q s.
Proof. unfold wp, tx_lift. destruct m; eauto. Qed.
Lemma wp_reject b e (Q : unit → S → Prop) s :
  (b = false → Q tt s) → wp (tx_reject b e) Q s.
Proof. unfold wp, tx_reject. destruct b; eauto. Qed.

(** Loop rule: an invariant indexed by the part of the list still to visit. *)
Lemma wp_for {A} (body : A → tx S E unit) (I : list A → S → Prop) xs s :
  I xs s →
  (∀ x xs' s, I (x :: xs') s → wp (body x) (λ _, I xs') s) →
  wp (tx_for body xs) (λ _, I []) s.
Proof.
  intros H0 Hstep. revert s H0. induction xs as [|x xs IH]; intros s H0; simpl.
  - by apply wp_ret.
  - apply wp_bind. eapply wp_mono; [by apply Hstep|]. intros [] s' HI. by apply IH.
Qed.

(** Loop rule for an invariant that does not depend on the position. *)
Lemma wp_for_inv {A} (body : A → tx S E unit) (I : S → Prop) xs s :
  I s → (∀ x s, x ∈ xs → I s → wp (body x) (λ _, I) s) → wp (tx_for body xs) (λ _, I) s.
Proof.
  intros H0 Hstep. revert s H0 Hstep.
  induction xs as [|x xs IH]; intros s H0 Hstep; simpl; [by apply wp_ret|].
  apply wp_bind. eapply wp_mono; [apply Hstep; [by left|done]|].
  intros [] s' HI. apply IH; [done|]. intros. apply Hstep; [by right|done].
Qed.
End tx.

#[global] Arguments tx_for : simpl never.

(** One symbolic step of a transaction body. *)
Ltac wp_step :=
  match goal with
  | |- wp (mbind _ _) _ _ => apply wp_bind
  | |- wp (mret _) _ _ => apply wp_ret
  | |- wp tx_get _ _ => apply wp_get
  | |- wp (tx_gets _) _ _ => apply wp_gets
  | |- wp (tx_modify _) _ _ => apply wp_modify
  | |- wp (tx_raise _) _ _ => apply wp_raise
  | |- wp (tx_lift _) _ _ => apply wp_lift; intros ? ?
  | |- wp (tx_reject _ _) _ _ => apply wp_reject; intros ?
  | |- wp (if ?b then _ else _) _ _ => destruct b eqn:?
  | |- wp (match ?x with _ => _ end) _ _ => destruct x eqn:?
  end.
Ltac wp_steps := repeat (wp_step; cbv beta).

(** * Record updates *)

(** [Eta R] exposes the constructor of [R] applied to its projections;
    from it, the update of one field is derived on demand. *)
Class Eta (R : Type) : Type := eta_of : R → R.
Class Updater {R T : Type} (proj : R → T) : Type := update_field : (T → T) → R → R.
Arguments update_field {R T} proj {_} f r.

Ltac derive_updater R proj :=
  let inst := constr:(_ : Eta R) in
  let body := eval red in inst in
  match eval pattern proj in body with
  | ?g _ => let t := eval cbv beta in (λ f, g (λ r, f (proj r))) in exact t
  end.
#[global] Hint Extern 1 (@Updater ?R _ ?proj) => derive_updater R proj : typeclass_instances.

Notation "r <| proj := v |>" := (update_field proj (λ _, v) r)
  (at level 1, left associativity, v at level 99, format "r  <| proj  :=  v |>") : journal_scope.
Notation "r <| proj ::= f |>" := (update_field proj f r)
  (at level 1, left associativity, f at level 99, format "r  <| proj  ::=  f |>") : journal_scope.
#[global] Open Scope journal_scope.

(** * Orders: the comparators behind SQL's [ORDER BY] *)

Class Cmp (A : Type) : Type := cmp : A → A → comparison.
Class CmpLaws (A : Type) `{!Cmp A} : Prop := {
  cmp_eq (x y : A) : cmp x y = Eq ↔ x = y;
  cmp_flip (x y : A) : cmp y x = CompOpp (cmp x y);
  cmp_lt_trans (x y z : A) : cmp x y = Lt → cmp y z = Lt → cmp x z = Lt;
}.

#[export] Instance Z_cmp : Cmp Z := Z.compare.
#[export] Instance string_cmp : Cmp string := String.compare.
(** Lexicographic: [ORDER BY a, b]. *)
#[export] Instance prod_cmp `{Cmp A, Cmp B} : Cmp (A * B) := λ x y,
  match cmp x.1 y.1 with Eq => cmp x.2 y.2 | c => c end.

#[export] Instance Z_cmp_laws : CmpLaws Z.
Proof.
  split; unfold cmp, Z_cmp.
  - apply Z.compare_eq_iff.
  - intros. apply Z.compare_antisym.
  - intros x y z. rewrite !Z.compare_lt_iff. lia.
Qed.

Lemma string_compare_lt_trans (x y z : string) :
  String.compare x y = Lt → String.compare y z = Lt → String.compare x z = Lt.
Proof.
  revert y z. induction x as [|a x IH]; intros [|b y] [|c z]; simpl; try done.
  unfold Ascii.compare.
  destruct (N.compare_spec (Ascii.N_of_ascii a) (Ascii.N_of_ascii b)) as [E1|E1|E1];
  destruct (N.compare_spec (Ascii.N_of_ascii b) (Ascii.N_of_ascii c)) as [E2|E2|E2];
  destruct (N.compare_spec (Ascii.N_of_ascii a) (Ascii.N_of_ascii c)) as [E3|E3|E3];
  intros; try done; try lia; eauto.
Qed.

Lemma string_compare_refl (x : string) : String.compare x x = Eq.
Proof. induction x as [|a x IH]; simpl; [done|]. unfold Ascii.compare. by rewrite N.compare_refl. Qed.

#[export] Instance string_cmp_laws : CmpLaws string.
Proof.
  split; unfold cmp, string_cmp; intros.
  - split; [apply String.compare_eq_iff|]. intros ->. apply string_compare_refl.
  - apply String.compare_antisym.
  - by eapply string_compare_lt_trans.
Qed.

Section prod_cmp.
Context `{CmpLaws A, CmpLaws B}.
Lemma cmp_refl (x : A) : cmp x x = Eq.
Proof. by apply cmp_eq. Qed.
#[export] Instance prod_cmp_laws : CmpLaws (A * B).
Proof.
  split.
  - intros [x1 x2] [y1 y2]. unfold cmp, prod_cmp; simpl.
    destruct (cmp x1 y1) eqn:E; split; intros Heq; simplify_eq; try done.
    + apply cmp_eq in E as ->. apply cmp_eq in Heq as ->. done.
    + by apply cmp_eq.
    + by rewrite cmp_refl in E.
    + by rewrite cmp_refl in E.
  - intros [x1 x2] [y1 y2]. unfold cmp, prod_cmp; simpl.
    rewrite (cmp_flip x1 y1), (cmp_flip x2 y2). by destruct (cmp x1 y1).
  - intros [x1 x2] [y1 y2] [z1 z2]. unfold cmp, prod_cmp; simpl.
    destruct (cmp x1 y1) eqn:E1, (cmp y1 z1) eqn:E2; intros; try done.
    + apply cmp_eq in E1 as ->. apply cmp_eq in E2 as ->.
      rewrite cmp_refl. by eapply cmp_lt_trans.
    + apply cmp_eq in E1 as ->. by rewrite E2.
    + apply cmp_eq in E2 as ->. by rewrite E1.
    + by rewrite (cmp_lt_trans _ _ _ E1 E2).
Qed.
End prod_cmp.

Definition cmp_le {A} `{Cmp A} (x y : A) : Prop := cmp x y ≠ Gt.
#[export] Instance cmp_le_dec {A} `{Cmp A} : RelDecision (cmp_le (A:=A)).
Proof. intros x y. unfold cmp_le. apply _. Defined.

Section cmp_le.
Context `{CmpLaws A}.
#[export] Instance cmp_le_total : Total (cmp_le (A:=A)).
Proof. intros x y. unfold cmp_le. rewrite (cmp_flip x y). by destruct (cmp x y); auto. Qed.
#[export] Instance cmp_le_trans : Transitive (cmp_le (A:=A)).
Proof.
  intros x y z. unfold cmp_le. intros H1 H2 H3.
  destruct (cmp x y) eqn:E1; [|..|done].
  - apply cmp_eq in E1 as ->. done.
  - destruct (cmp y z) eqn:E2; [|..|done].
    + apply cmp_eq in E2 as ->. congruence.
    + pose proof (cmp_lt_trans _ _ _ E1 E2). congruence.
Qed.
#[export] Instance cmp_le_antisym : AntiSymm (=) (cmp_le (A:=A)).
Proof.
  intros x y. unfold cmp_le. rewrite (cmp_flip x y).
  destruct (cmp x y) eqn:E; simpl; intros; try done. by apply cmp_eq.
Qed.
End cmp_le.

(** [SELECT ... ORDER BY key]; [LIMIT 1] is [head] of it.  A stable insertion
    sort, so that it computes without carrying decision proofs. *)
Definition cmp_leb {A} `{Cmp A} (x y : A) : bool := match cmp x y with Gt => false | _ => true end.
Definition by_key {A K} `{Cmp K} (key : A → K) : relation A := λ x y, cmp_le (key x) (key y).

Section order_by_def.
Context {A K : Type} `{Cmp K} (key : A → K).
Fixpoint insert_by (x : A) (l : list A) : list A :=
  match l with
  | [] => [x]
  | y :: l' => if cmp_leb (key x) (key y) then x :: l else y :: insert_by x l'
  end.
Definition order_by (l : list A) : list A := foldr insert_by [] l.
End order_by_def.

Lemma cmp_leb_le {A} `{Cmp A} (x y : A) : cmp_leb x y = true ↔ cmp_le x y.
Proof. unfold cmp_leb, cmp_le. by destruct (cmp x y). Qed.

Section order_by.
Context `{CmpLaws K} {A : Type} (key : A → K).
#[local] Instance by_key_trans : Transitive (by_key key).
Proof. intros x y z. apply (transitivity (R:=cmp_le)). Qed.

Lemma insert_by_perm x l : insert_by key x l ≡ₚ x :: l.
Proof.
  induction l as [|y l IH]; simpl; [done|]. destruct (cmp_leb _ _); [done|].
  rewrite IH. constructor.
Qed.
Lemma insert_by_sorted x l :
  StronglySorted (by_key key) l → StronglySorted (by_key key) (insert_by key x l).
Proof.
  induction 1 as [|y l Hs IH Hy]; simpl; [repeat constructor|].
  destruct (cmp_leb (key x) (key y)) eqn:E.
  - apply cmp_leb_le in E. constructor; [by constructor|]. constructor; [done|].
    eapply Forall_impl; [exact Hy|]. intros z Hz. by eapply by_key_trans.
  - constructor; [done|]. rewrite insert_by_perm. constructor; [|done].
    destruct (total cmp_le (key x) (key y)) as [Hle|Hle]; [|done].
    apply cmp_leb_le in Hle. congruence.
Qed.
Lemma order_by_perm l : order_by key l ≡ₚ l.
Proof. unfold order_by. induction l as [|x l IH]; simpl; [done|]. by rewrite insert_by_perm, IH. Qed.
Lemma elem_of_order_by x l : x ∈ order_by key l ↔ x ∈ l.
Proof. by rewrite order_by_perm. Qed.
Lemma order_by_strongly_sorted l : StronglySorted (by_key key) (order_by key l).
Proof. unfold order_by. induction l; simpl; [constructor|]. by apply insert_by_sorted. Qed.
Lemma order_by_sorted l : Sorted (by_key key) (order_by key l).
Proof. apply StronglySorted_Sorted, order_by_strongly_sorted. Qed.
(** [ORDER BY key LIMIT 1] picks a row of the result with the least key. *)
Lemma head_order_by l x :
  head (order_by key l) = Some x → x ∈ l ∧ ∀ y, y ∈ l → cmp_le (key x) (key y).
Proof.
  intros Hx. pose proof (order_by_strongly_sorted l) as Hs.
  assert (∀ y, y ∈ l ↔ y ∈ order_by key l) as Hin by (intros; by rewrite elem_of_order_by).
  destruct (order_by key l) as [|x' l']; simplify_eq/=. split; [apply Hin; left|].
  intros y [->|Hy]%Hin%elem_of_cons.
  - unfold cmp_le. by rewrite cmp_refl.
  - inversion Hs as [|?? _ Hall]; subst.
    rewrite Forall_forall in Hall. by apply Hall.
Qed.
Lemma head_order_by_None l : head (order_by key l) = None ↔ l = [].
Proof.
  pose proof (order_by_perm l) as Hp. destruct (order_by key l); simpl.
  - split; [|done]. intros _. by apply Permutation_nil_l in Hp.
  - split; [done|]. intros ->. by apply Permutation_nil_r in Hp.
Qed.
End order_by.

(** Sorting is insensitive to the order in which a table yields its rows. *)
Lemma order_by_id_perm `{CmpLaws K} (l1 l2 : list K) :
  l1 ≡ₚ l2 → order_by id l1 = order_by id l2.
Proof.
  intros Hp.
  assert (Transitive (by_key (A:=K) id)) by (intros x y z; apply (transitivity (R:=cmp_le))).
  assert (AntiSymm (=) (by_key (A:=K) id)) by (intros x y; apply (anti_symm cmp_le)).
  apply (Sorted_unique (by_key (A:=K) id)).
  - apply order_by_sorted.
  - apply order_by_sorted.
  - by rewrite !order_by_perm.
Qed.

(** * Aggregates over a table: [SUM] and [COUNT] with a [WHERE] *)

Section sumM.
Context `{Countable K} {V : Type}.
Implicit Types (m : gmap K V) (f : V → Z).

(** [SELECT COALESCE(SUM(f), 0) FROM m] *)
Definition sumM (f : V → Z) (m : gmap K V) : Z := map_fold (λ _ v acc, f v + acc)%Z 0%Z m.

Lemma sumM_empty f : sumM f ∅ = 0%Z.
Proof. apply map_fold_empty. Qed.
Lemma sumM_insert_fresh f m k v : m !! k = None → sumM f (<[k:=v]> m) = (f v + sumM f m)%Z.
Proof. intros. unfold sumM. rewrite map_fold_insert_L; [done|lia|done]. Qed.
Lemma sumM_insert f m k v v0 :
  m !! k = Some v0 → sumM f (<[k:=v]> m) = (sumM f m - f v0 + f v)%Z.
Proof.
  intros Hk. rewrite <- (insert_delete_id m k v0 Hk) at 2.
  rewrite <- insert_delete_eq. rewrite !sumM_insert_fresh by apply lookup_delete_eq. lia.
Qed.
Lemma sumM_ext f g m : (∀ k v, m !! k = Some v → f v = g v) → sumM f m = sumM g m.
Proof.
  induction m as [|k v m Hk IH] using map_ind; intros Hfg; [done|].
  rewrite !sumM_insert_fresh by done. rewrite (Hfg k v) by apply lookup_insert_eq.
  rewrite IH; [done|]. intros k' v' Hk'. apply (Hfg k'). rewrite lookup_insert_ne; congruence.
Qed.
Lemma sumM_le f g m : (∀ k v, m !! k = Some v → f v ≤ g v)%Z → (sumM f m ≤ sumM g m)%Z.
Proof.
  induction m as [|k v m Hk IH] using map_ind; intros Hfg; [done|].
  rewrite !sumM_insert_fresh by done.
  pose proof (Hfg k v (lookup_insert_eq _ _ _)).
  enough (sumM f m ≤ sumM g m)%Z by lia. apply IH. intros k' v' Hk'.
  apply (Hfg k'). rewrite lookup_insert_ne; congruence.
Qed.
Lemma sumM_const0 m : sumM (λ _, 0%Z) m = 0%Z.
Proof.
  induction m as [|k v m Hk IH] using map_ind; [done|]. rewrite sumM_insert_fresh by done. lia.
Qed.
Lemma sumM_nonneg f m : (∀ k v, m !! k = Some v → 0 ≤ f v)%Z → (0 ≤ sumM f m)%Z.
Proof. intros. rewrite <- (sumM_const0 m). by apply sumM_le. Qed.
Lemma sumM_add f g m : sumM (λ v, f v + g v)%Z m = (sumM f m + sumM g m)%Z.
Proof.
  induction m as [|k v m Hk IH] using map_ind; [done|]. rewrite !sumM_insert_fresh by done. lia.
Qed.
(** A sum of non-negative terms is zero only if every term is. *)
Lemma sumM_zero f m k v :
  (∀ k v, m !! k = Some v → 0 ≤ f v)%Z → sumM f m = 0%Z → m !! k = Some v → f v = 0%Z.
Proof.
  intros Hpos Hsum Hk. pose proof (Hpos k v Hk).
  rewrite <- (insert_delete_id m k v Hk), sumM_insert_fresh in Hsum by apply lookup_delete_eq.
  assert (0 ≤ sumM f (delete k m))%Z; [|lia].
  apply sumM_nonneg. intros k' v' [_ Hk']%lookup_delete_Some. by eapply Hpos.
Qed.
Lemma sumM_filter f (P : K * V → Prop) `{∀ x, Decision (P x)} m :
  (∀ k v, m !! k = Some v → ¬ P (k, v) → f v = 0%Z) → sumM f (filter P m) = sumM f m.
Proof.
  induction m as [|k v m Hk IH] using map_ind; intros Hf; [done|].
  assert (sumM f (filter P m) = sumM f m) as IH'.
  { apply IH. intros k' v' Hk'. apply Hf. rewrite lookup_insert_ne; congruence. }
  rewrite map_filter_insert. case_decide as HP.
  - rewrite !sumM_insert_fresh; [by rewrite IH'|done|]. by apply map_lookup_filter_None_2; left.
  - rewrite sumM_insert_fresh by done. rewrite delete_id by done.
    rewrite (Hf k v) by (done || apply lookup_insert_eq). lia.
Qed.
(** [SELECT COUNT] with a [WHERE P]. *)
Definition countM (P : V → bool) (m : gmap K V) : Z := sumM (λ v, Z.b2z (P v)) m.

Lemma countM_nonneg P m : (0 ≤ countM P m)%Z.
Proof. apply sumM_nonneg. intros. destruct (P v); simpl; lia. Qed.
Lemma countM_zero P m k v : countM P m = 0%Z → m !! k = Some v → P v = false.
Proof.
  intros Hc Hk. eapply (sumM_zero (λ v, Z.b2z (P v))) in Hc; [|clear; intros ? ? _|done].
  - by destruct (P v).
  - destruct (P _); simpl; lia.
Qed.
Lemma countM_false P m : (∀ k v, m !! k = Some v → P v = false) → countM P m = 0%Z.
Proof.
  intros HP. unfold countM. rewrite <- (sumM_const0 m). apply sumM_ext.
  intros k v Hk. by rewrite (HP k v Hk).
Qed.
Lemma countM_eq_sub P Q m k v :
  (∀ v, P v = true → Q v = true) → countM P m = countM Q m → m !! k = Some v → Q v = true → P v = true.
Proof.
  intros HPQ Heq Hk HQ. destruct (P v) eqn:HP; [done|exfalso].
  rewrite <- (insert_delete_id m k v Hk) in Heq. unfold countM in Heq.
  rewrite !sumM_insert_fresh in Heq by apply lookup_delete_eq. rewrite HP, HQ in Heq; simpl in Heq.
  enough (sumM (λ v, Z.b2z (P v)) (delete k m) ≤ sumM (λ v, Z.b2z (Q v)) (delete k m))%Z by lia.
  apply sumM_le. intros k' v' _. destruct (P v') eqn:HP'; [by rewrite (HPQ _ HP')|].
  destruct (Q v'); simpl; lia.
Qed.
End sumM.

Lemma sumM_fmap `{Countable K} {V W} (g : W → V) (f : V → Z) (m : gmap K W) :
  sumM f (g <$> m) = sumM (λ w, f (g w)) m.
Proof.
  induction m as [|k v m Hk IH] using map_ind; [done|].
  rewrite fmap_insert, !sumM_insert_fresh by (done || by rewrite lookup_fmap, Hk).
  by rewrite IH.
Qed.

(** * Python string methods

    A [str] is modelled by its UTF-8 bytes.  [casefold], [strip] and
    [isalnum] act on the ASCII range. *)

Definition is_space (c : ascii) : bool :=
  let n := Ascii.nat_of_ascii c in
  (n =? 32)%nat || ((9 <=? n)%nat && (n <=? 13)%nat) || ((28 <=? n)%nat && (n <=? 31)%nat).
Fixpoint lstrip (s : string) : string :=
  match s with
  | String c s' => if is_space c then lstrip s' else s
  | EmptyString => EmptyString
  end.
Fixpoint rstrip (s : string) : string :=
  match s with
  | EmptyString => EmptyString
  | String c s' =>
      match rstrip s' with
      | EmptyString => if is_space c then EmptyString else String c EmptyString
      | r => String c r
      end
  end.
Definition strip (s : string) : string := rstrip (lstrip s).

Definition lower_ascii (c : ascii) : ascii :=
  let n := Ascii.nat_of_ascii c in
  if (65 <=? n)%nat && (n <=? 90)%nat then Ascii.ascii_of_nat (n + 32) else c.
Fixpoint casefold (s : string) : string :=
  match s with
  | EmptyString => EmptyString
  | String c s' => String (lower_ascii c) (casefold s')
  end.

Definition startswith (p s : string) : bool := String.prefix p s.
(** [s.endswith(p)] *)
Definition endswith (p s : string) : bool :=
  let n := String.length s in let k := String.length p in
  (k <=? n)%nat && String.eqb (String.substring (n - k) k s) p.

(** [not s] for a string. *)
Definition is_empty (s : string) : bool := String.eqb s "".
Definition in_list (s : string) (l : list string) : bool := existsb (String.eqb s) l.

(** [tuple(sorted(set(xs)))] *)
Definition sorted_set (xs : list string) : list string := order_by id (remove_dups xs).

Lemma elem_of_sorted_set x xs : x ∈ sorted_set xs ↔ x ∈ xs.
Proof. unfold sorted_set. by rewrite elem_of_order_by, elem_of_remove_dups. Qed.
Lemma NoDup_sorted_set xs : NoDup (sorted_set xs).
Proof. unfold sorted_set. rewrite order_by_perm. apply NoDup_remove_dups. Qed.
Lemma sorted_set_idemp xs : sorted_set (sorted_set xs) = sorted_set xs.
Proof.
  unfold sorted_set at 1 3. apply order_by_id_perm. apply NoDup_Permutation.
  - apply NoDup_remove_dups.
  - apply NoDup_remove_dups.
  - intros x. rewrite !elem_of_remove_dups, elem_of_sorted_set. done.
Qed.

Lemma Forall2_right {A B} (R : A → B → Prop) l k y : Forall2 R l k → y ∈ k → ∃ x, (x ∈ l) ∧ R x y.
Proof.
  induction 1 as [|x z l k Hxz _ IH]; [by intros ?%elem_of_nil|]. intros [->|Hy]%elem_of_cons.
  - exists x. split; [apply elem_of_cons; by left|done].
  - destruct (IH Hy) as (x' & Hx & Hr). exists x'. split; [apply elem_of_cons; by right|done].
Qed.
Lemma Forall2_left {A B} (R : A → B → Prop) l k x : Forall2 R l k → x ∈ l → ∃ y, (y ∈ k) ∧ R x y.
Proof. intros Hf Hx. apply Forall2_flip in Hf. by destruct (Forall2_right _ _ _ _ Hf Hx) as (y & ? & ?); exists y. Qed.
Lemma in_list_elem x l : in_list x l = true ↔ x ∈ l.
Proof.
  unfold in_list. rewrite existsb_exists. split.
  - intros (y & Hy & ->%String.eqb_eq). by apply list_elem_of_In.
  - intros Hx. exists x. split; [by apply list_elem_of_In|apply String.eqb_refl].
Qed.

Lemma lower_ascii_idemp c : lower_ascii (lower_ascii c) = lower_ascii c.
Proof. by destruct c as [[] [] [] [] [] [] [] []]. Qed.
Lemma casefold_idemp s : casefold (casefold s) = casefold s.
Proof. induction s as [|c s IH]; simpl; [done|]. by rewrite lower_ascii_idemp, IH. Qed.
(** [str.strip], once and folded. *)
Lemma rstrip_idemp s : rstrip (rstrip s) = rstrip s.
Proof.
  induction s as [|c s IH]; [done|]. cbn. destruct (rstrip s) as [|d r] eqn:E.
  - destruct (is_space c) eqn:Ec; [done|]. cbn. by rewrite Ec.
  - cbn [rstrip] in *. by rewrite IH.
Qed.
Lemma lstrip_head s : lstrip s = "" ∨ ∃ c r, lstrip s = String c r ∧ is_space c = false.
Proof. induction s as [|c s IH]; [by left|]. cbn. destruct (is_space c) eqn:E; [done|]. right. by exists c, s. Qed.
Lemma strip_idemp s : strip (strip s) = strip s.
Proof.
  unfold strip. destruct (lstrip_head s) as [->|(c & r & -> & Hc)]; [done|].
  assert (lstrip (rstrip (String c r)) = rstrip (String c r)) as ->; [|apply rstrip_idemp].
  cbn [rstrip]. destruct (rstrip r); [rewrite Hc|]; cbn [lstrip]; by rewrite Hc.
Qed.
Lemma space_lower c : is_space (lower_ascii c) = is_space c.
Proof. revert c. intros [[] [] [] [] [] [] [] []]; reflexivity. Qed.
Lemma strip_casefold s : strip (casefold s) = casefold (strip s).
Proof.
  assert (∀ s, lstrip (casefold s) = casefold (lstrip s)) as Hl.
  { clear. induction s as [|c s IH]; [done|]. cbn. rewrite space_lower. by destruct (is_space c). }
  assert (∀ s, rstrip (casefold s) = casefold (rstrip s)) as Hr.
  { clear. induction s as [|c s IH]; [done|]. cbn. rewrite IH, space_lower.
    destruct (rstrip s); [by destruct (is_space c)|done]. }
  unfold strip. by rewrite Hl, Hr.
Qed.

(** * Automation shared by the components *)

Create HintDb journal.
Create Rewrite HintDb journal.
#[export] Hint Resolve elem_of_sorted_set NoDup_sorted_set countM_nonneg : journal.
#[export] Hint Rewrite @lookup_insert_eq @fmap_empty sorted_set_idemp : journal.

(** Split every hypothesis of the shape [(a && b) = true] or [(a || b) = false]. *)
Ltac bool_hyps :=
  repeat match goal with
  | H : _ && _ = true |- _ => apply andb_true_iff in H as [? ?]
  | H : _ || _ = false |- _ => apply orb_false_iff in H as [? ?]
  | H : negb _ = true |- _ => apply negb_true_iff in H
  | H : negb _ = false |- _ => apply negb_false_iff in H
  | H : bool_decide _ = true |- _ => apply bool_decide_eq_true in H
  | H : bool_decide _ = false |- _ => apply bool_decide_eq_false in H
  | H : String.eqb _ _ = true |- _ => apply String.eqb_eq in H
  | H : String.eqb _ _ = false |- _ => apply String.eqb_neq in H
  | H : (_ =? _)%Z = true |- _ => apply Z.eqb_eq in H
  | H : (_ =? _)%Z = false |- _ => apply Z.eqb_neq in H
  | H : (_ <=? _)%Z = true |- _ => apply Z.leb_le in H
  | H : (_ <=? _)%Z = false |- _ => apply Z.leb_gt in H
  | H : (_ <? _)%Z = true |- _ => apply Z.ltb_lt in H
  | H : (_ <? _)%Z = false |- _ => apply Z.ltb_ge in H
  end.
