(* ===== verification/Json.v ===== *)
(** JSON values as the graph-write journal persists them: the canonical
    encoder of [code-tiny/tools/graph/journal/identity.py] ([canonical_json],
    i.e. [json.dumps] with sorted keys, no spaces, [ensure_ascii=False]) and
    the decoder [json.loads] restricted to the texts that encoder writes. *)
From S2P Require Import Prelude.
From Stdlib Require Import DecimalString DecimalZ DecimalPos.

#[local] Set Warnings "-register-all".

(** A JSON-serialisable Python value.  A float is kept as its [repr]; the
    non-finite floats, which [allow_nan=False] refuses, are no values here. *)
Inductive json : Type :=
  | JNull
  | JBool (b : bool)
  | JInt (z : Z)
  | JFloat (repr : string)
  | JStr (s : string)
  | JArr (l : list json)
  | JObj (l : list (string * json)).

(** The induction principle that reaches the elements of arrays and objects. *)
Section json_induction.
Context (P : json → Prop).
Hypothesis Hnull : P JNull.
Hypothesis Hbool : ∀ b, P (JBool b).
Hypothesis Hint : ∀ z, P (JInt z).
Hypothesis Hfloat : ∀ r, P (JFloat r).
Hypothesis Hstr : ∀ s, P (JStr s).
Hypothesis Harr : ∀ l, Forall P l → P (JArr l).
Hypothesis Hobj : ∀ l, Forall (λ kv, P kv.2) l → P (JObj l).
Fixpoint json_ind' (v : json) : P v :=
  match v with
  | JNull => Hnull
  | JBool b => Hbool b
  | JInt z => Hint z
  | JFloat r => Hfloat r
  | JStr s => Hstr s
  | JArr l => Harr l ((fix go l := match l return Forall P l with
      | [] => Forall_nil_2 _ | x :: l => Forall_cons_2 _ _ _ (json_ind' x) (go l) end) l)
  | JObj l => Hobj l ((fix go l := match l return Forall (λ kv, P kv.2) l with
      | [] => Forall_nil_2 _ | kv :: l => Forall_cons_2 _ kv _ (json_ind' kv.2) (go l) end) l)
  end.
End json_induction.

#[export] Instance json_eq_dec : EqDecision json.
Proof.
  refine (fix go (v w : json) : Decision (v = w) :=
    match v, w with
    | JNull, JNull => left eq_refl
    | JBool a, JBool b => cast_if (decide (a = b))
    | JInt a, JInt b => cast_if (decide (a = b))
    | JFloat a, JFloat b => cast_if (decide (a = b))
    | JStr a, JStr b => cast_if (decide (a = b))
    | JArr a, JArr b => cast_if (@decide (a = b) (@list_eq_dec _ go a b))
    | JObj a, JObj b => cast_if (@decide (a = b)
        (@list_eq_dec _ (@prod_eq_dec _ _ _ go) a b))
    | _, _ => right _
    end); congruence.
Defined.

Notation "s +:+ t" := (String.append s t) (at level 60, right associativity) : journal_scope.

(** * The encoder *)

(** The six short escapes of [json.encoder.ESCAPE_DCT], [\uXXXX] for the other
    control characters, everything else verbatim. *)
Definition hex_digit (n : nat) : ascii :=
  Ascii.ascii_of_nat (if (n <? 10)%nat then 48 + n else 87 + n).
Definition escape_char (c : ascii) : string :=
  let n := Ascii.nat_of_ascii c in
  if (n =? 34)%nat then "\" +:+ String c EmptyString
  else if (n =? 92)%nat then "\\"
  else if (n =? 8)%nat then "\b"
  else if (n =? 9)%nat then "\t"
  else if (n =? 10)%nat then "\n"
  else if (n =? 12)%nat then "\f"
  else if (n =? 13)%nat then "\r"
  else if (n <? 32)%nat then "\u00" +:+ String (hex_digit (n / 16)) (String (hex_digit (n mod 16)) EmptyString)
  else String c EmptyString.
Definition quote_char : ascii := Ascii.ascii_of_nat 34.
Fixpoint escape (s : string) : string :=
  match s with
  | EmptyString => EmptyString
  | String c s' => escape_char c +:+ escape s'
  end.
Definition print_string (s : string) : string :=
  String quote_char (escape s +:+ String quote_char EmptyString).

(** [str(int)] *)
Definition print_int (z : Z) : string := NilZero.string_of_int (Z.to_int z).

(** [sort_keys=True] *)
Fixpoint sort_keys (v : json) : json :=
  match v with
  | JArr l => JArr (map sort_keys l)
  | JObj l => JObj (order_by fst (map (λ kv, (kv.1, sort_keys kv.2)) l))
  | _ => v
  end.

(** [separators=(",", ":")] *)
Fixpoint join (sep : string) (l : list string) : string :=
  match l with
  | [] => ""
  | [s] => s
  | s :: l => s +:+ sep +:+ join sep l
  end.
Fixpoint print (v : json) : string :=
  match v with
  | JNull => "null"
  | JBool true => "true"
  | JBool false => "false"
  | JInt z => print_int z
  | JFloat r => r
  | JStr s => print_string s
  | JArr l => "[" +:+ join "," (map print l) +:+ "]"
  | JObj l => "{" +:+ join "," (map (λ kv, print_string kv.1 +:+ ":" +:+ print kv.2) l) +:+ "}"
  end.

(** [canonical_json(value)] *)
Definition canonical_json (v : json) : string := print (sort_keys v).

(** Object access: [row.get(key)] and [row[key]]. *)
Fixpoint assoc {A} (k : string) (l : list (string * A)) : option A :=
  match l with
  | [] => None
  | (k', a) :: l => if String.eqb k k' then Some a else assoc k l
  end.

(** * The decoder *)

Definition is_num_char (c : ascii) : bool :=
  let n := Ascii.nat_of_ascii c in
  ((48 <=? n) && (n <=? 57))%nat || (n =? 43)%nat || (n =? 45)%nat || (n =? 46)%nat
  || (n =? 101)%nat || (n =? 69)%nat.
Definition is_int_char (c : ascii) : bool :=
  let n := Ascii.nat_of_ascii c in ((48 <=? n) && (n <=? 57))%nat || (n =? 45)%nat.
Fixpoint all_chars (p : ascii → bool) (s : string) : bool :=
  match s with EmptyString => true | String c s => p c && all_chars p s end.
Fixpoint span (p : ascii → bool) (s : string) : string * string :=
  match s with
  | EmptyString => (EmptyString, EmptyString)
  | String c s' => if p c then let '(a, b) := span p s' in (String c a, b) else (EmptyString, s)
  end.

Definition unhex (c : ascii) : option nat :=
  let n := Ascii.nat_of_ascii c in
  if ((48 <=? n) && (n <=? 57))%nat then Some (n - 48)%nat
  else if ((97 <=? n) && (n <=? 102))%nat then Some (n - 87)%nat
  else None.

(** Reads the body of a string literal up to its closing quote. *)
Fixpoint parse_string (s : string) : option (string * string) :=
  match s with
  | EmptyString => None
  | String c s1 =>
      let n := Ascii.nat_of_ascii c in
      let put c' rest := match parse_string rest with
                         | Some (t, r) => Some (String c' t, r) | None => None end in
      if (n =? 34)%nat then Some (EmptyString, s1)
      else if (n =? 92)%nat then
        match s1 with
        | String e s2 =>
            let m := Ascii.nat_of_ascii e in
            if (m =? 34)%nat then put e s2
            else if (m =? 92)%nat then put e s2
            else if (m =? 98)%nat then put (Ascii.ascii_of_nat 8) s2
            else if (m =? 116)%nat then put (Ascii.ascii_of_nat 9) s2
            else if (m =? 110)%nat then put (Ascii.ascii_of_nat 10) s2
            else if (m =? 102)%nat then put (Ascii.ascii_of_nat 12) s2
            else if (m =? 114)%nat then put (Ascii.ascii_of_nat 13) s2
            else if (m =? 117)%nat then
              match s2 with
              | String z1 (String z2 (String h (String l s3))) =>
                  match unhex z1, unhex z2, unhex h, unhex l with
                  | Some 0%nat, Some 0%nat, Some h, Some l =>
                      if (h <? 8)%nat then put (Ascii.ascii_of_nat (h * 16 + l)) s3 else None
                  | _, _, _, _ => None
                  end
              | _ => None
              end
            else None
        | EmptyString => None
        end
      else if (n <? 32)%nat then None
      else put c s1
  end.

(** A number token: an integer when it has only digits and a sign. *)
Definition parse_number (tok : string) : option json :=
  if all_chars is_int_char tok
  then match NilZero.int_of_string tok with Some d => Some (JInt (Z.of_int d)) | None => None end
  else Some (JFloat tok).

Definition strip_prefix (p s : string) : option string :=
  if String.prefix p s then Some (String.substring (String.length p) (String.length s - String.length p) s)
  else None.

Fixpoint parse_value (fuel : nat) (s : string) {struct fuel} : option (json * string) :=
  match fuel with
  | O => None
  | S n =>
      match s with
      | EmptyString => None
      | String c s1 =>
          if Ascii.eqb c "{" then
            match s1 with
            | String d s2 => if Ascii.eqb d "}" then Some (JObj [], s2)
                             else '(l, r) ← parse_members n s1; Some (JObj l, r)
            | EmptyString => None
            end
          else if Ascii.eqb c "[" then
            match s1 with
            | String d s2 => if Ascii.eqb d "]" then Some (JArr [], s2)
                             else '(l, r) ← parse_elems n s1; Some (JArr l, r)
            | EmptyString => None
            end
          else if Ascii.eqb c quote_char then '(t, r) ← parse_string s1; Some (JStr t, r)
          else if Ascii.eqb c "n" then r ← strip_prefix "null" s; Some (JNull, r)
          else if Ascii.eqb c "t" then r ← strip_prefix "true" s; Some (JBool true, r)
          else if Ascii.eqb c "f" then r ← strip_prefix "false" s; Some (JBool false, r)
          else let '(tok, r) := span is_num_char s in v ← parse_number tok; Some (v, r)
      end
  end
with parse_elems (fuel : nat) (s : string) {struct fuel} : option (list json * string) :=
  match fuel with
  | O => None
  | S n =>
      '(v, r) ← parse_value n s;
      match r with
      | String c r' =>
          if Ascii.eqb c "," then '(l, r'') ← parse_elems n r'; Some (v :: l, r'')
          else if Ascii.eqb c "]" then Some ([v], r')
          else None
      | EmptyString => None
      end
  end
with parse_members (fuel : nat) (s : string) {struct fuel} : option (list (string * json) * string) :=
  match fuel with
  | O => None
  | S n =>
      match s with
      | String q s1 =>
          if Ascii.eqb q quote_char then
            '(k, r0) ← parse_string s1;
            match r0 with
            | String d r1 =>
                if Ascii.eqb d ":" then
                  '(v, r) ← parse_value n r1;
                  match r with
                  | String c r' =>
                      if Ascii.eqb c "," then '(l, r'') ← parse_members n r'; Some ((k, v) :: l, r'')
                      else if Ascii.eqb c "}" then Some ([(k, v)], r')
                      else None
                  | EmptyString => None
                  end
                else None
            | EmptyString => None
            end
          else None
      | EmptyString => None
      end
  end.

(** [json.loads(text)] on the texts [canonical_json] produces. *)
Definition loads (s : string) : option json :=
  match parse_value (S (String.length s)) s with
  | Some (v, EmptyString) => Some v
  | _ => None
  end.

(** * Well-formed values *)

(** The [repr] of a finite float is a number token that is not an integer. *)
Definition float_token (r : string) : bool := all_chars is_num_char r && negb (all_chars is_int_char r).
Fixpoint json_wf (v : json) : bool :=
  match v with
  | JFloat r => float_token r
  | JArr l => forallb json_wf l
  | JObj l => forallb (λ kv, json_wf kv.2) l
  | _ => true
  end.

(** The fuel one decoding needs. *)
Fixpoint jsize (v : json) : nat :=
  match v with
  | JArr l => S (list_sum (map (λ x, S (jsize x)) l))
  | JObj l => S (list_sum (map (λ kv, S (jsize kv.2)) l))
  | _ => 1
  end.

(** * Round trip *)

Lemma str_app_nil_l (a : string) : EmptyString +:+ a = a.
Proof. done. Qed.
Lemma str_app_cons c (a b : string) : String c a +:+ b = String c (a +:+ b).
Proof. done. Qed.
#[export] Hint Rewrite str_app_nil_l str_app_cons : journal.
Lemma str_app_assoc (a b c : string) : (a +:+ b) +:+ c = a +:+ (b +:+ c).
Proof. induction a as [|x a IH]; [done|]. rewrite !str_app_cons. by f_equal. Qed.
Lemma str_app_nil_r (a : string) : a +:+ EmptyString = a.
Proof. induction a as [|x a IH]; [done|]. rewrite !str_app_cons. by f_equal. Qed.
Lemma str_length_app (a b : string) :
  String.length (a +:+ b) = (String.length a + String.length b)%nat.
Proof. induction a as [|x a IH]; [done|]. rewrite str_app_cons; simpl. by f_equal. Qed.

Definition stops (p : ascii → bool) (s : string) : Prop :=
  match s with EmptyString => True | String c _ => p c = false end.

Lemma span_app p t rest : all_chars p t = true → stops p rest → span p (t +:+ rest) = (t, rest).
Proof.
  induction t as [|c t IH]; intros Ht Hr; simpl in *.
  - destruct rest as [|c r]; simpl in *; [done|]. by rewrite Hr.
  - apply andb_true_iff in Ht as [Hc Ht]. rewrite ?str_app_cons. simpl.
    rewrite Hc. by rewrite IH.
Qed.

Lemma parse_string_escape_char c s :
  parse_string (escape_char c +:+ s) =
  match parse_string s with Some (t, r) => Some (String c t, r) | None => None end.
Proof. destruct c as [[] [] [] [] [] [] [] []]; reflexivity. Qed.
Lemma parse_string_escape s rest :
  parse_string (escape s +:+ String quote_char rest) = Some (s, rest).
Proof.
  induction s as [|c s IH]; [done|]. simpl escape.
  by rewrite str_app_assoc, parse_string_escape_char, IH.
Qed.
Lemma parse_print_string s rest :
  parse_string (escape s +:+ String quote_char EmptyString +:+ rest) = Some (s, rest).
Proof. apply parse_string_escape. Qed.

Lemma uint_chars d : all_chars is_int_char (NilEmpty.string_of_uint d) = true.
Proof. by induction d. Qed.
Lemma print_int_chars z : all_chars is_int_char (print_int z) = true.
Proof.
  unfold print_int. destruct (Z.to_int z) as [d|d]; simpl;
    destruct d; simpl; try done; apply uint_chars.
Qed.
Lemma int_char_num_char c : is_int_char c = true → is_num_char c = true.
Proof. destruct c as [[] [] [] [] [] [] [] []]; done. Qed.
Lemma all_chars_impl (p q : ascii → bool) s :
  (∀ c, p c = true → q c = true) → all_chars p s = true → all_chars q s = true.
Proof.
  intros Hpq. induction s as [|c s IH]; simpl; [done|].
  intros [Hc Hs]%andb_true_iff. by rewrite (Hpq _ Hc), IH.
Qed.

Lemma Zto_int_not_nil z : Z.to_int z ≠ Decimal.Pos Decimal.Nil ∧ Z.to_int z ≠ Decimal.Neg Decimal.Nil.
Proof.
  destruct z as [|p|p]; simpl; [done|..]; pose proof (DecimalPos.Unsigned.to_uint_nonnil p);
    split; congruence.
Qed.
Lemma parse_print_int z : NilZero.int_of_string (print_int z) = Some (Z.to_int z).
Proof. destruct (Zto_int_not_nil z). by apply NilZero.isi. Qed.

Lemma strip_prefix_app p rest : strip_prefix p (p +:+ rest) = Some rest.
Proof.
  unfold strip_prefix.
  assert (String.prefix p (p +:+ rest) = true) as ->.
  { induction p as [|c p IH]; rewrite ?str_app_cons; simpl; [by destruct rest|].
    destruct (ascii_dec c c); done. }
  f_equal. rewrite str_length_app.
  replace (String.length p + String.length rest - String.length p)%nat with (String.length rest) by lia.
  induction p as [|c p IH]; rewrite ?str_app_cons, ?str_app_nil_l; simpl; [|done].
  induction rest as [|c rest IH]; simpl; [done|by rewrite IH].
Qed.

Lemma num_char_dispatch c :
  is_num_char c = true →
  Ascii.eqb c "{" = false ∧ Ascii.eqb c "[" = false ∧ Ascii.eqb c quote_char = false
  ∧ Ascii.eqb c "n" = false ∧ Ascii.eqb c "t" = false ∧ Ascii.eqb c "f" = false
  ∧ Ascii.eqb c "]" = false.
Proof. destruct c as [[] [] [] [] [] [] [] []]; done. Qed.

(** Reading a number token back. *)
Lemma parse_value_token n tok v rest :
  all_chars is_num_char tok = true → tok ≠ EmptyString → parse_number tok = Some v →
  stops is_num_char rest → parse_value (S n) (tok +:+ rest) = Some (v, rest).
Proof.
  intros Hc Hne Hv Hr. destruct tok as [|c tok]; [done|].
  pose proof Hc as [Hc0 _]%andb_true_iff.
  destruct (num_char_dispatch c Hc0) as (E1 & E2 & E3 & E4 & E5 & E6 & _).
  rewrite str_app_cons. cbn [parse_value]. rewrite E1, E2, E3, E4, E5, E6.
  rewrite <- str_app_cons, span_app by done. by rewrite Hv.
Qed.

Lemma join_cons2 sep a b l : join sep (a :: b :: l) = a +:+ sep +:+ join sep (b :: l).
Proof. done. Qed.

Definition parses_back (v : json) : Prop := ∀ fuel rest,
  (jsize v ≤ fuel)%nat → stops is_num_char rest → parse_value fuel (print v +:+ rest) = Some (v, rest).

Lemma parse_elems_print l : Forall parses_back l → l ≠ [] → ∀ fuel rest,
  (list_sum (map (λ x, S (jsize x)) l) ≤ fuel)%nat →
  parse_elems fuel (join "," (map print l) +:+ "]" +:+ rest) = Some (l, rest).
Proof.
  induction 1 as [|v l Hv Hl IH]; [done|]. intros _ fuel rest Hf.
  destruct fuel as [|n]; simpl in Hf; [lia|].
  destruct l as [|w l]; cbn [parse_elems].
  - cbn [map join]. rewrite Hv; [done|lia|done].
  - rewrite !map_cons, join_cons2, <- map_cons, !str_app_assoc, Hv; [|lia|done].
    cbn [mbind option_bind].
    rewrite str_app_cons, str_app_nil_l. cbn [Ascii.eqb Bool.eqb].
    rewrite (IH ltac:(done) n rest); [done|simpl in *; lia].
Qed.

Definition print_member (kv : string * json) : string := print_string kv.1 +:+ ":" +:+ print kv.2.

Lemma parse_members_print l : Forall (λ kv, parses_back kv.2) l → l ≠ [] → ∀ fuel rest,
  (list_sum (map (λ kv, S (jsize kv.2)) l) ≤ fuel)%nat →
  parse_members fuel (join "," (map print_member l) +:+ "}" +:+ rest) = Some (l, rest).
Proof.
  induction 1 as [|[k v] l Hv Hl IH]; [done|]. intros _ fuel rest Hf.
  destruct fuel as [|n]; simpl in Hf; [lia|]. simpl in Hv.
  destruct l as [|w l]; cbn [parse_members];
    [cbn [map join]|rewrite !map_cons, join_cons2, <- map_cons];
    unfold print_member at 1, print_string at 1; cbn [fst snd]; rewrite ?str_app_assoc, str_app_cons, ?str_app_assoc, parse_print_string;
    rewrite Ascii.eqb_refl; cbn [mbind option_bind];
    rewrite str_app_cons, str_app_nil_l; cbn [Ascii.eqb Bool.eqb];
    rewrite Hv by (done || lia).
  - done.
  - cbn [mbind option_bind]. rewrite ?str_app_assoc, str_app_cons, str_app_nil_l.
    cbn [Ascii.eqb Bool.eqb].
    rewrite (IH ltac:(done) n rest); [done|simpl in *; lia].
Qed.

Lemma print_first_not_close v rest : json_wf v = true →
  ∃ c s, print v +:+ rest = String c s ∧ Ascii.eqb c "]" = false.
Proof.
  destruct v as [|[]| z | r | s | l | l]; intros Hwf; simpl print;
    try (eexists _, _; split; [reflexivity|done]).
  - pose proof (print_int_chars z) as Hc. pose proof (parse_print_int z) as Hp.
    destruct (print_int z) as [|c s]; [discriminate Hp|]. apply andb_true_iff in Hc as [Hc _].
    eexists _, _. split; [reflexivity|].
    apply (num_char_dispatch c (int_char_num_char c Hc)).
  - apply andb_true_iff in Hwf as [Hc Hi]. destruct r as [|c s]; [discriminate Hi|].
    apply andb_true_iff in Hc as [Hc _]. eexists _, _. split; [reflexivity|].
    apply (num_char_dispatch c Hc).
Qed.

Lemma Forall_forallb_impl {A} (P : A → Prop) (p : A → bool) l :
  Forall (λ x, p x = true → P x) l → forallb p l = true → Forall P l.
Proof. induction 1; simpl; [done|]. intros [? ?]%andb_true_iff. constructor; eauto. Qed.

Lemma parse_print v : json_wf v = true → parses_back v.
Proof.
  induction v as [|[]|z|r|s|l IH|l IH] using json_ind'; intros Hwf fuel rest Hf Hr;
    (destruct fuel as [|n]; [simpl in Hf; lia|]).
  - transitivity (r ← strip_prefix "null" ("null" +:+ rest); Some (JNull, r)); [done|].
    by rewrite strip_prefix_app.
  - transitivity (r ← strip_prefix "true" ("true" +:+ rest); Some (JBool true, r)); [done|].
    by rewrite strip_prefix_app.
  - transitivity (r ← strip_prefix "false" ("false" +:+ rest); Some (JBool false, r)); [done|].
    by rewrite strip_prefix_app.
  - apply parse_value_token; [|intros Hz; pose proof (parse_print_int z) as Hp; simpl in Hz; rewrite Hz in Hp; discriminate Hp| |done].
    + apply (all_chars_impl is_int_char); [apply int_char_num_char|apply print_int_chars].
    + unfold parse_number. simpl print. rewrite print_int_chars, parse_print_int.
      f_equal. f_equal. apply DecimalZ.of_to.
  - simpl in Hwf. unfold float_token in Hwf. apply andb_true_iff in Hwf as [Hc Hi%negb_true_iff].
    simpl print. apply parse_value_token; [done|by intros ->| |done]. unfold parse_number. by rewrite Hi.
  - simpl print. unfold print_string. rewrite str_app_cons, str_app_assoc. cbn [parse_value].
    rewrite Ascii.eqb_refl. simpl. by rewrite parse_print_string.
  - simpl in Hf. change (print (JArr l)) with ("[" +:+ join "," (map print l) +:+ "]").
    rewrite !str_app_assoc. cbn [parse_value].
    destruct l as [|v l]; [reflexivity|].
    assert (Forall parses_back (v :: l)) as Hl.
    { by apply (Forall_forallb_impl parses_back json_wf). }
    destruct (print_first_not_close v (match map print l with [] => "]" +:+ rest
      | l' => "," +:+ join "," l' +:+ "]" +:+ rest end)) as (c & s & Hcs & Hne).
    { simpl in Hwf. by apply andb_true_iff in Hwf as [??]. }
    assert (join "," (map print (v :: l)) +:+ "]" +:+ rest = String c s) as E.
    { rewrite <- Hcs. simpl. destruct (map print l); [done|]. by rewrite !str_app_assoc. }
    pose proof (parse_elems_print (v :: l) Hl ltac:(done) n rest ltac:(simpl in *; lia)) as Hp.
    rewrite E in Hp |- *. rewrite str_app_cons, str_app_nil_l. simpl. rewrite Hne. by rewrite Hp.
  - simpl in Hf. change (print (JObj l)) with ("{" +:+ join "," (map print_member l) +:+ "}").
    rewrite !str_app_assoc. cbn [parse_value].
    destruct l as [|[k v] l]; [reflexivity|].
    assert (Forall (λ kv, parses_back kv.2) ((k, v) :: l)) as Hl.
    { by apply (Forall_forallb_impl (λ kv, parses_back kv.2) (λ kv, json_wf kv.2)). }
    pose proof (parse_members_print _ Hl ltac:(done) n rest ltac:(simpl in *; lia)) as Hp.
    assert (∃ s, join "," (map print_member ((k, v) :: l)) +:+ "}" +:+ rest
      = String quote_char s) as [s E].
    { cbn [map join]. unfold print_member at 1, print_string at 1.
      destruct (map _ l); rewrite ?str_app_cons; eexists; reflexivity. }
    rewrite E in Hp |- *. rewrite str_app_cons, str_app_nil_l. simpl. by rewrite Hp.
Qed.

Lemma print_int_length z : (1 ≤ String.length (print_int z))%nat.
Proof.
  pose proof (parse_print_int z) as Hp. destruct (print_int z); [discriminate Hp|]. simpl. lia.
Qed.

Lemma join_length sep l : l ≠ [] →
  (String.length (join sep l) + String.length sep =
   list_sum (map (λ s, String.length s + String.length sep) l))%nat.
Proof.
  intros Hl. destruct l as [|s l]; [done|]. clear Hl.
  revert s. induction l as [|t l IH]; intros s.
  - cbn [join map list_sum]. simpl. lia.
  - rewrite join_cons2, !str_length_app. cbn [map list_sum fold_right].
    specialize (IH t). cbn [map list_sum fold_right] in IH. lia.
Qed.

Lemma list_sum_le {A} (f g : A → nat) l :
  Forall (λ x, (f x ≤ g x)%nat) l → (list_sum (map f l) ≤ list_sum (map g l))%nat.
Proof. unfold list_sum. induction 1; simpl; lia. Qed.

(** The text is long enough to serve as fuel. *)
Lemma jsize_length v : json_wf v = true → (jsize v ≤ String.length (print v))%nat.
Proof.
  induction v as [|[]|z|r|s|l IH|l IH] using json_ind'; intros Hwf; try (simpl; lia).
  - apply print_int_length.
  - simpl in *. destruct r; [by unfold float_token in Hwf; rewrite andb_false_r in Hwf|]. simpl. lia.
  - apply (Forall_forallb_impl _ json_wf) in IH; [|done].
    change (print (JArr l)) with ("[" +:+ join "," (map print l) +:+ "]"). rewrite !str_length_app.
    destruct l as [|v l]; [simpl; lia|].
    pose proof (join_length "," (map print (v :: l)) ltac:(done)) as Hj. rewrite map_map in Hj.
    assert (list_sum (map (λ x, S (jsize x)) (v :: l)) ≤
            list_sum (map (λ x, String.length (print x) + String.length ",") (v :: l)))%nat.
    { apply list_sum_le. eapply Forall_impl; [exact IH|]. simpl. intros. lia. }
    simpl in *. lia.
  - apply (Forall_forallb_impl _ (λ kv, json_wf kv.2)) in IH; [|done].
    change (print (JObj l)) with ("{" +:+ join "," (map print_member l) +:+ "}"). rewrite !str_length_app.
    destruct l as [|v l]; [simpl; lia|].
    pose proof (join_length "," (map print_member (v :: l)) ltac:(done)) as Hj. rewrite map_map in Hj.
    assert (list_sum (map (λ kv, S (jsize kv.2)) (v :: l)) ≤
            list_sum (map (λ x, String.length (print_member x) + String.length ",") (v :: l)))%nat.
    { apply list_sum_le. eapply Forall_impl; [exact IH|]. intros [k w] ?. unfold print_member.
      rewrite !str_length_app. simpl in *. lia. }
    simpl in *. lia.
Qed.

Lemma forallb_perm {A} (p : A → bool) l1 l2 : l1 ≡ₚ l2 → forallb p l1 = forallb p l2.
Proof. induction 1; simpl; try congruence. by rewrite !andb_assoc, (andb_comm (p y)). Qed.

Lemma sort_keys_wf v : json_wf v = true → json_wf (sort_keys v) = true.
Proof.
  induction v as [|b|z|r|s|l IH|l IH] using json_ind'; intros Hwf; try done; simpl in *.
  - induction IH; simpl in *; [done|]. apply andb_true_iff in Hwf as [? ?]. by rewrite H, IHIH.
  - rewrite (forallb_perm _ _ _ (order_by_perm fst _)).
    induction IH; simpl in *; [done|]. apply andb_true_iff in Hwf as [? ?]. by rewrite H, IHIH.
Qed.

(** Decoding the canonical text of a value gives the value with sorted keys. *)
Lemma loads_canonical v : json_wf v = true → loads (canonical_json v) = Some (sort_keys v).
Proof.
  intros Hwf%sort_keys_wf. unfold loads, canonical_json.
  pose proof (jsize_length _ Hwf).
  pose proof (parse_print _ Hwf (S (String.length (print (sort_keys v)))) EmptyString ltac:(lia) I) as Hp.
  rewrite str_app_nil_r in Hp. by rewrite Hp.
Qed.

(** Two values have the same canonical text exactly when they agree up to the
    order of object keys. *)
Lemma canonical_json_inj v w : json_wf v = true → json_wf w = true →
  canonical_json v = canonical_json w ↔ sort_keys v = sort_keys w.
Proof.
  intros Hv Hw. split; [|unfold canonical_json; congruence].
  intros Heq. apply loads_canonical in Hv, Hw. congruence.
Qed.

(** ** Sorting an association list with distinct keys *)

Section order_by_fst.
Context {A : Type}.
Implicit Types l : list (string * A).
Lemma sorted_perm_unique l l' :
  l ≡ₚ l' → NoDup l.*1 → StronglySorted (by_key fst) l → StronglySorted (by_key fst) l' → l = l'.
Proof.
  intros Hp Hnd Hs. revert l' Hp. induction Hs as [|a l Hs IH Ha]; intros l' Hp Hs'.
  { by apply Permutation_nil_l in Hp as ->. }
  destruct Hs' as [|b l' Hs' Hb]; [by apply Permutation_nil_r in Hp|].
  assert (a = b) as <-.
  { assert (a ∈ b :: l') as Hin by (rewrite <- Hp; left).
    assert (b ∈ a :: l) as Hin' by (rewrite Hp; left).
    apply elem_of_cons in Hin as [|Hin]; [done|].
    apply elem_of_cons in Hin' as [|Hin']; [done|].
    rewrite Forall_forall in Ha, Hb. specialize (Ha b Hin'). specialize (Hb a Hin).
    assert (a.1 = b.1) as Hk by (by apply (anti_symm cmp_le)).
    exfalso. inversion Hnd as [|?? Hnot _]; subst. apply Hnot. rewrite Hk.
    by apply (list_elem_of_fmap_2 fst). }
  f_equal. apply IH; [by inversion Hnd|by apply Permutation_cons_inv in Hp|done].
Qed.

Lemma order_by_fst_perm l1 l2 : l1 ≡ₚ l2 → NoDup l1.*1 → order_by fst l1 = order_by fst l2.
Proof.
  intros Hp Hnd. apply sorted_perm_unique; [by rewrite !order_by_perm| |apply order_by_strongly_sorted..].
  by rewrite order_by_perm.
Qed.

Lemma order_by_fst_idemp l : NoDup l.*1 → order_by fst (order_by fst l) = order_by fst l.
Proof. intros Hnd. apply order_by_fst_perm; rewrite order_by_perm; done. Qed.
End order_by_fst.

Lemma map_keys {A B} (f : A → B) (l : list (string * A)) : (map (λ kv, (kv.1, f kv.2)) l).*1 = l.*1.
Proof. induction l as [|[k v] l IH]; [done|]. simpl. by f_equal. Qed.

Lemma order_by_fst_map {A B} (f : A → B) (l : list (string * A)) : NoDup l.*1 →
  order_by fst (map (λ kv, (kv.1, f kv.2)) (order_by fst l)) = map (λ kv, (kv.1, f kv.2)) (order_by fst l).
Proof.
  intros Hnd.
  assert (StronglySorted (by_key fst) (map (λ kv, (kv.1, f kv.2)) (order_by fst l))) as Hs.
  { induction (order_by_strongly_sorted fst l) as [|a l' Hs IH Ha]; simpl; constructor; [done|].
    apply List.Forall_map. eapply Forall_impl; [exact Ha|]. intros x Hx. exact Hx. }
  apply sorted_perm_unique; [by rewrite order_by_perm| |apply order_by_strongly_sorted|done].
  rewrite order_by_perm, map_keys, order_by_perm. done.
Qed.

(** The canonical text of an object does not depend on insertion order. *)
Lemma canonical_json_perm l1 l2 :
  l1 ≡ₚ l2 → NoDup l1.*1 → canonical_json (JObj l1) = canonical_json (JObj l2).
Proof.
  intros Hp Hnd. unfold canonical_json. simpl sort_keys.
  do 2 f_equal. apply order_by_fst_perm; [by apply Permutation_map|by rewrite map_keys].
Qed.

(** Sorting the keys of an object does not change what they are bound to. *)
Lemma assoc_insert_by {A} k (x : string * A) l : assoc k (insert_by fst x l) = assoc k (x :: l).
Proof.
  induction l as [|y l IH]; [done|]. cbn [insert_by]. destruct (cmp_leb x.1 y.1) eqn:E; [done|].
  destruct x as [kx vx], y as [ky vy]. cbn [assoc] in *. rewrite IH. cbn [fst] in E.
  destruct (String.eqb k ky) eqn:E1, (String.eqb k kx) eqn:E2; try done.
  apply String.eqb_eq in E1 as ->. apply String.eqb_eq in E2 as ->.
  unfold cmp_leb in E. by rewrite cmp_refl in E.
Qed.
Lemma assoc_order_by {A} k (l : list (string * A)) : assoc k (order_by fst l) = assoc k l.
Proof.
  induction l as [|[k' a] l IH]; [done|]. change (order_by fst ((k', a) :: l)) with (insert_by fst (k', a) (order_by fst l)).
  rewrite assoc_insert_by. cbn. by rewrite IH.
Qed.
Lemma assoc_elem {A} k (l : list (string * A)) v : assoc k l = Some v → (k, v) ∈ l.
Proof.
  induction l as [|[k' w] l IH]; simpl; [done|]. destruct (String.eqb k k') eqn:E.
  - apply String.eqb_eq in E as ->. intros [= ->]. by left.
  - intros Hk. right. by apply IH.
Qed.
