(* ===== verification/Text.v ===== *)
(** Text matching shared by the operation contracts, the query compiler and the
    write guard: the regular expressions of the code as sequential matchers
    (each of them is deterministic: no piece can give characters back to the
    next one), [str.split] and [" ".join].  Texts are read as ASCII. *)
From S2P Require Import Prelude Json.

(** [\w] and [[A-Za-z_]] *)
Definition is_letter (c : ascii) : bool :=
  let n := Ascii.nat_of_ascii c in
  ((65 <=? n) && (n <=? 90))%nat || ((97 <=? n) && (n <=? 122))%nat.
Definition is_digit (c : ascii) : bool :=
  let n := Ascii.nat_of_ascii c in ((48 <=? n) && (n <=? 57))%nat.
Definition ident_start (c : ascii) : bool := is_letter c || Ascii.eqb c "_".
Definition is_word (c : ascii) : bool := ident_start c || is_digit c.

(** [[A-Za-z_][A-Za-z0-9_]*] as a full match. *)
Definition is_identifier (s : string) : bool :=
  match s with EmptyString => false | String c s => ident_start c && all_chars is_word s end.

(** * Matchers: the rest of the text after the piece they consume *)

(** [\s+] *)
Definition spaces (s : string) : option string :=
  match s with
  | String c s => if is_space c then Some (lstrip s) else None
  | EmptyString => None
  end.
(** A literal under [re.IGNORECASE]. *)
Fixpoint keyword (k s : string) : option string :=
  match k, s with
  | EmptyString, _ => Some s
  | String a k, String b s => if Ascii.eqb (lower_ascii a) (lower_ascii b) then keyword k s else None
  | String _ _, EmptyString => None
  end.
(** [[A-Za-z_]\w*] *)
Definition identifier (s : string) : option (string * string) :=
  match s with
  | String c _ => if ident_start c then Some (span is_word s) else None
  | EmptyString => None
  end.
(** [\b] after a word character. *)
Definition boundary (s : string) : bool :=
  match s with String c _ => negb (is_word c) | EmptyString => true end.

(** [re.search] of a pattern that starts with [\b] and a word character: the
    leftmost match, with the text before it.  [prev] tells whether the
    character before [s] is a word character. *)
Section search.
Context {A : Type} (m : string → option A).
Fixpoint search (prev : bool) (s : string) : option (string * A) :=
  match (if prev then None else m s) with
  | Some a => Some (EmptyString, a)
  | None =>
      match s with
      | EmptyString => None
      | String c s' =>
          match search (is_word c) s' with
          | Some (pre, a) => Some (String c pre, a)
          | None => None
          end
      end
  end.
End search.

(** The maximal runs of word characters: [\b(?:K1|K2|...)\b] occurs in a text
    exactly when one of them is a [Ki]. *)
Fixpoint words (s : string) : list string :=
  match s with
  | EmptyString => []
  | String c s' =>
      if is_word c then
        if boundary s' then String c EmptyString :: words s'
        else match words s' with w :: ws => String c w :: ws | [] => [String c EmptyString] end
      else words s'
  end.
Definition has_word (keywords : list string) (s : string) : bool :=
  existsb (λ w, in_list (casefold w) keywords) (words s).

(** [text.split()] *)
Fixpoint split_ws (s : string) : list string :=
  match s with
  | EmptyString => []
  | String c s' =>
      if is_space c then split_ws s'
      else match s' with
           | String d _ =>
               if is_space d then String c EmptyString :: split_ws s'
               else match split_ws s' with w :: ws => String c w :: ws | [] => [String c EmptyString] end
           | EmptyString => [String c EmptyString]
           end
  end.

(** [s.rstrip(c)] *)
Fixpoint rstrip_char (x : ascii) (s : string) : string :=
  match s with
  | EmptyString => EmptyString
  | String c s' =>
      match rstrip_char x s' with
      | EmptyString => if Ascii.eqb c x then EmptyString else String c EmptyString
      | r => String c r
      end
  end.
(** [s[:n]] *)
Definition take (n : nat) (s : string) : string := String.substring 0 n s.

(** * Lemmas *)

Lemma all_chars_app (p : ascii → bool) a b : all_chars p (a +:+ b) = all_chars p a && all_chars p b.
Proof. induction a as [|c a IH]; [done|]. rewrite str_app_cons. simpl. by rewrite IH, andb_assoc. Qed.

Lemma words_sep a c b : is_word c = false → words (a +:+ String c b) = words a ++ words b.
Proof.
  intros Hc. induction a as [|x a IH].
  - rewrite str_app_nil_l. simpl. by rewrite Hc.
  - rewrite str_app_cons. simpl. destruct (is_word x) eqn:Hx; [|done].
    destruct a as [|y a].
    + rewrite str_app_nil_l. simpl. by rewrite Hc.
    + rewrite str_app_cons in *. simpl boundary. destruct (is_word y) eqn:Hy; simpl negb; cbv iota.
      * rewrite IH. simpl. rewrite Hy. destruct (boundary a); simpl; [done|].
        by destruct (words a).
      * by rewrite IH.
Qed.

Lemma all_word_words w : all_chars is_word w = true → w ≠ EmptyString → words w = [w].
Proof.
  induction w as [|c w IH]; intros Hw Hn; [done|]. simpl in Hw. bool_hyps. simpl.
  rewrite H. destruct w as [|d w]; [done|]. simpl in H0. bool_hyps. simpl boundary. rewrite H0. simpl negb. cbv iota.
  rewrite IH; [done|simpl; by rewrite H0, H1|done].
Qed.
Lemma identifier_words w : is_identifier w = true → words w = [w].
Proof.
  intros Hw. apply all_word_words; [|by intros ->].
  destruct w as [|c w]; [done|]. simpl in *. bool_hyps. by rewrite H0; unfold is_word; rewrite H.
Qed.

Lemma span_all p s : ∀ a b, span p s = (a, b) → s = a +:+ b ∧ all_chars p a = true.
Proof.
  induction s as [|c s IH]; simpl; intros a b.
  - by intros [= <- <-].
  - destruct (p c) eqn:Hp; [|by intros [= <- <-]].
    destruct (span p s) as [x y]. intros [= <- <-]. destruct (IH x y eq_refl) as [-> Hx].
    rewrite str_app_cons. simpl. by rewrite Hp, Hx.
Qed.
(** What the identifier matcher returns is an identifier and a prefix. *)
Lemma identifier_spec s i r : identifier s = Some (i, r) → is_identifier i = true ∧ s = i +:+ r.
Proof.
  unfold identifier. destruct s as [|c s]; [done|]. destruct (ident_start c) eqn:Hc; [|done].
  intros [= Heq]. destruct (span_all is_word (String c s) i r) as [Hs Ha]; [done|].
  split; [|done]. simpl in Heq.
  assert (is_word c = true) as Hw by (unfold is_word; by rewrite Hc). rewrite Hw in Heq.
  destruct (span is_word s) as [x y]. injection Heq as <- <-. simpl in *. bool_hyps. by rewrite Hc.
Qed.
Lemma span_app_stop p w c r : all_chars p w = true → p c = false →
  span p (w +:+ String c r) = (w, String c r).
Proof.
  intros Hw Hc. induction w as [|a w IH]; rewrite ?str_app_nil_l, ?str_app_cons; simpl; [by rewrite Hc|].
  simpl in Hw. bool_hyps. by rewrite H, IH.
Qed.
Lemma span_all_true p w : all_chars p w = true → span p w = (w, EmptyString).
Proof.
  induction w as [|a w IH]; simpl; [done|]. intros Hw. bool_hyps. by rewrite H, IH.
Qed.
Lemma identifier_app i c r : is_identifier i = true → is_word c = false →
  identifier (i +:+ String c r) = Some (i, String c r).
Proof.
  intros Hi Hc. destruct i as [|a i]; [done|]. simpl in Hi. bool_hyps.
  unfold identifier. rewrite str_app_cons. rewrite H. f_equal. rewrite <- str_app_cons.
  apply span_app_stop; [|done]. simpl. unfold is_word at 1. by rewrite H, H0.
Qed.

(** ** Appending, and what the matchers consume *)

Lemma str_app_split (a b c d : string) :
  a +:+ b = c +:+ d → (String.length a ≤ String.length c)%nat → ∃ e, c = a +:+ e ∧ b = e +:+ d.
Proof.
  revert c. induction a as [|x a IH]; intros c He Hl.
  - exists c. by rewrite !str_app_nil_l in *.
  - destruct c as [|y c]; [simpl in Hl; lia|]. rewrite !str_app_cons in He. injection He as -> He.
    destruct (IH c He) as (e & -> & ->); [simpl in Hl; lia|]. exists e. by rewrite str_app_cons.
Qed.
Lemma keyword_spec k s r : keyword k s = Some r →
  ∃ a, s = a +:+ r ∧ casefold a = casefold k ∧ String.length a = String.length k.
Proof.
  revert s. induction k as [|x k IH]; intros s; simpl.
  - intros [= ->]. exists EmptyString. by rewrite str_app_nil_l.
  - destruct s as [|y s]; [done|]. destruct (Ascii.eqb _ _) eqn:E; [|done]. intros Hk.
    apply Ascii.eqb_eq in E. destruct (IH s Hk) as (a & -> & Hc & Hl). exists (String y a).
    rewrite str_app_cons. simpl. by rewrite E, Hc, Hl.
Qed.
Lemma keyword_app k a r : casefold a = casefold k → keyword k (a +:+ r) = Some r.
Proof.
  revert a. induction k as [|x k IH]; intros [|y a]; simpl; try done.
  intros [= Hc Ha]. rewrite Hc, Ascii.eqb_refl. by apply IH.
Qed.
Lemma lstrip_spec s : ∃ a, s = a +:+ lstrip s ∧ all_chars is_space a = true.
Proof.
  induction s as [|c s IH]; [by exists EmptyString|]. simpl. destruct (is_space c) eqn:Hc.
  - destruct IH as (a & He & Ha). exists (String c a). rewrite str_app_cons. simpl. by rewrite <- He, Hc, Ha.
  - exists EmptyString. by rewrite str_app_nil_l.
Qed.
Lemma space_not_word c : is_space c = true → is_word c = false.
Proof. by destruct c as [[] [] [] [] [] [] [] []]. Qed.
Lemma words_nonword c s : is_word c = false → words (String c s) = words s.
Proof. intros Hc. simpl. by rewrite Hc. Qed.
Lemma words_spaces a s : all_chars is_space a = true → words (a +:+ s) = words s.
Proof.
  induction a as [|c a IH]; [by rewrite str_app_nil_l|]. intros Ha. cbn [all_chars] in Ha. bool_hyps.
  rewrite str_app_cons, words_nonword by (by apply space_not_word). by apply IH.
Qed.
Lemma words_lstrip s : words (lstrip s) = words s.
Proof. destruct (lstrip_spec s) as (a & He & Ha). rewrite He at 2. by rewrite words_spaces. Qed.
Lemma spaces_spec s r : spaces s = Some r → words r = words s ∧ boundary s = true.
Proof.
  unfold spaces. destruct s as [|c s]; [done|]. destruct (is_space c) eqn:Hc; [|done]. intros [= <-].
  rewrite words_lstrip, words_nonword by (by apply space_not_word). simpl.
  by rewrite (space_not_word _ Hc).
Qed.
Lemma lower_word c : is_word (lower_ascii c) = is_word c.
Proof. by destruct c as [[] [] [] [] [] [] [] []]. Qed.
Lemma casefold_words a : all_chars is_word (casefold a) = all_chars is_word a.
Proof. induction a as [|c a IH]; simpl; [done|]. by rewrite lower_word, IH. Qed.
(** A keyword made of word characters, where a word ends, is one word. *)
Lemma keyword_word k s r : keyword k s = Some r → all_chars is_word (casefold k) = true → k ≠ EmptyString →
  boundary r = true → ∃ a, casefold a = casefold k ∧ words s = a :: words r.
Proof.
  intros (a & -> & Hc & Hl)%keyword_spec Hw Hk Hb. exists a. split; [done|].
  rewrite <- Hc, casefold_words in Hw.
  assert (a ≠ EmptyString) as Ha by (intros ->; by destruct k).
  destruct r as [|c r]; [by rewrite str_app_nil_r, all_word_words|].
  simpl in Hb. bool_hyps. rewrite words_sep, all_word_words by done. by rewrite words_nonword.
Qed.

(** The leftmost match lies at or before any given one. *)
Lemma search_leftmost {A} (m : string → option A) prev x c t a :
  is_word c = false → m t = Some a →
  ∃ pre z a', search m prev (x +:+ String c t) = Some (pre, a') ∧
    x +:+ String c EmptyString = pre +:+ z ∧ m (z +:+ t) = Some a'.
Proof.
  intros Hc Ht. revert prev. induction x as [|y x IH]; intros prev.
  - rewrite str_app_nil_l. cbn [search].
    destruct (if prev then None else m (String c t)) as [a'|] eqn:Hm.
    + exists EmptyString, (String c EmptyString), a'. split; [done|]. split; [done|].
      rewrite str_app_cons, str_app_nil_l. by destruct prev.
    + rewrite Hc. exists (String c EmptyString), EmptyString, a. split; [|done].
      destruct t as [|d t]; cbn [search]; by rewrite Ht.
  - rewrite str_app_cons. cbn [search].
    destruct (if prev then None else m (String y (x +:+ String c t))) as [a'|] eqn:Hm.
    + exists EmptyString, (String y x +:+ String c EmptyString), a'. split; [done|]. split; [done|].
      rewrite str_app_assoc, !str_app_cons, str_app_nil_l. by destruct prev.
    + destruct (IH (is_word y)) as (pre & z & a' & Hs & Hz & Hm'). rewrite Hs.
      exists (String y pre), z, a'. by rewrite !str_app_cons, Hz.
Qed.
Lemma words_first c s : is_word c = true → words (String c s) ≠ [].
Proof. intros Hc. simpl. rewrite Hc. destruct (boundary s); [done|]. by destruct (words s). Qed.

(** ** Stripping a text that has nothing to strip *)

Lemma lstrip_id c s : is_space c = false → lstrip (String c s) = String c s.
Proof. simpl. by intros ->. Qed.
Lemma rstrip_id a c : is_space c = false → rstrip (a +:+ String c EmptyString) = a +:+ String c EmptyString.
Proof.
  intros Hc. induction a as [|x a IH].
  - rewrite str_app_nil_l. simpl. by rewrite Hc.
  - rewrite str_app_cons. simpl. rewrite IH. by destruct a.
Qed.
Lemma rstrip_char_id x a c : Ascii.eqb c x = false →
  rstrip_char x (a +:+ String c EmptyString) = a +:+ String c EmptyString.
Proof.
  intros Hc. induction a as [|y a IH].
  - rewrite str_app_nil_l. simpl. by rewrite Hc.
  - rewrite str_app_cons. simpl. rewrite IH. by destruct a.
Qed.
Lemma endswith_app a b : endswith b (a +:+ b) = true.
Proof.
  unfold endswith. rewrite str_length_app. apply andb_true_iff. split; [apply Nat.leb_le; lia|].
  replace (String.length a + String.length b - String.length b)%nat with (String.length a) by lia.
  apply String.eqb_eq. induction a as [|c a IH]; [|exact IH]. rewrite str_app_nil_l. simpl.
  induction b as [|c b IH]; [done|]. simpl. by rewrite IH.
Qed.
