(* ===== verification/Models.v ===== *)
(** The contracts of [code-tiny/tools/graph/journal/models.py]: the enums with
    their stored values, the journal's errors, and the validated records
    ([__post_init__] of a dataclass is the [make_*] function that either builds
    the record or raises). *)
From S2P Require Import Prelude Json.

(** * Enumerations: one Module each, as the code writes [RunStatus.OPEN]. *)

Module RunStatus.
Inductive RunStatus := OPEN | DRAINING | DRAINED | BLOCKED | DEAD_LETTERED | QUARANTINED | FAILED.
#[export] Instance eq_dec : EqDecision RunStatus.
Proof. solve_decision. Defined.
Definition run_status_value (s : RunStatus) : string :=
  match s with
  | OPEN => "open" | DRAINING => "draining" | DRAINED => "drained" | BLOCKED => "blocked"
  | DEAD_LETTERED => "dead_lettered" | QUARANTINED => "quarantined" | FAILED => "failed"
  end.
End RunStatus.
Abbreviation RunStatus := RunStatus.RunStatus.
#[export] Existing Instance RunStatus.eq_dec.

Module BatchStatus.
Inductive BatchStatus := PENDING | LEASED | RECONCILING | RETRY_WAIT | DONE | BLOCKED | DEAD_LETTER.
#[export] Instance eq_dec : EqDecision BatchStatus.
Proof. solve_decision. Defined.
Definition batch_status_value (s : BatchStatus) : string :=
  match s with
  | PENDING => "pending" | LEASED => "leased" | RECONCILING => "reconciling"
  | RETRY_WAIT => "retry_wait" | DONE => "done" | BLOCKED => "blocked" | DEAD_LETTER => "dead_letter"
  end.
Definition all_batch_statuses : list BatchStatus :=
  [PENDING; LEASED; RECONCILING; RETRY_WAIT; DONE; BLOCKED; DEAD_LETTER].
End BatchStatus.
Abbreviation BatchStatus := BatchStatus.BatchStatus.
#[export] Existing Instance BatchStatus.eq_dec.

Module OperationPhase.
Inductive OperationPhase := NODES | RELATIONSHIPS | CALLS | CUSTOM.
#[export] Instance eq_dec : EqDecision OperationPhase.
Proof. solve_decision. Defined.
Definition phase_value (p : OperationPhase) : string :=
  match p with
  | NODES => "nodes" | RELATIONSHIPS => "relationships" | CALLS => "calls" | CUSTOM => "custom"
  end.
(** [OperationPhase(text)]; an unknown text is a [ValueError]. *)
Definition phase_of_value (s : string) : option OperationPhase :=
  if String.eqb s "nodes" then Some NODES
  else if String.eqb s "relationships" then Some RELATIONSHIPS
  else if String.eqb s "calls" then Some CALLS
  else if String.eqb s "custom" then Some CUSTOM
  else None.
Lemma phase_of_value_value p : phase_of_value (phase_value p) = Some p.
Proof. by destruct p. Qed.
End OperationPhase.
Abbreviation OperationPhase := OperationPhase.OperationPhase.
#[export] Existing Instance OperationPhase.eq_dec.

Module BarrierStatus.
Inductive BarrierStatus := OPEN | PRODUCED | DRAINED.
#[export] Instance eq_dec : EqDecision BarrierStatus.
Proof. solve_decision. Defined.
End BarrierStatus.
Abbreviation BarrierStatus := BarrierStatus.BarrierStatus.
#[export] Existing Instance BarrierStatus.eq_dec.

Module ProducerStatus.
Inductive ProducerStatus := OPEN | COMPLETE.
#[export] Instance eq_dec : EqDecision ProducerStatus.
Proof. solve_decision. Defined.
End ProducerStatus.
Abbreviation ProducerStatus := ProducerStatus.ProducerStatus.
#[export] Existing Instance ProducerStatus.eq_dec.

Module ManifestDisposition.
Inductive ManifestDisposition := STAGED_UNIQUE | DECLARED_DUPLICATE | CONFLICT | REJECTED.
#[export] Instance eq_dec : EqDecision ManifestDisposition.
Proof. solve_decision. Defined.
Definition disposition_value (d : ManifestDisposition) : string :=
  match d with
  | STAGED_UNIQUE => "staged_unique" | DECLARED_DUPLICATE => "declared_duplicate"
  | CONFLICT => "conflict" | REJECTED => "rejected"
  end.
End ManifestDisposition.
Abbreviation ManifestDisposition := ManifestDisposition.ManifestDisposition.
#[export] Existing Instance ManifestDisposition.eq_dec.

Module EndpointAuditStatus.
Inductive EndpointAuditStatus := SEALED.
Definition audit_status_value (s : EndpointAuditStatus) : string := match s with SEALED => "sealed" end.
End EndpointAuditStatus.
Abbreviation EndpointAuditStatus := EndpointAuditStatus.EndpointAuditStatus.

Module RetryClass.
Inductive RetryClass := TRANSIENT | AMBIGUOUS | INTEGRITY | INCOMPATIBLE | TERMINAL.
#[export] Instance eq_dec : EqDecision RetryClass.
Proof. solve_decision. Defined.
End RetryClass.
Abbreviation RetryClass := RetryClass.RetryClass.
#[export] Existing Instance RetryClass.eq_dec.

Module TerminalErrorCode.
Inductive TerminalErrorCode :=
  | INCOMPATIBLE_SCHEMA | JOURNAL_CORRUPT | DISK_FULL | UNSAFE_PLACEMENT | PERMISSION_DENIED
  | ARTIFACT_HASH_MISMATCH | ADMISSION_REJECTED | INVALID_TRANSITION | STALE_FENCE
  | MAX_ATTEMPTS | INVALID_CONTRACT.
#[export] Instance eq_dec : EqDecision TerminalErrorCode.
Proof. solve_decision. Defined.
End TerminalErrorCode.
Abbreviation TerminalErrorCode := TerminalErrorCode.TerminalErrorCode.
#[export] Existing Instance TerminalErrorCode.eq_dec.

(** * Exceptions

    A [JournalError] is its stable code (messages and details are not
    modelled); [ConnectionError] and [TimeoutError] are subclasses of [OSError]. *)
Inductive exn : Type :=
  | JournalError (code : TerminalErrorCode)
  | OSError | ConnectionError | TimeoutError
  | ValueError | TypeError | KeyError | AssertionError | RuntimeError
  | OtherException (name : string)
  | BaseException.
#[export] Instance exn_eq_dec : EqDecision exn.
Proof. solve_decision. Defined.

(** [StaleFenceError(job_id)] *)
Definition StaleFenceError : exn := JournalError TerminalErrorCode.STALE_FENCE.

Abbreviation res := (result exn).

(** * Run metadata *)

Record RunMetadata := MkRunMetadata {
  project_id : string; scope_id : string; source_revision : string; source_snapshot : string;
  physical_target : string; generation : string; parser : string; parser_version : string;
  schema_fingerprint : string; query_shape_version : string;
  operation_versions : list (string * Z); contract_version : Z;
}.
#[export] Instance RunMetadata_eq_dec : EqDecision RunMetadata.
Proof. solve_decision. Defined.
#[export] Instance RunMetadata_eta : Eta RunMetadata := λ m,
  MkRunMetadata (project_id m) (scope_id m) (source_revision m) (source_snapshot m)
    (physical_target m) (generation m) (parser m) (parser_version m) (schema_fingerprint m)
    (query_shape_version m) (operation_versions m) (contract_version m).

(** [RunMetadata.__post_init__] *)
Definition make_run_metadata (m : RunMetadata) : res RunMetadata :=
  let required := [project_id m; scope_id m; source_revision m; source_snapshot m;
    physical_target m; generation m; parser m; parser_version m; schema_fingerprint m;
    query_shape_version m] in
  let versions := order_by fst (operation_versions m) in
  if existsb (λ s, is_empty (strip s)) required then Err ValueError
  else if existsb (λ kv : string * Z, is_empty (strip kv.1) || (kv.2 <? 1)%Z) versions then Err ValueError
  else if (contract_version m <? 1)%Z then Err ValueError
  else Ok (m <| operation_versions := versions |>).

(** [RunMetadata.to_dict] *)
Definition run_metadata_to_dict (m : RunMetadata) : json := JObj [
  ("project_id", JStr (project_id m)); ("scope_id", JStr (scope_id m));
  ("source_revision", JStr (source_revision m)); ("source_snapshot", JStr (source_snapshot m));
  ("physical_target", JStr (physical_target m)); ("generation", JStr (generation m));
  ("parser", JStr (parser m)); ("parser_version", JStr (parser_version m));
  ("schema_fingerprint", JStr (schema_fingerprint m));
  ("query_shape_version", JStr (query_shape_version m));
  ("operation_versions", JObj (map (λ kv, (kv.1, JInt kv.2)) (operation_versions m)));
  ("contract_version", JInt (contract_version m))].

(** * Batches, barriers, runs as the API returns them *)

Record ArtifactRef := MkArtifactRef {
  sha256 : string; relative_path : string; byte_count : Z; row_count : Z;
}.
#[export] Instance ArtifactRef_eq_dec : EqDecision ArtifactRef.
Proof. solve_decision. Defined.

Record BatchSpec := MkBatchSpec {
  bs_phase : OperationPhase; bs_operation_key : string; bs_sequence : Z; bs_artifact : ArtifactRef;
  bs_expected_count : Z; bs_required_barriers : list string; bs_produced_barriers : list string;
  bs_max_attempts : Z; bs_operation : list (string * json);
}.
#[export] Instance BatchSpec_eta : Eta BatchSpec := λ s,
  MkBatchSpec (bs_phase s) (bs_operation_key s) (bs_sequence s) (bs_artifact s) (bs_expected_count s)
    (bs_required_barriers s) (bs_produced_barriers s) (bs_max_attempts s) (bs_operation s).

(** [BatchSpec.__post_init__] *)
Definition make_batch_spec (s : BatchSpec) : res BatchSpec :=
  if is_empty (strip (bs_operation_key s)) then Err ValueError
  else if (bs_sequence s <? 0)%Z then Err ValueError
  else if (bs_expected_count s <? 0)%Z then Err ValueError
  else if (bs_max_attempts s <? 1)%Z then Err ValueError
  else
    let required := sorted_set (bs_required_barriers s) in
    let produced := sorted_set (bs_produced_barriers s) in
    if existsb (λ n, is_empty (strip n)) (required ++ produced) then Err ValueError
    else if existsb (λ n, in_list n produced) required then Err ValueError
    else Ok (s <| bs_required_barriers := required |> <| bs_produced_barriers := produced |>).

Record RunRecord := MkRunRecord {
  rr_run_id : string; rr_fingerprint : string; rr_metadata : RunMetadata; rr_status : RunStatus;
  rr_created_at : Z; rr_updated_at : Z; rr_retention_until : Z; rr_error_code : option TerminalErrorCode;
}.

Record BatchRecord := MkBatchRecord {
  br_job_id : string; br_run_id : string; br_phase : OperationPhase; br_operation_key : string;
  br_sequence : Z; br_artifact : ArtifactRef; br_expected_count : Z; br_status : BatchStatus;
  br_attempt : Z; br_max_attempts : Z; br_fencing_token : option string; br_lease_until : option Z;
  br_next_attempt_at : option Z; br_required_barriers : list string; br_produced_barriers : list string;
  br_retry_class : option RetryClass; br_error_code : option TerminalErrorCode;
  br_operation : list (string * json);
}.

Record BarrierRecord := MkBarrierRecord {
  bar_run_id : string; bar_name : string; bar_status : BarrierStatus;
  bar_produced_count : Z; bar_drained_count : Z; bar_closed_at : option Z;
}.

Record JournalLimits := MkJournalLimits {
  max_batches_per_run : Z; max_payload_bytes_per_run : Z; max_artifact_bytes : Z;
  max_journal_bytes : Z; min_free_bytes : Z; retention_seconds : Z; busy_timeout_ms : Z;
  wal_autocheckpoint_pages : Z;
}.
Definition default_limits : JournalLimits :=
  MkJournalLimits 100000 (4 * 1024 * 1024 * 1024) (256 * 1024 * 1024) (512 * 1024 * 1024)
    (512 * 1024 * 1024) (7 * 24 * 60 * 60) 5000 1000.
(** [JournalLimits.__post_init__] *)
Definition make_limits (l : JournalLimits) : res JournalLimits :=
  if forallb (λ v, 0 <? v)%Z [max_batches_per_run l; max_payload_bytes_per_run l;
      max_artifact_bytes l; max_journal_bytes l; min_free_bytes l; retention_seconds l;
      busy_timeout_ms l; wal_autocheckpoint_pages l]
  then Ok l else Err ValueError.
