(* ===== verification/PyValue.v ===== *)
(** Python's view of decoded JSON values: truthiness, [str], [dict.get] and
    [x or default], as the journal applies them to rows and descriptors. *)
From S2P Require Import Prelude Json Models.

(** [repr(str)] *)
Definition char_in (c : ascii) (s : string) : bool := negb (all_chars (λ x, negb (Ascii.eqb x c)) s).
Definition single_quote : ascii := Ascii.ascii_of_nat 39.
Definition repr_char (q c : ascii) : string :=
  let n := Ascii.nat_of_ascii c in
  if Ascii.eqb c q || (n =? 92)%nat then String (Ascii.ascii_of_nat 92) (String c EmptyString)
  else if (n =? 9)%nat then "\t"
  else if (n =? 10)%nat then "\n"
  else if (n =? 13)%nat then "\r"
  else if (n <? 32)%nat || (n =? 127)%nat
  then "\x" +:+ String (hex_digit (n / 16)) (String (hex_digit (n mod 16)) EmptyString)
  else String c EmptyString.
Fixpoint repr_chars (q : ascii) (s : string) : string :=
  match s with
  | EmptyString => EmptyString
  | String c s' => repr_char q c +:+ repr_chars q s'
  end.
Definition repr_string (s : string) : string :=
  let q := if char_in single_quote s && negb (char_in quote_char s) then quote_char else single_quote in
  String q (repr_chars q s +:+ String q EmptyString).

Fixpoint py_repr (v : json) : string :=
  match v with
  | JNull => "None"
  | JBool true => "True"
  | JBool false => "False"
  | JInt z => print_int z
  | JFloat r => r
  | JStr s => repr_string s
  | JArr l => "[" +:+ join ", " (map py_repr l) +:+ "]"
  | JObj l => "{" +:+ join ", " (map (λ kv, repr_string kv.1 +:+ ": " +:+ py_repr kv.2) l) +:+ "}"
  end.
(** [str(value)] *)
Definition py_str (v : json) : string := match v with JStr s => s | _ => py_repr v end.

(** [bool(value)]; a float is false when its mantissa has no non-zero digit. *)
Definition mantissa_char (c : ascii) : bool :=
  negb (Ascii.eqb c "e") && negb (Ascii.eqb c "E").
Definition zero_digit (c : ascii) : bool :=
  Ascii.eqb c "0" || Ascii.eqb c "." || Ascii.eqb c "-" || Ascii.eqb c "+".
Definition truthy (v : json) : bool :=
  match v with
  | JNull => false
  | JBool b => b
  | JInt z => negb (z =? 0)%Z
  | JFloat r => negb (all_chars zero_digit (span mantissa_char r).1)
  | JStr s => negb (is_empty s)
  | JArr l => match l with [] => false | _ => true end
  | JObj l => match l with [] => false | _ => true end
  end.

(** [int(value)] *)
Definition digit_value (c : ascii) : option Z :=
  let n := Ascii.nat_of_ascii c in
  if ((48 <=? n) && (n <=? 57))%nat then Some (Z.of_nat (n - 48)) else None.
Definition digit_char (c : ascii) : bool := bool_decide (is_Some (digit_value c)).
(** Decimal digits with single underscores between them. *)
Fixpoint int_digits (after_digit : bool) (acc : Z) (s : string) : option Z :=
  match s with
  | EmptyString => if after_digit then Some acc else None
  | String c s =>
      match digit_value c with
      | Some v => int_digits true (acc * 10 + v)%Z s
      | None => if Ascii.eqb c "_" && after_digit then int_digits false acc s else None
      end
  end.
Definition signed (s : string) : bool * string :=
  match s with
  | String c s' => if Ascii.eqb c "-" then (true, s') else if Ascii.eqb c "+" then (false, s') else (false, s)
  | EmptyString => (false, s)
  end.
Definition int_of_text (s : string) : res Z :=
  let '(negative, digits) := signed (strip s) in
  match int_digits false 0 digits with
  | Some n => Ok (if negative then - n else n)%Z
  | None => Err ValueError
  end.
(** The integer a double holds is a multiple of a power of two beyond [2 ^ 53]:
    the nearest one to the decimal that [repr] prints, ties to even. *)
Definition nearest_double (v : Z) : Z :=
  if (v <? 2 ^ 53)%Z then v
  else
    let unit := (2 ^ (Z.log2 v - 52))%Z in
    let q := (v / unit)%Z in
    let r := (v mod unit)%Z in
    (unit * (if (2 * r <? unit) || ((2 * r =? unit) && Z.even q) then q else q + 1))%Z.
Definition float_int (repr : string) : Z :=
  let '(negative, s) := signed repr in
  let '(whole, s) := span digit_char s in
  let '(fraction, s) := match s with
    | String c s' => if Ascii.eqb c "." then span digit_char s' else (EmptyString, s)
    | EmptyString => (EmptyString, s) end in
  let exponent := match s with
    | String _ s' => let '(n, s'') := signed s' in
                     let e := default 0%Z (int_digits false 0 s'') in (if n then - e else e)%Z
    | EmptyString => 0%Z end in
  let mantissa := default 0%Z (int_digits false 0 (whole +:+ fraction)) in
  let e := (exponent - Z.of_nat (String.length fraction))%Z in
  let v := nearest_double (if (0 <=? e)%Z then mantissa * 10 ^ e else mantissa / 10 ^ (- e))%Z in
  if negative then (- v)%Z else v.
Definition py_int (v : json) : res Z :=
  match v with
  | JInt z => Ok z
  | JBool b => Ok (Z.b2z b)
  | JFloat r => Ok (float_int r)
  | JStr s => int_of_text s
  | JNull | JArr _ | JObj _ => Err TypeError
  end.

(** A Python [dict] with string keys. *)
Abbreviation dict := (list (string * json)).
(** [d.get(k)] *)
Definition get (k : string) (d : dict) : json := default JNull (assoc k d).
(** [d.get(k, v)] *)
Definition get_default (k : string) (v : json) (d : dict) : json := default v (assoc k d).
(** [d[k]] *)
Definition getitem (k : string) (d : dict) : res json :=
  match assoc k d with Some v => Ok v | None => Err KeyError end.
(** [x or y] *)
Definition py_or (x y : json) : json := if truthy x then x else y.
(** [d.pop(k, None)] *)
Definition pop (k : string) (d : dict) : dict := List.filter (λ kv, negb (String.eqb kv.1 k)) d.
(** [d[k] = v]: in place, or at the end. *)
Fixpoint setitem (k : string) (v : json) (d : dict) : dict :=
  match d with
  | [] => [(k, v)]
  | (k', w) :: d => if String.eqb k k' then (k, v) :: d else (k', w) :: setitem k v d
  end.

Lemma assoc_setitem_eq k v d : assoc k (setitem k v d) = Some v.
Proof.
  induction d as [|[k' w] d IH]; simpl; [by rewrite String.eqb_refl|].
  destruct (String.eqb k k') eqn:E; simpl; [by rewrite String.eqb_refl|by rewrite E].
Qed.
Lemma assoc_setitem_ne k k' v d : k ≠ k' → assoc k' (setitem k v d) = assoc k' d.
Proof.
  intros Hne. induction d as [|[k2 w] d IH]; simpl.
  - destruct (String.eqb k' k) eqn:E; [|done]. apply String.eqb_eq in E. congruence.
  - destruct (String.eqb k k2) eqn:E; simpl.
    + apply String.eqb_eq in E as <-. destruct (String.eqb k' k) eqn:E2; [|done].
      apply String.eqb_eq in E2. congruence.
    + by rewrite IH.
Qed.
Lemma assoc_pop_ne k k' (d : dict) : k ≠ k' → assoc k (pop k' d) = assoc k d.
Proof.
  intros Hne. induction d as [|[x v] d IH]; [done|]. unfold pop in *. cbn [List.filter fst].
  destruct (String.eqb x k') eqn:E; cbn [negb assoc].
  - bool_hyps. subst x. apply String.eqb_neq in Hne as ->. exact IH.
  - destruct (String.eqb k x); [done|exact IH].
Qed.
Lemma assoc_pop_eq k (d : dict) : assoc k (pop k d) = None.
Proof.
  induction d as [|[x v] d IH]; [done|]. unfold pop in *. cbn [List.filter fst].
  destruct (String.eqb x k) eqn:E; cbn [negb]; [exact IH|]. cbn [assoc]. by rewrite String.eqb_sym, E.
Qed.
#[export] Hint Rewrite assoc_setitem_eq : journal.

(** An object whose keys were sorted when it was written. *)
Definition sorted_dict (d : dict) : dict := order_by fst (map (λ kv, (kv.1, sort_keys kv.2)) d).
Lemma assoc_map {A B} (f : A → B) k l : assoc k (map (λ kv, (kv.1, f kv.2)) l) = f <$> assoc k l.
Proof. induction l as [|[k' a] l IH]; [done|]. cbn. by destruct (String.eqb k k'). Qed.
Lemma get_sorted k d : get k (sorted_dict d) = sort_keys (get k d).
Proof. unfold get, sorted_dict. rewrite assoc_order_by, assoc_map. by destruct (assoc k d). Qed.
Lemma getitem_sorted k d : getitem k (sorted_dict d) = sort_keys <$> getitem k d.
Proof. unfold getitem, sorted_dict. rewrite assoc_order_by, assoc_map. by destruct (assoc k d). Qed.
Lemma get_default_sorted_keys k v d : sort_keys v = v → get_default k v (sorted_dict d) = sort_keys (get_default k v d).
Proof. intros Hv. unfold get_default, sorted_dict. rewrite assoc_order_by, assoc_map. by destruct (assoc k d). Qed.
Lemma get_default_sorted k s d : get_default k (JStr s) (sorted_dict d) = sort_keys (get_default k (JStr s) d).
Proof. unfold get_default, sorted_dict. rewrite assoc_order_by, assoc_map. by destruct (assoc k d). Qed.
