(* ===== verification/Scope.v ===== *)
(** Project and repository scopes of [code-tiny/tools/common/project_scope.py]:
    the case-insensitive prefix match of a project id, and the exact-or-suffix
    match of a repository.  The vector store is known by what its documentation
    says of a required [match.any]. *)
From S2P Require Import Prelude Json PyValue Models.

Definition PROJECT_ID_NORMALIZED_FIELD : string := "project_id_normalized".
Definition _PROJECT_SCOPE_PARAMETER_KEYS : list string :=
  ["project_id"; "be_project_id"; "fe_project_id"; "be_project"; "fe_project"; "pid"].
Definition REPO_SUFFIX_PARAMETER : string := "repo_suffix".

(** [x or None] for a string. *)
Definition nonempty (s : string) : option string := if is_empty s then None else Some s.

Definition normalize_project_id (value : json) : option string :=
  match value with JNull => None | _ => nonempty (strip (py_str value)) end.
Definition project_id_lookup_key (value : json) : option string :=
  casefold <$> normalize_project_id value.

(** [known_ids] is the given list, or what the project registry returned. *)
Definition known_keys (query_key : string) (known_ids : list json) : list string :=
  omap (λ known, k ← project_id_lookup_key known; if startswith query_key k then Some k else None) known_ids.
Definition project_id_scope_keys (value : json) (known_ids : list json) : option (list string) :=
  query_key ← project_id_lookup_key value;
  Some (sorted_set (query_key :: known_keys query_key known_ids)).

(** A JSON payload: lists are enriched element by element, objects get the
    sibling key next to [project_id]. *)
Fixpoint enrich_project_scope (value : json) : json :=
  match value with
  | JObj l =>
      let enriched := map (λ kv, (kv.1, enrich_project_scope kv.2)) l in
      match assoc "project_id" enriched with
      | None => JObj enriched
      | Some v =>
          match project_id_lookup_key v with
          | Some k => JObj (setitem PROJECT_ID_NORMALIZED_FIELD (JStr k) enriched)
          | None => JObj (pop PROJECT_ID_NORMALIZED_FIELD enriched)
          end
      end
  | JArr l => JArr (map enrich_project_scope l)
  | _ => value
  end.
Definition opt_json (s : option string) : json := match s with Some s => JStr s | None => JNull end.

(** The recognised parameters are visited in the order of the key list. *)
Definition add_normalized (prepared : dict) (key : string) : dict :=
  match assoc key prepared with
  | Some v => setitem (key +:+ "_normalized") (opt_json (project_id_lookup_key v)) prepared
  | None => prepared
  end.
Definition prepare_project_scope_parameters (parameters : dict) : dict :=
  match enrich_project_scope (JObj parameters) with
  | JObj prepared => fold_left add_normalized _PROJECT_SCOPE_PARAMETER_KEYS prepared
  | _ => parameters
  end.

Definition qdrant_project_filter (project_id : json) (known_ids : list json) : option json :=
  keys ← project_id_scope_keys project_id known_ids;
  Some (JObj [("must", JArr [JObj [("key", JStr PROJECT_ID_NORMALIZED_FIELD);
    ("match", JObj [("any", JArr (map JStr keys))])]])]).

Definition candidate_project (candidate : dict) : json :=
  get_default PROJECT_ID_NORMALIZED_FIELD (get "project_id" candidate) candidate.
Definition matches_project_scope (candidate : dict) (project_id : json) : bool :=
  match project_id_lookup_key project_id with
  | None => true
  | Some query_key =>
      match project_id_lookup_key (candidate_project candidate) with
      | Some k => startswith query_key k
      | None => false
      end
  end.

Definition repo_scope_predicate (alias : string) : string :=
  "($repo = '' OR " +:+ alias +:+ ".repo = $repo OR " +:+ alias +:+ ".repo ENDS WITH $repo_suffix)".
Definition prepare_repo_scope_parameters (parameters : dict) : dict :=
  match assoc "repo" parameters with
  | None => parameters
  | Some v =>
      let repo := default EmptyString (normalize_project_id v) in
      setitem REPO_SUFFIX_PARAMETER (JStr (if is_empty repo then EmptyString else "/" +:+ repo))
        (setitem "repo" (JStr repo) parameters)
  end.
Definition matches_repo_scope (value repo : json) : bool :=
  match normalize_project_id repo with
  | None => true
  | Some requested =>
      let node_repo := match value with JNull => EmptyString | _ => py_str value end in
      if is_empty node_repo then false
      else String.eqb node_repo requested || endswith ("/" +:+ requested) node_repo
  end.

(** What the Cypher predicate of [repo_scope_predicate] computes on a stored
    string, under the parameters of [prepare_repo_scope_parameters]. *)
Definition repo_predicate_holds (node_repo : string) (parameters : dict) : bool :=
  match assoc "repo" parameters, assoc REPO_SUFFIX_PARAMETER parameters with
  | Some (JStr r), Some (JStr suffix) =>
      String.eqb r "" || String.eqb node_repo r || endswith suffix node_repo
  | _, _ => false
  end.

(** The vector store, as far as these filters go: a required condition
    [match.any] on a field passes exactly the payloads whose field holds one of
    the listed strings, and none that lack the field. *)
Class QdrantApi : Type := qdrant_passes : json → dict → bool.
Definition any_of (key : string) (keys : list string) : json :=
  JObj [("must", JArr [JObj [("key", JStr key); ("match", JObj [("any", JArr (map JStr keys))])]])].
Class QdrantLaws `{QdrantApi} : Prop := {
  passes_any key keys payload v : assoc key payload = Some (JStr v) →
    qdrant_passes (any_of key keys) payload = in_list v keys;
  passes_absent key keys payload : assoc key payload = None → qdrant_passes (any_of key keys) payload = false;
}.

(** * Lemmas *)

Lemma nonempty_Some s k : nonempty s = Some k ↔ s = k ∧ s ≠ EmptyString.
Proof.
  unfold nonempty, is_empty. destruct (String.eqb s "") eqn:E; bool_hyps.
  - split; [done|]. by intros [-> ?].
  - split; [by intros [= ->]|by intros [-> ?]].
Qed.
Lemma endswith_empty s p : p ≠ EmptyString → s = EmptyString → endswith p s = false.
Proof. intros Hp ->. unfold endswith. by destruct p. Qed.

Lemma elem_of_known_keys q ids k :
  k ∈ known_keys q ids ↔ ∃ v, v ∈ ids ∧ project_id_lookup_key v = Some k ∧ startswith q k = true.
Proof.
  unfold known_keys. rewrite list_elem_of_omap. split.
  - intros (v & Hv & Hk). exists v. split; [done|]. destruct (project_id_lookup_key v) as [k'|]; [|done].
    simpl in Hk. destruct (startswith q k') eqn:E; [|done]. by injection Hk as <-.
  - intros (v & Hv & Hk & Hp). exists v. split; [done|]. rewrite Hk. simpl. by rewrite Hp.
Qed.
Lemma startswith_refl s : startswith s s = true.
Proof. unfold startswith. induction s as [|c s IH]; simpl; [done|]. by destruct (ascii_dec c c). Qed.

(** The keys of a scoped query: its own, and those of the known ids it prefixes. *)
Lemma elem_of_scope_keys value known keys k : project_id_scope_keys value known = Some keys →
  k ∈ keys ↔ project_id_lookup_key value = Some k ∨
    ∃ q v, project_id_lookup_key value = Some q ∧ v ∈ known ∧
           project_id_lookup_key v = Some k ∧ startswith q k = true.
Proof.
  unfold project_id_scope_keys. destruct (project_id_lookup_key value) as [q|]; [|done].
  cbn [mbind option_bind]. intros [= <-]. rewrite elem_of_sorted_set, elem_of_cons, elem_of_known_keys.
  split; [intros [->|(v & ?)]; [by left|right; by exists q, v]|].
  intros [[= ->]|(q' & v & [= <-] & ?)]; [by left|right; by exists v].
Qed.

(** * Properties *)

Lemma lookup_key_folded v k : project_id_lookup_key v = Some k → project_id_lookup_key (JStr k) = Some k.
Proof.
  unfold project_id_lookup_key. destruct (normalize_project_id v) as [n|] eqn:E; [|done]. intros [= <-].
  assert (n ≠ EmptyString ∧ strip n = n) as [Hne Hs].
  { unfold normalize_project_id in E. destruct v; [done|..]; apply nonempty_Some in E as [<- Hn];
      (split; [done|apply strip_idemp]). }
  cbn [normalize_project_id py_str]. rewrite strip_casefold, Hs.
  unfold nonempty. destruct (is_empty (casefold n)) eqn:En; [|by cbn; rewrite casefold_idemp].
  apply String.eqb_eq in En. by destruct n.
Qed.
(** What [enrich_project_scope] makes of the top level of a payload. *)
Lemma enriched_payload raw payload v :
  enrich_project_scope (JObj raw) = JObj payload → assoc "project_id" raw = Some v →
  assoc PROJECT_ID_NORMALIZED_FIELD payload = JStr <$> project_id_lookup_key (get "project_id" payload).
Proof.
  cbn [enrich_project_scope]. intros He Hv.
  assert (∀ l, assoc "project_id" (map (λ kv : string * json, (kv.1, enrich_project_scope kv.2)) l)
               = enrich_project_scope <$> assoc "project_id" l) as Hm.
  { induction l as [|[k w] l IH]; [done|]. cbn [map assoc fst snd]. by destruct (String.eqb "project_id" k). }
  rewrite Hm, Hv in He. cbn [fmap option_fmap option_map] in He.
  destruct (project_id_lookup_key (enrich_project_scope v)) as [k|] eqn:Hk; injection He as <-; unfold get.
  - rewrite assoc_setitem_eq, assoc_setitem_ne by done. rewrite Hm, Hv. cbn. by rewrite Hk.
  - rewrite assoc_pop_eq, assoc_pop_ne by done. rewrite Hm, Hv. cbn. by rewrite Hk.
Qed.

(** C10: The filter sent to the vector store ([qdrant_project_filter]) and the
    filter applied to what was retrieved without it ([matches_project_scope])
    agree on every stored payload: a payload that carries a [project_id] and was
    enriched by [enrich_project_scope] before it was stored, whose project, if
    it has one, has the lookup key of a known project. Unscoped, there is no
    filter and every payload is accepted; otherwise the store passes exactly the
    payloads that [matches_project_scope] accepts. The vector store is any that
    obeys the documented meaning of a required [match.any]. *)
Theorem scope_filters_agree `{QdrantLaws} (raw payload : dict) (v project_id : json) (known : list json) :
  assoc "project_id" raw = Some v → enrich_project_scope (JObj raw) = JObj payload →
  (∀ k, project_id_lookup_key (get "project_id" payload) = Some k →
     ∃ w, w ∈ known ∧ project_id_lookup_key w = Some k) →
  match qdrant_project_filter project_id known with
  | None => matches_project_scope payload project_id = true
  | Some filter => qdrant_passes filter payload = matches_project_scope payload project_id
  end.
Proof.
  intros Hv He Hknown. pose proof (enriched_payload _ _ _ He Hv) as Hn.
  unfold qdrant_project_filter, matches_project_scope.
  destruct (project_id_scope_keys project_id known) as [keys|] eqn:E.
  2: { unfold project_id_scope_keys in E. by destruct (project_id_lookup_key project_id). }
  cbn [mbind option_bind]. fold (any_of PROJECT_ID_NORMALIZED_FIELD keys). pose proof (λ k, elem_of_scope_keys _ _ _ k E) as Hkeys.
  destruct (project_id_lookup_key project_id) as [q|] eqn:Hq; [|by unfold project_id_scope_keys in E; rewrite Hq in E].
  unfold candidate_project, get_default. destruct (project_id_lookup_key (get "project_id" payload)) as [k|] eqn:Hk;
    cbn [fmap option_fmap option_map] in Hn; rewrite Hn.
  - rewrite (passes_any _ _ _ _ Hn). change (from_option _ _ (Some (JStr k))) with (JStr k). rewrite (lookup_key_folded _ _ Hk). apply Bool.eq_iff_eq_true.
    rewrite in_list_elem, Hkeys. split.
    + intros [[= ->]|(q' & w & [= <-] & _ & _ & Hp)]; [apply startswith_refl|done].
    + intros Hp. destruct (Hknown k eq_refl) as (w & Hw & Hwk). right. by exists q, w.
  - rewrite (passes_absent _ _ _ Hn). cbn [from_option]. by rewrite Hk.
Qed.
(** A store that evaluates such filters. *)
Definition condition_holds (payload : dict) (condition : json) : bool :=
  match condition with
  | JObj c =>
      match get "key" c, get "match" c with
      | JStr key, JObj m =>
          match get "any" m, assoc key payload with
          | JArr values, Some (JStr v) => existsb (λ w, match w with JStr w => String.eqb v w | _ => false end) values
          | _, _ => false
          end
      | _, _ => false
      end
  | _ => false
  end.
#[local] Instance local_store : QdrantApi := λ filter payload,
  match filter with
  | JObj f => match get "must" f with JArr conditions => forallb (condition_holds payload) conditions | _ => true end
  | _ => false
  end.
#[local] Instance local_store_laws : QdrantLaws.
Proof.
  split.
  - intros key keys payload v Hv. cbn. rewrite Hv, andb_true_r. unfold in_list.
    induction keys as [|k keys IH]; [done|]. cbn. by rewrite IH.
  - intros key keys payload Hv. cbn. by rewrite Hv.
Qed.
Lemma scope_filters_agree_witness :
  let payload := [("project_id", JStr "Bank_Android"); ("project_id_normalized", JStr "bank_android")] in
  (∃ filter, qdrant_project_filter (JStr " Bank ") [JStr "shop"; JStr "bank_android"] = Some filter ∧
     qdrant_passes filter payload = true) ∧ matches_project_scope payload (JStr " Bank ") = true.
Proof.
  intros payload.
  pose proof (scope_filters_agree [("project_id", JStr "Bank_Android")] payload (JStr "Bank_Android") (JStr " Bank ")
    [JStr "shop"; JStr "bank_android"] eq_refl eq_refl) as Ha.
  destruct (qdrant_project_filter _ _) as [filter|] eqn:Hf; [|discriminate Hf].
  assert (matches_project_scope payload (JStr " Bank ") = true) as Hm by reflexivity. rewrite Hm in Ha.
  split; [|done]. exists filter. split; [done|]. apply Ha.
  intros k [= <-]. exists (JStr "bank_android"). split; [right; left|reflexivity].
Defined.

(** [matches_repo_scope] is the Python twin of the Cypher fragment of
    [repo_scope_predicate]: on every stored repository string they give the
    same answer, under the parameters [prepare_repo_scope_parameters] binds. *)
Theorem repo_filters_agree (node_repo : string) (parameters : dict) :
  matches_repo_scope (JStr node_repo) (get "repo" parameters) =
  match assoc "repo" parameters with
  | Some _ => repo_predicate_holds node_repo (prepare_repo_scope_parameters parameters)
  | None => true
  end.
Proof.
  unfold get, prepare_repo_scope_parameters. destruct (assoc "repo" parameters) as [v|]; [|done].
  unfold repo_predicate_holds. rewrite assoc_setitem_ne by done.
  rewrite !assoc_setitem_eq. change (default JNull (Some v)) with v. unfold matches_repo_scope.
  destruct (normalize_project_id v) as [r|] eqn:Hr; [|reflexivity]. change (default EmptyString (Some r)) with r.
  assert (r ≠ EmptyString) as Hne.
  { unfold normalize_project_id in Hr. destruct v; [done|..]; apply nonempty_Some in Hr; destruct Hr as [Hr1 Hr2]; congruence. }
  assert (is_empty r = false) as -> by (by apply String.eqb_neq).
  assert (String.eqb r "" = false) as -> by (by apply String.eqb_neq).
  cbn [py_str orb]. destruct (is_empty node_repo) eqn:En; [|done].
  apply String.eqb_eq in En as ->. rewrite endswith_empty by done.
  by destruct r.
Qed.
