(* ===== verification/Identity.v ===== *)
(** Canonical identities ([code-tiny/tools/graph/journal/identity.py]): the run
    fingerprint and the deterministic job ID, over an uninterpreted SHA-256. *)
From S2P Require Import Prelude Json Models.

(** [sha256_hex]: the digest function is a parameter; theorems that need the
    absence of collisions take it as the hypothesis [CollisionFree]. *)
Class Sha256 : Type := sha256_hex : string → string.
Definition CollisionFree (H : Sha256) : Prop := Inj (=) (=) sha256_hex.

Section identity.
Context `{Sha256}.

Definition run_fingerprint (m : RunMetadata) : string :=
  sha256_hex (canonical_json (run_metadata_to_dict m)).
Definition run_id (m : RunMetadata) : string := "run_" +:+ run_fingerprint m.

Definition job_identity (run_fingerprint_value : string) (phase : OperationPhase)
    (operation_key : string) (sequence : Z) (payload_sha256 : string) : json := JObj [
  ("run_fingerprint", JStr run_fingerprint_value); ("phase", JStr (OperationPhase.phase_value phase));
  ("operation_key", JStr operation_key); ("sequence", JInt sequence);
  ("payload_sha256", JStr payload_sha256)].
Definition deterministic_job_id (run_fingerprint_value : string) (phase : OperationPhase)
    (operation_key : string) (sequence : Z) (payload_sha256 : string) : string :=
  "job_" +:+ sha256_hex (canonical_json
    (job_identity run_fingerprint_value phase operation_key sequence payload_sha256)).
End identity.

(** * Identities determine what they identify *)

Section injectivity.
Context `{H : Sha256}.
Hypothesis no_collision : CollisionFree H.

Lemma str_app_inj_l (p a b : string) : p +:+ a = p +:+ b → a = b.
Proof. induction p as [|c p IH]; [done|]. rewrite !str_app_cons. intros [= Heq]. by apply IH. Qed.

Lemma deterministic_job_id_inj f1 p1 k1 s1 d1 f2 p2 k2 s2 d2 :
  deterministic_job_id f1 p1 k1 s1 d1 = deterministic_job_id f2 p2 k2 s2 d2 →
  f1 = f2 ∧ p1 = p2 ∧ k1 = k2 ∧ s1 = s2 ∧ d1 = d2.
Proof using no_collision.
  intros Heq%str_app_inj_l%no_collision.
  apply canonical_json_inj in Heq; [|done..]. vm_compute in Heq. simplify_eq.
  repeat split. by destruct p1, p2.
Qed.

Definition sorted_versions (m : RunMetadata) : Prop :=
  NoDup (operation_versions m).*1 ∧ order_by fst (operation_versions m) = operation_versions m.

Lemma versions_sorted (l : list (string * Z)) :
  NoDup l.*1 → order_by fst l = l →
  sort_keys (JObj (map (λ kv, (kv.1, JInt kv.2)) l)) = JObj (map (λ kv, (kv.1, JInt kv.2)) l).
Proof.
  intros Hnd Hl. simpl. f_equal.
  rewrite map_map; simpl. rewrite <- Hl. by apply order_by_fst_map.
Qed.

Lemma versions_inj (l1 l2 : list (string * Z)) :
  map (λ kv, (kv.1, JInt kv.2)) l1 = map (λ kv, (kv.1, JInt kv.2)) l2 → l1 = l2.
Proof.
  revert l2. induction l1 as [|[k v] l1 IH]; intros [|[k2 v2] l2]; simpl; try done.
  intros Heq. simplify_eq. f_equal. by apply IH.
Qed.

Lemma run_metadata_wf m : json_wf (run_metadata_to_dict m) = true.
Proof. simpl. by induction (operation_versions m). Qed.

(** The twelve keys in sorted order; the nested version object is sorted too. *)
Lemma sort_keys_metadata m : sorted_versions m →
  sort_keys (run_metadata_to_dict m) = JObj [
    ("contract_version", JInt (contract_version m)); ("generation", JStr (generation m));
    ("operation_versions", JObj (map (λ kv, (kv.1, JInt kv.2)) (operation_versions m)));
    ("parser", JStr (parser m)); ("parser_version", JStr (parser_version m));
    ("physical_target", JStr (physical_target m)); ("project_id", JStr (project_id m));
    ("query_shape_version", JStr (query_shape_version m));
    ("schema_fingerprint", JStr (schema_fingerprint m)); ("scope_id", JStr (scope_id m));
    ("source_revision", JStr (source_revision m)); ("source_snapshot", JStr (source_snapshot m))].
Proof.
  intros [Hnd Hs]. rewrite <- (versions_sorted _ Hnd Hs). unfold run_metadata_to_dict.
  generalize (JObj (map (λ kv, (kv.1, JInt kv.2)) (operation_versions m))). intros w.
  vm_compute. reflexivity.
Qed.

Lemma run_metadata_json_inj m1 m2 : sorted_versions m1 → sorted_versions m2 →
  canonical_json (run_metadata_to_dict m1) = canonical_json (run_metadata_to_dict m2) → m1 = m2.
Proof.
  intros Hs1 Hs2 Heq%canonical_json_inj; [|apply run_metadata_wf..].
  rewrite !sort_keys_metadata in Heq by done.
  destruct m1, m2; simpl in *. simplify_eq. f_equal. by apply versions_inj.
Qed.

(** A validated metadata record has its versions sorted. *)
Lemma make_run_metadata_sorted m m' : NoDup (operation_versions m).*1 →
  make_run_metadata m = Ok m' → sorted_versions m'.
Proof.
  intros Hnd. unfold make_run_metadata. repeat case_match; try done. intros [= <-].
  split; simpl; [by rewrite order_by_perm|by apply order_by_fst_idemp].
Qed.

Lemma run_id_inj m1 m2 : sorted_versions m1 → sorted_versions m2 → run_id m1 = run_id m2 → m1 = m2.
Proof using no_collision.
  intros ?? Heq%str_app_inj_l%no_collision. by apply run_metadata_json_inj.
Qed.
End injectivity.
