(* ===== verification/Operation.v ===== *)
(** The serializable operation contract of
    [code-tiny/tools/graph/journal/operation.py]: what a batch records of the
    mutation it stands for, instead of a query text. *)
From S2P Require Import Prelude Json Text PyValue Models Identity.
From Stdlib Require Import DecimalZ.

Definition _NODE_LABELS : list string :=
  ["aliases"; "classes"; "fields"; "files"; "function_types"; "functions"; "namespaces"; "packages";
   "projects"; "templates"; "types"; "variables"].

(** Label, identity property, row identity property, row properties property. *)
Definition _NODE_CONTRACTS : list (string * (string * string * string * option string)) :=
  [("aliases", ("Alias", "id", "id", None)); ("classes", ("Class", "id", "id", None));
   ("fields", ("Field", "id", "id", None)); ("files", ("File", "id", "id", None));
   ("function_types", ("FunctionType", "id", "id", None)); ("functions", ("Function", "id", "id", None));
   ("namespaces", ("Namespace", "id", "id", None)); ("packages", ("Package", "id", "id", None));
   ("projects", ("Project", "project_id", "id", None)); ("templates", ("Template", "id", "id", None));
   ("types", ("Type", "id", "id", None)); ("variables", ("Variable", "id", "id", None));
   ("properties", ("Property", "id", "id", None)); ("events", ("Event", "id", "id", None));
   ("interfaces", ("Interface", "id", "id", None)); ("enums", ("Enum", "id", "id", None));
   ("constants", ("Constant", "id", "id", None)); ("navigators", ("Navigator", "id", "id", None));
   ("param_lists", ("ParamList", "id", "id", None)); ("workflows", ("Workflow", "id", "id", None));
   ("workflow_steps", ("WorkflowStep", "id", "id", None));
   ("call_evidence:sites", ("CallSite", "site_id", "site_id", Some "props"));
   ("call_evidence:configurations",
    ("BuildConfiguration", "config_fingerprint", "config_fingerprint", Some "props"));
   ("call_evidence:coverage", ("SemanticCoverage", "fingerprint", "fingerprint", Some "props"))].

Definition phase_for_label (label : string) : OperationPhase :=
  let normalized := casefold (strip label) in
  if String.eqb normalized "calls" || startswith "calls:" normalized then OperationPhase.CALLS
  else if in_list normalized _NODE_LABELS then OperationPhase.NODES
  else if endswith "_edges" normalized || startswith "relations:" normalized
          || in_list normalized ["relations"; "relationships"] then OperationPhase.RELATIONSHIPS
  else OperationPhase.CUSTOM.

Record GraphWriteOperation := MkOperation {
  go_label : string; go_phase : OperationPhase; go_version : Z; go_idempotent : bool;
  go_reconciliation : string; go_node_label : option string; go_identity_property : option string;
  go_row_identity_property : string; go_row_properties_property : option string;
  go_mutation_kind : string; go_query_fingerprint : option string;
}.
#[export] Instance GraphWriteOperation_eq_dec : EqDecision GraphWriteOperation.
Proof. solve_decision. Defined.
#[export] Instance GraphWriteOperation_eta : Eta GraphWriteOperation := λ o,
  MkOperation (go_label o) (go_phase o) (go_version o) (go_idempotent o) (go_reconciliation o)
    (go_node_label o) (go_identity_property o) (go_row_identity_property o)
    (go_row_properties_property o) (go_mutation_kind o) (go_query_fingerprint o).

(** The constructor call with its defaults. *)
Definition operation (label : string) (phase : OperationPhase) : GraphWriteOperation :=
  MkOperation label phase 1 true "unsupported" None None "id" None "merge" None.
(** [__post_init__] *)
Definition make_operation (o : GraphWriteOperation) : res GraphWriteOperation :=
  if is_empty (strip (go_label o)) then Err ValueError
  else if (go_version o <? 1)%Z then Err ValueError
  else if negb (go_idempotent o) then Err ValueError
  else if negb (in_list (go_mutation_kind o) ["merge"; "match"]) then Err ValueError
  else Ok o.

Definition for_label (label : string) : res GraphWriteOperation :=
  let normalized := casefold (strip label) in
  let declare phase reconciliation :=
    make_operation ((operation label phase) <| go_reconciliation := reconciliation |>) in
  match Json.assoc normalized _NODE_CONTRACTS with
  | Some (node_label, identity_property, row_identity, row_properties) =>
      make_operation ((operation label OperationPhase.NODES)
        <| go_reconciliation := "node_identity" |> <| go_node_label := Some node_label |>
        <| go_identity_property := Some identity_property |>
        <| go_row_identity_property := row_identity |> <| go_row_properties_property := row_properties |>)
  | None =>
      if startswith "relations:" normalized then declare OperationPhase.RELATIONSHIPS "typed_relationship"
      else if String.eqb normalized "call_evidence:edges" || startswith "call_evidence:edges:" normalized
      then declare OperationPhase.RELATIONSHIPS "evidence_edge"
      else if String.eqb normalized "repo_file_edges" then declare OperationPhase.RELATIONSHIPS "repository_file"
      else if String.eqb normalized "calls" then declare OperationPhase.CALLS "call_edge"
      else if String.eqb normalized "calls:site" then declare OperationPhase.CALLS "call_site"
      else if String.eqb normalized "possible_calls:site" then declare OperationPhase.CALLS "possible_call_site"
      else make_operation (operation label (phase_for_label label))
  end.

Definition for_node_contract (label node_label identity_property row_identity_property : string)
    (row_properties_property : option string) : res GraphWriteOperation :=
  make_operation ((operation label OperationPhase.NODES)
    <| go_reconciliation := "node_identity" |> <| go_node_label := Some node_label |>
    <| go_identity_property := Some identity_property |>
    <| go_row_identity_property := row_identity_property |>
    <| go_row_properties_property := row_properties_property |>).

Definition for_incremental_cleanup (label reconciliation : string) (node_label : option string)
    : res GraphWriteOperation :=
  if negb (in_list reconciliation ["file_cleanup"; "orphan_unknown_cleanup"]) then Err ValueError
  else make_operation ((operation label OperationPhase.NODES)
    <| go_version := 2%Z |> <| go_reconciliation := reconciliation |>
    <| go_node_label := node_label |> <| go_mutation_kind := "match" |>).

(** A string field that counts as absent when it is empty. *)
Definition given (s : option string) : bool := match s with Some s => negb (is_empty s) | None => false end.

Definition operation_key (o : GraphWriteOperation) : string :=
  "graph-write/v" +:+ print_int (go_version o) +:+ "/" +:+ OperationPhase.phase_value (go_phase o)
  +:+ "/" +:+ go_label o
  +:+ match go_query_fingerprint o with
      | Some f => if is_empty f then EmptyString else "/" +:+ f
      | None => EmptyString
      end.

Definition opt_str (s : option string) : json := match s with Some s => JStr s | None => JNull end.
Definition to_dict (o : GraphWriteOperation) : dict := [
  ("label", JStr (go_label o)); ("phase", JStr (OperationPhase.phase_value (go_phase o)));
  ("version", JInt (go_version o)); ("idempotent", JBool (go_idempotent o));
  ("operation_key", JStr (operation_key o)); ("reconciliation", JStr (go_reconciliation o));
  ("node_label", opt_str (go_node_label o)); ("identity_property", opt_str (go_identity_property o));
  ("row_identity_property", JStr (go_row_identity_property o));
  ("row_properties_property", opt_str (go_row_properties_property o));
  ("mutation_kind", JStr (go_mutation_kind o)); ("query_fingerprint", opt_str (go_query_fingerprint o))].

(** [str(value[k]) if value.get(k) else None] *)
Definition optional_str (k : string) (value : dict) : option string :=
  let v := get k value in if truthy v then Some (py_str v) else None.
(** [value.get("operation_key") not in {None, key}]: an unhashable value raises. *)
Definition check_key (v : json) (key : string) : res unit :=
  match v with
  | JNull => Ok tt
  | JStr s => if String.eqb s key then Ok tt else Err ValueError
  | JArr _ | JObj _ => Err TypeError
  | _ => Err ValueError
  end.
Definition from_dict (value : dict) : res GraphWriteOperation :=
  label ← getitem "label" value;
  phase_text ← getitem "phase" value;
  phase ← match OperationPhase.phase_of_value (py_str phase_text) with
          | Some p => Ok p | None => Err ValueError end;
  version ← py_int (get_default "version" (JInt 1) value);
  o ← make_operation (MkOperation (py_str label) phase version
        (truthy (get_default "idempotent" (JBool true) value))
        (py_str (get_default "reconciliation" (JStr "unsupported") value))
        (optional_str "node_label" value) (optional_str "identity_property" value)
        (py_str (get_default "row_identity_property" (JStr "id") value))
        (optional_str "row_properties_property" value)
        (py_str (get_default "mutation_kind" (JStr "merge") value))
        (optional_str "query_fingerprint" value));
  _ ← check_key (get "operation_key" value) (operation_key o);
  Ok o.

(** * [_SAFE_NODE_QUERY_PATTERN] *)

Record safe_match := MkSafeMatch {
  sm_verb : string; sm_variable : string; sm_label : string; sm_identity : string;
  sm_row_identity : string; sm_properties : option string;
}.
(** The optional [RETURN count] of the variable, up to the end of the text. *)
Definition safe_return (variable s : string) : bool :=
  is_empty s ||
  match (s ← keyword "RETURN" s; s ← spaces s; s ← keyword "count(" s; s ← keyword variable s;
         s ← keyword ")" s; s ← spaces s; s ← keyword "AS" s; s ← spaces s; keyword "count" s) with
  | Some s => is_empty (lstrip s)
  | None => false
  end.
(** The optional name after [row.]: greedy, it gives its last characters back
    until the rest of the pattern matches. *)
Fixpoint safe_properties (fuel : nat) (variable taken s : string) : option string :=
  if is_identifier taken && safe_return variable (lstrip s) then Some taken
  else match fuel with
       | O => None
       | S fuel =>
           let n := (String.length taken - 1)%nat in
           safe_properties fuel variable (take n taken) (String.substring n 1 taken +:+ s)
       end.
Definition safe_tail (variable s : string) : option (option string) :=
  let with_name := s' ← keyword "." s; '(name, rest) ← identifier s';
                   safe_properties (String.length name) variable name rest in
  match with_name with
  | Some name => Some (Some name)
  | None => if safe_return variable (lstrip s) then Some None else None
  end.
Definition safe_verb (s : string) : option (string * string) :=
  match keyword "MERGE" s with
  | Some s' => Some (take 5 s, s')
  | None => s' ← keyword "MATCH" s; Some (take 5 s, s')
  end.
Definition _SAFE_NODE_QUERY_PATTERN (cypher : string) : option safe_match :=
  s ← keyword "UNWIND" (lstrip cypher); s ← spaces s; s ← keyword "$rows" s; s ← spaces s;
  s ← keyword "AS" s; s ← spaces s; s ← keyword "row" s; s ← spaces s;
  '(verb, s) ← safe_verb s;
  s ← keyword "(" (lstrip s); '(variable, s) ← identifier (lstrip s);
  s ← keyword ":" (lstrip s); '(label, s) ← identifier s;
  s ← keyword "{" (lstrip s); '(identity, s) ← identifier (lstrip s);
  s ← keyword ":" (lstrip s); s ← keyword "row." (lstrip s); '(row_identity, s) ← identifier s;
  s ← keyword "}" (lstrip s); s ← keyword ")" (lstrip s); s ← spaces s;
  s ← keyword "SET" s; s ← spaces s; s ← keyword variable s; s ← keyword "+=" (lstrip s);
  s ← keyword "row" (lstrip s);
  properties ← safe_tail variable s;
  Some (MkSafeMatch verb variable label identity row_identity properties).

Section custom.
Context `{Sha256}.
Definition operation_for_custom_query (label cypher : string) : res GraphWriteOperation :=
  let query_fingerprint := take 16 (sha256_hex (join " " (split_ws cypher))) in
  match _SAFE_NODE_QUERY_PATTERN cypher with
  | Some m =>
      make_operation ((operation label OperationPhase.NODES)
        <| go_reconciliation := "node_identity" |> <| go_node_label := Some (sm_label m) |>
        <| go_identity_property := Some (sm_identity m) |>
        <| go_row_identity_property := sm_row_identity m |>
        <| go_row_properties_property := sm_properties m |>
        <| go_mutation_kind := casefold (sm_verb m) |>
        <| go_query_fingerprint := Some query_fingerprint |>)
  | None => make_operation ((operation label (phase_for_label label))
              <| go_query_fingerprint := Some query_fingerprint |>)
  end.
End custom.

(** * Lemmas *)

Lemma make_operation_id o o' : make_operation o = Ok o' → o' = o.
Proof. unfold make_operation. repeat case_match; try done. by intros [= <-]. Qed.
Lemma make_operation_again o o' : make_operation o = Ok o' → make_operation o' = Ok o'.
Proof. intros Ho. by pose proof (make_operation_id _ _ Ho) as ->. Qed.

Lemma truthy_str v : truthy v = true → py_str v ≠ EmptyString.
Proof.
  destruct v as [|[]|z|r|s|l|l]; try done; simpl; intros Ht.
  - pose proof (print_int_length z). by destruct (print_int z); simpl in *; [lia|].
  - by destruct r.
  - by destruct s.
Qed.

(** A field that would be lost by [str(x) if x else None]. *)
Definition normal (s : option string) : Prop := s ≠ Some EmptyString.
Definition normal_fields (o : GraphWriteOperation) : Prop :=
  normal (go_node_label o) ∧ normal (go_identity_property o) ∧
  normal (go_row_properties_property o) ∧ normal (go_query_fingerprint o).

Lemma optional_str_opt k s d : normal s → Json.assoc k d = Some (opt_str s) → optional_str k d = s.
Proof.
  unfold optional_str, get, normal. intros Hs ->. change (default JNull (Some (opt_str s))) with (opt_str s).
  destruct s as [s|]; [|done]. simpl. unfold is_empty. destruct (String.eqb s "") eqn:E; [|done].
  bool_hyps. congruence.
Qed.
Lemma map_sort_keys_scalar (d : dict) :
  forallb (λ kv, match kv.2 with JArr _ | JObj _ => false | _ => true end) d = true →
  map (λ kv, (kv.1, sort_keys kv.2)) d = d.
Proof.
  induction d as [|[k v] d IH]; simpl; [done|]. intros Hb. bool_hyps. rewrite IH by done.
  by destruct v.
Qed.

Lemma to_dict_scalars o :
  forallb (λ kv, match kv.2 with JArr _ | JObj _ => false | _ => true end) (to_dict o) = true.
Proof. destruct o as [? ? ? ? ? [] [] ? [] ? []]; reflexivity. Qed.
Lemma to_dict_keys o : NoDup (to_dict o).*1.
Proof.
  change (to_dict o).*1 with ["label"; "phase"; "version"; "idempotent"; "operation_key"; "reconciliation";
    "node_label"; "identity_property"; "row_identity_property"; "row_properties_property";
    "mutation_kind"; "query_fingerprint"]. apply (bool_decide_unpack _). vm_compute. exact I.
Qed.
Lemma to_dict_wf o : json_wf (JObj (to_dict o)) = true.
Proof. destruct o as [? ? ? ? ? [] [] ? [] ? []]; reflexivity. Qed.

(** [from_dict] only looks keys up, so it is indifferent to their order. *)
Lemma from_dict_ext d d' : (∀ k, Json.assoc k d = Json.assoc k d') → from_dict d = from_dict d'.
Proof.
  intros He. unfold from_dict, getitem, get_default, optional_str, get. by rewrite !He.
Qed.
Lemma from_dict_to_dict o : make_operation o = Ok o → normal_fields o → from_dict (to_dict o) = Ok o.
Proof.
  intros Hm (H1 & H2 & H3 & H4). unfold from_dict, getitem, get_default, get.
  rewrite (optional_str_opt "node_label" _ _ H1), (optional_str_opt "identity_property" _ _ H2),
    (optional_str_opt "row_properties_property" _ _ H3), (optional_str_opt "query_fingerprint" _ _ H4) by done.
  cbn [to_dict Json.assoc String.eqb Ascii.eqb Bool.eqb].
  cbn [mbind result_bind default from_option id py_str py_int truthy].
  rewrite OperationPhase.phase_of_value_value. cbn [mbind result_bind].
  destruct o; cbn [go_label go_phase go_version go_idempotent go_reconciliation go_node_label go_identity_property
    go_row_identity_property go_row_properties_property go_mutation_kind go_query_fingerprint].
  rewrite Hm. cbn [mbind result_bind check_key]. by rewrite String.eqb_refl.
Qed.

(** * Properties *)

(** An operation descriptor survives its storage: the canonical JSON of
    [to_dict] decodes to an object from which [from_dict] restores the same
    operation. *)
Theorem descriptor_roundtrip (o : GraphWriteOperation) :
  make_operation o = Ok o → normal_fields o →
  ∃ d, loads (canonical_json (JObj (to_dict o))) = Some (JObj d) ∧ from_dict d = Ok o.
Proof.
  intros Hm Hn. rewrite loads_canonical by apply to_dict_wf.
  exists (order_by fst (to_dict o)). split.
  - change (sort_keys (JObj (to_dict o))) with
      (JObj (order_by fst (map (λ kv, (kv.1, sort_keys kv.2)) (to_dict o)))).
    by rewrite map_sort_keys_scalar by apply to_dict_scalars.
  - rewrite <- (from_dict_to_dict o Hm Hn). apply from_dict_ext. intros k.
    apply assoc_order_by.
Qed.
Lemma descriptor_roundtrip_witness :
  let o := MkOperation "functions" OperationPhase.NODES 1 true "node_identity" (Some "Function") (Some "id")
             "id" None "merge" None in
  make_operation o = Ok o ∧
  ∃ d, loads (canonical_json (JObj (to_dict o))) = Some (JObj d) ∧ from_dict d = Ok o.
Proof. split; [reflexivity|]. by apply descriptor_roundtrip. Defined.

(** A descriptor that was altered is not restored: when [from_dict] returns
    an operation, that operation passes the constructor's validation and a
    stored key, if there is one, is the key of what was restored. *)
Theorem restored_operation_valid (d : dict) (o : GraphWriteOperation) :
  from_dict d = Ok o →
  make_operation o = Ok o ∧ normal_fields o ∧
  (get "operation_key" d = JNull ∨ get "operation_key" d = JStr (operation_key o)).
Proof.
  unfold from_dict. destruct (getitem "label" d); [|done]. destruct (getitem "phase" d); [|done].
  cbn [mbind result_bind]. destruct (OperationPhase.phase_of_value _); [|done]. cbn [mbind result_bind].
  destruct (py_int _); [|done]. cbn [mbind result_bind].
  destruct (make_operation _) as [o'|] eqn:Hm; [|done]. cbn [mbind result_bind].
  destruct (check_key _ _) as [[]|] eqn:Hk; [|done]. intros [= <-].
  split; [by eapply make_operation_again|]. apply make_operation_id in Hm as ->.
  assert (∀ k, normal (optional_str k d)) as Hn.
  { intros k. unfold normal, optional_str. destruct (truthy (get k d)) eqn:Ht; [|done].
    intros [= He]. by apply (truthy_str (get k d)). }
  split; [exact (conj (Hn _) (conj (Hn _) (conj (Hn _) (Hn _))))|].
  destruct (get "operation_key" d) as [| | | |s| |]; simpl in Hk; try discriminate Hk; [by left|].
  destruct (String.eqb s _) eqn:E; [|done]. bool_hyps. right. by rewrite E.
Qed.
Lemma restored_operation_valid_witness :
  let d := [("label", JStr "x"); ("phase", JStr "nodes"); ("version", JStr "2")] in
  let o := (operation "x" OperationPhase.NODES) <| go_version := 2%Z |> in
  from_dict d = Ok o ∧ make_operation o = Ok o ∧ normal_fields o ∧
  (get "operation_key" d = JNull ∨ get "operation_key" d = JStr (operation_key o)).
Proof. intros d o. split; [reflexivity|]. apply (restored_operation_valid d o). reflexivity. Defined.

Lemma str_app_inj_r (a b c : string) : a +:+ c = b +:+ c → a = b.
Proof.
  revert b. induction a as [|x a IH]; intros [|y b]; rewrite ?str_app_nil_l, ?str_app_cons; intros He.
  - done.
  - apply (f_equal String.length) in He. simpl in He. rewrite str_length_app in He. lia.
  - apply (f_equal String.length) in He. simpl in He. rewrite str_length_app in He. lia.
  - injection He as -> He. by rewrite (IH _ He).
Qed.
(** A field of characters in [p], ended by one that is not, is read back. *)
Lemma field_inj p c a1 r1 a2 r2 :
  all_chars p a1 = true → all_chars p a2 = true → p c = false →
  a1 +:+ String c r1 = a2 +:+ String c r2 → a1 = a2 ∧ r1 = r2.
Proof.
  intros H1 H2 Hc He. apply (f_equal (span p)) in He.
  rewrite !span_app_stop in He by done. by injection He as -> ->.
Qed.

(** The key of an operation identifies it: operations with the same key
    and the same query fingerprint (in particular none) have the same version,
    phase and label. *)
Theorem operation_key_inj (o1 o2 : GraphWriteOperation) :
  operation_key o1 = operation_key o2 → go_query_fingerprint o1 = go_query_fingerprint o2 →
  go_version o1 = go_version o2 ∧ go_phase o1 = go_phase o2 ∧ go_label o1 = go_label o2.
Proof.
  unfold operation_key. intros Hk Hf. rewrite Hf in Hk. apply str_app_inj_l in Hk.
  assert (∀ x, "/" +:+ x = String "/" x) as Hs by (intros; by rewrite str_app_cons, str_app_nil_l).
  rewrite !Hs in Hk.
  apply (field_inj is_int_char) in Hk as [Hv Hk]; [|apply print_int_chars..|done].
  apply (field_inj is_word) in Hk as [Hp Hk]; [|destruct (go_phase o1); vm_compute; reflexivity|destruct (go_phase o2); vm_compute; reflexivity|done].
  apply str_app_inj_r in Hk. repeat split; [|by destruct (go_phase o1), (go_phase o2)|done].
  pose proof (parse_print_int (go_version o1)) as H1. rewrite Hv, parse_print_int in H1.
  injection H1 as H1. by apply DecimalZ.to_int_inj.
Qed.
Lemma operation_key_inj_witness :
  let o := operation "calls" OperationPhase.CALLS in
  let o' := o <| go_mutation_kind := "match" |> in
  operation_key o = operation_key o' ∧ go_version o = go_version o' ∧
  go_phase o = go_phase o' ∧ go_label o = go_label o'.
Proof. intros o o'. split; [reflexivity|]. apply (operation_key_inj o o'); reflexivity. Defined.
