(* ===== verification/Schema.v ===== *)
(** The schema manifest of [code-tiny/tools/graph/schema/manifest.py]: which
    label and property pairs carry a required lookup index, and the validation
    of Cypher identifiers. *)
From S2P Require Import Prelude Json Models Identity Text.

(** [validate_cypher_identifier] *)
Definition validate_cypher_identifier (value : string) : res string :=
  if is_identifier value then Ok value else Err ValueError.

(** * Indexes *)

Record SchemaIndex := MkSchemaIndex {
  si_label : string; si_properties : list string; si_index_type : string;
  si_entity_type : string; si_required : bool;
}.
#[export] Instance SchemaIndex_eq_dec : EqDecision SchemaIndex.
Proof. solve_decision. Defined.

(** [for x in xs: check(x)], for checks that only raise. *)
Fixpoint check_all {A B} (check : A → res B) (xs : list A) : res unit :=
  match xs with [] => Ok tt | x :: xs => _ ← check x; check_all check xs end.

(** [SchemaIndex.__post_init__] *)
Definition make_schema_index (i : SchemaIndex) : res SchemaIndex :=
  _ ← validate_cypher_identifier (si_label i);
  if bool_decide (si_properties i = []) then Err ValueError
  else
    _ ← check_all validate_cypher_identifier (si_properties i);
    if negb (in_list (si_index_type i) ["range"; "fulltext"]) then Err ValueError
    else if negb (String.eqb (si_entity_type i) "node") then Err ValueError
    else Ok i.

(** [SchemaIndex(label, properties)] with the defaults of the dataclass. *)
Definition schema_index (label : string) (properties : list string) : SchemaIndex :=
  MkSchemaIndex label properties "range" "node" true.
Definition schema_index_key (i : SchemaIndex) : string * list string * string * string :=
  (si_label i, si_properties i, si_index_type i, si_entity_type i).
(** [as_driver_dict] *)
Definition as_driver_dict (i : SchemaIndex) : json := JObj [
  ("label", JStr (si_label i));
  ("property", match si_properties i with [p] => JStr p | ps => JArr (map JStr ps) end);
  ("type", JStr (si_index_type i))].

(** * Manifests *)

Record GraphSchemaManifest := MkGraphSchemaManifest {
  gs_name : string; gs_version : Z; gs_indexes : list SchemaIndex;
  gs_relationship_types : list (string * list string * list string * bool);
}.

(** [len(xs) != len(set(xs))] *)
Definition has_duplicates {A} `{EqDecision A} (xs : list A) : bool := negb (bool_decide (NoDup xs)).
(** [GraphSchemaManifest.__post_init__] *)
Definition make_graph_schema (g : GraphSchemaManifest) : res GraphSchemaManifest :=
  _ ← validate_cypher_identifier (gs_name g);
  if (gs_version g <? 1)%Z then Err ValueError
  else if has_duplicates (map schema_index_key (gs_indexes g)) then Err ValueError
  else if has_duplicates (map (λ r, r.1.1.1) (gs_relationship_types g)) then Err ValueError
  else
    _ ← check_all (λ r, validate_cypher_identifier r.1.1.1) (gs_relationship_types g);
    Ok g.

(** Tuples compare lexicographically, [False < True]. *)
#[export] Instance bool_cmp : Cmp bool := λ x y,
  match x, y with false, true => Lt | true, false => Gt | _, _ => Eq end.
Fixpoint list_compare {A} `{Cmp A} (x y : list A) : comparison :=
  match x, y with
  | [], [] => Eq
  | [], _ => Lt
  | _, [] => Gt
  | a :: x, b :: y => match cmp a b with Eq => list_compare x y | c => c end
  end.
#[export] Instance list_cmp {A} `{Cmp A} : Cmp (list A) := list_compare.
Definition index_order (i : SchemaIndex) := (schema_index_key i, si_required i).

Section fingerprint.
Context `{Sha256}.
(** [GraphSchemaManifest.fingerprint] *)
Definition schema_payload (g : GraphSchemaManifest) : json := JObj [
  ("name", JStr (gs_name g)); ("version", JInt (gs_version g));
  ("indexes", JArr (map (λ i, JObj [
     ("label", JStr (si_label i)); ("properties", JArr (map JStr (si_properties i)));
     ("type", JStr (si_index_type i)); ("entity_type", JStr (si_entity_type i));
     ("required", JBool (si_required i))]) (order_by index_order (gs_indexes g))));
  ("relationship_types", JArr (map (λ r, JObj [
     ("type", JStr r.1.1.1); ("source_labels", JArr (map JStr r.1.1.2));
     ("target_labels", JArr (map JStr r.1.2)); ("endpoint_policy", JBool r.2)])
     (order_by id (gs_relationship_types g))))].
Definition schema_fingerprint_of (g : GraphSchemaManifest) : string :=
  take 16 (sha256_hex (canonical_json (schema_payload g))).
End fingerprint.

(** [driver_indexes], with the indexes selected or all of them. *)
Definition driver_indexes (g : GraphSchemaManifest) (selected : option (list SchemaIndex)) : list json :=
  map as_driver_dict (default (gs_indexes g) selected).

Definition has_identity_index (g : GraphSchemaManifest) (label property_name : string) : bool :=
  existsb (λ i, String.eqb (si_label i) label && bool_decide (si_properties i = [property_name])
                && String.eqb (si_index_type i) "range" && si_required i) (gs_indexes g).

(** * The canonical code-graph schema *)

Definition _id_indexes (labels : list string) : list SchemaIndex :=
  map (λ label, schema_index label ["id"]) labels.

Definition id_labels : list string := [
    "Alias"; "Action"; "Advice"; "AndroidComponent"; "AndroidAnnotation"; "AndroidHandlerMessage";
    "AndroidIntentAction"; "AndroidManifest"; "AndroidNavRoute"; "AndroidResource"; "ApiEndpoint";
    "ApplicationEvent"; "AspNetAnalysisState"; "Aspect"; "AsyncBoundary"; "AuthenticationScheme";
    "Authority"; "AuthorizationPolicy"; "BuildConfiguration"; "BuildDescriptor"; "CacheOperation";
    "CacheRegion"; "CallSite"; "Class"; "CobolCicsCommand"; "CobolCopybook"; "CobolDataItem";
    "CobolFile"; "CobolParagraph"; "CobolProgram"; "CobolSection"; "CobolSqlStatement";
    "Constant"; "ConfigurationKey"; "Control"; "Controller"; "DataRepository"; "Database";
    "DatabaseColumn"; "DatabaseTable"; "Delegate"; "Dependency"; "Directory"; "Document"; "Enum";
    "ErrorPage"; "Event"; "Field"; "File"; "Filter"; "FilterMapping"; "FrameworkInstance";
    "Function"; "FunctionType"; "GradleDependency"; "GradleModule"; "GrpcEndpoint"; "GrpcService";
    "GraphWriteReceipt"; "HttpEndpoint"; "HttpHandler"; "HttpModule"; "Interface"; "InfraNode";
    "JSPView"; "JpaEntity"; "Jp1Unit"; "JspExpression"; "JspTag"; "Layout"; "LifecycleEvent";
    "Listener"; "Message"; "MessageDestination"; "MessageEndpoint"; "Middleware"; "Model";
    "MyBatisArtifact"; "MyBatisCache"; "MyBatisConfig"; "MyBatisDynamicNode"; "MyBatisExtension";
    "MyBatisInclude"; "MyBatisJavaProperty"; "MyBatisMapper"; "MyBatisMapperMethod";
    "MyBatisModule"; "MyBatisParameter"; "MyBatisResultMap"; "MyBatisResultMapping";
    "MyBatisSpringBridge"; "MyBatisSqlFragment"; "MyBatisSqlJoin"; "MyBatisSqlParameter";
    "MyBatisSqlProvider"; "MyBatisSqlStatement"; "MyBatisStatement"; "MyBatisXmlDocument";
    "Namespace"; "Navigator"; "Package"; "PageHandler"; "Paragraph"; "ParseRun"; "PartialView";
    "Pointcut"; "Procedure"; "ProjectModule"; "Property"; "RazorPage"; "Repository"; "Resource";
    "Result"; "RouteParam"; "Route"; "ScheduledTask"; "SemanticCoverage"; "SecurityConstraint";
    "SecurityFilterChain"; "SecurityRule"; "Service"; "BatchProgram"; "ShellFunction";
    "ShellInvocation"; "ShellScript"; "Servlet"; "ServletJspAnalysisState"; "ServletJspModule";
    "ServletMapping"; "SessionState"; "SqlCursor"; "SqlDirective"; "SqlHostVariable";
    "SqlStatement"; "SpringApplication"; "SpringBean"; "SpringConfiguration"; "SpringModule";
    "StateSlot"; "Table"; "Template"; "TransactionBoundary"; "Type"; "UIControl";
    "UnknownFunction"; "ValidationConstraint"; "ValidationRule"; "Variable"; "View"; "ViewModel";
    "WebConfiguration"; "WebDescriptor"; "WebFormPage"; "WebTarget"; "WelcomePage"].

Definition CODE_GRAPH_SCHEMA : GraphSchemaManifest := MkGraphSchemaManifest "code_graph" 2
  ([schema_index "Project" ["project_id"]; schema_index "Repository" ["name"];
    schema_index "Workflow" ["workflow_id"]]
   ++ _id_indexes id_labels ++
   [schema_index "ApiEndpoint" ["symbol_id"]; schema_index "Controller" ["symbol_id"];
    schema_index "DataRepository" ["symbol_id"]; schema_index "Database" ["symbol_id"];
    schema_index "Middleware" ["symbol_id"]; schema_index "Service" ["symbol_id"];
    schema_index "BuildConfiguration" ["config_fingerprint"]; schema_index "CallSite" ["site_id"];
    schema_index "SemanticCoverage" ["tu_key"]; schema_index "SemanticCoverage" ["fingerprint"]])
  [("HAS_CALLSITE", ["Function"], ["CallSite"], true);
   ("RESOLVES_TO", ["CallSite"], ["Function"], true);
   ("OBSERVED_AS", ["CallSite"], ["Function"], false);
   ("IN_CONFIGURATION", ["CallSite"], ["BuildConfiguration"], true);
   ("MAPS_TO_SOURCE", ["CallSite"], ["File"], false);
   ("EXECUTES_SQL", ["Function"], ["SqlStatement"], false);
   ("RESOLVES_HOST_DECLARATION", ["SqlHostVariable"], ["Function"; "Variable"; "Field"], false)].

(** The manifest passes its own validation, and every index in it too. *)
Example CODE_GRAPH_SCHEMA_builds : make_graph_schema CODE_GRAPH_SCHEMA = Ok CODE_GRAPH_SCHEMA.
Proof. vm_compute. reflexivity. Qed.
Lemma schema_indexes_build :
  forallb (λ i, is_ok (make_schema_index i)) (gs_indexes CODE_GRAPH_SCHEMA) = true.
Proof. vm_compute. reflexivity. Qed.

(** ** What an index hit says of a label *)

Lemma has_identity_index_in g label p : has_identity_index g label p = true →
  ∃ i, i ∈ gs_indexes g ∧ si_label i = label ∧ si_properties i = [p].
Proof.
  unfold has_identity_index. rewrite existsb_exists. intros (i & Hi & Hb). bool_hyps.
  exists i. by rewrite list_elem_of_In.
Qed.
(** A property that holds of every index of the schema holds of an indexed pair. *)
Lemma indexed_pair (P : string → string → bool) label p :
  forallb (λ i, match si_properties i with [q] => P (si_label i) q | _ => true end)
    (gs_indexes CODE_GRAPH_SCHEMA) = true →
  has_identity_index CODE_GRAPH_SCHEMA label p = true → P label p = true.
Proof.
  intros Hall (i & Hi & <- & Hp)%has_identity_index_in.
  rewrite forallb_forall in Hall. apply list_elem_of_In in Hi. specialize (Hall i Hi).
  by rewrite Hp in Hall.
Qed.
Lemma indexed_identifiers label p : has_identity_index CODE_GRAPH_SCHEMA label p = true →
  is_identifier label = true ∧ is_identifier p = true.
Proof.
  intros Hi. apply andb_true_iff.
  apply (indexed_pair (λ l p, is_identifier l && is_identifier p) label p); [|done]. vm_compute. reflexivity.
Qed.
