(* ===== verification/QueryContract.v ===== *)
(** Safe Cypher construction of [code-tiny/tools/graph/writer/query_contract.py]:
    rows are grouped by a validated edge shape, and a query is an f-string of
    literal text and the identifiers of the shape. *)
From S2P Require Import Prelude Json Text PyValue Scope Models Identity Schema.

(** * f-strings *)

(** A piece of an f-string: literal text, or an interpolated value. *)
Inductive piece := Lit (s : string) | Val (s : string).
Definition piece_text (p : piece) : string := match p with Lit s => s | Val s => s end.
Fixpoint render (ps : list piece) : string :=
  match ps with [] => EmptyString | p :: ps => piece_text p +:+ render ps end.

Lemma render_app ps qs : render (ps ++ qs) = render ps +:+ render qs.
Proof.
  induction ps as [|p ps IH]; simpl; [by rewrite str_app_nil_l|]. by rewrite IH, str_app_assoc.
Qed.

(** * Relationship groups *)

Record RelationshipGroup := MkRelationshipGroup {
  rg_source_label : string; rg_target_label : string; rg_relationship_type : string;
}.
#[export] Instance RelationshipGroup_eq_dec : EqDecision RelationshipGroup.
Proof. solve_decision. Defined.

Definition require_index (label property : string) : res unit :=
  if has_identity_index CODE_GRAPH_SCHEMA label property then Ok tt else Err ValueError.
(** [RelationshipGroup.__post_init__] *)
Definition make_relationship_group (g : RelationshipGroup) : res RelationshipGroup :=
  _ ← check_all validate_cypher_identifier [rg_source_label g; rg_target_label g; rg_relationship_type g];
  _ ← require_index (rg_source_label g) "id";
  _ ← require_index (rg_target_label g) "id";
  Ok g.
(** [RelationshipGroup.state_key] *)
Definition relation_state_key (g : RelationshipGroup) : string :=
  render [Lit "relations:"; Val (rg_source_label g); Lit ":"; Val (rg_relationship_type g); Lit ":";
          Val (rg_target_label g)].

(** [groups[group].append(row)] on a [defaultdict(list)]. *)
Section groups.
Context {G : Type} `{EqDecision G}.
Abbreviation grouping := (list (G * list dict)).
Fixpoint add_row (g : G) (row : dict) (groups : grouping) : grouping :=
  match groups with
  | [] => [(g, [row])]
  | (g', rows) :: groups =>
      if decide (g' = g) then (g', rows ++ [row]) :: groups else (g', rows) :: add_row g row groups
  end.
(** The loop over [enumerate(rows)]; [describe] is its body up to the append. *)
Fixpoint group_from (describe : Z → dict → res (G * dict)) (position : Z) (rows : list dict)
    (groups : grouping) : res grouping :=
  match rows with
  | [] => Ok groups
  | row :: rows =>
      '(g, row) ← describe position row;
      group_from describe (position + 1) rows (add_row g row groups)
  end.
End groups.

(** The scope both groupings add to a row. *)
Definition scoped_row (project_id : json) (row : dict) : res dict :=
  match project_id_lookup_key project_id with
  | None => Err ValueError
  | Some normalized_scope =>
      Ok (setitem "project_id_normalized" (JStr normalized_scope)
           (setitem "project_id" (JStr (strip (py_str project_id))) row))
  end.
Definition describe_relation (default_project_id : json) (position : Z) (relation : dict)
    : res (RelationshipGroup * dict) :=
  let source_label := get "source_label" relation in
  let target_label := get "target_label" relation in
  let relationship_type := get "rel_type" relation in
  if negb (truthy source_label) || negb (truthy target_label) || negb (truthy relationship_type)
  then Err ValueError
  else if negb (truthy (get "source_id" relation)) || negb (truthy (get "target_id" relation))
  then Err ValueError
  else
    let property_scope := match get "properties" relation with
                          | JObj properties => get "project_id" properties | _ => JNull end in
    row ← scoped_row (py_or (py_or (get "project_id" relation) property_scope) default_project_id) relation;
    group ← make_relationship_group (MkRelationshipGroup (py_str source_label) (py_str target_label)
              (py_str relationship_type));
    Ok (group, setitem "_contract_row_position" (JInt position) row).
Definition group_typed_relations (default_project_id : json) (relations : list dict)
    : res (list (RelationshipGroup * list dict)) :=
  group_from (describe_relation default_project_id) 0 relations [].

Definition compile_relationship_upsert (g : RelationshipGroup) : list piece := [
  Lit "UNWIND $rows AS row MATCH (a:"; Val (rg_source_label g);
  Lit " {id: row.source_id, project_id_normalized: row.project_id_normalized}) WITH row, a MATCH (b:";
  Val (rg_target_label g);
  Lit " {id: row.target_id, project_id_normalized: row.project_id_normalized}) MERGE (a)-[r:";
  Val (rg_relationship_type g);
  Lit "]->(b) SET r += coalesce(row.properties, {}), r.project_id = row.project_id, r.project_id_normalized = row.project_id_normalized RETURN count(r) AS count"].

Definition audit_tail : string :=
  "WITH row, source_matches, count(b) AS target_matches WHERE source_matches <> 1 OR target_matches <> 1 RETURN row.source_id AS source_id, row.target_id AS target_id, row.project_id_normalized AS project_id_normalized, source_matches, target_matches LIMIT 20".
Definition compile_relationship_endpoint_audit (g : RelationshipGroup) : list piece := [
  Lit "UNWIND $rows AS row OPTIONAL MATCH (a:"; Val (rg_source_label g);
  Lit " {id: row.source_id, project_id_normalized: row.project_id_normalized}) WITH row, count(a) AS source_matches OPTIONAL MATCH (b:";
  Val (rg_target_label g);
  Lit " {id: row.target_id, project_id_normalized: row.project_id_normalized}) "; Lit audit_tail].

(** * Evidence edges *)

Record EvidenceEdgeGroup := MkEvidenceEdgeGroup {
  eg_source_label : string; eg_source_property : string; eg_target_label : string;
  eg_target_property : string; eg_relationship_type : string; eg_edge_property : string;
}.
#[export] Instance EvidenceEdgeGroup_eq_dec : EqDecision EvidenceEdgeGroup.
Proof. solve_decision. Defined.

(** [EvidenceEdgeGroup.__post_init__] *)
Definition make_evidence_edge_group (g : EvidenceEdgeGroup) : res EvidenceEdgeGroup :=
  _ ← check_all validate_cypher_identifier [eg_source_label g; eg_target_label g; eg_relationship_type g;
        eg_source_property g; eg_target_property g];
  _ ← (if is_empty (eg_edge_property g) then Ok EmptyString
       else validate_cypher_identifier (eg_edge_property g));
  _ ← require_index (eg_source_label g) (eg_source_property g);
  _ ← require_index (eg_target_label g) (eg_target_property g);
  Ok g.
(** [EvidenceEdgeGroup.state_key] *)
Definition evidence_state_key (g : EvidenceEdgeGroup) : string :=
  render ([Lit "call_evidence:edges:"; Val (eg_source_label g); Lit ":"; Val (eg_source_property g);
           Lit ":"; Val (eg_relationship_type g); Lit ":"; Val (eg_target_label g); Lit ":";
           Val (eg_target_property g)]
          ++ if is_empty (eg_edge_property g) then [] else [Lit ":"; Val (eg_edge_property g)]).

Definition _EVIDENCE_EDGE_ROW_FIELDS : list string :=
  ["source_label"; "source_property"; "target_label"; "target_property"; "rel_type"].
(** [str(edge.get(field) or "")] *)
Definition text_of (field : string) (row : dict) : string := py_str (py_or (get field row) (JStr "")).
(** [(row.get("props") or {}).get("project_id")] *)
Definition props_scope (row : dict) : res json :=
  match py_or (get "props" row) (JObj []) with
  | JObj props => Ok (get "project_id" props)
  | _ => Err (OtherException "AttributeError")
  end.
Definition describe_evidence_edge (position : Z) (edge : dict) : res (EvidenceEdgeGroup * dict) :=
  if existsb (λ field, is_empty (strip (text_of field edge)))
       (_EVIDENCE_EDGE_ROW_FIELDS ++ ["source_id"; "target_id"])
  then Err ValueError
  else
    project_id ← (if truthy (get "project_id" edge) then Ok (get "project_id" edge) else props_scope edge);
    row ← scoped_row project_id edge;
    let edge_property := text_of "edge_property" edge in
    let edge_id := text_of "edge_id" edge in
    if negb (is_empty edge_property) && is_empty edge_id then Err ValueError
    else
      source_id ← getitem "source_id" row;
      let row := setitem "edge_id" (if is_empty edge_id then source_id else JStr edge_id) row in
      let field k := py_str (get k edge) in
      group ← make_evidence_edge_group (MkEvidenceEdgeGroup (field "source_label") (field "source_property")
                (field "target_label") (field "target_property") (field "rel_type") edge_property);
      Ok (group, row).
Definition group_evidence_edges (edges : list dict) : res (list (EvidenceEdgeGroup * list dict)) :=
  group_from describe_evidence_edge 0 edges [].

(** [MATCH (x:Label {property: row.key, ...})], common to the three queries. *)
Definition evidence_endpoint (match_ label property key : string) (after : string) : list piece := [
  Lit match_; Val label; Lit " {"; Val property; Lit ": row."; Lit key;
  Lit ", project_id_normalized: row.project_id_normalized})"; Lit after].
Definition edge_pattern (g : EvidenceEdgeGroup) : list piece :=
  if is_empty (eg_edge_property g) then [Val (eg_relationship_type g); Lit "]->"]
  else [Val (eg_relationship_type g); Lit " {"; Val (eg_edge_property g); Lit ": row.edge_id}]->"].
Definition compile_evidence_edge_upsert (g : EvidenceEdgeGroup) : list piece :=
  evidence_endpoint "UNWIND $rows AS row MATCH (a:" (eg_source_label g) (eg_source_property g) "source_id"
    " WITH row, a "
  ++ evidence_endpoint "MATCH (b:" (eg_target_label g) (eg_target_property g) "target_id" " MERGE (a)-[r:"
  ++ edge_pattern g
  ++ [Lit "(b) SET r += coalesce(row.props, {}), r.project_id = row.project_id, r.updated_at = datetime() RETURN count(r) AS count"].
Definition compile_evidence_edge_readback (g : EvidenceEdgeGroup) : list piece :=
  evidence_endpoint "UNWIND $rows AS row OPTIONAL MATCH (a:" (eg_source_label g) (eg_source_property g)
    "source_id" " -[r:"
  ++ edge_pattern g
  ++ evidence_endpoint "(b:" (eg_target_label g) (eg_target_property g) "target_id" " "
  ++ [Lit "RETURN count(r) AS count"].
Definition compile_evidence_endpoint_audit (g : EvidenceEdgeGroup) : list piece :=
  evidence_endpoint "UNWIND $rows AS row OPTIONAL MATCH (a:" (eg_source_label g) (eg_source_property g)
    "source_id" " WITH row, count(a) AS source_matches "
  ++ evidence_endpoint "OPTIONAL MATCH (b:" (eg_target_label g) (eg_target_property g) "target_id" " "
  ++ [Lit audit_tail].

(** * Lemmas *)

Definition ident_list (l : list string) : Prop := Forall (λ s, is_identifier s = true) l.
Lemma validate_identifier_ok s r : validate_cypher_identifier s = Ok r → is_identifier s = true.
Proof. unfold validate_cypher_identifier. by destruct (is_identifier s). Qed.
Lemma check_all_validate l : check_all validate_cypher_identifier l = Ok tt → ident_list l.
Proof.
  induction l as [|s l IH]; simpl; [by constructor|].
  destruct (validate_cypher_identifier s) eqn:E; [|done]. intros Hl.
  constructor; [by eapply validate_identifier_ok|by apply IH].
Qed.
Lemma require_index_ok label p u : require_index label p = Ok u →
  has_identity_index CODE_GRAPH_SCHEMA label p = true.
Proof. unfold require_index. by destruct (has_identity_index _ _ _). Qed.

(** What a group that could be built is made of. *)
Lemma relationship_group_ok g g' : make_relationship_group g = Ok g' →
  g' = g ∧ ident_list [rg_source_label g; rg_target_label g; rg_relationship_type g] ∧
  has_identity_index CODE_GRAPH_SCHEMA (rg_source_label g) "id" = true ∧
  has_identity_index CODE_GRAPH_SCHEMA (rg_target_label g) "id" = true.
Proof.
  unfold make_relationship_group.
  destruct (check_all _ _) as [[]|] eqn:Hc; [|done]. cbn [mbind result_bind].
  destruct (require_index (rg_source_label g) "id") eqn:Hs; [|done]. cbn [mbind result_bind].
  destruct (require_index (rg_target_label g) "id") eqn:Ht; [|done]. intros [= <-].
  split; [done|]. split; [by apply check_all_validate|]. by split; eapply require_index_ok.
Qed.
Lemma evidence_group_ok g g' : make_evidence_edge_group g = Ok g' →
  g' = g ∧ ident_list [eg_source_label g; eg_target_label g; eg_relationship_type g;
                       eg_source_property g; eg_target_property g] ∧
  (eg_edge_property g = EmptyString ∨ is_identifier (eg_edge_property g) = true) ∧
  has_identity_index CODE_GRAPH_SCHEMA (eg_source_label g) (eg_source_property g) = true ∧
  has_identity_index CODE_GRAPH_SCHEMA (eg_target_label g) (eg_target_property g) = true.
Proof.
  unfold make_evidence_edge_group.
  destruct (check_all _ _) as [[]|] eqn:Hc; [|done]. cbn [mbind result_bind].
  destruct (if is_empty _ then _ else _) as [x|] eqn:He; [|done]. cbn [mbind result_bind].
  destruct (require_index (eg_source_label g) _) eqn:Hs; [|done]. cbn [mbind result_bind].
  destruct (require_index (eg_target_label g) _) eqn:Ht; [|done]. intros [= <-].
  split; [done|]. split; [by apply check_all_validate|].
  split; [|by split; eapply require_index_ok].
  destruct (is_empty _) eqn:Em; [left; by apply String.eqb_eq|right; by eapply validate_identifier_ok].
Qed.

(** ** Grouping keeps every row, in order, in exactly one group *)

Section grouping_lemmas.
Context {G : Type} `{EqDecision G}.
Implicit Types groups : list (G * list dict).

Fixpoint rows_of (g : G) groups : list dict :=
  match groups with
  | [] => []
  | (g', rows) :: groups => if decide (g' = g) then rows else rows_of g groups
  end.
Fixpoint describe_all (describe : Z → dict → res (G * dict)) (position : Z) (rows : list dict)
    : res (list (G * dict)) :=
  match rows with
  | [] => Ok []
  | row :: rows => d ← describe position row; ds ← describe_all describe (position + 1) rows; Ok (d :: ds)
  end.
Definition of_group (g : G) (d : G * dict) : bool := bool_decide (d.1 = g).

Lemma add_row_keys g row groups g' : g' ∈ (add_row g row groups).*1 ↔ g' = g ∨ g' ∈ groups.*1.
Proof.
  induction groups as [|[h rs] groups IH]; simpl.
  - by rewrite list_elem_of_singleton, elem_of_nil, (right_id False or).
  - case_decide as E; simpl; rewrite !elem_of_cons.
    + subst h. split; [tauto|]. intros [->|?]; tauto.
    + rewrite IH. tauto.
Qed.
Lemma add_row_NoDup g row groups : NoDup groups.*1 → NoDup (add_row g row groups).*1.
Proof.
  induction groups as [|[h rs] groups IH]; simpl; intros Hnd; [by apply NoDup_singleton|].
  apply NoDup_cons in Hnd as [Hh Hnd]. case_decide as E; simpl; apply NoDup_cons; [done|].
  split; [|by apply IH]. rewrite add_row_keys. by intros [?|?].
Qed.
Lemma add_row_rows g row groups g' :
  rows_of g' (add_row g row groups) = rows_of g' groups ++ (if decide (g = g') then [row] else []).
Proof.
  induction groups as [|[h rs] groups IH]; simpl.
  - by case_decide; rewrite ?app_nil_r.
  - destruct (decide (h = g)) as [->|Hne]; simpl.
    + by case_decide; rewrite ?app_nil_r.
    + destruct (decide (h = g')) as [->|]; [|done]. rewrite decide_False by done. by rewrite app_nil_r.
Qed.
Lemma add_row_nonempty g row groups :
  Forall (λ gr, gr.2 ≠ []) groups → Forall (λ gr, gr.2 ≠ []) (add_row g row groups).
Proof.
  induction 1 as [|[h rs] groups Hh Hg IH]; simpl; [by repeat constructor|].
  case_decide; constructor; simpl in *; try done. by destruct rs.
Qed.

Lemma group_from_spec describe p rows groups0 groups : group_from describe p rows groups0 = Ok groups →
  NoDup groups0.*1 → Forall (λ gr, gr.2 ≠ []) groups0 →
  ∃ ds, describe_all describe p rows = Ok ds ∧ NoDup groups.*1 ∧ Forall (λ gr, gr.2 ≠ []) groups ∧
    (∀ g, g ∈ groups.*1 ↔ g ∈ groups0.*1 ∨ g ∈ ds.*1) ∧
    ∀ g, rows_of g groups = rows_of g groups0 ++ (List.filter (of_group g) ds).*2.
Proof.
  revert p groups0. induction rows as [|row rows IH]; intros p groups0; cbn [group_from describe_all].
  - intros [= ->] Hnd Hne. exists []. repeat split; try done; [by left|by intros [?|?%elem_of_nil]|].
    intros. by rewrite app_nil_r.
  - destruct (describe p row) as [[g r]|]; [|done]. cbn [mbind result_bind]. intros Hg Hnd Hne.
    destruct (IH _ _ Hg (add_row_NoDup g r _ Hnd) (add_row_nonempty g r _ Hne)) as (ds & Hds & Hnd' & Hne' & Hk & Hr).
    exists ((g, r) :: ds). rewrite Hds. split; [done|]. split; [done|]. split; [done|]. split; intros g'.
    + rewrite Hk, add_row_keys. simpl. rewrite elem_of_cons. tauto.
    + rewrite Hr, add_row_rows, <- app_assoc. f_equal. simpl. unfold of_group at 2. simpl.
      by case_decide; [rewrite bool_decide_true by done|rewrite bool_decide_false by done].
Qed.
Lemma describe_all_length describe p rows ds : describe_all describe p rows = Ok ds → length ds = length rows.
Proof.
  revert p ds. induction rows as [|r rows IH]; intros p ds; cbn [describe_all]; [by intros [= <-]|].
  destruct (describe p r); [|done]. cbn [mbind result_bind].
  destruct (describe_all _ _ rows) eqn:E; [|done]. intros [= <-]. simpl. f_equal. by eapply IH.
Qed.
End grouping_lemmas.
