(* ===== verification/Retry.v ===== *)
(** Retry classification and exponential backoff
    ([code-tiny/tools/graph/journal/retry.py]).  Times and delays are integer
    microseconds; the jitter a call draws is an argument. *)
From S2P Require Import Prelude Json Models.

Definition second : Z := 1000000.

Definition classify_error (error : exn) : RetryClass :=
  match error with
  | JournalError code =>
      if bool_decide (code = TerminalErrorCode.ARTIFACT_HASH_MISMATCH)
         || bool_decide (code = TerminalErrorCode.JOURNAL_CORRUPT)
      then RetryClass.INTEGRITY
      else if bool_decide (code = TerminalErrorCode.INCOMPATIBLE_SCHEMA)
         || bool_decide (code = TerminalErrorCode.INVALID_CONTRACT)
      then RetryClass.INCOMPATIBLE
      else RetryClass.TERMINAL
  | ConnectionError | TimeoutError | OSError => RetryClass.TRANSIENT
  | _ => RetryClass.TERMINAL
  end.

(** [min(max_seconds, base_seconds * 2 ** max(0, attempt - 1))], in seconds. *)
Definition base_delay (attempt base_seconds max_seconds : Z) : Z :=
  Z.min max_seconds (base_seconds * 2 ^ Z.max 0 (attempt - 1)).

(** [retry_at]: [jitter hi] is the draw from [uniform(0, hi)], in microseconds. *)
Definition retry_at (attempt now base_seconds max_seconds : Z) (jitter : Z → Z) : res Z :=
  if ((base_seconds <=? 0) || (max_seconds <=? 0) || (max_seconds <? base_seconds))%Z
  then Err ValueError
  else
    let base := (base_delay attempt base_seconds max_seconds * second)%Z in
    let jitter_us := jitter (base / 4)%Z in
    let delay := Z.min (max_seconds * second) (Z.max 0 (base + jitter_us)) in
    Ok (now + delay)%Z.

(** ** The backoff is bounded, and grows with the attempt number *)

Lemma base_delay_bounds attempt base max :
  (0 < base → 0 < max → base ≤ max → base ≤ base_delay attempt base max ≤ max)%Z.
Proof.
  intros. unfold base_delay. assert (1 ≤ 2 ^ Z.max 0 (attempt - 1))%Z; [|nia].
  assert (0 < 2 ^ Z.max 0 (attempt - 1))%Z by (apply Z.pow_pos_nonneg; lia). lia.
Qed.

Lemma base_delay_mono a b base max :
  (0 < base → a ≤ b → base_delay a base max ≤ base_delay b base max)%Z.
Proof.
  intros. unfold base_delay.
  assert (2 ^ Z.max 0 (a - 1) ≤ 2 ^ Z.max 0 (b - 1))%Z by (apply Z.pow_le_mono_r; lia). nia.
Qed.

(** The backoff is bounded and grows. retry_at raises ValueError exactly on
    bounds that are not positive and ordered; otherwise the next attempt is at
    least the base delay and at most the maximum away, at most a quarter above
    the exponential delay, exactly the maximum away once that has reached it,
    and, jitter apart, never sooner for a later attempt. *)
Theorem retry_at_bounds attempt now base max jitter :
  (∀ hi, 0 ≤ hi → 0 ≤ jitter hi ≤ hi)%Z →
  (retry_at attempt now base max jitter = Err ValueError ∧ (base ≤ 0 ∨ max ≤ 0 ∨ max < base)%Z) ∨
  ∃ delay, retry_at attempt now base max jitter = Ok (now + delay)%Z ∧
    (0 < base ≤ max)%Z ∧ (base * second ≤ delay ≤ max * second)%Z ∧
    (base_delay attempt base max * second ≤ delay ≤ base_delay attempt base max * second * 5 / 4)%Z ∧
    (max ≤ base * 2 ^ (attempt - 1) → delay = max * second)%Z ∧
    ∀ later, (attempt ≤ later)%Z → (base_delay attempt base max ≤ base_delay later base max)%Z.
Proof.
  intros Hj. unfold retry_at. destruct (_ || _)%bool eqn:E.
  { left. split; [done|]. rewrite !orb_true_iff, !Z.leb_le, Z.ltb_lt in E. lia. }
  right. bool_hyps. destruct (base_delay_bounds attempt base max) as [Hlo Hhi]; [lia..|].
  pose proof (Hj (base_delay attempt base max * second / 4)%Z ltac:(apply Z.div_pos; unfold second; lia)) as Hjit.
  set (j := jitter _) in *. clearbody j. eexists. split; [reflexivity|].
  split_and!; try (unfold second in *; lia).
  - unfold second in *. assert (base_delay attempt base max * 1000000 / 4 * 4 ≤ base_delay attempt base max * 1000000)%Z
      by (rewrite Z.mul_comm; apply Z.mul_div_le; lia).
    apply Z.div_le_lower_bound; lia.
  - intros Hmax. assert (base_delay attempt base max = max) as Heq; [|rewrite Heq in *; unfold second in *; lia].
    unfold base_delay. destruct (Z.le_gt_cases 1 attempt); [rewrite Z.max_r; lia|].
    rewrite Z.max_l by lia. assert (2 ^ (attempt - 1) = 0)%Z by (apply Z.pow_neg_r; lia). nia.
  - intros later Hle. apply base_delay_mono; lia.
Qed.
Lemma retry_at_bounds_witness : ∃ delay, retry_at 3 0 1 60 (λ hi, hi / 2)%Z = Ok (0 + delay)%Z ∧
  (1 * second ≤ delay ≤ 60 * second)%Z ∧ delay = 4500000%Z.
Proof.
  destruct (retry_at_bounds 3 0 1 60 (λ hi, hi / 2)%Z) as [[Hv _]|(delay & Hr & _ & Hb & _)].
  - intros hi Hhi. split; [apply Z.div_pos; lia|apply Z.div_le_upper_bound; lia].
  - vm_compute in Hv. discriminate Hv.
  - exists delay. split; [exact Hr|split; [exact Hb|]]. vm_compute in Hr. injection Hr as <-. reflexivity.
Defined.
