(* ===== verification/Db.v ===== *)
(** The journal database: the tables of [_schema_statements]
    ([code-tiny/tools/graph/journal/sqlite_store.py]) as finite maps keyed by
    their primary keys, the SQL statements the store issues on them with the
    constraints SQLite enforces, and the transaction wrapper.

    A timestamp is an integer number of microseconds: the store writes UTC
    ISO-8601 strings of fixed width, whose text order is the order of time. *)
From S2P Require Import Prelude Json Models.

(** * Rows *)

Record run_row := MkRun {
  r_run_id : string; r_fingerprint : string; r_project_id : string; r_scope_id : string;
  r_physical_target : string; r_parser : string; r_metadata_json : RunMetadata;
  r_status : RunStatus; r_created_at : Z; r_updated_at : Z; r_retention_until : Z;
  r_error_code : option TerminalErrorCode; r_error_detail : option string;
}.
#[export] Instance run_row_eta : Eta run_row := λ r,
  MkRun (r_run_id r) (r_fingerprint r) (r_project_id r) (r_scope_id r) (r_physical_target r)
    (r_parser r) (r_metadata_json r) (r_status r) (r_created_at r) (r_updated_at r)
    (r_retention_until r) (r_error_code r) (r_error_detail r).

Record artifact_row := MkArtifact {
  a_run_id : string; a_sha256 : string; a_relative_path : string; a_byte_count : Z; a_row_count : Z;
  a_ref_count : Z; a_created_at : Z; a_last_referenced_at : Z;
}.
#[export] Instance artifact_row_eta : Eta artifact_row := λ a,
  MkArtifact (a_run_id a) (a_sha256 a) (a_relative_path a) (a_byte_count a) (a_row_count a)
    (a_ref_count a) (a_created_at a) (a_last_referenced_at a).

Record batch_row := MkBatch {
  b_job_id : string; b_run_id : string; b_phase : OperationPhase; b_operation_key : string;
  b_sequence : Z; b_artifact_sha256 : string; b_artifact_path : string; b_payload_bytes : Z;
  b_row_count : Z; b_expected_count : Z; b_status : BatchStatus; b_attempt : Z; b_max_attempts : Z;
  b_fencing_token : option string; b_lease_until : option Z; b_next_attempt_at : option Z;
  b_required_barriers_json : list string; b_produced_barriers_json : list string;
  b_operation_json : list (string * json); b_retry_class : option RetryClass;
  b_error_code : option TerminalErrorCode; b_error_detail : option string;
  b_created_at : Z; b_updated_at : Z;
}.
#[export] Instance batch_row_eta : Eta batch_row := λ b,
  MkBatch (b_job_id b) (b_run_id b) (b_phase b) (b_operation_key b) (b_sequence b)
    (b_artifact_sha256 b) (b_artifact_path b) (b_payload_bytes b) (b_row_count b)
    (b_expected_count b) (b_status b) (b_attempt b) (b_max_attempts b) (b_fencing_token b)
    (b_lease_until b) (b_next_attempt_at b) (b_required_barriers_json b)
    (b_produced_barriers_json b) (b_operation_json b) (b_retry_class b) (b_error_code b)
    (b_error_detail b) (b_created_at b) (b_updated_at b).

Record barrier_row := MkBarrier {
  br_run : string; br_name : string; br_stat : BarrierStatus; br_produced : Z; br_drained : Z;
  br_closed : option Z; br_updated : Z;
}.
#[export] Instance barrier_row_eta : Eta barrier_row := λ b,
  MkBarrier (br_run b) (br_name b) (br_stat b) (br_produced b) (br_drained b) (br_closed b) (br_updated b).

Record event_row := MkEvent {
  e_event_id : Z; e_run_id : string; e_job_id : option string; e_event_type : string;
  e_counters_json : list (string * Z); e_attempt : option Z; e_elapsed_ms : option Z;
  e_error_code : option TerminalErrorCode; e_created_at : Z;
}.

(** The ten row counters of a producer. *)
Record counters := MkCounters {
  node_emitted : Z; node_unique : Z; node_duplicate : Z; node_conflict : Z; node_rejected : Z;
  edge_emitted : Z; edge_unique : Z; edge_duplicate : Z; edge_conflict : Z; edge_rejected : Z;
}.
#[export] Instance counters_eta : Eta counters := λ c,
  MkCounters (node_emitted c) (node_unique c) (node_duplicate c) (node_conflict c) (node_rejected c)
    (edge_emitted c) (edge_unique c) (edge_duplicate c) (edge_conflict c) (edge_rejected c).
Definition counters_zero : counters := MkCounters 0 0 0 0 0 0 0 0 0 0.
Definition counters_add (a b : counters) : counters := MkCounters
  (node_emitted a + node_emitted b) (node_unique a + node_unique b)
  (node_duplicate a + node_duplicate b) (node_conflict a + node_conflict b)
  (node_rejected a + node_rejected b) (edge_emitted a + edge_emitted b)
  (edge_unique a + edge_unique b) (edge_duplicate a + edge_duplicate b)
  (edge_conflict a + edge_conflict b) (edge_rejected a + edge_rejected b).

Record producer_row := MkProducer {
  p_run_id : string; p_producer_id : string; p_status : ProducerStatus; p_counters : counters;
  p_completed_at : option Z; p_updated_at : Z;
}.
#[export] Instance producer_row_eta : Eta producer_row := λ p,
  MkProducer (p_run_id p) (p_producer_id p) (p_status p) (p_counters p) (p_completed_at p) (p_updated_at p).

(** A row of [node_manifest] ([m_shape] is [node_label], with an identity
    property) or of [edge_manifest] ([m_shape] is [relationship_type]). *)
Record manifest_row := MkManifest {
  m_run_id : string; m_manifest_id : string; m_job_id : string; m_producer_id : string;
  m_row_ordinal : Z; m_scope : string; m_shape : string; m_identity_property : string;
  m_identity_type : string; m_identity_json : string; m_payload_digest : string;
  m_disposition : ManifestDisposition; m_acked : bool; m_graph_verified : bool;
  m_created_at : Z; m_updated_at : Z;
}.
#[export] Instance manifest_row_eta : Eta manifest_row := λ m,
  MkManifest (m_run_id m) (m_manifest_id m) (m_job_id m) (m_producer_id m) (m_row_ordinal m)
    (m_scope m) (m_shape m) (m_identity_property m) (m_identity_type m) (m_identity_json m)
    (m_payload_digest m) (m_disposition m) (m_acked m) (m_graph_verified m) (m_created_at m) (m_updated_at m).

Record endpoint_row := MkEndpoint {
  ep_run_id : string; ep_edge_manifest_id : string; ep_role : string; ep_scope : string;
  ep_node_label : string; ep_identity_property : string; ep_identity_type : string;
  ep_identity_json : string; ep_required : bool;
}.

Record audit_row := MkAudit {
  au_run_id : string; au_status : EndpointAuditStatus; au_manifest_digest : string;
  au_receipt_count : Z; au_sealed_at : Z;
}.

Record db := MkDb {
  runs : gmap string run_row;
  artifacts : gmap (string * string) artifact_row;
  batches : gmap string batch_row;
  barriers : gmap (string * string) barrier_row;
  events : list event_row;
  event_seq : Z;
  producer_completion : gmap (string * string) producer_row;
  node_manifest : gmap (string * string) manifest_row;
  edge_manifest : gmap (string * string) manifest_row;
  edge_endpoint : gmap (string * string * string) endpoint_row;
  endpoint_audit : gmap string audit_row;
  user_version : Z;
}.
#[export] Instance db_eta : Eta db := λ d,
  MkDb (runs d) (artifacts d) (batches d) (barriers d) (events d) (event_seq d)
    (producer_completion d) (node_manifest d) (edge_manifest d) (edge_endpoint d)
    (endpoint_audit d) (user_version d).
Definition empty_db : db := MkDb ∅ ∅ ∅ ∅ [] 0 ∅ ∅ ∅ ∅ ∅ 0.

(** * Sessions *)

(** What a call reads from its environment: the clock, the free bytes of the
    journal's disk, and the 128-bit random token it would draw. *)
Record env := MkEnv { clock : Z; disk_free : Z; fresh_token : string }.

Abbreviation M := (tx db exn).
(** A store operation: its outcome and the committed database. *)
Definition op (A : Type) : Type := db → res A * db.

(** [with self._transaction(): body]: commit on return, roll back on a raise. *)
Definition transaction {A} (body : M A) : op A := λ d,
  match body d with
  | Ok (a, d') => (Ok a, d')
  | Err e => (Err e, d)
  end.
(** A check made before the transaction begins. *)
Definition op_guard {A} (cond : bool) (e : exn) (k : op A) : op A := λ d,
  if cond then (Err e, d) else k d.

Lemma transaction_wp {A} (body : M A) (Q : A → db → Prop) d r d' :
  wp body Q d → transaction body d = (r, d') → (∃ a, r = Ok a ∧ Q a d') ∨ ((∃ e, r = Err e) ∧ d' = d).
Proof.
  unfold wp, transaction. destruct (body d) as [[a s]|e]; intros HQ [= <- <-]; eauto.
Qed.

(** * SQL statements *)

(** [str in detail] *)
Definition contains (sub s : string) : bool :=
  match String.index 0 sub s with Some _ => true | None => false end.
(** [_translate_sqlite_error] *)
Definition translate_sqlite_error (message : string) : exn :=
  let detail := casefold message in
  JournalError (
    if contains "database or disk is full" detail || contains "disk full" detail
    then TerminalErrorCode.DISK_FULL
    else if contains "readonly" detail || contains "permission" detail
    then TerminalErrorCode.PERMISSION_DENIED
    else if contains "malformed" detail || contains "not a database" detail || contains "corrupt" detail
    then TerminalErrorCode.JOURNAL_CORRUPT
    else TerminalErrorCode.INVALID_CONTRACT).
(** What a violated constraint surfaces as. *)
Definition constraint_failed (what : string) : exn :=
  translate_sqlite_error (what +:+ " constraint failed").

Section select.
Context `{Countable K} {V : Type}.
(** [SELECT * FROM m WHERE P], in the table's own order. *)
Definition rows (m : gmap K V) : list V := (map_to_list m).*2.
Definition select (P : V → bool) (m : gmap K V) : list V := List.filter P (rows m).
Definition exists_row (P : V → bool) (m : gmap K V) : bool := existsb P (rows m).

Lemma elem_of_rows m v : v ∈ rows m ↔ ∃ k, m !! k = Some v.
Proof.
  unfold rows. rewrite list_elem_of_fmap. split.
  - intros ([k w] & -> & Hin). exists k. by apply elem_of_map_to_list.
  - intros [k Hk]. exists (k, v). split; [done|]. by apply elem_of_map_to_list.
Qed.
Lemma elem_of_select P m v : v ∈ select P m ↔ P v = true ∧ ∃ k, m !! k = Some v.
Proof.
  unfold select. rewrite list_elem_of_In, filter_In, <- list_elem_of_In, elem_of_rows. tauto.
Qed.
Lemma exists_row_false P m : exists_row P m = false ↔ ∀ k v, m !! k = Some v → P v = false.
Proof.
  unfold exists_row. split.
  - intros Hf k v Hk. destruct (P v) eqn:HP; [|done].
    assert (existsb P (rows m) = true); [|congruence].
    apply existsb_exists. exists v. split; [|done]. apply list_elem_of_In, elem_of_rows. eauto.
  - intros Hall. apply not_true_is_false. intros (v & Hv & HP)%existsb_exists.
    apply list_elem_of_In, elem_of_rows in Hv as [k Hk]. rewrite (Hall k v Hk) in HP. done.
Qed.
End select.

(** [UPDATE m SET f WHERE key AND P]: the new table and [rowcount]. *)
Definition update_key `{Countable K} {V} (k : K) (P : V → bool) (f : V → V) (m : gmap K V) : gmap K V :=
  match m !! k with
  | Some v => if P v then <[k := f v]> m else m
  | None => m
  end.
Definition update_count `{Countable K} {V} (k : K) (P : V → bool) (m : gmap K V) : Z :=
  match m !! k with Some v => if P v then 1 else 0 | None => 0 end.
(** [UPDATE m SET f WHERE P] *)
Definition update_where `{Countable K} {V} (P : V → bool) (f : V → V) (m : gmap K V) : gmap K V :=
  (λ v, if P v then f v else v) <$> m.

#[global] Arguments update_key : simpl never.
#[global] Arguments update_where : simpl never.
#[global] Arguments countM : simpl never.

Definition run_exists (run : string) (d : db) : bool := bool_decide (is_Some (runs d !! run)).

Definition insert_run (r : run_row) : M unit :=
  d ← tx_get;
  _ ← tx_reject (run_exists (r_run_id r) d) (constraint_failed "UNIQUE");
  _ ← tx_reject (exists_row (λ r', String.eqb (r_fingerprint r') (r_fingerprint r)) (runs d))
        (constraint_failed "UNIQUE");
  tx_modify (λ d, d <| runs ::= <[r_run_id r := r]> |>).

Definition insert_artifact (a : artifact_row) : M unit :=
  d ← tx_get;
  _ ← tx_reject (negb (run_exists (a_run_id a) d)) (constraint_failed "FOREIGN KEY");
  _ ← tx_reject (bool_decide (is_Some (artifacts d !! (a_run_id a, a_sha256 a)))) (constraint_failed "UNIQUE");
  _ ← tx_reject (exists_row (λ a', String.eqb (a_relative_path a') (a_relative_path a)) (artifacts d))
        (constraint_failed "UNIQUE");
  _ ← tx_reject ((a_byte_count a <? 0)%Z || (a_row_count a <? 0)%Z) (constraint_failed "CHECK");
  tx_modify (λ d, d <| artifacts ::= <[(a_run_id a, a_sha256 a) := a]> |>).

Definition insert_batch (b : batch_row) : M unit :=
  d ← tx_get;
  _ ← tx_reject (negb (run_exists (b_run_id b) d)) (constraint_failed "FOREIGN KEY");
  _ ← tx_reject (negb (bool_decide (is_Some (artifacts d !! (b_run_id b, b_artifact_sha256 b)))))
        (constraint_failed "FOREIGN KEY");
  _ ← tx_reject (bool_decide (is_Some (batches d !! b_job_id b))) (constraint_failed "UNIQUE");
  _ ← tx_reject (exists_row (λ b', String.eqb (b_run_id b') (b_run_id b)
          && bool_decide (b_phase b' = b_phase b)
          && String.eqb (b_operation_key b') (b_operation_key b)
          && (b_sequence b' =? b_sequence b)%Z
          && String.eqb (b_artifact_sha256 b') (b_artifact_sha256 b)) (batches d))
        (constraint_failed "UNIQUE");
  _ ← tx_reject ((b_sequence b <? 0)%Z || (b_payload_bytes b <? 0)%Z || (b_row_count b <? 0)%Z
          || (b_expected_count b <? 0)%Z || (b_max_attempts b <=? 0)%Z) (constraint_failed "CHECK");
  tx_modify (λ d, d <| batches ::= <[b_job_id b := b]> |>).

(** The CHECK constraints of the barriers table. *)
Definition barrier_check (b : barrier_row) : bool :=
  (0 <=? br_produced b)%Z && (0 <=? br_drained b)%Z && (br_drained b <=? br_produced b)%Z.
(** [INSERT] or [UPDATE] of one barrier row. *)
Definition put_barrier (b : barrier_row) : M unit :=
  _ ← tx_reject (negb (barrier_check b)) (constraint_failed "CHECK");
  tx_modify (λ d, d <| barriers ::= <[(br_run b, br_name b) := b]> |>).

(** [_add_event] *)
Definition pending_count (run : string) (d : db) : Z :=
  countM (λ b, String.eqb (b_run_id b) run && negb (bool_decide (b_status b = BatchStatus.DONE))) (batches d).
Definition setdefault (k : string) (v : Z) (l : list (string * Z)) : list (string * Z) :=
  match assoc k l with Some _ => l | None => l ++ [(k, v)] end.
Definition _add_event (run : string) (event_type : string) (job : option string)
    (cnt : list (string * Z)) (attempt elapsed_ms : option Z)
    (error_code : option TerminalErrorCode) (now : Z) : M unit :=
  tx_modify (λ d,
    let e := MkEvent (event_seq d + 1) run job event_type
               (setdefault "pending" (pending_count run d) cnt) attempt elapsed_ms error_code now in
    d <| events ::= (λ l, l ++ [e]) |> <| event_seq := (event_seq d + 1)%Z |>).
