(* ===== verification/Manifest.v ===== *)
(** Row manifests of [code-tiny/tools/graph/journal/sqlite_store.py]:
    [_typed_identity], [_manifest_candidates] and [_stage_manifests_locked],
    which classify every row of a batch as unique, duplicate, conflicting or
    rejected before the batch may execute. *)
From S2P Require Import Prelude Json PyValue Models Identity Db.

(** * Typed identities *)

Definition _typed_identity (value : json) : res (string * string) :=
  match value with
  | JNull | JArr _ | JObj _ => Err ValueError
  | JBool _ => Ok ("boolean", canonical_json value)
  | JInt _ => Ok ("integer", canonical_json value)
  | JFloat _ => Ok ("number", canonical_json value)
  | JStr _ => Ok ("string", canonical_json value)
  end.

(** * Candidates *)

Inductive kind := KNode | KEdge.
#[export] Instance kind_eq_dec : EqDecision kind.
Proof. solve_decision. Defined.
Definition kind_name (k : kind) : string := match k with KNode => "node" | KEdge => "edge" end.

Record endpoint := MkEp { e_role : string; e_label : string; e_prop : string; e_type : string; e_json : string }.

Record candidate := MkCandidate {
  c_kind : kind; c_manifest_id : string; c_producer_id : string; c_row_ordinal : Z;
  c_payload_digest : string; c_disposition : ManifestDisposition; c_endpoints : list endpoint;
  c_scope : string; c_shape : string; c_identity_property : string;
  c_identity_type : string; c_identity_json : string;
}.
#[export] Instance candidate_eta : Eta candidate := λ c,
  MkCandidate (c_kind c) (c_manifest_id c) (c_producer_id c) (c_row_ordinal c) (c_payload_digest c)
    (c_disposition c) (c_endpoints c) (c_scope c) (c_shape c) (c_identity_property c)
    (c_identity_type c) (c_identity_json c).

Section candidates.
Context `{Sha256}.

(** The inner function [base]: identity and digest of one row, before its shape. *)
Definition base (job_id producer_id : string) (row : json) (ordinal : Z) (k : kind) : candidate :=
  let digest_row := match row with
    | JObj l => JObj (List.filter (λ kv, negb (startswith "_contract_" kv.1)) l)
    | _ => row end in
  MkCandidate k
    (sha256_hex (canonical_json (JObj
       [("job_id", JStr job_id); ("kind", JStr (kind_name k)); ("row", JInt ordinal)])))
    producer_id ordinal (sha256_hex (canonical_json digest_row))
    ManifestDisposition.STAGED_UNIQUE [] "" "" "" "" "".

Definition reject_candidate (c : candidate) : candidate :=
  c <| c_identity_type := "invalid" |> <| c_identity_json := "null" |>
    <| c_disposition := ManifestDisposition.REJECTED |>.

(** The [node_identity] branch. *)
Definition node_candidate (operation : dict) (row : dict) (scope : string) (c0 : candidate) : candidate :=
  let node_label := py_str (py_or (get "node_label" operation) (JStr "")) in
  let identity_property := py_str (py_or (get "identity_property" operation) (JStr "")) in
  let c := c0 <| c_scope := scope |> <| c_shape := node_label |>
              <| c_identity_property := identity_property |> in
  let attempt : res candidate :=
    let row_property := py_str (py_or (get "row_identity_property" operation) (JStr "id")) in
    v ← getitem row_property row;
    '(identity_type, identity_json) ← _typed_identity v;
    if is_empty node_label || is_empty identity_property then Err ValueError
    else
      let c := c <| c_identity_type := identity_type |> <| c_identity_json := identity_json |> in
      Ok (if String.eqb node_label "Type"
             && String.eqb (casefold (py_str (py_or (get "kind" row) (JStr "")))) "external"
          then c <| c_payload_digest := sha256_hex (canonical_json (JObj (pop "file_path" row))) |>
          else c) in
  match attempt with Ok c => c | Err _ => reject_candidate c end.

(** What the three edge contracts read from a row. *)
Record edge_descriptor := MkEdgeDescriptor {
  ed_source_label : string; ed_source_property : string; ed_source_value : json;
  ed_target_label : string; ed_target_property : string; ed_target_value : json;
  ed_relationship_type : string; ed_edge_property : string; ed_edge_value : json;
}.
(** [edge_property and edge_value in {None, ""}]; an unhashable value is a [TypeError]. *)
Definition check_edge_value (edge_property : string) (edge_value : json) : res unit :=
  if is_empty edge_property then Ok tt
  else match edge_value with
       | JNull => Err ValueError
       | JStr s => if is_empty s then Err ValueError else Ok tt
       | JArr _ | JObj _ => Err TypeError
       | _ => Ok tt
       end.
Definition describe_edge (reconciliation : string) (row : dict) : res edge_descriptor :=
  if in_list reconciliation ["typed_relationship"; "evidence_edge"] then
    source_label ← getitem "source_label" row;
    target_label ← getitem "target_label" row;
    let source_property := py_str (py_or (get "source_property" row) (JStr "id")) in
    let target_property := py_str (py_or (get "target_property" row) (JStr "id")) in
    source_value ← getitem "source_id" row;
    target_value ← getitem "target_id" row;
    rel_type ← getitem "rel_type" row;
    let edge_property := py_str (py_or (get "edge_property" row) (JStr "")) in
    let edge_value := if is_empty edge_property then JNull else get "edge_id" row in
    _ ← check_edge_value edge_property edge_value;
    Ok (MkEdgeDescriptor (py_str source_label) source_property source_value
          (py_str target_label) target_property target_value (py_str rel_type) edge_property edge_value)
  else if String.eqb reconciliation "repository_file" then
    repo ← getitem "repo" row;
    id ← getitem "id" row;
    Ok (MkEdgeDescriptor "Repository" "name" repo "File" "id" id "HAS_FILE" "" JNull)
  else if in_list reconciliation ["call_edge"; "call_site"; "possible_call_site"] then
    caller ← getitem "caller_id" row;
    callee ← getitem "callee_id" row;
    let relationship_type :=
      if String.eqb reconciliation "possible_call_site" then "POSSIBLE_CALLS" else "CALLS" in
    let edge_property := if String.eqb reconciliation "call_edge" then "" else "site_id" in
    let edge_value := if is_empty edge_property then JNull else get "site_id" row in
    _ ← check_edge_value edge_property edge_value;
    Ok (MkEdgeDescriptor "Function" "id" caller "Function" "id" callee relationship_type
          edge_property edge_value)
  else Err ValueError.

Definition edge_attempt (reconciliation : string) (row : dict) (scope : string) (c0 : candidate)
    : res candidate :=
  d ← describe_edge reconciliation row;
  if is_empty (ed_source_label d) || is_empty (ed_target_label d) || is_empty (ed_relationship_type d)
  then Err ValueError
  else
    '(source_type, source_json) ← _typed_identity (ed_source_value d);
    '(target_type, target_json) ← _typed_identity (ed_target_value d);
    let key := [("source", JArr [JStr (ed_source_label d); JStr (ed_source_property d); JStr source_type; JStr source_json]);
                ("relationship", JStr (ed_relationship_type d));
                ("target", JArr [JStr (ed_target_label d); JStr (ed_target_property d); JStr target_type; JStr target_json])] in
    edge_key ← (if is_empty (ed_edge_property d) then Ok key
                else '(edge_type, edge_json) ← _typed_identity (ed_edge_value d);
                     Ok (key ++ [("edge", JArr [JStr (ed_edge_property d); JStr edge_type; JStr edge_json])]));
    Ok (c0 <| c_scope := scope |> <| c_shape := ed_relationship_type d |>
           <| c_identity_type := "edge_key" |> <| c_identity_json := canonical_json (JObj edge_key) |>
           <| c_endpoints := [MkEp "source" (ed_source_label d) (ed_source_property d) source_type source_json;
                              MkEp "target" (ed_target_label d) (ed_target_property d) target_type target_json] |>).
Definition edge_candidate (reconciliation : string) (row : dict) (scope : string) (c0 : candidate) : candidate :=
  match edge_attempt reconciliation row scope c0 with
  | Ok c => c
  | Err _ => reject_candidate (c0 <| c_scope := scope |>
               <| c_shape := py_str (py_or (get "rel_type" row) (JStr "invalid")) |>)
  end.

(** The body of the loop over [enumerate(rows)]; cleanup rows have no manifest. *)
Definition row_candidate (operation : dict) (reconciliation producer_id job_id scope_default : string)
    (ordinal : Z) (raw : json) : option candidate :=
  let row := match raw with JObj l => l | _ => [] end in
  let scope := py_str (py_or (get "project_id_normalized" row)
                 (py_or (get "project_id" row) (JStr scope_default))) in
  if String.eqb reconciliation "node_identity"
     && bool_decide (get_default "mutation_kind" (JStr "merge") operation = JStr "merge")
  then Some (node_candidate operation row scope (base job_id producer_id raw ordinal KNode))
  else if in_list reconciliation ["file_cleanup"; "orphan_unknown_cleanup"] then None
  else Some (edge_candidate reconciliation row scope (base job_id producer_id raw ordinal KEdge)).

Fixpoint enumerate_candidates (f : Z → json → option candidate) (i : Z) (rows : list json) : list candidate :=
  match rows with
  | [] => []
  | r :: rows => match f i r with
                 | Some c => c :: enumerate_candidates f (i + 1) rows
                 | None => enumerate_candidates f (i + 1) rows
                 end
  end.

(** [_manifest_candidates(run=..., spec=..., rows=..., job_id=...)] *)
Definition _manifest_candidates (run_project_id : string) (spec : BatchSpec) (rows : list json)
    (job_id : string) : option string * list candidate :=
  let operation := bs_operation spec in
  match operation with
  | [] => (None, [])
  | _ =>
      let producer_id := py_str (py_or (get "producer_id" operation)
                           (py_or (get "label" operation) (JStr (bs_operation_key spec)))) in
      let reconciliation := py_str (py_or (get "reconciliation" operation) (JStr "unsupported")) in
      (Some producer_id,
       enumerate_candidates
         (row_candidate operation reconciliation producer_id job_id run_project_id) 0 rows)
  end.
End candidates.

(** * Staging *)

Definition manifest_table (k : kind) (d : db) : gmap (string * string) manifest_row :=
  match k with KNode => node_manifest d | KEdge => edge_manifest d end.
Definition set_manifest (k : kind) (f : gmap (string * string) manifest_row → gmap (string * string) manifest_row)
    (d : db) : db :=
  match k with KNode => d <| node_manifest ::= f |> | KEdge => d <| edge_manifest ::= f |> end.

(** [counts[f"{kind}_emitted"] += 1] and [counts[f"{kind}_{suffix}"] += 1]. *)
Definition count_row (k : kind) (disp : ManifestDisposition) : counters :=
  match k, disp with
  | KNode, ManifestDisposition.STAGED_UNIQUE => MkCounters 1 1 0 0 0 0 0 0 0 0
  | KNode, ManifestDisposition.DECLARED_DUPLICATE => MkCounters 1 0 1 0 0 0 0 0 0 0
  | KNode, ManifestDisposition.CONFLICT => MkCounters 1 0 0 1 0 0 0 0 0 0
  | KNode, ManifestDisposition.REJECTED => MkCounters 1 0 0 0 1 0 0 0 0 0
  | KEdge, ManifestDisposition.STAGED_UNIQUE => MkCounters 0 0 0 0 0 1 1 0 0 0
  | KEdge, ManifestDisposition.DECLARED_DUPLICATE => MkCounters 0 0 0 0 0 1 0 1 0 0
  | KEdge, ManifestDisposition.CONFLICT => MkCounters 0 0 0 0 0 1 0 0 1 0
  | KEdge, ManifestDisposition.REJECTED => MkCounters 0 0 0 0 0 1 0 0 0 1
  end.

(** Rows already staged under the candidate's identity. *)
Definition accepted (disp : ManifestDisposition) : bool :=
  match disp with
  | ManifestDisposition.STAGED_UNIQUE | ManifestDisposition.DECLARED_DUPLICATE => true
  | _ => false
  end.
Definition same_identity (run : string) (c : candidate) (m : manifest_row) : bool :=
  String.eqb (m_run_id m) run && String.eqb (m_scope m) (c_scope c) && String.eqb (m_shape m) (c_shape c)
  && (match c_kind c with KNode => String.eqb (m_identity_property m) (c_identity_property c) | KEdge => true end)
  && String.eqb (m_identity_type m) (c_identity_type c)
  && String.eqb (m_identity_json m) (c_identity_json c)
  && accepted (m_disposition m).
Definition classify (run : string) (c : candidate) (d : db) : ManifestDisposition :=
  match c_disposition c with
  | ManifestDisposition.STAGED_UNIQUE =>
      match head (select (same_identity run c) (manifest_table (c_kind c) d)) with
      | Some existing =>
          if String.eqb (m_payload_digest existing) (c_payload_digest c)
          then ManifestDisposition.DECLARED_DUPLICATE else ManifestDisposition.CONFLICT
      | None => ManifestDisposition.STAGED_UNIQUE
      end
  | disp => disp
  end.

Definition manifest_of (run job producer : string) (c : candidate) (disp : ManifestDisposition) (now : Z)
    : manifest_row :=
  MkManifest run (c_manifest_id c) job producer (c_row_ordinal c) (c_scope c) (c_shape c)
    (c_identity_property c) (c_identity_type c) (c_identity_json c) (c_payload_digest c)
    disp false false now now.
Definition insert_manifest (k : kind) (m : manifest_row) : M unit :=
  d ← tx_get;
  _ ← tx_reject (negb (run_exists (m_run_id m) d)) (constraint_failed "FOREIGN KEY");
  _ ← tx_reject (negb (bool_decide (is_Some (batches d !! m_job_id m)))) (constraint_failed "FOREIGN KEY");
  _ ← tx_reject (bool_decide (is_Some (manifest_table k d !! (m_run_id m, m_manifest_id m))))
        (constraint_failed "UNIQUE");
  _ ← tx_reject (exists_row (λ m', String.eqb (m_job_id m') (m_job_id m)
          && (m_row_ordinal m' =? m_row_ordinal m)%Z) (manifest_table k d)) (constraint_failed "UNIQUE");
  _ ← tx_reject (m_row_ordinal m <? 0)%Z (constraint_failed "CHECK");
  tx_modify (set_manifest k <[(m_run_id m, m_manifest_id m) := m]>).
Definition insert_endpoint (run : string) (c : candidate) (e : endpoint) : M unit :=
  d ← tx_get;
  _ ← tx_reject (bool_decide (is_Some (edge_endpoint d !! (run, c_manifest_id c, e_role e))))
        (constraint_failed "UNIQUE");
  _ ← tx_reject (negb (bool_decide (is_Some (edge_manifest d !! (run, c_manifest_id c)))))
        (constraint_failed "FOREIGN KEY");
  _ ← tx_reject (negb (in_list (e_role e) ["source"; "target"])) (constraint_failed "CHECK");
  tx_modify (λ d, d <| edge_endpoint ::= <[(run, c_manifest_id c, e_role e) :=
    MkEndpoint run (c_manifest_id c) (e_role e) (c_scope c) (e_label e) (e_prop e) (e_type e) (e_json e) true]> |>).

(** The body of [for candidate in candidates]. *)
Definition stage_candidate (run job producer : string) (now : Z) (counts : counters) (c : candidate) : M counters :=
  disp ← tx_gets (classify run c);
  _ ← insert_manifest (c_kind c) (manifest_of run job producer c disp now);
  _ ← (match c_kind c with
       | KNode => mret ()
       | KEdge => tx_for (insert_endpoint run c) (c_endpoints c)
       end : M unit);
  mret (counters_add counts (count_row (c_kind c) disp)).
Fixpoint stage_candidates (run job producer : string) (now : Z) (counts : counters) (cs : list candidate) : M counters :=
  match cs with
  | [] => mret counts
  | c :: cs => counts' ← stage_candidate run job producer now counts c;
               stage_candidates run job producer now counts' cs
  end.

(** The conflict and rejection counters that are not zero. *)
Definition failures (c : counters) : list (string * Z) :=
  List.filter (λ kv, negb (kv.2 =? 0)%Z)
    [("node_conflict", node_conflict c); ("node_rejected", node_rejected c);
     ("edge_conflict", edge_conflict c); ("edge_rejected", edge_rejected c)].

Definition open_producer (run producer : string) (now : Z) (p : option producer_row) : producer_row :=
  match p with
  | Some p => p <| p_updated_at := now |>
  | None => MkProducer run producer ProducerStatus.OPEN counters_zero None now
  end.

(** [_stage_manifests_locked] *)
Definition _stage_manifests_locked (run job producer : string) (candidates : list candidate) (now : Z)
    : M (list (string * Z)) :=
  d ← tx_get;
  let p := producer_completion d !! (run, producer) in
  _ ← tx_reject (match p with Some p => negb (bool_decide (p_status p = ProducerStatus.OPEN)) | None => false end)
        (JournalError TerminalErrorCode.INVALID_TRANSITION);
  _ ← tx_reject (negb (run_exists run d)) (constraint_failed "FOREIGN KEY");
  _ ← tx_modify (λ d, d <| producer_completion ::= <[(run, producer) := open_producer run producer now p]> |>);
  counts ← stage_candidates run job producer now counters_zero candidates;
  _ ← tx_modify (λ d, d <| producer_completion ::= update_key (run, producer) (λ _, true)
        (λ p, p <| p_counters ::= λ c, counters_add c counts |> <| p_updated_at := now |>) |>);
  mret (failures counts).
