(* ===== verification/ArtifactApi.v ===== *)
(** What the journal store asks of the artifact store
    ([code-tiny/tools/graph/journal/artifacts.py]), as an interface: the store's
    operations are written against it and [Artifacts.v] implements it. *)
From S2P Require Import Prelude Json Models.

Class ArtifactApi (FS : Type) : Type := {
  (** [self.artifacts.verify(ref)] *)
  art_verify : FS → ArtifactRef → res unit;
  (** [self.artifacts.read_jsonl(ref)] *)
  art_read_jsonl : FS → ArtifactRef → res (list json);
  (** [self.artifacts.remove(ref)] *)
  art_remove : FS → ArtifactRef → res unit * FS;
}.

(** The law a client relies on: a payload that is read has been verified and
    has the row count its reference announces. *)
Class ArtifactLaws (FS : Type) `{!ArtifactApi FS} : Prop := {
  read_verified (fs : FS) ref rows : art_read_jsonl fs ref = Ok rows →
    art_verify fs ref = Ok tt ∧ Z.of_nat (length rows) = row_count ref;
}.

(** [self.artifacts.write_jsonl(run_id, rows)], which only producers call. *)
Class ArtifactWriter (FS : Type) : Type :=
  art_write_jsonl : FS → string → list json → res ArtifactRef * FS.
