(* ===== verification/Store.v ===== *)
(** The transactional repository [SQLiteJournal]
    ([code-tiny/tools/graph/journal/sqlite_store.py]): one [op] per public
    method, composed of the locked helpers and SQL statements the method
    issues.  [ε] is what the call reads from its environment. *)
From S2P Require Import Prelude Json Models PyValue Identity Retry Db Manifest ArtifactApi.

Definition is_active (s : RunStatus) : bool :=
  match s with RunStatus.OPEN | RunStatus.DRAINING => true | _ => false end.
Definition is_terminal_run (s : RunStatus) : bool :=
  match s with
  | RunStatus.BLOCKED | RunStatus.DRAINED | RunStatus.DEAD_LETTERED | RunStatus.QUARANTINED
  | RunStatus.FAILED => true
  | _ => false
  end.
Definition _PURGE_STARTED_EVENT : string := "run_purge_started".
Definition _PRODUCERS_COMPLETE_ID : string := "__journal_all_producers_complete__".

Definition bad_transition : exn := JournalError TerminalErrorCode.INVALID_TRANSITION.
Definition bad_contract : exn := JournalError TerminalErrorCode.INVALID_CONTRACT.

(** * Records from rows *)

Definition _run_from_row (r : run_row) : RunRecord :=
  MkRunRecord (r_run_id r) (r_fingerprint r) (r_metadata_json r) (r_status r) (r_created_at r)
    (r_updated_at r) (r_retention_until r) (r_error_code r).
Definition _batch_from_row (b : batch_row) : BatchRecord :=
  MkBatchRecord (b_job_id b) (b_run_id b) (b_phase b) (b_operation_key b) (b_sequence b)
    (MkArtifactRef (b_artifact_sha256 b) (b_artifact_path b) (b_payload_bytes b) (b_row_count b))
    (b_expected_count b) (b_status b) (b_attempt b) (b_max_attempts b) (b_fencing_token b)
    (b_lease_until b) (b_next_attempt_at b) (b_required_barriers_json b) (b_produced_barriers_json b)
    (b_retry_class b) (b_error_code b) (b_operation_json b).
Definition _barrier_from_row (b : barrier_row) : BarrierRecord :=
  MkBarrierRecord (br_run b) (br_name b) (br_stat b) (br_produced b) (br_drained b) (br_closed b).

(** [SELECT * FROM batches WHERE job_id = ?], which the caller knows to exist. *)
Definition fetch_batch (job : string) : M batch_row :=
  d ← tx_get; match batches d !! job with Some b => mret b | None => tx_raise TypeError end.
Definition fetch_run (run : string) : M run_row :=
  d ← tx_get; match runs d !! run with Some r => mret r | None => tx_raise TypeError end.
Definition fetch_barrier (run name : string) : M barrier_row :=
  d ← tx_get; match barriers d !! (run, name) with Some b => mret b | None => tx_raise TypeError end.

Definition b_is (s : BatchStatus) (b : batch_row) : bool := bool_decide (b_status b = s).
Definition b_in_run (run : string) (b : batch_row) : bool := String.eqb (b_run_id b) run.
Definition run_status_is (s : RunStatus) (run : string) (d : db) : bool :=
  match runs d !! run with Some r => bool_decide (r_status r = s) | None => false end.

Definition update_batch (job : string) (P : batch_row → bool) (f : batch_row → batch_row) : M unit :=
  tx_modify (λ d, d <| batches ::= update_key job P f |>).

Section store.
Context `{Sha256} {FS : Type} `{!ArtifactApi FS} (limits : JournalLimits).

(** [_admit(expected_items, expected_bytes)] *)
Definition _admit (ε : env) (expected_items expected_bytes : Z) : res unit :=
  if (expected_items <? 0)%Z || (expected_bytes <? 0)%Z then Err ValueError
  else if (max_batches_per_run limits <? expected_items)%Z
  then Err (JournalError TerminalErrorCode.ADMISSION_REJECTED)
  else if (max_payload_bytes_per_run limits <? expected_bytes)%Z
  then Err (JournalError TerminalErrorCode.ADMISSION_REJECTED)
  else if (disk_free ε - expected_bytes <? min_free_bytes limits)%Z
  then Err (JournalError TerminalErrorCode.DISK_FULL)
  else Ok tt.

Definition retention_from (now : Z) : Z := (now + retention_seconds limits * second)%Z.

(** * Runs *)

(** The two updates that fence a superseded run and its unfinished batches. *)
Definition quarantine_run (now : Z) (detail : string) (r : run_row) : run_row :=
  r <| r_status := RunStatus.QUARANTINED |> <| r_updated_at := now |>
    <| r_retention_until := retention_from now |>
    <| r_error_code := Some TerminalErrorCode.INCOMPATIBLE_SCHEMA |> <| r_error_detail := Some detail |>.
Definition quarantine_batch (now : Z) (b : batch_row) : batch_row :=
  b <| b_status := BatchStatus.BLOCKED |> <| b_fencing_token := None |> <| b_lease_until := None |>
    <| b_retry_class := Some RetryClass.INCOMPATIBLE |>
    <| b_error_code := Some TerminalErrorCode.INCOMPATIBLE_SCHEMA |> <| b_updated_at := now |>.
Definition quarantine_locked (now : Z) (detail run : string) : M unit :=
  _ ← tx_modify (λ d, d <| runs ::= update_key run (λ _, true) (quarantine_run now detail) |>);
  _ ← _add_event run "run_quarantined" None [] None None
        (Some TerminalErrorCode.INCOMPATIBLE_SCHEMA) now;
  tx_modify (λ d, d <| batches ::= update_where
    (λ b, b_in_run run b && negb (b_is BatchStatus.DONE b)) (quarantine_batch now) |>).

Definition same_target (m : RunMetadata) (r : run_row) : bool :=
  String.eqb (r_project_id r) (project_id m) && String.eqb (r_scope_id r) (scope_id m)
  && String.eqb (r_physical_target r) (physical_target m) && String.eqb (r_parser r) (parser m)
  && is_active (r_status r).

Definition new_run (m : RunMetadata) (now : Z) : run_row :=
  MkRun (run_id m) (run_fingerprint m) (project_id m) (scope_id m) (physical_target m) (parser m)
    m RunStatus.OPEN now now (retention_from now) None None.

(** The body of the transaction of [open_run]. *)
Definition open_run_locked (m : RunMetadata) (now : Z) : M RunRecord :=
  d ← tx_get;
  match runs d !! run_id m with
  | Some existing =>
      _ ← tx_reject (negb (bool_decide (r_metadata_json existing = m)))
            (JournalError TerminalErrorCode.INCOMPATIBLE_SCHEMA);
      _ ← tx_reject (bool_decide (r_status existing = RunStatus.QUARANTINED)
              && bool_decide (r_error_code existing = Some TerminalErrorCode.INCOMPATIBLE_SCHEMA))
            (JournalError TerminalErrorCode.INCOMPATIBLE_SCHEMA);
      _ ← _add_event (run_id m) "run_resumed" None [] None None None now;
      mret (_run_from_row existing)
  | None =>
      let incompatible := map r_run_id (select (same_target m) (runs d)) in
      _ ← tx_for (quarantine_locked now
            "superseded by an incompatible source/target/schema/query fingerprint") incompatible;
      _ ← insert_run (new_run m now);
      _ ← _add_event (run_id m) "run_opened" None [] None None None now;
      row ← fetch_run (run_id m);
      mret (_run_from_row row)
  end.
Definition open_run (ε : env) (m : RunMetadata) (expected_items expected_bytes : Z) : op RunRecord := λ d,
  match _admit ε expected_items expected_bytes with
  | Err e => (Err e, d)
  | Ok _ => transaction (open_run_locked m (clock ε)) d
  end.

Definition get_run (run : string) (d : db) : option RunRecord := _run_from_row <$> runs d !! run.

(** Same contract but for the generation. *)
Definition same_contract (a b : RunMetadata) : bool :=
  bool_decide (a <| generation := "" |> = b <| generation := "" |>).
(** [ORDER BY created_at DESC] *)
Definition find_resumable_run (m : RunMetadata) (d : db) : option RunRecord :=
  _run_from_row <$>
    List.find (λ r, same_contract (r_metadata_json r) m)
      (order_by (λ r, (- r_created_at r)%Z) (select (same_target m) (runs d))).

Definition legacy_targets (m : RunMetadata) (physical_targets : list string) : list string :=
  sorted_set (List.filter (λ t, negb (is_empty t) && negb (String.eqb t (physical_target m)))
    (map strip physical_targets)).
Definition quarantine_legacy_targets (ε : env) (m : RunMetadata) (physical_targets : list string) : op Z := λ d,
  let targets := legacy_targets m physical_targets in
  match targets with
  | [] => (Ok 0%Z, d)
  | _ => transaction (
      d ← tx_get;
      let rows := map r_run_id (select (λ r, String.eqb (r_project_id r) (project_id m)
        && String.eqb (r_scope_id r) (scope_id m) && String.eqb (r_parser r) (parser m)
        && in_list (r_physical_target r) targets && is_active (r_status r)) (runs d)) in
      _ ← tx_for (quarantine_locked (clock ε)
            "superseded by the credential-free effective-target identity contract") rows;
      mret (Z.of_nat (length rows))) d
  end.

(** * Shared status helpers *)

(** [_set_run_error_locked] *)
Definition _set_run_error_locked (run : string) (status : RunStatus) (code : TerminalErrorCode) (now : Z) : M unit :=
  tx_modify (λ d, d <| runs ::= update_key run (λ _, true) (λ r,
    r <| r_status := status |> <| r_error_code := Some code |> <| r_updated_at := now |>
      <| r_retention_until := retention_from now |>) |>).

Definition unfinished (run : string) (d : db) : Z :=
  countM (λ b, b_in_run run b && negb (b_is BatchStatus.DONE b)) (batches d).
Definition undrained (run : string) (d : db) : Z :=
  countM (λ b, String.eqb (br_run b) run && negb (bool_decide (br_stat b = BarrierStatus.DRAINED))) (barriers d).
(** [_refresh_run_status_locked] *)
Definition _refresh_run_status_locked (run : string) (now : Z) : M unit :=
  d ← tx_get;
  if negb (run_status_is RunStatus.DRAINING run d) then mret ()
  else if (unfinished run d =? 0)%Z && (undrained run d =? 0)%Z then
    _ ← tx_modify (λ d, d <| runs ::= update_key run (λ _, true) (λ r,
          r <| r_status := RunStatus.DRAINED |> <| r_updated_at := now |>
            <| r_retention_until := retention_from now |>) |>);
    _add_event run "queue_drained" None [] None None None now
  else mret ().

(** * Leases left behind *)

(** What both recoveries do to an expired or orphaned lease. *)
Definition to_ambiguous (now : Z) (b : batch_row) : batch_row :=
  b <| b_status := BatchStatus.RECONCILING |> <| b_fencing_token := None |> <| b_lease_until := None |>
    <| b_retry_class := Some RetryClass.AMBIGUOUS |> <| b_updated_at := now |>.
Definition release_owner (now : Z) (b : batch_row) : batch_row :=
  b <| b_fencing_token := None |> <| b_lease_until := None |> <| b_updated_at := now |>.
Definition recover_one (from : BatchStatus) (f : batch_row → batch_row) (event : string) (now : Z)
    (b : batch_row) : M unit :=
  _ ← update_batch (b_job_id b) (b_is from) f;
  _add_event (b_run_id b) event (Some (b_job_id b)) [] (Some (b_attempt b)) None None now.

Definition expired (now : Z) (b : batch_row) : bool :=
  match b_lease_until b with Some t => (t <=? now)%Z | None => false end.
Definition owned (b : batch_row) : bool := bool_decide (is_Some (b_fencing_token b)).

(** [_recover_expired_leases_locked] *)
Definition _recover_expired_leases_locked (now : Z) : M Z :=
  leased ← tx_gets (λ d, select (λ b, b_is BatchStatus.LEASED b && expired now b) (batches d));
  _ ← tx_for (recover_one BatchStatus.LEASED (to_ambiguous now) "lease_recovered_as_ambiguous" now) leased;
  reconciling ← tx_gets (λ d, select (λ b, b_is BatchStatus.RECONCILING b && owned b && expired now b) (batches d));
  _ ← tx_for (recover_one BatchStatus.RECONCILING (release_owner now) "reconciliation_recovered" now) reconciling;
  mret (Z.of_nat (length leased + length reconciling)).
Definition recover_expired_leases (ε : env) : op Z :=
  transaction (_recover_expired_leases_locked (clock ε)).

Definition recover_run_leases_as_ambiguous (ε : env) (run : string) : op Z :=
  let now := clock ε in
  transaction (
    leased ← tx_gets (λ d, select (λ b, b_in_run run b && b_is BatchStatus.LEASED b) (batches d));
    _ ← tx_for (recover_one BatchStatus.LEASED (to_ambiguous now) "lease_recovered_as_ambiguous" now) leased;
    reconciling ← tx_gets (λ d, select (λ b, b_in_run run b && b_is BatchStatus.RECONCILING b && owned b) (batches d));
    _ ← tx_for (recover_one BatchStatus.RECONCILING (release_owner now) "reconciliation_ownership_recovered" now) reconciling;
    mret (Z.of_nat (length leased + length reconciling))).

(** * Enqueue *)

(** [PurePosixPath(path).parts] *)
Fixpoint split_slash (cur s : string) : list string :=
  match s with
  | EmptyString => [cur]
  | String c s' => if Ascii.eqb c "/" then cur :: split_slash "" s'
                   else split_slash (cur +:+ String c EmptyString) s'
  end.
Definition posix_parts (path : string) : list string :=
  let root := if startswith "//" path && negb (startswith "///" path) then ["//"]
              else if startswith "/" path then ["/"] else [] in
  root ++ List.filter (λ p, negb (is_empty p) && negb (String.eqb p ".")) (split_slash "" path).

Definition production_complete (run : string) (d : db) : bool :=
  match producer_completion d !! (run, _PRODUCERS_COMPLETE_ID) with
  | Some p => bool_decide (p_status p = ProducerStatus.COMPLETE)
  | None => false
  end.

(** Reference the payload from this run: insert its row or count one more use. *)
Definition reference_artifact (run : string) (art : ArtifactRef) (now : Z) : M unit :=
  d ← tx_get;
  match artifacts d !! (run, sha256 art) with
  | None => insert_artifact (MkArtifact run (sha256 art) (relative_path art) (byte_count art)
              (row_count art) 1 now now)
  | Some existing =>
      _ ← tx_reject (negb (String.eqb (a_relative_path existing) (relative_path art))
              || negb (a_byte_count existing =? byte_count art)%Z
              || negb (a_row_count existing =? row_count art)%Z)
            (JournalError TerminalErrorCode.ARTIFACT_HASH_MISMATCH);
      tx_modify (λ d, d <| artifacts ::= update_key (run, sha256 art) (λ _, true)
        (λ a, a <| a_ref_count ::= (λ n, n + 1)%Z |> <| a_last_referenced_at := now |>) |>)
  end.

Definition new_batch (run job : string) (spec : BatchSpec) (now : Z) : batch_row :=
  MkBatch job run (bs_phase spec) (bs_operation_key spec) (bs_sequence spec)
    (sha256 (bs_artifact spec)) (relative_path (bs_artifact spec)) (byte_count (bs_artifact spec))
    (row_count (bs_artifact spec)) (bs_expected_count spec) BatchStatus.PENDING 0
    (bs_max_attempts spec) None None None (sorted_set (bs_required_barriers spec))
    (sorted_set (bs_produced_barriers spec)) (bs_operation spec) None None None now now.

(** [canonical_json(manifest_failure)] *)
Definition failure_detail (failure : list (string * Z)) : string :=
  canonical_json (JObj (map (λ kv, (kv.1, JInt kv.2)) failure)).
Definition reject_batch (failure : list (string * Z)) (now : Z) (b : batch_row) : batch_row :=
  b <| b_status := BatchStatus.BLOCKED |> <| b_retry_class := Some RetryClass.INTEGRITY |>
    <| b_error_code := Some TerminalErrorCode.INVALID_CONTRACT |>
    <| b_error_detail := Some (failure_detail failure) |> <| b_updated_at := now |>.

(** One produced barrier: created, counted, or refused once it is closed. *)
Definition produce_barrier (run : string) (now : Z) (name : string) : M unit :=
  d ← tx_get;
  match barriers d !! (run, name) with
  | None => put_barrier (MkBarrier run name BarrierStatus.OPEN 1 0 None now)
  | Some b =>
      if bool_decide (br_stat b = BarrierStatus.OPEN)
      then put_barrier (b <| br_produced ::= (λ n, n + 1)%Z |> <| br_updated := now |>)
      else tx_raise bad_transition
  end.

Definition run_items (run : string) (d : db) : Z := countM (b_in_run run) (batches d).
Definition run_bytes (run : string) (d : db) : Z :=
  sumM (λ b, if b_in_run run b then b_payload_bytes b else 0%Z) (batches d).

(** The transaction of [enqueue_batch]: either an existing batch, or a new one
    with the manifest failures that block it ([[]] when it is clean). *)
Definition enqueue_batch_locked (ε : env) (run job : string) (spec : BatchSpec)
    (producer : option string) (candidates : list candidate) : M (BatchRecord * list (string * Z)) :=
  let now := clock ε in
  d ← tx_get;
  _ ← tx_reject (production_complete run d) bad_transition;
  match batches d !! job with
  | Some duplicate => mret (_batch_from_row duplicate, [])
  | None =>
      _ ← tx_reject (negb (run_status_is RunStatus.OPEN run d)) bad_transition;
      _ ← tx_lift (_admit ε (run_items run d + 1) (run_bytes run d + byte_count (bs_artifact spec)));
      _ ← reference_artifact run (bs_artifact spec) now;
      _ ← insert_batch (new_batch run job spec now);
      failure ← (match producer with
                 | Some p => _stage_manifests_locked run job p candidates now
                 | None => mret []
                 end : M (list (string * Z)));
      _ ← (match failure with
           | [] => tx_for (produce_barrier run now) (sorted_set (bs_produced_barriers spec))
           | _ =>
               _ ← update_batch job (λ _, true) (reject_batch failure now);
               _set_run_error_locked run RunStatus.BLOCKED TerminalErrorCode.INVALID_CONTRACT now
           end : M unit);
      _ ← _add_event run (match failure with [] => "batch_enqueued" | _ => "batch_manifest_rejected" end)
            (Some job)
            ([("bytes", byte_count (bs_artifact spec)); ("rows", row_count (bs_artifact spec))] ++ failure)
            None None (match failure with [] => None | _ => Some TerminalErrorCode.INVALID_CONTRACT end) now;
      row ← fetch_batch job;
      mret (_batch_from_row row, failure)
  end.

(** [enqueue_batch(run_id_value, spec)] *)
Definition enqueue_batch (fs : FS) (ε : env) (run : string) (spec : BatchSpec) : op BatchRecord := λ d,
  match runs d !! run with
  | None => (Err bad_transition, d)
  | Some r =>
      if negb (bool_decide (posix_parts (relative_path (bs_artifact spec))
                            = [run; sha256 (bs_artifact spec) +:+ ".jsonl"]))
      then (Err bad_contract, d)
      else
        match art_verify fs (bs_artifact spec), art_read_jsonl fs (bs_artifact spec) with
        | Err e, _ | Ok _, Err e => (Err e, d)
        | Ok _, Ok artifact_rows =>
            let job := deterministic_job_id (r_fingerprint r) (bs_phase spec)
                         (bs_operation_key spec) (bs_sequence spec) (sha256 (bs_artifact spec)) in
            let '(producer, candidates) :=
              _manifest_candidates (project_id (r_metadata_json r)) spec artifact_rows job in
            match transaction (enqueue_batch_locked ε run job spec producer candidates) d with
            | (Ok (batch, []), d') => (Ok batch, d')
            | (Ok (_, _ :: _), d') => (Err bad_contract, d')
            | (Err e, d') => (Err e, d')
            end
        end
  end.

(** * Barriers *)

Definition open_barrier (ε : env) (run name : string) : op BarrierRecord :=
  op_guard (is_empty (strip name)) ValueError (transaction (
    d ← tx_get;
    _ ← tx_reject (negb (run_status_is RunStatus.OPEN run d)) bad_transition;
    _ ← (match barriers d !! (run, name) with
         | Some _ => mret ()
         | None => put_barrier (MkBarrier run name BarrierStatus.OPEN 0 0 None (clock ε))
         end : M unit);
    row ← fetch_barrier run name;
    mret (_barrier_from_row row))).

Definition close_barrier (ε : env) (run name : string) : op BarrierRecord :=
  let now := clock ε in
  transaction (
    d ← tx_get;
    match barriers d !! (run, name) with
    | None => tx_raise bad_contract
    | Some row =>
        if bool_decide (br_stat row = BarrierStatus.DRAINED) then mret (_barrier_from_row row)
        else
          _ ← tx_reject (negb (run_status_is RunStatus.OPEN run d)) bad_transition;
          let status := if (br_drained row =? br_produced row)%Z
                        then BarrierStatus.DRAINED else BarrierStatus.PRODUCED in
          _ ← put_barrier (row <| br_stat := status |> <| br_closed := Some now |> <| br_updated := now |>);
          _ ← (match status with
               | BarrierStatus.DRAINED =>
                   _add_event run "barrier_reached" None [("produced", br_produced row)] None None None now
               | _ => mret ()
               end : M unit);
          updated ← fetch_barrier run name;
          mret (_barrier_from_row updated)
    end).
Definition get_barrier (run name : string) (d : db) : option BarrierRecord :=
  _barrier_from_row <$> barriers d !! (run, name).

(** * Claims *)

(** [NOT EXISTS] a required barrier that is missing or not drained. *)
Definition barriers_drained (d : db) (b : batch_row) : bool :=
  forallb (λ name, match barriers d !! (b_run_id b, name) with
                   | Some bar => bool_decide (br_stat bar = BarrierStatus.DRAINED)
                   | None => false
                   end) (b_required_barriers_json b).
Definition due (now : Z) (b : batch_row) : bool :=
  match b_next_attempt_at b with Some t => (t <=? now)%Z | None => true end.
Definition run_active (d : db) (b : batch_row) : bool :=
  match runs d !! b_run_id b with Some r => is_active (r_status r) | None => false end.
Definition executable (b : batch_row) : bool :=
  b_is BatchStatus.PENDING b || b_is BatchStatus.RETRY_WAIT b.
Definition claimable (now : Z) (d : db) (b : batch_row) : bool :=
  executable b && due now b && run_active d b && barriers_drained d b.
Definition reconcilable (now : Z) (d : db) (b : batch_row) : bool :=
  b_is BatchStatus.RECONCILING b && negb (owned b) && due now b && run_active d b.
Definition in_scope (run : option string) (b : batch_row) : bool :=
  match run with Some r => b_in_run r b | None => true end.
(** [ORDER BY b.sequence, b.created_at, b.job_id] *)
Definition claim_key (b : batch_row) : Z * Z * string := (b_sequence b, b_created_at b, b_job_id b).

Definition lease_end (ε : env) (lease_seconds : Z) : Z := (clock ε + lease_seconds * second)%Z.
Definition lease_batch (ε : env) (lease_seconds : Z) (b : batch_row) : batch_row :=
  b <| b_status := BatchStatus.LEASED |> <| b_attempt ::= (λ n, n + 1)%Z |>
    <| b_fencing_token := Some (fresh_token ε) |> <| b_lease_until := Some (lease_end ε lease_seconds) |>
    <| b_next_attempt_at := None |> <| b_updated_at := clock ε |>.
Definition fence_batch (ε : env) (lease_seconds : Z) (b : batch_row) : batch_row :=
  b <| b_fencing_token := Some (fresh_token ε) |> <| b_lease_until := Some (lease_end ε lease_seconds) |>
    <| b_updated_at := clock ε |>.

(** The common tail of the four claims: fence the chosen row, or give up if
    its guard no longer holds. *)
Definition claim_row (ε : env) (job : string) (guard : batch_row → bool) (f : batch_row → batch_row)
    (event : string) : M (option BatchRecord) :=
  d ← tx_get;
  if negb (update_count job guard (batches d) =? 1)%Z then mret None
  else
    _ ← update_batch job guard f;
    claimed ← fetch_batch job;
    _ ← _add_event (b_run_id claimed) event (Some job) [] (Some (b_attempt claimed)) None None (clock ε);
    mret (Some (_batch_from_row claimed)).

Definition claim_first (ε : env) (eligible : db → batch_row → bool) (run : option string)
    (guard : batch_row → bool) (f : batch_row → batch_row) (event : string) : M (option BatchRecord) :=
  _ ← _recover_expired_leases_locked (clock ε);
  d ← tx_get;
  match head (order_by claim_key (select (λ b, eligible d b && in_scope run b) (batches d))) with
  | None => mret None
  | Some row => claim_row ε (b_job_id row) guard f event
  end.
Definition claim_exact (ε : env) (eligible : db → batch_row → bool) (job : string)
    (guard : batch_row → bool) (f : batch_row → batch_row) (event : string) : M (option BatchRecord) :=
  _ ← _recover_expired_leases_locked (clock ε);
  d ← tx_get;
  match batches d !! job with
  | Some row => if eligible d row then claim_row ε job guard f event else mret None
  | None => mret None
  end.

Definition claim_batch (ε : env) (run : option string) (lease_seconds : Z) : op (option BatchRecord) :=
  op_guard (lease_seconds <=? 0)%Z ValueError (transaction (
    claim_first ε (claimable (clock ε)) run executable (lease_batch ε lease_seconds) "batch_leased")).
Definition claim_job (ε : env) (job : string) (lease_seconds : Z) : op (option BatchRecord) :=
  op_guard (lease_seconds <=? 0)%Z ValueError (transaction (
    claim_exact ε (claimable (clock ε)) job executable (lease_batch ε lease_seconds) "batch_leased")).
Definition unowned_reconciling (b : batch_row) : bool := b_is BatchStatus.RECONCILING b && negb (owned b).
Definition claim_reconciling (ε : env) (run : option string) (lease_seconds : Z) : op (option BatchRecord) :=
  op_guard (lease_seconds <=? 0)%Z ValueError (transaction (
    claim_first ε (reconcilable (clock ε)) run unowned_reconciling
      (fence_batch ε lease_seconds) "batch_reconciliation_leased")).
Definition claim_reconciling_job (ε : env) (job : string) (lease_seconds : Z) : op (option BatchRecord) :=
  op_guard (lease_seconds <=? 0)%Z ValueError (transaction (
    claim_exact ε (reconcilable (clock ε)) job unowned_reconciling
      (fence_batch ε lease_seconds) "batch_reconciliation_leased")).
End store.
