(* ===== verification/Executor.v ===== *)
(** The trusted compilers of persisted operations: the replayed mutation
    ([code-tiny/tools/graph/journal/executor.py]), the endpoint audit and the
    reconciliation readback ([code-tiny/tools/graph/journal/reconcile.py]). *)
From S2P Require Import Prelude Json Text PyValue Scope Models Identity Operation Schema QueryContract Store.

(** A query, as the f-string that gives its text, and its parameters. *)
Abbreviation compiled := (list piece * dict)%type.
Definition rows_param (rows : list dict) : dict := [("rows", JArr (map JObj rows))].

Definition _unsupported : exn := bad_contract.
Definition require_label (s : option string) : res string :=
  match s with Some s => if is_empty s then Err _unsupported else Ok s | None => Err _unsupported end.
(** The single group of a batch, or [e]. *)
Definition one_group {G} (e : exn) (groups : list (G * list dict)) : res (G * list dict) :=
  match groups with [group] => Ok group | _ => Err e end.

(** * The templates *)

Definition row_value (properties : option string) : list piece :=
  match properties with
  | Some p => if is_empty p then [Lit "row"] else [Lit "coalesce(row."; Val p; Lit ", {})"]
  | None => [Lit "row"]
  end.
Definition node_template (verb label identity row_identity : string) (properties : option string) : list piece :=
  [Lit "UNWIND $rows AS row "; Lit verb; Lit " (n:"; Val label; Lit " {"; Val identity; Lit ": row.";
   Val row_identity; Lit "}) SET n += "] ++ row_value properties
  ++ [Lit ", n.updated_at = datetime() RETURN count(n) AS count"].
Definition repository_template : list piece := [Lit
  "UNWIND $rows AS row MATCH (repository:Repository {name: row.repo, project_id_normalized: row.project_id_normalized}) MATCH (file:File {id: row.id, project_id_normalized: row.project_id_normalized}) MERGE (repository)-[edge:HAS_FILE]->(file) RETURN count(edge) AS count"].
Definition call_endpoints : string :=
  "UNWIND $rows AS row MATCH (caller:Function {id: row.caller_id, project_id_normalized: row.project_id_normalized}) MATCH (callee:Function {id: row.callee_id, project_id_normalized: row.project_id_normalized}) ".
Definition call_edge_template : list piece := [Lit call_endpoints; Lit
  "MERGE (caller)-[edge:CALLS]->(callee) SET edge.count = row.count, edge.call_type = row.call_type, edge.project_id = row.project_id, edge.project_id_normalized = row.project_id_normalized, edge.updated_at = datetime() RETURN count(edge) AS count"].
Definition call_site_template (relation : string) : list piece := [Lit call_endpoints; Lit
  "MERGE (caller)-[edge:"; Lit relation; Lit " {site_id: row.site_id}]->(callee) SET edge += coalesce(row.props, {}) RETURN count(edge) AS count"].
Definition file_cleanup_template (label : string) : list piece := [Lit
  "UNWIND $rows AS row OPTIONAL MATCH (n:"; Val label; Lit
  ") WHERE n.project_id = row.project_id AND (coalesce(n.file_path, '') IN row.paths OR coalesce(n.path, '') IN row.paths OR (n:File AND n.id IN row.paths)) WITH row, collect(DISTINCT n) AS nodes FOREACH (node IN nodes | DETACH DELETE node) RETURN count(*) AS count"].
Definition orphan_cleanup_template : list piece := [Lit
  "UNWIND $rows AS row OPTIONAL MATCH (u:UnknownFunction) WHERE u.project_id = row.project_id AND NOT ()-[:UNKNOWN_CALL]->(u) WITH row, collect(u) AS nodes FOREACH (node IN nodes | DETACH DELETE node) RETURN count(*) AS count"].

(** * [compile_persisted_mutation] *)

Definition compile_persisted_mutation (o : GraphWriteOperation) (rows : list dict) : res compiled :=
  let reconciliation := go_reconciliation o in
  if String.eqb reconciliation "node_identity" then
    label ← require_label (go_node_label o);
    identity ← require_label (go_identity_property o);
    _ ← check_all validate_cypher_identifier [label; identity; go_row_identity_property o];
    let verb := if String.eqb (go_mutation_kind o) "merge" then "MERGE" else "MATCH" in
    _ ← (match go_row_properties_property o with
         | Some p => if is_empty p then Ok p else validate_cypher_identifier p
         | None => Ok EmptyString end);
    Ok (node_template verb label identity (go_row_identity_property o) (go_row_properties_property o),
        rows_param rows)
  else if String.eqb reconciliation "typed_relationship" then
    groups ← group_typed_relations JNull rows;
    '(group, grouped_rows) ← one_group bad_contract groups;
    Ok (compile_relationship_upsert group, rows_param grouped_rows)
  else if String.eqb reconciliation "evidence_edge" then
    groups ← group_evidence_edges rows;
    '(group, grouped_rows) ← one_group bad_contract groups;
    Ok (compile_evidence_edge_upsert group, rows_param grouped_rows)
  else if String.eqb reconciliation "repository_file" then Ok (repository_template, rows_param rows)
  else if String.eqb reconciliation "call_edge" then Ok (call_edge_template, rows_param rows)
  else if String.eqb reconciliation "call_site" then Ok (call_site_template "CALLS", rows_param rows)
  else if String.eqb reconciliation "possible_call_site" then
    Ok (call_site_template "POSSIBLE_CALLS", rows_param rows)
  else if String.eqb reconciliation "file_cleanup" then
    if negb (go_version o =? 2)%Z then Err _unsupported
    else
      label ← require_label (go_node_label o);
      _ ← validate_cypher_identifier label;
      Ok (file_cleanup_template label, rows_param rows)
  else if String.eqb reconciliation "orphan_unknown_cleanup" then
    if negb (go_version o =? 2)%Z then Err _unsupported
    else Ok (orphan_cleanup_template, rows_param rows)
  else Err _unsupported.

(** [int(records[0].get("count", 0)) if records else 0], also [readback_count]. *)
Definition result_count (records : list dict) : res Z :=
  match records with [] => Ok 0%Z | r :: _ => py_int (get_default "count" (JInt 0) r) end.

(** * [compile_endpoint_audit] *)

Definition repository_audit_template : list piece := [Lit
  "UNWIND $rows AS row OPTIONAL MATCH (a:Repository {name: row.repo, project_id_normalized: row.project_id_normalized}) WITH row, count(a) AS source_matches OPTIONAL MATCH (b:File {id: row.id, project_id_normalized: row.project_id_normalized}) WITH row, source_matches, count(b) AS target_matches WHERE source_matches <> 1 OR target_matches <> 1 RETURN row.repo AS source_id, row.id AS target_id, source_matches, target_matches LIMIT 20"].
Definition call_audit_template : list piece := [Lit
  "UNWIND $rows AS row OPTIONAL MATCH (a:Function {id: row.caller_id, project_id_normalized: row.project_id_normalized}) WITH row, count(a) AS source_matches OPTIONAL MATCH (b:Function {id: row.callee_id, project_id_normalized: row.project_id_normalized}) WITH row, source_matches, count(b) AS target_matches WHERE source_matches <> 1 OR target_matches <> 1 RETURN row.caller_id AS source_id, row.callee_id AS target_id, source_matches, target_matches LIMIT 20"].

Definition compile_endpoint_audit (o : GraphWriteOperation) (rows : list dict) : res (option compiled) :=
  let reconciliation := go_reconciliation o in
  if String.eqb reconciliation "typed_relationship" then
    groups ← group_typed_relations JNull rows;
    '(group, grouped_rows) ← one_group ValueError groups;
    Ok (Some (compile_relationship_endpoint_audit group, rows_param grouped_rows))
  else if String.eqb reconciliation "repository_file" then Ok (Some (repository_audit_template, rows_param rows))
  else if in_list reconciliation ["call_edge"; "call_site"; "possible_call_site"] then
    Ok (Some (call_audit_template, rows_param rows))
  else if String.eqb reconciliation "evidence_edge" then
    groups ← group_evidence_edges rows;
    '(group, grouped_rows) ← one_group ValueError groups;
    Ok (Some (compile_evidence_endpoint_audit group, rows_param grouped_rows))
  else match go_phase o with
       | OperationPhase.RELATIONSHIPS | OperationPhase.CALLS => Err ValueError
       | _ => Ok None
       end.

(** * [compile_reconciliation_readback] *)

Definition receipt_readback : string :=
  "MATCH (receipt:GraphWriteReceipt {id: $job_id}) WHERE receipt.operation_key = $operation_key AND receipt.row_count = $expected_count AND receipt.artifact_sha256 = $artifact_sha256 AND receipt.run_id = $run_id AND receipt.generation = $generation RETURN count(receipt) AS count".
Definition receipt_params (o : GraphWriteOperation) (rows : list dict)
    (job_id artifact_sha256 run_id generation : string) : dict := [
  ("job_id", JStr job_id); ("operation_key", JStr (operation_key o));
  ("expected_count", JInt (Z.of_nat (length rows))); ("artifact_sha256", JStr artifact_sha256);
  ("run_id", JStr run_id); ("generation", JStr generation)].
Definition call_readback (relation suffix : string) : list piece := [Lit
  "UNWIND $rows AS row OPTIONAL MATCH (caller:Function {id: row.caller_id, project_id_normalized: row.project_id_normalized})-[r:"; Lit relation; Lit
  "]->(callee:Function {id: row.callee_id, project_id_normalized: row.project_id_normalized}) "; Lit suffix; Lit
  "RETURN count(r) AS count"].

(** The assertion of the first branch raises on an absent or empty name. *)
Definition asserted (s : option string) : res string :=
  match s with Some s => if is_empty s then Err AssertionError else Ok s | None => Err AssertionError end.
Definition compile_reconciliation_readback (o : GraphWriteOperation) (rows : list dict)
    (job_id artifact_sha256 run_id generation : string) : res (option compiled) :=
  let reconciliation := go_reconciliation o in
  if negb (is_empty job_id) then
    Ok (Some ([Lit receipt_readback], receipt_params o rows job_id artifact_sha256 run_id generation))
  else if String.eqb reconciliation "node_identity" then
    label ← asserted (go_node_label o);
    identity ← asserted (go_identity_property o);
    Ok (Some ([Lit "UNWIND $rows AS row OPTIONAL MATCH (n:"; Val label; Lit " {"; Val identity; Lit ": row.";
               Val (go_row_identity_property o); Lit "}) RETURN count(n) AS count"], rows_param rows))
  else if String.eqb reconciliation "typed_relationship" then
    groups ← group_typed_relations JNull rows;
    '(group, _) ← one_group ValueError groups;
    Ok (Some ([Lit "UNWIND $rows AS row OPTIONAL MATCH (a:"; Val (rg_source_label group);
               Lit " {id: row.source_id})-[r:"; Val (rg_relationship_type group); Lit "]->(b:";
               Val (rg_target_label group); Lit " {id: row.target_id}) RETURN count(r) AS count"], rows_param rows))
  else if String.eqb reconciliation "evidence_edge" then
    groups ← group_evidence_edges rows;
    '(group, _) ← one_group ValueError groups;
    Ok (Some (compile_evidence_edge_readback group, rows_param rows))
  else if String.eqb reconciliation "repository_file" then
    Ok (Some ([Lit "UNWIND $rows AS row OPTIONAL MATCH (r:Repository {name: row.repo, project_id_normalized: row.project_id_normalized})-[edge:HAS_FILE]->(f:File {id: row.id, project_id_normalized: row.project_id_normalized}) RETURN count(edge) AS count"], rows_param rows))
  else if String.eqb reconciliation "call_edge" then
    Ok (Some (call_readback "CALLS" "WHERE r.count = row.count AND r.call_type = row.call_type ", rows_param rows))
  else if String.eqb reconciliation "call_site" then
    Ok (Some (call_readback "CALLS {site_id: row.site_id}" "", rows_param rows))
  else Ok None.

(** * What is compiled *)

(** The query with its interpolated values erased. *)
Definition blank (ps : list piece) : list piece := map (λ p, match p with Lit s => Lit s | Val _ => Val "" end) ps.
Definition values (ps : list piece) : list string := omap (λ p, match p with Val s => Some s | Lit _ => None end) ps.
Definition erased_relationship : RelationshipGroup := MkRelationshipGroup "" "" "".
Definition erased_evidence (edge_property : string) : EvidenceEdgeGroup :=
  MkEvidenceEdgeGroup "" "" "" "" "" edge_property.
(** The mutations that can be compiled, up to the identifiers in them. *)
Definition mutation_shapes : list (list piece) := map blank [
  node_template "MERGE" "" "" "" None; node_template "MERGE" "" "" "" (Some "p");
  node_template "MATCH" "" "" "" None; node_template "MATCH" "" "" "" (Some "p");
  compile_relationship_upsert erased_relationship; compile_evidence_edge_upsert (erased_evidence "");
  compile_evidence_edge_upsert (erased_evidence "p"); repository_template; call_edge_template;
  call_site_template "CALLS"; call_site_template "POSSIBLE_CALLS"; file_cleanup_template "";
  orphan_cleanup_template].
Definition audit_shapes : list (list piece) := map blank [
  compile_relationship_endpoint_audit erased_relationship; compile_evidence_endpoint_audit (erased_evidence "");
  repository_audit_template; call_audit_template].
#[export] Instance piece_eq_dec : EqDecision piece.
Proof. solve_decision. Defined.
