(* ===== verification/Labels.v ===== *)
(** Operation contracts against the two components that consume them: the
    manifest staging of [sqlite_store.py], which decides from the descriptor
    whether a row is accepted, and the graph schema, which indexes the
    identities that node contracts merge on. *)
From S2P Require Import Prelude Json Text PyValue Scope Models Identity Operation Schema QueryContract Db Manifest Store Executor.

Section labels.
Context `{Sha256}.

Definition scalar (v : json) : bool :=
  match v with JNull | JArr _ | JObj _ => false | _ => true end.
Lemma typed_identity_scalar v : is_ok (_typed_identity v) = scalar v.
Proof. by destruct v. Qed.

(** [str(operation.get("row_identity_property") or "id")] of a descriptor. *)
Definition row_identity (o : GraphWriteOperation) : string :=
  if is_empty (go_row_identity_property o) then "id" else go_row_identity_property o.

Lemma descriptor_str k o s : Json.assoc k (to_dict o) = Some (opt_str s) →
  py_str (py_or (get k (to_dict o)) (JStr "")) = default "" s.
Proof.
  unfold get. intros ->. change (default JNull (Some (opt_str s))) with (opt_str s).
  destruct s as [s|]; [|reflexivity]. unfold py_or. cbn [opt_str truthy]. destruct (is_empty s) eqn:E; [|reflexivity].
  apply String.eqb_eq in E as ->. reflexivity.
Qed.
Lemma given_default s : given s = negb (is_empty (default "" s)).
Proof. by destruct s. Qed.

(** A node row is staged exactly when it can be replayed as an upsert: the
    descriptor merges, names a label and an identity property, and the row
    carries a scalar under the row identity property; any other row of a
    [node_identity] operation is staged as rejected. *)
Theorem node_row_staged (o : GraphWriteOperation) (producer job scope : string) (i : Z) (row : dict) :
  go_reconciliation o = "node_identity" →
  ∃ c, row_candidate (to_dict o) (go_reconciliation o) producer job scope i (JObj row) = Some c ∧
    c_disposition c =
      if String.eqb (go_mutation_kind o) "merge" && given (go_node_label o) && given (go_identity_property o)
         && match Json.assoc (row_identity o) row with Some v => scalar v | None => false end
      then ManifestDisposition.STAGED_UNIQUE else ManifestDisposition.REJECTED.
Proof.
  intros Hr. unfold row_candidate. rewrite Hr. cbn [String.eqb Ascii.eqb Bool.eqb andb].
  change (get_default "mutation_kind" (JStr "merge") (to_dict o)) with (JStr (go_mutation_kind o)).
  destruct (String.eqb (go_mutation_kind o) "merge") eqn:Em; bool_hyps.
  - rewrite bool_decide_true by (by rewrite Em). eexists. split; [done|]. unfold node_candidate. cbv zeta.
    rewrite (descriptor_str "node_label" o (go_node_label o)), (descriptor_str "identity_property" o (go_identity_property o)) by done.
    assert (py_str (py_or (get "row_identity_property" (to_dict o)) (JStr "id")) = row_identity o) as ->.
    { change (get "row_identity_property" (to_dict o)) with (JStr (go_row_identity_property o)).
      unfold py_or, row_identity. cbn [truthy]. by destruct (is_empty _). }
    unfold getitem. destruct (Json.assoc (row_identity o) row) as [v|]; cbn [mbind result_bind];
      [|by rewrite andb_false_r].
    rewrite <- typed_identity_scalar. destruct (_typed_identity v) as [[ty js]|e]; cbn [mbind result_bind is_ok];
      [|by rewrite andb_false_r].
    rewrite !given_default, andb_true_r. cbn [andb].
    destruct (is_empty (default "" (go_node_label o))), (is_empty (default "" (go_identity_property o)));
      cbn [orb negb andb]; try done. by case_match.
  - rewrite bool_decide_false by congruence. eexists. split; [done|].
    unfold edge_candidate, edge_attempt, describe_edge. reflexivity.
Qed.
(** A custom query of the allowlisted MATCH form compiles for replay, but
    the journal never accepts a batch of it: each of its rows is staged as a
    rejected edge. *)
Theorem match_upsert_never_staged (label cypher : string) (o : GraphWriteOperation) (m : safe_match) :
  _SAFE_NODE_QUERY_PATTERN cypher = Some m → casefold (sm_verb m) = "match" →
  operation_for_custom_query label cypher = Ok o →
  ∀ producer job scope i row, ∃ c,
    row_candidate (to_dict o) (go_reconciliation o) producer job scope i (JObj row) = Some c ∧
    c_disposition c = ManifestDisposition.REJECTED.
Proof.
  unfold operation_for_custom_query. intros -> Hv Ho%make_operation_id producer job scope i row.
  destruct (node_row_staged o producer job scope i row) as (c & Hc & Hd); [by rewrite Ho|].
  exists c. split; [done|]. rewrite Hd, Ho. cbn [go_mutation_kind update_field]. cbn. by rewrite Hv.
Qed.
End labels.

(** ** Instances, with the text itself as its digest *)

#[local] Instance plain_digest : Sha256 := λ s, s.
Lemma node_row_staged_witness :
  let o := (operation "functions" OperationPhase.NODES) <| go_reconciliation := "node_identity" |>
             <| go_node_label := Some "Function" |> <| go_identity_property := Some "id" |> in
  go_reconciliation o = "node_identity" ∧
  ∃ c, row_candidate (to_dict o) (go_reconciliation o) "p" "j" "s" 0 (JObj [("name", JStr "f")]) = Some c ∧
       c_disposition c = ManifestDisposition.REJECTED.
Proof. intros o. split; [reflexivity|]. exact (node_row_staged o "p" "j" "s" 0 [("name", JStr "f")] eq_refl). Defined.

Definition touch_query : string := "UNWIND $rows AS row MATCH (n:Class {id: row.id}) SET n += row".
Definition touch_match : safe_match := MkSafeMatch "MATCH" "n" "Class" "id" "id" None.
Definition touch_operation : GraphWriteOperation :=
  MkOperation "touch" OperationPhase.NODES 1 true "node_identity" (Some "Class") (Some "id") "id" None "match"
    (Some (take 16 (sha256_hex (join " " (split_ws touch_query))))).
Lemma touch_matches : _SAFE_NODE_QUERY_PATTERN touch_query = Some touch_match.
Proof. vm_compute. reflexivity. Qed.
Lemma touch_built : operation_for_custom_query "touch" touch_query = Ok touch_operation.
Proof. unfold operation_for_custom_query. rewrite touch_matches. reflexivity. Qed.
Lemma match_upsert_never_staged_witness :
  ∃ c, row_candidate (to_dict touch_operation) "node_identity" "p" "j" "s" 0 (JObj [("id", JStr "A")]) = Some c ∧
       c_disposition c = ManifestDisposition.REJECTED.
Proof.
  exact (match_upsert_never_staged "touch" touch_query touch_operation touch_match touch_matches eq_refl
    touch_built "p" "j" "s" 0%Z [("id", JStr "A")]).
Defined.

(** * Node contracts and indexes *)

Definition unindexed_contracts : list string := ["param_lists"; "workflows"; "workflow_steps"].
Lemma contracts_checked : forallb (λ kc : string * (string * string * string * option string),
  let '(label, identity, row_id, props) := kc.2 in
  Bool.eqb (has_identity_index CODE_GRAPH_SCHEMA label identity) (negb (in_list kc.1 unindexed_contracts))
  && is_identifier label && is_identifier identity && is_identifier row_id
  && match props with Some p => is_identifier p | None => true end) _NODE_CONTRACTS = true.
Proof. vm_compute. reflexivity. Qed.

(** The node contract a label declares compiles for replay, and merges on
    an indexed identity of the canonical schema; three labels ([param_lists],
    [workflows], [workflow_steps]) are the exceptions, their identity has no
    index in the schema. *)
Theorem label_contract_replayable (label : string) (o : GraphWriteOperation) (rows : list dict) :
  for_label label = Ok o → go_reconciliation o = "node_identity" →
  is_ok (compile_persisted_mutation o rows) = true ∧
  ∃ node_label identity, go_node_label o = Some node_label ∧ go_identity_property o = Some identity ∧
    has_identity_index CODE_GRAPH_SCHEMA node_label identity
      = negb (in_list (casefold (strip label)) unindexed_contracts).
Proof.
  unfold for_label. cbv zeta. destruct (Json.assoc (casefold (strip label)) _NODE_CONTRACTS) as [[[[l i] r] p]|] eqn:Ha.
  - intros ->%make_operation_id _. apply assoc_elem in Ha.
    pose proof contracts_checked as Hc. rewrite forallb_forall in Hc. apply list_elem_of_In in Ha.
    specialize (Hc _ Ha). cbn [fst snd] in Hc. repeat (apply andb_true_iff in Hc as [Hc ?]).
    apply Bool.eqb_prop in Hc. split; [|by exists l, i].
    assert (∀ s, is_identifier s = true → is_empty s = false ∧ validate_cypher_identifier s = Ok s) as Hv.
    { intros s Hs. unfold validate_cypher_identifier. rewrite Hs. by destruct s. }
    unfold compile_persisted_mutation. cbn [update_field]. cbn.
    destruct (Hv l) as [El Vl], (Hv i) as [Ei Vi], (Hv r) as [_ Vr]; [done..|].
    rewrite El. cbn. rewrite Ei. cbn. rewrite Vl. cbn. rewrite Vi. cbn. rewrite Vr. cbn.
    destruct p as [p|]; [|done]. destruct (Hv p) as [Ep Vp]; [done|]. by rewrite Ep, Vp.
  - repeat (case_match; [by intros ->%make_operation_id|]). by intros ->%make_operation_id.
Qed.
Lemma label_contract_replayable_witness :
  let o := match for_label "Workflow_Steps" with Ok o => o | Err _ => operation "" OperationPhase.CUSTOM end in
  for_label "Workflow_Steps" = Ok o ∧ has_identity_index CODE_GRAPH_SCHEMA "WorkflowStep" "id" = false ∧
  is_ok (compile_persisted_mutation o []) = true.
Proof.
  intros o. assert (for_label "Workflow_Steps" = Ok o) as Ho by reflexivity.
  split; [exact Ho|]. split; [reflexivity|].
  exact (proj1 (label_contract_replayable "Workflow_Steps" o [] Ho eq_refl)).
Defined.
