(* ===== verification/Guard.v ===== *)
(** The write guard of [code-tiny/tools/graph/journal/guard.py]: the wrapper
    that lets reads through, refuses mutations outside a journaled operation,
    and makes every journaled mutation leave its receipt in the graph. *)
From S2P Require Import Prelude Json Text PyValue Models Store.

(** The graph driver is third-party: a query and its parameters, on some state
    of the graph, give records or an exception, and a new state. *)
Class GraphDriver (W : Type) : Type :=
  execute_query : W → string → dict → res (list dict) * W.

(** * Reading a query *)

Definition mutation_keywords : list string :=
  ["create"; "delete"; "detach"; "drop"; "merge"; "remove"; "set"].
(** [_MUTATION_PATTERN.search(query)] *)
Definition is_mutation (query : string) : bool := has_word mutation_keywords query.

(** The rest of a text after the keyword, when a word ends there. *)
Definition whole_word (k s : string) : option string :=
  r ← keyword k s; if boundary r then Some r else None.
Definition as_count (s : string) : option string :=
  r ← keyword "AS" s; r ← spaces r; whole_word "count" r.
(** A word RETURN, and after it [AS count]. *)
Definition returns_count (query : string) : bool :=
  match search (whole_word "RETURN") false query with
  | Some (_, rest) => bool_decide (is_Some (search as_count true rest))
  | None => false
  end.

(** [RETURN count(value) AS count] up to the end of the text: the value. *)
Definition count_tail (s : string) : option string :=
  r ← keyword "RETURN" s; r ← spaces r; r ← keyword "count(" r;
  '(value, r) ← (match keyword "*" r with Some r => Some ("*", r) | None => identifier r end);
  r ← keyword ")" r; r ← spaces r; r ← keyword "AS" r; r ← spaces r; r ← keyword "count" r;
  if is_empty (lstrip r) then Some value else None.

(** * [_receipt_query] *)

Definition receipt_suffix : string :=
  " MERGE (receipt:GraphWriteReceipt {id: $__journal_job_id}) SET receipt.operation_key = $__journal_operation_key, receipt.row_count = __journal_count, receipt.artifact_sha256 = $__journal_artifact_sha256, receipt.run_id = $__journal_run_id, receipt.generation = $__journal_generation, receipt.applied_at = datetime() RETURN __journal_count AS count".
Definition query_source (query : string) : string := rstrip_char ";" (strip query).
Definition receipt_of_count (query : string) : res string :=
  match search count_tail false (query_source query) with
  | Some (source, value) =>
      Ok (source +:+ "WITH count(" +:+ value +:+ ") AS __journal_count" +:+ receipt_suffix)
  | None => Err bad_contract
  end.
Definition _receipt_query (query : string) (with_count : bool) : res string :=
  if with_count then receipt_of_count query
  else
    let source := query_source query in
    if has_word ["return"] source then Err bad_contract
    else receipt_of_count (source +:+ " RETURN count(*) AS count").

(** * The guarded driver *)

(** The value of the context variable inside [with journaled_mutation(...)]. *)
Record fence := MkFence {
  f_job_id : string; f_operation_key : string; f_artifact_sha256 : string; f_run_id : string;
  f_generation : string;
}.
(** [journaled_mutation(job_id, ...)]: an absent or empty job is the schema one. *)
Definition journaled_mutation (job_id : option string) (operation_key artifact_sha256 run_id generation : string)
    : fence :=
  MkFence (match job_id with Some j => if is_empty j then "schema" else j | None => "schema" end)
    operation_key artifact_sha256 run_id generation.
(** [len(parameters.get("rows", [])) or 1] *)
Definition expected_rows (parameters : dict) : res Z :=
  n ← (match get_default "rows" (JArr []) parameters with
       | JArr l => Ok (Z.of_nat (length l))
       | JObj l => Ok (Z.of_nat (length l))
       | JStr s => Ok (Z.of_nat (String.length s))
       | _ => Err TypeError end);
  Ok (if (n =? 0)%Z then 1%Z else n).
(** A key supplied by the caller must be absent or the key of the fence. *)
Definition supplied_key (v : json) (key : string) : res unit :=
  match v with
  | JNull => Ok tt
  | JStr s => if String.eqb s key then Ok tt else Err bad_contract
  | JArr _ | JObj _ => Err TypeError
  | _ => Err bad_contract
  end.
Definition fenced_parameters (f : fence) (parameters : dict) : res dict :=
  expected_count ← expected_rows parameters;
  _ ← supplied_key (get "__journal_operation_key" parameters) (f_operation_key f);
  let p := setitem "__journal_job_id" (JStr (f_job_id f)) parameters in
  let p := pop "__journal_operation_key" p in
  let p := setitem "__journal_operation_key" (JStr (f_operation_key f)) p in
  let p := setitem "__journal_expected_count" (JInt expected_count) p in
  let p := setitem "__journal_artifact_sha256" (JStr (f_artifact_sha256 f)) p in
  let p := setitem "__journal_run_id" (JStr (f_run_id f)) p in
  Ok (setitem "__journal_generation" (JStr (f_generation f)) p).

Section guard.
Context {W : Type} `{!GraphDriver W}.
(** [guarded(query, parameters)] in a context. *)
Definition guarded (context : option fence) (w : W) (query : string) (parameters : dict)
    : res (list dict) * W :=
  if is_mutation query then
    match context with
    | None => (Err bad_contract, w)
    | Some f =>
        if String.eqb (f_job_id f) "schema" then execute_query w query parameters
        else
          match (p ← fenced_parameters f parameters;
                 q ← _receipt_query query (returns_count query); Ok (q, p)) with
          | Ok (q, p) => execute_query w q p
          | Err e => (Err e, w)
          end
    end
  else execute_query w query parameters.
End guard.
