(* ===== verification/Replay.v ===== *)
(** What the trusted compilers and the write guard promise each other: a
    compiled query is one of a fixed list of shapes with identifiers in it,
    every compiled mutation is accepted by the guard and leaves a receipt, and
    every audit and readback passes the guard as a read. *)
From S2P Require Import Prelude Json Text PyValue Scope Models Identity Operation Schema QueryContract Store Executor Guard.

(** * Shapes *)

Lemma blank_app ps qs : blank (ps ++ qs) = blank ps ++ blank qs.
Proof. apply map_app. Qed.
Lemma values_app ps qs : values (ps ++ qs) = values ps ++ values qs.
Proof. apply omap_app. Qed.

Lemma one_group_ok {G} e (groups : list (G * list dict)) g rows :
  one_group e groups = Ok (g, rows) → groups = [(g, rows)].
Proof. destruct groups as [|x [|]]; try done. by intros [= ->]. Qed.

(** Every group that a grouping returns was built by its constructor. *)
Lemma group_from_built {G} `{EqDecision G} (built : G → Prop) describe p rows groups0 groups :
  (∀ p row g row', describe p row = Ok (g, row') → built g) →
  Forall (λ gr, built gr.1) groups0 → group_from describe p rows groups0 = Ok groups →
  Forall (λ gr, built gr.1) groups.
Proof.
  intros Hd. revert p groups0. induction rows as [|row rows IH]; intros p groups0 H0; cbn [group_from].
  - by intros [= <-].
  - destruct (describe p row) as [[g r]|] eqn:E; [|done]. cbn [mbind result_bind]. apply IH.
    pose proof (Hd _ _ _ _ E) as Hg. clear -H0 Hg. induction H0 as [|[h rs] l Hh Hl IHl]; simpl; [by repeat constructor|].
    case_decide; by constructor.
Qed.
Lemma describe_relation_built dflt p row g row' : describe_relation dflt p row = Ok (g, row') →
  make_relationship_group g = Ok g.
Proof.
  unfold describe_relation. destruct (_ || _); [done|]. destruct (_ || _); [done|].
  destruct (scoped_row _ _); [|done]. cbn [mbind result_bind].
  destruct (make_relationship_group _) eqn:E; [|done]. intros [= <- _].
  destruct (relationship_group_ok _ _ E) as [-> _]. exact E.
Qed.
Lemma describe_evidence_built p row g row' : describe_evidence_edge p row = Ok (g, row') →
  make_evidence_edge_group g = Ok g.
Proof.
  unfold describe_evidence_edge. destruct (existsb _ _); [done|].
  destruct (if truthy _ then _ else _); [|done]. cbn [mbind result_bind].
  destruct (scoped_row _ _) as [r|]; [|done]. cbn [mbind result_bind]. destruct (_ && _); [done|].
  destruct (getitem _ r); [|done]. cbn [mbind result_bind].
  destruct (make_evidence_edge_group _) eqn:E; [|done]. intros [= <- _].
  destruct (evidence_group_ok _ _ E) as [-> _]. exact E.
Qed.
Lemma typed_group_built dflt rows g grouped : group_typed_relations dflt rows = Ok [(g, grouped)] →
  make_relationship_group g = Ok g.
Proof.
  intros Hg. apply (group_from_built (λ g, make_relationship_group g = Ok g)) in Hg; [|apply describe_relation_built|done].
  by inversion Hg.
Qed.
Lemma evidence_group_built rows g grouped : group_evidence_edges rows = Ok [(g, grouped)] →
  make_evidence_edge_group g = Ok g.
Proof.
  intros Hg. apply (group_from_built (λ g, make_evidence_edge_group g = Ok g)) in Hg; [|apply describe_evidence_built|done].
  by inversion Hg.
Qed.

(** A query of one of the listed shapes, with identifiers for its values. *)
Definition safe_query (shapes : list (list piece)) (ps : list piece) : Prop :=
  blank ps ∈ shapes ∧ ident_list (values ps).

Ltac in_shapes := apply (bool_decide_unpack _); vm_compute; exact I.
Ltac ident_values :=
  unfold ident_list in *; cbn [values omap list_omap app] in *;
  repeat match goal with H : Forall _ (_ :: _) |- _ => inversion_clear H end; by repeat constructor.

Lemma relationship_queries_safe g : make_relationship_group g = Ok g →
  safe_query mutation_shapes (compile_relationship_upsert g) ∧
  safe_query audit_shapes (compile_relationship_endpoint_audit g).
Proof.
  intros (_ & Hi & _)%relationship_group_ok. repeat split; [in_shapes| |in_shapes|]; ident_values.
Qed.
Lemma evidence_queries_safe g : make_evidence_edge_group g = Ok g →
  safe_query mutation_shapes (compile_evidence_edge_upsert g) ∧
  safe_query audit_shapes (compile_evidence_endpoint_audit g).
Proof.
  intros (_ & Hi & He & _)%evidence_group_ok. unfold compile_evidence_edge_upsert, edge_pattern.
  destruct (is_empty (eg_edge_property g)) eqn:Ee.
  - repeat split; [in_shapes| |in_shapes|]; ident_values.
  - destruct He as [He|He]; [by apply String.eqb_neq in Ee|].
    repeat split; [in_shapes| |in_shapes|]; ident_values.
Qed.

Lemma compiled_mutation_safe o rows ps params : compile_persisted_mutation o rows = Ok (ps, params) →
  safe_query mutation_shapes ps.
Proof.
  unfold compile_persisted_mutation.
  repeat match goal with |- (if String.eqb _ _ then _ else _) = _ → _ => destruct (String.eqb _ _) end.
  - destruct (require_label (go_node_label o)) as [label|] eqn:Hl; [|done]. cbn [mbind result_bind].
    destruct (require_label (go_identity_property o)) as [identity|]; [|done]. cbn [mbind result_bind].
    destruct (check_all _ _) as [[]|] eqn:Hc; [|done]. cbn [mbind result_bind].
    apply check_all_validate in Hc.
    destruct (go_row_properties_property o) as [p|]; [destruct (is_empty p) eqn:Hp|]; cbn [mbind result_bind].
    2: destruct (validate_cypher_identifier p) eqn:Hv; [|done]; apply validate_identifier_ok in Hv; cbn [mbind result_bind].
    all: intros [= <- _]; unfold node_template, row_value; rewrite ?Hp;
      destruct (String.eqb (go_mutation_kind o) "merge"); (split; [in_shapes|ident_values]).
  - destruct (group_typed_relations _ _) as [groups|] eqn:Hg; [|done]. cbn [mbind result_bind].
    destruct (one_group _ groups) as [[g grouped]|] eqn:Ho; [|done]. intros [= <- _].
    apply one_group_ok in Ho as ->. apply typed_group_built in Hg. by apply relationship_queries_safe.
  - destruct (group_evidence_edges _) as [groups|] eqn:Hg; [|done]. cbn [mbind result_bind].
    destruct (one_group _ groups) as [[g grouped]|] eqn:Ho; [|done]. intros [= <- _].
    apply one_group_ok in Ho as ->. apply evidence_group_built in Hg. by apply evidence_queries_safe.
  - intros [= <- _]. split; [in_shapes|constructor].
  - intros [= <- _]. split; [in_shapes|constructor].
  - intros [= <- _]. split; [in_shapes|constructor].
  - intros [= <- _]. split; [in_shapes|constructor].
  - destruct (negb _); [done|]. destruct (require_label _) as [label|]; [|done]. cbn [mbind result_bind].
    destruct (validate_cypher_identifier label) eqn:Hv; [|done]. apply validate_identifier_ok in Hv.
    intros [= <- _]. split; [in_shapes|ident_values].
  - destruct (negb _); [done|]. intros [= <- _]. split; [in_shapes|constructor].
  - done.
Qed.
Lemma compiled_audit_safe o rows ps params : compile_endpoint_audit o rows = Ok (Some (ps, params)) →
  safe_query audit_shapes ps.
Proof.
  unfold compile_endpoint_audit.
  repeat match goal with |- (if ?b then _ else _) = _ → _ => destruct b end.
  - destruct (group_typed_relations _ _) as [groups|] eqn:Hg; [|done]. cbn [mbind result_bind].
    destruct (one_group _ groups) as [[g grouped]|] eqn:Ho; [|done]. intros [= <- _].
    apply one_group_ok in Ho as ->. apply typed_group_built in Hg. by apply relationship_queries_safe.
  - intros [= <- _]. split; [in_shapes|constructor].
  - intros [= <- _]. split; [in_shapes|constructor].
  - destruct (group_evidence_edges _) as [groups|] eqn:Hg; [|done]. cbn [mbind result_bind].
    destruct (one_group _ groups) as [[g grouped]|] eqn:Ho; [|done]. intros [= <- _].
    apply one_group_ok in Ho as ->. apply evidence_group_built in Hg. by apply evidence_queries_safe.
  - by destruct (go_phase o).
Qed.

(** * The words of a rendered query *)

Fixpoint ends_clear (s : string) : bool :=
  match s with
  | EmptyString => true
  | String c s' => match s' with EmptyString => negb (is_word c) | _ => ends_clear s' end
  end.
(** No word of the text runs across two pieces; a value is a word of its own. *)
Definition piece_clear (p q : piece) : bool :=
  match p, q with
  | Lit s, Lit t => negb (is_empty t) && (ends_clear s || boundary t)
  | Lit s, Val _ => ends_clear s
  | Val _, Lit t => negb (is_empty t) && boundary t
  | Val _, Val _ => false
  end.
Fixpoint separated (ps : list piece) : bool :=
  match ps with
  | p :: ((q :: _) as ps') => piece_clear p q && separated ps'
  | _ => true
  end.
Definition piece_words (p : piece) : list string := match p with Lit s => words s | Val v => [v] end.

Lemma ends_clear_words a b : ends_clear a = true → words (a +:+ b) = words a ++ words b.
Proof.
  induction a as [|c a IH]; [by rewrite str_app_nil_l|]. intros Ha.
  destruct a as [|d a].
  - simpl in Ha. bool_hyps. rewrite str_app_cons, str_app_nil_l. by rewrite !words_nonword.
  - specialize (IH Ha). destruct (is_word c) eqn:Hc.
    + rewrite !str_app_cons in *. cbn [words] in *. rewrite Hc. cbn [boundary].
      destruct (is_word d) eqn:Hd; cbn [negb]; rewrite IH; [|done].
      destruct (boundary a); simpl; [done|]. by destruct (words a).
    + rewrite str_app_cons, !words_nonword by done. exact IH.
Qed.
Lemma boundary_words a c b : is_word c = false → words (a +:+ String c b) = words a ++ words (String c b).
Proof. intros Hc. by rewrite words_sep, words_nonword. Qed.

Lemma render_words ps : separated (blank ps) = true → ident_list (values ps) →
  words (render ps) = flat_map piece_words ps.
Proof.
  induction ps as [|p ps IH]; [done|]. intros Hs Hi. cbn [render flat_map].
  assert (words (piece_text p) = piece_words p) as Hp.
  { destruct p as [s|v]; [done|]. inversion Hi; subst. by apply identifier_words. }
  destruct ps as [|q ps]; [cbn [render flat_map]; by rewrite str_app_nil_r, app_nil_r|].
  cbn [blank map separated] in Hs. apply andb_true_iff in Hs as [Hc Hs].
  rewrite <- IH; [|exact Hs|by destruct p; [|inversion Hi]]. rewrite <- Hp.
  assert (∀ s, is_empty s = false → boundary s = true → ∀ a b,
    words (a +:+ s +:+ b) = words a ++ words (s +:+ b)) as Hb.
  { intros [|c s] He Hb a b; [done|]. simpl in Hb. bool_hyps. rewrite !str_app_cons. by apply boundary_words. }
  cbn [render]. destruct p as [s|v], q as [t|w]; cbn [piece_text piece_clear] in *; bool_hyps.
  - apply orb_true_iff in H0 as [?|?]; [by apply ends_clear_words|by apply Hb].
  - by apply ends_clear_words.
  - by apply Hb.
  - done.
Qed.

(** ** Keywords *)

Definition piece_has_keyword (keywords : list string) (p : piece) : bool :=
  match p with Lit s => has_word keywords s | Val _ => false end.
Lemma has_word_pieces keywords ps : separated (blank ps) = true → ident_list (values ps) →
  has_word keywords (render ps) =
  existsb (piece_has_keyword keywords) ps || existsb (λ v, in_list (casefold v) keywords) (values ps).
Proof.
  intros Hs Hi. unfold has_word. rewrite render_words by done. clear.
  induction ps as [|[s|v] ps IH]; [done| |]; cbn [flat_map piece_words].
  - rewrite existsb_app, IH. cbn [existsb piece_has_keyword values omap list_omap].
    by rewrite orb_assoc.
  - rewrite existsb_app, IH. cbn [existsb piece_has_keyword values omap list_omap].
    rewrite orb_false_r. by destruct (in_list _ _), (existsb (piece_has_keyword _) ps).
Qed.
Lemma existsb_blank keywords ps : existsb (piece_has_keyword keywords) ps = existsb (piece_has_keyword keywords) (blank ps).
Proof. induction ps as [|[] ps IH]; simpl; congruence. Qed.

(** What is checked once and for all on the listed shapes. *)
Lemma mutation_shapes_checked : forallb (λ sh,
  separated sh && existsb (piece_has_keyword mutation_keywords) sh) mutation_shapes = true.
Proof. vm_compute. reflexivity. Qed.
Lemma audit_shapes_checked : forallb (λ sh,
  separated sh && negb (existsb (piece_has_keyword mutation_keywords) sh)) audit_shapes = true.
Proof. vm_compute. reflexivity. Qed.
Lemma shape_checked {A} (P : A → bool) shapes sh : forallb P shapes = true → sh ∈ shapes → P sh = true.
Proof. rewrite forallb_forall. intros HP Hin. apply HP. by apply list_elem_of_In. Qed.

Lemma safe_mutation ps : safe_query mutation_shapes ps → is_mutation (render ps) = true.
Proof.
  intros [Hs Hi]. pose proof (shape_checked _ _ _ mutation_shapes_checked Hs) as Hc. cbv beta in Hc.
  apply andb_true_iff in Hc as [Hsep Hk].
  unfold is_mutation. by rewrite has_word_pieces, existsb_blank, Hk.
Qed.
Lemma safe_audit ps : safe_query audit_shapes ps →
  Forall (λ v, in_list (casefold v) mutation_keywords = false) (values ps) → is_mutation (render ps) = false.
Proof.
  intros [Hs Hi] Hv. pose proof (shape_checked _ _ _ audit_shapes_checked Hs) as Hc. cbv beta in Hc.
  apply andb_true_iff in Hc as [Hsep Hk%negb_true_iff].
  unfold is_mutation. rewrite has_word_pieces, existsb_blank, Hk by done. cbn [orb].
  clear -Hv. induction Hv as [|v l Hv _ IH]; [done|]. cbn [existsb]. by rewrite Hv.
Qed.

(** * The receipt of a counted mutation *)

Lemma lower_or_letter c : lower_ascii c = c ∨ is_letter c = true ∧ is_letter (lower_ascii c) = true.
Proof. destruct c as [[] [] [] [] [] [] [] []]; vm_compute; auto. Qed.
(** A one-character keyword without case. *)
Lemma keyword_char c s r : keyword (String c EmptyString) s = Some r → is_letter c = false →
  s = String c r.
Proof.
  intros (a & -> & Ca & La)%keyword_spec Hc. destruct a as [|d [|]]; try discriminate La.
  rewrite str_app_cons, str_app_nil_l. f_equal. injection Ca as Ca.
  destruct (lower_or_letter c) as [Lc|[? _]], (lower_or_letter d) as [Ld|[_ Ld]]; congruence.
Qed.
Lemma keyword_count_paren s r : keyword "count(" s = Some r →
  ∃ w, casefold w = "count" ∧ words s = w :: words r.
Proof.
  intros (a & -> & C & L)%keyword_spec.
  destruct a as [|c1 [|c2 [|c3 [|c4 [|c5 [|c6 [|]]]]]]]; try discriminate L.
  cbn [casefold] in C. injection C as C1 C2 C3 C4 C5 C6.
  set (w := String c1 (String c2 (String c3 (String c4 (String c5 EmptyString))))).
  assert (casefold w = "count") as Hw by (cbn [w casefold]; by rewrite C1, C2, C3, C4, C5).
  exists w. split; [exact Hw|].
  assert (is_word c6 = false) as H6 by (by rewrite <- lower_word, C6).
  transitivity (words (w +:+ String c6 r)); [by unfold w; rewrite !str_app_cons|].
  rewrite words_sep, all_word_words by (done || by rewrite <- casefold_words, Hw). done.
Qed.
(** The counted value, a star or a name, is at most one word. *)
Lemma count_value_words s value r r' :
  match keyword "*" s with Some r => Some ("*", r) | None => identifier s end = Some (value, r) →
  keyword ")" r = Some r' → ∃ vs, words s = vs ++ words r' ∧ (length vs ≤ 1)%nat.
Proof.
  intros V K%keyword_char; [|done]. subst r. destruct (keyword "*" s) as [r0|] eqn:Ks.
  - injection V as <- ->. apply keyword_char in Ks as ->; [|done]. exists []. split; [|simpl; lia].
    by rewrite !words_nonword.
  - apply identifier_spec in V as [Hi ->]. exists [value]. split; [|done].
    rewrite words_sep by done. by rewrite identifier_words.
Qed.
Lemma no_words_boundary s : words s = [] → boundary s = true.
Proof.
  destruct s as [|c s]; [done|]. simpl. destruct (is_word c); [|done].
  destruct (boundary s); [done|]. by destruct (words s).
Qed.

Lemma count_tail_words s v : count_tail s = Some v →
  ∃ w1 w2 ws, words s = w1 :: w2 :: ws ∧ casefold w2 = "count" ∧ (length ws ≤ 3)%nat.
Proof.
  unfold count_tail. destruct (keyword "RETURN" s) as [r1|] eqn:K1; [|done]. cbn [mbind option_bind].
  destruct (spaces r1) as [r2|] eqn:S1; [|done]. cbn [mbind option_bind].
  apply spaces_spec in S1 as [S1 B1].
  destruct (keyword_word _ _ _ K1) as (w1 & _ & W1); [done..|].
  destruct (keyword "count(" r2) as [r3|] eqn:K2; [|done]. cbn [mbind option_bind].
  apply keyword_count_paren in K2 as (w2 & Cw & W2).
  destruct (match keyword "*" r3 with Some r => _ | None => _ end) as [[value r4]|] eqn:V; [|done].
  cbn [mbind option_bind]. destruct (keyword ")" r4) as [r5|] eqn:K3; [|done]. cbn [mbind option_bind].
  destruct (count_value_words _ _ _ _ V K3) as (vs & Hv & Lv).
  destruct (spaces r5) as [r6|] eqn:S2; [|done]. cbn [mbind option_bind]. apply spaces_spec in S2 as [S2 _].
  destruct (keyword "AS" r6) as [r7|] eqn:K4; [|done]. cbn [mbind option_bind].
  destruct (spaces r7) as [r8|] eqn:S3; [|done]. cbn [mbind option_bind]. apply spaces_spec in S3 as [S3 B3].
  destruct (keyword_word _ _ _ K4) as (w4 & _ & W4); [done..|].
  destruct (keyword "count" r8) as [r9|] eqn:K5; [|done]. cbn [mbind option_bind].
  destruct (is_empty (lstrip r9)) eqn:E9; [|done]. intros _. apply String.eqb_eq in E9.
  assert (words r9 = []) as W9 by (by rewrite <- words_lstrip, E9).
  destruct (keyword_word _ _ _ K5) as (w5 & _ & W5); [done..|by apply no_words_boundary|].
  exists w1, w2, (vs ++ [w4; w5]). split; [|split; [exact Cw|rewrite length_app; simpl; lia]].
  by rewrite W1, <- S1, W2, Hv, <- S2, W4, <- S3, W5, W9.
Qed.

(** The closing clause of a counted mutation. *)
Definition count_clause (value : string) : string := "RETURN count(" +:+ value +:+ ") AS count".
Definition countable (value : string) : bool := String.eqb value "*" || is_identifier value.

Lemma count_clause_tail value : countable value = true → count_tail (count_clause value) = Some value.
Proof.
  intros Hv. unfold countable in Hv. change (count_clause value) with ("RETURN" +:+ " count(" +:+ value +:+ ") AS count").
  unfold count_tail. rewrite (keyword_app "RETURN" "RETURN" (" count(" +:+ value +:+ ") AS count")) by done.
  cbn [mbind option_bind]. change (spaces (" count(" +:+ value +:+ ") AS count")) with
    (Some ("count(" +:+ value +:+ ") AS count")). cbn [mbind option_bind].
  rewrite (keyword_app "count(" "count(" (value +:+ ") AS count")) by done. cbn [mbind option_bind].
  apply orb_true_iff in Hv as [->%String.eqb_eq|Hi]; [reflexivity|].
  assert (keyword "*" (value +:+ ") AS count") = None) as ->.
  { destruct value as [|c v]; [done|]. rewrite str_app_cons. cbn [keyword].
    destruct (Ascii.eqb (lower_ascii "*") (lower_ascii c)) eqn:E; [|done]. apply Ascii.eqb_eq in E.
    simpl in Hi. bool_hyps. exfalso. clear -E H. by destruct c as [[] [] [] [] [] [] [] []]. }
  change (") AS count") with (String ")" " AS count"). rewrite identifier_app by done. reflexivity.
Qed.
Lemma count_clause_words value : countable value = true →
  ∃ vs, words (count_clause value) = "RETURN" :: "count" :: vs ++ ["AS"; "count"].
Proof.
  unfold countable, count_clause. intros Hv.
  change ("RETURN count(" +:+ value +:+ ") AS count") with ("RETURN count" +:+ String "(" (value +:+ String ")" " AS count")).
  rewrite words_sep by done. apply orb_true_iff in Hv as [->%String.eqb_eq|Hi]; [exists []; vm_compute; reflexivity|].
  exists [value]. rewrite words_sep, (identifier_words value) by done. reflexivity.
Qed.
(** In a text that ends with a counting clause, the clause found is that one. *)
Lemma search_count x c value : is_word c = false → countable value = true →
  search count_tail false (x +:+ String c (count_clause value)) = Some (x +:+ String c EmptyString, value).
Proof.
  intros Hc Hv. pose proof (count_clause_tail value Hv) as Ht.
  destruct (search_leftmost count_tail false x c _ _ Hc Ht) as (pre & z & v' & Hs & Hz & Hm).
  rewrite Hs. destruct z as [|d z].
  { rewrite str_app_nil_l, Ht in Hm. rewrite str_app_nil_r in Hz. rewrite Hz. congruence. }
  exfalso. pose proof (count_tail_words _ _ Hm) as (w1 & w2 & ws & Hw & Cw & Lw).
  destruct (count_clause_words value Hv) as (vs & Hcw).
  assert (∃ z', String d z = z' +:+ String c EmptyString) as [z' Hz'].
  { destruct (str_app_split pre (String d z) x (String c EmptyString)) as (e & _ & He); [done| |by exists e].
    apply (f_equal String.length) in Hz. rewrite !str_length_app in Hz. simpl in Hz. lia. }
  rewrite Hz', str_app_assoc, str_app_cons, str_app_nil_l, words_sep, Hcw in Hw by done.
  assert (words z' ≠ []) as Hne.
  { unfold count_tail in Hm. destruct (keyword "RETURN" _) as [r|] eqn:K; [|done].
    apply keyword_spec in K as (a & Ha & Ca & La). destruct a as [|e a]; [discriminate La|].
    injection Ca as Ce _. assert (is_word e = true) as He by (by rewrite <- lower_word, Ce).
    rewrite Hz' in Ha. destruct z' as [|f z'].
    - rewrite str_app_nil_l, !str_app_cons in Ha. injection Ha as -> _. congruence.
    - rewrite !str_app_cons in Ha. injection Ha as -> _. by apply words_first. }
  destruct (words z') as [|y1 [|y2 ys]]; [done| |].
  - injection Hw as _ <- _. done.
  - apply (f_equal length) in Hw. repeat (rewrite length_app in Hw || simpl in Hw). lia.
Qed.
Lemma count_clause_end value : ∃ y, count_clause value = y +:+ String "t" EmptyString.
Proof.
  exists ("RETURN count(" +:+ value +:+ ") AS coun"). unfold count_clause. by rewrite !str_app_assoc.
Qed.
(** A query that starts and ends with visible characters is taken as it is. *)
Lemma query_source_id a x c value : is_space a = false →
  query_source (String a x +:+ String c (count_clause value)) = String a x +:+ String c (count_clause value).
Proof.
  intros Ha. destruct (count_clause_end value) as [y ->].
  assert (String a x +:+ String c (y +:+ String "t" EmptyString)
    = (String a x +:+ String c y) +:+ String "t" EmptyString) as ->.
  { by rewrite str_app_assoc, str_app_cons. }
  unfold query_source, strip. rewrite str_app_cons at 1. rewrite (str_app_cons _ _ (String "t" _)).
  rewrite lstrip_id by done. rewrite <- !str_app_cons. by rewrite rstrip_id, rstrip_char_id by done.
Qed.
Lemma returns_count_clause x c value : is_word c = false → countable value = true →
  returns_count (x +:+ String c (count_clause value)) = true.
Proof.
  intros Hc Hv. set (rest := " count(" +:+ value +:+ ")" +:+ String " " "AS count").
  assert (count_clause value = "RETURN" +:+ rest) as Hr.
  { unfold rest, count_clause. by rewrite !str_app_cons, !str_app_nil_l. }
  assert (whole_word "RETURN" ("RETURN" +:+ rest) = Some rest) as Hm.
  { unfold whole_word. rewrite keyword_app by done. unfold rest. by rewrite str_app_cons. }
  rewrite Hr. unfold returns_count.
  destruct (search_leftmost _ false x c _ _ Hc Hm) as (pre & z & r & Hs & _ & Hw). rewrite Hs.
  unfold whole_word in Hw. destruct (keyword "RETURN" _) as [r'|] eqn:K; [|done]. simpl in Hw.
  destruct (boundary r'); [|done]. injection Hw as ->.
  apply keyword_spec in K as (a & Ha & _ & La). rewrite <- str_app_assoc in Ha.
  symmetry in Ha. apply str_app_split in Ha as (y & _ & ->); [|rewrite str_length_app, La; simpl; lia].
  assert (as_count "AS count" = Some EmptyString) as Hac by reflexivity.
  destruct (search_leftmost as_count true (y +:+ " count(" +:+ value +:+ ")") " " _ _ eq_refl Hac)
    as (pre' & z' & r' & Hs' & _). unfold rest. rewrite !str_app_assoc in Hs'. rewrite Hs'. done.
Qed.

Definition counted_values : list string := ["n"; "r"; "edge"; "*"].
(** [l] is some text, a space, and the counting clause of [value]. *)
Definition ends_with_clause (l value : string) : bool :=
  let suffix := String " " (count_clause value) in
  String.eqb l (take (String.length l - String.length suffix) l +:+ suffix).
Definition visible_start (s : string) : bool :=
  match s with String a _ => negb (is_space a) | EmptyString => false end.
Definition counted_shape (sh : list piece) : bool :=
  match head sh, last sh with
  | Some (Lit s), Some (Lit l) => visible_start s && existsb (ends_with_clause l) counted_values
  | _, _ => false
  end.
Lemma mutation_shapes_counted : forallb counted_shape mutation_shapes = true.
Proof. vm_compute. reflexivity. Qed.
Lemma counted_value_countable v : v ∈ counted_values → countable v = true.
Proof.
  intros Hv. apply list_elem_of_In in Hv. by repeat (destruct Hv as [<-|Hv]; [reflexivity|]).
Qed.
Lemma ends_with_clause_spec l : existsb (ends_with_clause l) counted_values = true →
  ∃ x v, l = x +:+ String " " (count_clause v) ∧ countable v = true.
Proof.
  intros (v & Hv & He)%existsb_exists. apply list_elem_of_In in Hv.
  apply String.eqb_eq in He. eexists _, v. split; [exact He|by apply counted_value_countable].
Qed.
Lemma blank_last ps l : last (blank ps) = Some (Lit l) → l ≠ "" → last ps = Some (Lit l).
Proof.
  unfold blank. change (map ?f ps) with (f <$> ps). rewrite fmap_last.
  destruct (last ps) as [[s|v]|]; simpl; [by intros [= ->]| |done]. by intros [= <-].
Qed.

(** A safe mutation is a text that ends with its counting clause. *)
Lemma safe_mutation_text ps : safe_query mutation_shapes ps →
  ∃ x v, render ps = x +:+ String " " (count_clause v) ∧ countable v = true ∧ visible_start (render ps) = true.
Proof.
  intros [Hs _]. pose proof (shape_checked _ _ _ mutation_shapes_counted Hs) as Hc. clear Hs.
  unfold counted_shape in Hc. destruct (head (blank ps)) as [[s|]|] eqn:Eh; [|done..].
  destruct (last (blank ps)) as [[l|]|] eqn:El; [|done..]. apply andb_true_iff in Hc as [Ha Hc].
  apply ends_with_clause_spec in Hc as (x & v & -> & Hv).
  apply blank_last in El; [|by intros He; apply (f_equal String.length) in He; rewrite str_length_app in He; simpl in He; lia].
  pose proof El as [ps' E]%last_Some.
  exists (render ps' +:+ x), v. split; [|split; [done|]].
  - rewrite E, render_app. cbn [render piece_text]. by rewrite str_app_nil_r, str_app_assoc.
  - destruct ps as [|[t|w] ps]; [done| |done]. injection Eh as ->.
    cbn [render piece_text]. destruct s as [|a s]; [done|]. by rewrite str_app_cons.
Qed.

(** The receipt query of a text that ends with its counting clause. *)
Lemma receipt_of_clause x v : visible_start (x +:+ String " " (count_clause v)) = true → countable v = true →
  receipt_of_count (x +:+ String " " (count_clause v)) =
  Ok ((x +:+ String " " EmptyString) +:+ "WITH count(" +:+ v +:+ ") AS __journal_count" +:+ receipt_suffix).
Proof.
  intros Hx Hv. unfold receipt_of_count. destruct x as [|a x]; [done|].
  rewrite str_app_cons in Hx. apply negb_true_iff in Hx.
  by rewrite query_source_id, search_count by done.
Qed.

(** * Properties *)

Definition demo_relation : dict :=
  [("source_label", JStr "Class"); ("target_label", JStr "Function"); ("rel_type", JStr "HAS_METHOD");
   ("source_id", JStr "A"); ("target_id", JStr "f"); ("project_id", JStr "Bank")].
Definition relations_op : GraphWriteOperation :=
  MkOperation "relations:x" OperationPhase.RELATIONSHIPS 1 true "typed_relationship" None None "id" None "merge" None.
Definition compiled_or_nil (r : res compiled) : compiled := match r with Ok c => c | Err _ => ([], []) end.
(** A safe mutation is accepted by the write guard. *)
Lemma mutation_receipted ps : safe_query mutation_shapes ps →
  is_mutation (render ps) = true ∧ returns_count (render ps) = true ∧
  ∃ body value, render ps = body +:+ "RETURN count(" +:+ value +:+ ") AS count" ∧
    _receipt_query (render ps) true =
      Ok (body +:+ "WITH count(" +:+ value +:+ ") AS __journal_count" +:+ receipt_suffix).
Proof.
  intros Hs. destruct (safe_mutation_text ps Hs) as (x & v & Hr & Hv & Hx).
  split; [by apply safe_mutation|]. rewrite Hr in *. split; [by apply returns_count_clause|].
  exists (x +:+ String " " EmptyString), v. split; [by rewrite str_app_assoc, str_app_cons|].
  by apply receipt_of_clause.
Qed.
(** Every mutation the replay compiles is accepted by the write guard: it
    is recognised as a mutation that returns its count, and the guard turns it
    into the query that counts what the mutation matched, writes the receipt
    of the job with that count, and returns it. *)
Theorem compiled_mutation_receipted (o : GraphWriteOperation) (rows : list dict) (ps : list piece) (params : dict) :
  compile_persisted_mutation o rows = Ok (ps, params) →
  is_mutation (render ps) = true ∧ returns_count (render ps) = true ∧
  ∃ body value, render ps = body +:+ "RETURN count(" +:+ value +:+ ") AS count" ∧
    _receipt_query (render ps) true =
      Ok (body +:+ "WITH count(" +:+ value +:+ ") AS __journal_count" +:+ receipt_suffix).
Proof.
  intros Hs%compiled_mutation_safe. by apply mutation_receipted.
Qed.
Lemma compiled_mutation_receipted_witness :
  let c := compiled_or_nil (compile_persisted_mutation relations_op [demo_relation]) in
  compile_persisted_mutation relations_op [demo_relation] = Ok c ∧ is_mutation (render c.1) = true.
Proof.
  intros c. assert (compile_persisted_mutation relations_op [demo_relation] = Ok (c.1, c.2)) as Hc by reflexivity.
  split; [exact Hc|]. exact (proj1 (compiled_mutation_receipted _ _ _ _ Hc)).
Defined.

(** No indexed label or property of the schema is a keyword of a mutation. *)
Lemma indexed_not_keyword label p : has_identity_index CODE_GRAPH_SCHEMA label p = true →
  in_list (casefold label) mutation_keywords = false ∧ in_list (casefold p) mutation_keywords = false.
Proof.
  intros Hi. rewrite <- !negb_true_iff. apply andb_true_iff.
  apply (indexed_pair (λ l p, negb (in_list (casefold l) mutation_keywords)
                            && negb (in_list (casefold p) mutation_keywords)) label p); [|done].
  vm_compute. reflexivity.
Qed.
Definition quiet_values (ps : list piece) : Prop :=
  Forall (λ v, in_list (casefold v) mutation_keywords = false) (values ps).
Lemma compiled_audit_quiet o rows ps params : compile_endpoint_audit o rows = Ok (Some (ps, params)) →
  quiet_values ps.
Proof.
  unfold compile_endpoint_audit.
  repeat match goal with |- (if ?b then _ else _) = _ → _ => destruct b end.
  - destruct (group_typed_relations _ _) as [groups|] eqn:Hg; [|done]. cbn [mbind result_bind].
    destruct (one_group _ groups) as [[g grouped]|] eqn:Ho; [|done]. intros [= <- _].
    apply one_group_ok in Ho as ->. apply typed_group_built, relationship_group_ok in Hg as (_ & _ & Hs & Ht).
    apply indexed_not_keyword in Hs as [Hs _], Ht as [Ht _]. by repeat constructor.
  - intros [= <- _]. constructor.
  - intros [= <- _]. constructor.
  - destruct (group_evidence_edges _) as [groups|] eqn:Hg; [|done]. cbn [mbind result_bind].
    destruct (one_group _ groups) as [[g grouped]|] eqn:Ho; [|done]. intros [= <- _].
    apply one_group_ok in Ho as ->. apply evidence_group_built, evidence_group_ok in Hg as (_ & _ & _ & Hs & Ht).
    apply indexed_not_keyword in Hs as [Hs Hs'], Ht as [Ht Ht']. by repeat constructor.
  - by destruct (go_phase o).
Qed.
Lemma receipt_readback_read : is_mutation receipt_readback = false.
Proof. vm_compute. reflexivity. Qed.
Lemma compiled_audit_read o rows ps params : compile_endpoint_audit o rows = Ok (Some (ps, params)) →
  is_mutation (render ps) = false.
Proof. intros Hc. apply safe_audit; [by eapply compiled_audit_safe|by eapply compiled_audit_quiet]. Qed.
Lemma receipt_read o rows job sha run gen ps params :
  compile_reconciliation_readback o rows job sha run gen = Ok (Some (ps, params)) → job ≠ "" →
  render ps = receipt_readback ∧ params = receipt_params o rows job sha run gen.
Proof.
  unfold compile_reconciliation_readback. intros Hr Hj. unfold is_empty in Hr.
  assert (String.eqb job "" = false) as E by (by apply String.eqb_neq). rewrite E in Hr.
  injection Hr as <- <-. split; [|done]. cbn [render piece_text]. by rewrite str_app_nil_r.
Qed.

(** The reads of recovery are never mistaken for writes: an endpoint audit
    and the receipt readback of a job reach the driver unchanged, in any
    context, whatever labels the batch carries. *)
Theorem recovery_reads_pass {W} `{!GraphDriver W} (context : option fence) (w : W)
    (o : GraphWriteOperation) (rows : list dict) (job sha run gen : string) (ps : list piece) (params : dict) :
  compile_endpoint_audit o rows = Ok (Some (ps, params)) ∨
  (job ≠ "" ∧ compile_reconciliation_readback o rows job sha run gen = Ok (Some (ps, params))) →
  guarded context w (render ps) params = execute_query w (render ps) params.
Proof.
  intros [Ha|[Hj Hr]]; unfold guarded.
  - by rewrite (compiled_audit_read _ _ _ _ Ha).
  - destruct (receipt_read _ _ _ _ _ _ _ _ Hr Hj) as [-> _]. by rewrite receipt_readback_read.
Qed.
#[local] Instance echo_driver : GraphDriver nat := λ n q p, (Ok [[("count", JInt (Z.of_nat n))]], S n).
Lemma recovery_reads_pass_witness :
  let c := match compile_endpoint_audit relations_op [demo_relation] with Ok (Some c) => c | _ => ([], []) end in
  compile_endpoint_audit relations_op [demo_relation] = Ok (Some c) ∧
  guarded None 0%nat (render c.1) c.2 = (Ok [[("count", JInt 0)]], 1%nat).
Proof.
  intros c. assert (compile_endpoint_audit relations_op [demo_relation] = Ok (Some (c.1, c.2))) as Hc by reflexivity.
  split; [exact Hc|].
  exact (recovery_reads_pass None 0%nat relations_op [demo_relation] "" "" "" "" c.1 c.2 (or_introl Hc)).
Defined.

(** * Grouping *)

(** Grouping typed relations loses and invents nothing: every input row
    goes, with its scope and position added, to the group of its validated
    endpoint and relationship triple, in input order; groups are distinct,
    non-empty, and together hold as many rows as were given. *)
Theorem relations_grouped (default_project_id : json) (relations : list dict)
    (groups : list (RelationshipGroup * list dict)) :
  group_typed_relations default_project_id relations = Ok groups →
  ∃ described, describe_all (describe_relation default_project_id) 0 relations = Ok described ∧
    length described = length relations ∧ NoDup groups.*1 ∧
    Forall (λ gr, gr.2 ≠ [] ∧ make_relationship_group gr.1 = Ok gr.1) groups ∧
    (∀ g, g ∈ groups.*1 ↔ g ∈ described.*1) ∧
    ∀ g, rows_of g groups = (List.filter (of_group g) described).*2.
Proof.
  intros Hg. destruct (group_from_spec _ _ _ _ _ Hg) as (ds & Hd & Hnd & Hne & Hk & Hr); [constructor|done|].
  exists ds. split; [done|]. split; [by eapply describe_all_length|]. split; [done|]. split; [|split].
  - apply Forall_and. split; [done|]. refine (group_from_built _ _ _ _ _ _ _ _ Hg); [apply describe_relation_built|done].
  - intros g. rewrite Hk. simpl. rewrite elem_of_nil. tauto.
  - intros g. by rewrite Hr.
Qed.
Lemma relations_grouped_witness :
  let gs := match group_typed_relations JNull [demo_relation; demo_relation] with Ok gs => gs | Err _ => [] end in
  length gs = 1%nat ∧ ∃ described,
    describe_all (describe_relation JNull) 0 [demo_relation; demo_relation] = Ok described ∧ NoDup gs.*1.
Proof.
  intros gs. split; [reflexivity|].
  destruct (relations_grouped JNull [demo_relation; demo_relation] gs eq_refl) as (ds & Hd & _ & Hnd & _).
  by exists ds.
Defined.

(** C11: Of what is stored, nothing but plain identifiers gets into a text that
    replay sends.  A compiled mutation is one of thirteen fixed shapes with plain
    identifiers in its holes, and the guard, in the context of a job, sends it with
    its counting clause replaced by the fixed text that writes the receipt, or
    refuses the parameters and sends nothing.  A compiled audit is one of four fixed
    shapes with plain identifiers in its holes, and the readback of a batch, whose
    job is not empty, is one fixed text; both pass the guard unchanged, in every
    context. *)
Theorem compiled_queries_safe {W} `{!GraphDriver W} (o : GraphWriteOperation) (rows : list dict)
    (ps : list piece) (params : dict) :
  (compile_persisted_mutation o rows = Ok (ps, params) → safe_query mutation_shapes ps ∧
     ∃ body value, render ps = body +:+ "RETURN count(" +:+ value +:+ ") AS count" ∧
       ∀ f (w : W) p, f_job_id f ≠ "schema" → guarded (Some f) w (render ps) p =
         match fenced_parameters f p with
         | Ok p' => execute_query w
             (body +:+ "WITH count(" +:+ value +:+ ") AS __journal_count" +:+ receipt_suffix) p'
         | Err e => (Err e, w)
         end) ∧
  (compile_endpoint_audit o rows = Ok (Some (ps, params)) → safe_query audit_shapes ps ∧
     ∀ context (w : W) p, guarded context w (render ps) p = execute_query w (render ps) p) ∧
  (∀ job sha run gen, job ≠ "" → compile_reconciliation_readback o rows job sha run gen = Ok (Some (ps, params)) →
     render ps = receipt_readback ∧
     ∀ context (w : W) p, guarded context w (render ps) p = execute_query w receipt_readback p).
Proof.
  split_and!.
  - intros Hc. pose proof (compiled_mutation_safe _ _ _ _ Hc) as Hs. split; [done|].
    destruct (mutation_receipted ps Hs) as (Hm & Hr & body & value & Ht & Hq). exists body, value.
    split; [done|]. intros f w p Hf. unfold guarded. apply String.eqb_neq in Hf. rewrite Hm, Hf, Hr, Hq.
    by destruct (fenced_parameters f p).
  - intros Hc. split; [by eapply compiled_audit_safe|]. intros context w p. unfold guarded.
    by rewrite (compiled_audit_read _ _ _ _ Hc).
  - intros job sha run gen Hj Hr. destruct (receipt_read _ _ _ _ _ _ _ _ Hr Hj) as [Ht _].
    split; [done|]. intros context w p. unfold guarded. by rewrite Ht, receipt_readback_read.
Qed.
Lemma compiled_queries_safe_witness :
  let c := compiled_or_nil (compile_persisted_mutation relations_op [demo_relation]) in
  let f := journaled_mutation (Some "job") "relations:x" "aa" "run" "g1" in
  compile_persisted_mutation relations_op [demo_relation] = Ok c ∧ safe_query mutation_shapes c.1 ∧
  ∃ text p', guarded (Some f) 0%nat (render c.1) c.2 = execute_query 0%nat text p' ∧ endswith receipt_suffix text = true.
Proof.
  intros c f. assert (compile_persisted_mutation relations_op [demo_relation] = Ok (c.1, c.2)) as Hc by reflexivity.
  destruct (proj1 (compiled_queries_safe (W:=nat) _ _ _ _) Hc) as (Hs & body & value & Hr & Hg).
  split; [exact Hc|]. split; [exact Hs|].
  assert (∃ p', fenced_parameters f c.2 = Ok p') as [p' Hp] by (eexists; vm_compute; reflexivity).
  exists (body +:+ "WITH count(" +:+ value +:+ ") AS __journal_count" +:+ receipt_suffix), p'.
  split; [rewrite Hg, Hp by done; reflexivity|].
  rewrite <- !str_app_assoc. apply endswith_app.
Defined.
