(* ===== verification/Staging.v ===== *)
(** What [_stage_manifests_locked] does to the tables: it adds rows of one
    batch and one producer, counts exactly the rows it adds, keeps the accepted
    rows of one identity on one payload, and touches nothing else. *)
From S2P Require Import Prelude Json PyValue Models Identity Retry Db Manifest ArtifactApi Store.

(** * Rows added *)

(** The tables a manifest staging may touch, and nothing else. *)
Definition staged_only (d d' : db) : Prop :=
  runs d' = runs d ∧ artifacts d' = artifacts d ∧ batches d' = batches d ∧ barriers d' = barriers d
  ∧ endpoint_audit d' = endpoint_audit d.

Definition staged_row (run job producer : string) (m : manifest_row) : Prop :=
  m_run_id m = run ∧ m_job_id m = job ∧ m_producer_id m = producer
  ∧ m_acked m = false ∧ m_graph_verified m = false.
(** [d'] is [d] with more manifest rows, all of them this batch's. *)
Definition grows (run job producer : string) (d d' : db) : Prop :=
  staged_only d d' ∧
  (∀ k key, match manifest_table k d !! key with
           | Some m => manifest_table k d' !! key = Some m
           | None => ∀ m, manifest_table k d' !! key = Some m →
                       staged_row run job producer m ∧ key = (run, m_manifest_id m)
           end) ∧
  (∀ run' id role, run' ≠ run → edge_endpoint d' !! (run', id, role) = edge_endpoint d !! (run', id, role)).

Lemma staged_only_refl d : staged_only d d.
Proof. done. Qed.
Lemma staged_only_trans d1 d2 d3 : staged_only d1 d2 → staged_only d2 d3 → staged_only d1 d3.
Proof. unfold staged_only. intuition congruence. Qed.
Lemma grows_refl run job p d : grows run job p d d.
Proof. split; [done|split; [|done]]. intros k key. destruct (manifest_table k d !! key) eqn:E; congruence. Qed.
Lemma grows_trans run job p d1 d2 d3 : grows run job p d1 d2 → grows run job p d2 d3 → grows run job p d1 d3.
Proof.
  intros (Hs1 & H1 & He1) (Hs2 & H2 & He2). split; [by eapply staged_only_trans|split].
  2: { intros run' id role Hr. by rewrite He2, He1. }
  intros k key.
  specialize (H1 k key). specialize (H2 k key).
  destruct (manifest_table k d1 !! key) as [m|] eqn:E1; [by rewrite H1 in H2|].
  destruct (manifest_table k d2 !! key) as [m|] eqn:E2; [|done].
  intros m' Hm'. rewrite H2 in Hm'. simplify_eq. by apply H1.
Qed.

(** * Counts *)

(** The count of a kind and disposition in a producer's counters. *)
Definition counted (k : kind) (disp : ManifestDisposition) (c : counters) : Z :=
  match k, disp with
  | KNode, ManifestDisposition.STAGED_UNIQUE => node_unique c
  | KNode, ManifestDisposition.DECLARED_DUPLICATE => node_duplicate c
  | KNode, ManifestDisposition.CONFLICT => node_conflict c
  | KNode, ManifestDisposition.REJECTED => node_rejected c
  | KEdge, ManifestDisposition.STAGED_UNIQUE => edge_unique c
  | KEdge, ManifestDisposition.DECLARED_DUPLICATE => edge_duplicate c
  | KEdge, ManifestDisposition.CONFLICT => edge_conflict c
  | KEdge, ManifestDisposition.REJECTED => edge_rejected c
  end.
Definition emitted (k : kind) (c : counters) : Z :=
  match k with KNode => node_emitted c | KEdge => edge_emitted c end.
(** The manifest rows of a producer, by kind and disposition. *)
Definition tally (k : kind) (disp : ManifestDisposition) (run producer : string) (d : db) : Z :=
  countM (λ m, String.eqb (m_run_id m) run && String.eqb (m_producer_id m) producer
                 && bool_decide (m_disposition m = disp)) (manifest_table k d).
Definition emitted_ok (c : counters) : Prop := ∀ k, emitted k c =
  (counted k ManifestDisposition.STAGED_UNIQUE c + counted k ManifestDisposition.DECLARED_DUPLICATE c
   + counted k ManifestDisposition.CONFLICT c + counted k ManifestDisposition.REJECTED c)%Z.

Lemma counted_add k disp a b : counted k disp (counters_add a b) = (counted k disp a + counted k disp b)%Z.
Proof. by destruct k, disp. Qed.
Lemma counted_zero k disp : counted k disp counters_zero = 0%Z.
Proof. by destruct k, disp. Qed.
Lemma counted_count_row k disp k' disp' :
  counted k disp (count_row k' disp') = Z.b2z (bool_decide (k = k') && bool_decide (disp = disp')).
Proof. by destruct k, k', disp, disp'. Qed.
Lemma emitted_ok_zero : emitted_ok counters_zero.
Proof. by intros []. Qed.
Lemma emitted_ok_count_row k disp : emitted_ok (count_row k disp).
Proof. intros k'. by destruct k, k', disp. Qed.
Lemma emitted_ok_add a b : emitted_ok a → emitted_ok b → emitted_ok (counters_add a b).
Proof. intros Ha Hb k. specialize (Ha k). specialize (Hb k). destruct k; simpl in *; lia. Qed.

Lemma manifest_table_set k k' f d :
  manifest_table k (set_manifest k' f d) =
    if bool_decide (k = k') then f (manifest_table k d) else manifest_table k d.
Proof. by destruct k, k'. Qed.
Lemma set_manifest_staged k f d : staged_only d (set_manifest k f d).
Proof. by destruct k. Qed.

(** * One identity, one payload *)

(** The columns of the identity lookup. *)
Definition identity_of (k : kind) (m : manifest_row) : string * string * string * string * string * string :=
  (m_run_id m, m_scope m, m_shape m, (match k with KNode => m_identity_property m | KEdge => "" end),
   m_identity_type m, m_identity_json m).
(** Accepted rows of one identity carry one payload digest, and one of them only is unique. *)
Definition coherent (d : db) : Prop := ∀ k key1 key2 m1 m2,
  manifest_table k d !! key1 = Some m1 → manifest_table k d !! key2 = Some m2 →
  accepted (m_disposition m1) = true → accepted (m_disposition m2) = true →
  identity_of k m1 = identity_of k m2 →
  m_payload_digest m1 = m_payload_digest m2 ∧
  (m_disposition m1 = ManifestDisposition.STAGED_UNIQUE →
   m_disposition m2 = ManifestDisposition.STAGED_UNIQUE → key1 = key2).

Lemma same_identity_spec run job p c disp now m :
  same_identity run c m = true ↔
  identity_of (c_kind c) m = identity_of (c_kind c) (manifest_of run job p c disp now)
  ∧ accepted (m_disposition m) = true.
Proof.
  unfold same_identity, identity_of, manifest_of; simpl. destruct (c_kind c);
  rewrite !andb_true_iff, ?String.eqb_eq; split; intros Hx; destruct_and?; simplify_eq; repeat split; congruence.
Qed.

(** What [classify] decided about a row with respect to the table it is added to. *)
Lemma classify_accepted run job p c now d :
  accepted (classify run c d) = true → c_disposition c ≠ ManifestDisposition.DECLARED_DUPLICATE →
  coherent d →
  ∀ key m, manifest_table (c_kind c) d !! key = Some m → accepted (m_disposition m) = true →
    identity_of (c_kind c) m = identity_of (c_kind c) (manifest_of run job p c (classify run c d) now) →
    m_payload_digest m = c_payload_digest c ∧ classify run c d = ManifestDisposition.DECLARED_DUPLICATE.
Proof.
  unfold classify. destruct (c_disposition c); try done. intros Hacc _ Hco key m Hm Ham Hid.
  destruct (head _) as [e|] eqn:Hh.
  - assert (e ∈ select (same_identity run c) (manifest_table (c_kind c) d)) as He.
    { destruct (select _ _); simplify_eq/=. left. }
    apply elem_of_select in He as [Hse [ke Hke]].
    apply (same_identity_spec run job p c ManifestDisposition.STAGED_UNIQUE now) in Hse as [Hie Hae].
    destruct (String.eqb (m_payload_digest e) (c_payload_digest c)) eqn:Hd; [|done].
    apply String.eqb_eq in Hd. split; [|done].
    destruct (Hco _ _ _ _ _ Hm Hke Ham Hae) as [-> _]; [|done]. by rewrite Hid, Hie.
  - exfalso. assert (m ∈ select (same_identity run c) (manifest_table (c_kind c) d)) as Hin.
    { apply elem_of_select. split; [|eauto]. by apply (same_identity_spec run job p c ManifestDisposition.STAGED_UNIQUE now). }
    destruct (select _ _); [by apply not_elem_of_nil in Hin|done].
Qed.

(** What a candidate can be before its classification. *)
Definition fresh_candidate (c : candidate) : Prop :=
  c_disposition c = ManifestDisposition.STAGED_UNIQUE ∨ c_disposition c = ManifestDisposition.REJECTED.

Section fresh.
Context `{Sha256}.
Lemma node_candidate_fresh operation row scope c :
  fresh_candidate c → fresh_candidate (node_candidate operation row scope c).
Proof.
  unfold node_candidate. intros Hc. destruct (getitem _ _) as [v|]; cbn; [|by right].
  destruct (_typed_identity v) as [[t j]|]; cbn; [|by right].
  destruct (is_empty _ || is_empty _); cbn; [by right|]. by destruct (_ && _).
Qed.
Lemma edge_attempt_fresh reconciliation row scope c c' :
  fresh_candidate c → edge_attempt reconciliation row scope c = Ok c' → fresh_candidate c'.
Proof.
  unfold edge_attempt. intros Hc. destruct (describe_edge _ _) as [e|]; cbn; [|done].
  destruct (_ || _ || _); [done|].
  destruct (_typed_identity (ed_source_value e)) as [[? ?]|]; cbn; [|done].
  destruct (_typed_identity (ed_target_value e)) as [[? ?]|]; cbn; [|done].
  destruct (is_empty (ed_edge_property e)); cbn; [by intros [= <-]|].
  destruct (_typed_identity (ed_edge_value e)) as [[? ?]|]; cbn; [|done]. by intros [= <-].
Qed.
Lemma edge_candidate_fresh reconciliation row scope c :
  fresh_candidate c → fresh_candidate (edge_candidate reconciliation row scope c).
Proof.
  unfold edge_candidate. intros Hc. destruct (edge_attempt _ _ _ _) as [c'|] eqn:E; [|by right].
  by eapply edge_attempt_fresh.
Qed.
Lemma enumerate_fresh f i rows :
  (∀ i r c, f i r = Some c → fresh_candidate c) → Forall fresh_candidate (enumerate_candidates f i rows).
Proof.
  intros Hf. revert i. induction rows as [|r rows IH]; intros i; simpl; [constructor|].
  destruct (f i r) eqn:E; [constructor; eauto|eauto].
Qed.
Lemma manifest_candidates_fresh project spec rows job :
  Forall fresh_candidate (_manifest_candidates project spec rows job).2.
Proof.
  unfold _manifest_candidates. destruct (bs_operation spec); [constructor|]. simpl.
  apply enumerate_fresh. intros i r c. unfold row_candidate.
  repeat case_match; intros [= <-]; try apply node_candidate_fresh; try apply edge_candidate_fresh; by left.
Qed.
End fresh.

(** * Staging one row, and all of them *)

Section staging.
Context (run job producer : string).

(** How the counters of a staging follow the rows it adds to the tables of [d0]. *)
Definition tracked (d0 d : db) (c0 c : counters) : Prop :=
  grows run job producer d0 d ∧ (coherent d0 → coherent d) ∧
  (∀ k disp p, tally k disp run p d = (tally k disp run p d0
     + (if String.eqb p producer then counted k disp c - counted k disp c0 else 0))%Z) ∧
  (emitted_ok c0 → emitted_ok c) ∧
  (∀ k run' disp p, run' ≠ run → tally k disp run' p d = tally k disp run' p d0) ∧
  producer_completion d = producer_completion d0.

(** Nothing but endpoints differs. *)
Definition endpoints_only (d d' : db) : Prop :=
  staged_only d d' ∧ (∀ k, manifest_table k d' = manifest_table k d)
  ∧ producer_completion d' = producer_completion d
  ∧ (∀ run' id role, run' ≠ run → edge_endpoint d' !! (run', id, role) = edge_endpoint d !! (run', id, role)).
Lemma insert_endpoints_wp c es d :
  wp (tx_for (insert_endpoint run c) es) (λ _ d', endpoints_only d d') d.
Proof.
  apply (wp_for_inv _ (λ d', endpoints_only d d')); [done|]. intros e d' _ Hd'. unfold insert_endpoint.
  wp_steps. destruct Hd' as (Hs & Hm & Hp & He). split; [exact Hs|split; [exact Hm|split; [exact Hp|]]].
  intros run' id role Hr. cbn. rewrite lookup_insert_ne by congruence. by apply He.
Qed.
Lemma insert_manifest_wp k m d :
  wp (insert_manifest k m) (λ _ d', d' = set_manifest k <[(m_run_id m, m_manifest_id m) := m]> d
      ∧ manifest_table k d !! (m_run_id m, m_manifest_id m) = None) d.
Proof.
  unfold insert_manifest. wp_steps. split; [done|]. bool_hyps.
  apply eq_None_not_Some. done.
Qed.

Lemma tally_insert k' key m k disp run' p d :
  manifest_table k' d !! key = None →
  tally k disp run' p (set_manifest k' <[key := m]> d) = (tally k disp run' p d
    + Z.b2z (bool_decide (k = k') && (String.eqb (m_run_id m) run' && String.eqb (m_producer_id m) p
               && bool_decide (m_disposition m = disp))))%Z.
Proof.
  intros Hk. unfold tally. rewrite manifest_table_set. case_bool_decide; simplify_eq/=; [|lia].
  unfold countM. rewrite sumM_insert_fresh by done. lia.
Qed.

Lemma coherent_insert now c d key :
  fresh_candidate c → coherent d → manifest_table (c_kind c) d !! key = None →
  coherent (set_manifest (c_kind c) <[key := manifest_of run job producer c (classify run c d) now]> d).
Proof.
  intros Hfr Hco Hnone k key1 key2 m1 m2. rewrite manifest_table_set.
  case_bool_decide as Hkind; [|by apply Hco]. subst k.
  assert (c_disposition c ≠ ManifestDisposition.DECLARED_DUPLICATE) as Hnd by (destruct Hfr; congruence).
  set (m := manifest_of run job producer c (classify run c d) now).
  assert (∀ key' m', accepted (m_disposition m) = true →
    manifest_table (c_kind c) d !! key' = Some m' → accepted (m_disposition m') = true →
    identity_of (c_kind c) m' = identity_of (c_kind c) m →
    m_payload_digest m' = m_payload_digest m ∧ m_disposition m = ManifestDisposition.DECLARED_DUPLICATE) as Hnew.
  { intros key' m' Ha Hm' Ha' Hid. by eapply (classify_accepted run job producer c now d). }
  clearbody m. intros [[<- <-]|[_ H1]]%lookup_insert_Some [[<- <-]|[_ H2]]%lookup_insert_Some Ha1 Ha2 Hid.
  - done.
  - destruct (Hnew _ _ Ha1 H2 Ha2) as [? Hd]; [done|]. rewrite Hd. by split.
  - destruct (Hnew _ _ Ha2 H1 Ha1) as [? Hd]; [done|]. rewrite Hd. by split.
  - by eapply Hco.
Qed.

Lemma endpoints_only_tracked d0 d d' c0 c :
  tracked d0 d c0 c → endpoints_only d d' → tracked d0 d' c0 c.
Proof.
  intros (Hg & Hc & Ht & He & Ho & Hpc) (Hs & Hm & Hp' & Hep). split_and!.
  - eapply grows_trans; [done|]. split; [done|split; [|done]]. intros k key. rewrite Hm.
    destruct (manifest_table k d !! key); congruence.
  - intros H0 k. rewrite Hm. by apply Hc.
  - intros k disp p. unfold tally at 1. rewrite Hm. apply Ht.
  - done.
  - intros k run' disp p Hr. unfold tally at 1. rewrite Hm. by apply Ho.
  - congruence.
Qed.

Lemma stage_candidate_wp now counts c d :
  fresh_candidate c →
  wp (stage_candidate run job producer now counts c) (λ counts' d', tracked d d' counts counts') d.
Proof.
  intros Hfr. unfold stage_candidate. wp_step. wp_step. wp_step.
  eapply wp_mono; [apply insert_manifest_wp|]. intros [] d1 [-> Hnone]. simpl in Hnone |- *.
  set (disp0 := classify run c d) in *. set (m := manifest_of run job producer c disp0 now) in *.
  assert (tracked d (set_manifest (c_kind c) <[(run, c_manifest_id c) := m]> d) counts
            (counters_add counts (count_row (c_kind c) disp0))) as Htr.
  { split_and!.
    - split; [apply set_manifest_staged|split; [|by destruct (c_kind c)]].
      intros k key. rewrite manifest_table_set.
      case_bool_decide; [subst k|destruct (manifest_table k d !! key) eqn:E; congruence].
      rewrite lookup_insert. case_decide as Hk.
      + rewrite <- Hk, Hnone. by intros ? [= <-].
      + destruct (manifest_table _ _ !! key); congruence.
    - intros Hco. by apply coherent_insert.
    - intros k disp p. rewrite tally_insert, counted_add, counted_count_row by done. simpl.
      rewrite String.eqb_refl, (String.eqb_sym p). simpl. destruct (String.eqb producer p); simpl.
      + rewrite (bool_decide_ext (disp = disp0) (disp0 = disp)) by naive_solver. lia.
      + rewrite andb_false_r. simpl. lia.
    - intros He. by apply emitted_ok_add, emitted_ok_count_row.
    - intros k run' disp p Hr. rewrite tally_insert by done. simpl.
      destruct (String.eqb_spec run run') as [->|_]; [done|]. rewrite andb_false_r. simpl. lia.
    - by destruct (c_kind c). }
  destruct (c_kind c); wp_steps; [exact Htr|].
  eapply wp_mono; [apply insert_endpoints_wp|]. intros [] d' Hd'. wp_steps.
  by eapply endpoints_only_tracked.
Qed.

Lemma tracked_refl d c : tracked d d c c.
Proof. split; [apply grows_refl|]. split_and!; try done. intros k disp p. destruct (String.eqb _ _); lia. Qed.
Lemma tracked_trans d0 d1 d2 c0 c1 c2 : tracked d0 d1 c0 c1 → tracked d1 d2 c1 c2 → tracked d0 d2 c0 c2.
Proof.
  intros (Hg & Hc & Ht & He & Ho & Hp) (Hg' & Hc' & Ht' & He' & Ho' & Hp'). split_and!; eauto using grows_trans.
  - intros k disp p. rewrite Ht', Ht. destruct (String.eqb _ _); lia.
  - intros k run' disp p Hr. by rewrite Ho', Ho.
  - congruence.
Qed.

Lemma stage_candidates_wp now cs counts d :
  Forall fresh_candidate cs →
  wp (stage_candidates run job producer now counts cs) (λ counts' d', tracked d d' counts counts') d.
Proof.
  intros Hcs. revert counts d. induction Hcs as [|c cs Hc _ IH]; intros counts d; simpl.
  - wp_steps. apply tracked_refl.
  - wp_step. eapply wp_mono; [by apply stage_candidate_wp|]. intros c1 d1 H1.
    eapply wp_mono; [apply IH|]. intros c2 d2 H2. exact (tracked_trans _ _ _ _ _ _ H1 H2).
Qed.
End staging.

(** * The producer's row *)

(** Every producer's counters count its manifest rows. *)
Definition counters_ok (d : db) : Prop := ∀ run p,
  match producer_completion d !! (run, p) with
  | Some row => p_run_id row = run ∧ p_producer_id row = p ∧ emitted_ok (p_counters row)
                ∧ ∀ k disp, counted k disp (p_counters row) = tally k disp run p d
  | None => ∀ k disp, tally k disp run p d = 0%Z
  end.
(** No manifest row of the run is in conflict or rejected. *)
Definition clean (run : string) (d : db) : Prop := ∀ k p,
  tally k ManifestDisposition.CONFLICT run p d = 0%Z ∧ tally k ManifestDisposition.REJECTED run p d = 0%Z.

Lemma failures_nil c : failures c = [] ↔
  ∀ k, counted k ManifestDisposition.CONFLICT c = 0%Z ∧ counted k ManifestDisposition.REJECTED c = 0%Z.
Proof.
  unfold failures. simpl.
  destruct (node_conflict c =? 0)%Z eqn:E1, (node_rejected c =? 0)%Z eqn:E2,
    (edge_conflict c =? 0)%Z eqn:E3, (edge_rejected c =? 0)%Z eqn:E4; bool_hyps; simpl;
  (split; [intros [=]; by intros []|]); intros Hk; try done;
  destruct (Hk KNode) as [? ?], (Hk KEdge) as [? ?]; done.
Qed.

(** The summary of a staging: its rows, their coherence, the producer's
    counters, and what an empty failure list guarantees. *)
Definition staged (run job producer : string) (failure : list (string * Z)) (d d' : db) : Prop :=
  grows run job producer d d' ∧ (coherent d → coherent d') ∧ (counters_ok d → counters_ok d') ∧
  (failure = [] → clean run d → clean run d') ∧
  (∀ run', run' ≠ run → clean run' d → clean run' d') ∧
  (∀ run', production_complete run' d' = production_complete run' d).

Lemma manifest_table_producers k f d : manifest_table k (d <| producer_completion ::= f |>) = manifest_table k d.
Proof. by destruct k. Qed.

Definition add_counts (now : Z) (c : counters) (row : producer_row) : producer_row :=
  row <| p_counters ::= λ c0, counters_add c0 c |> <| p_updated_at := now |>.

Section producer.
Context (run job p : string) (now : Z) (d d2 d3 : db) (c : counters).
Let q := producer_completion d !! (run, p).
Let d1 := d <| producer_completion ::= <[(run, p) := open_producer run p now q]> |>.
Hypothesis Hopen : match q with Some row => p_status row = ProducerStatus.OPEN | None => True end.
Hypothesis Htr : tracked run job p d1 d2 counters_zero c.
Hypothesis Hd3 : d3 = d2 <| producer_completion ::= update_key (run, p) (λ _, true) (add_counts now c) |>.

Lemma tables_d3 k : manifest_table k d3 = manifest_table k d2.
Proof. rewrite Hd3. by destruct k. Qed.
Lemma tally_d1 k disp run' p' : tally k disp run' p' d1 = tally k disp run' p' d.
Proof. by destruct k. Qed.
Lemma tally_d3 k disp run' p' : tally k disp run' p' d3 = (tally k disp run' p' d +
  (if String.eqb run' run && String.eqb p' p then counted k disp c else 0))%Z.
Proof using Htr Hd3.
  destruct Htr as (_ & _ & Ht & _ & Ho & _).
  assert (tally k disp run' p' d3 = tally k disp run' p' d2) as -> by (unfold tally; by rewrite tables_d3).
  destruct (String.eqb_spec run' run) as [->|Hr]; simpl.
  - rewrite Ht, tally_d1, counted_zero. destruct (String.eqb p' p); lia.
  - rewrite Ho by done. rewrite tally_d1. lia.
Qed.
Lemma producers_d3 run' p' : producer_completion d3 !! (run', p') =
  if String.eqb run' run && String.eqb p' p then Some (add_counts now c (open_producer run p now q))
  else producer_completion d !! (run', p').
Proof using Htr Hd3.
  destruct Htr as (_ & _ & _ & _ & _ & Hp). rewrite Hd3. cbn. rewrite Hp. cbn.
  unfold update_key. rewrite lookup_insert_eq.
  destruct (String.eqb_spec run' run) as [->|]; [destruct (String.eqb_spec p' p) as [->|]|]; simpl.
  - by rewrite lookup_insert_eq.
  - by rewrite !lookup_insert_ne by congruence.
  - by rewrite !lookup_insert_ne by congruence.
Qed.

Lemma grows_d3 : grows run job p d d3.
Proof using Htr Hd3.
  destruct Htr as (Hg & _). eapply grows_trans; [|eapply grows_trans; [exact Hg|]].
  - split; [done|split; [|done]]. intros k key. unfold d1. rewrite manifest_table_producers.
    destruct (manifest_table k d !! key) eqn:E; congruence.
  - split; [by rewrite Hd3|split; [|by rewrite Hd3]]. intros k key. rewrite tables_d3.
    destruct (manifest_table k d2 !! key) eqn:E; congruence.
Qed.
Lemma coherent_d3 : coherent d → coherent d3.
Proof using Htr Hd3.
  destruct Htr as (_ & Hc & _). intros Hco k. rewrite tables_d3. apply Hc.
  intros k'. unfold d1. rewrite manifest_table_producers. apply Hco.
Qed.
Lemma counters_d3 : counters_ok d → counters_ok d3.
Proof using Htr Hd3.
  clear Hopen. intros Hok run' p'. rewrite producers_d3. pose proof (Hok run' p') as Hr.
  pose proof (λ k disp, tally_d3 k disp run' p') as Ht.
  destruct (String.eqb run' run && String.eqb p' p) eqn:E.
  - apply andb_true_iff in E as [->%String.eqb_eq ->%String.eqb_eq].
    fold q in Hr. destruct Htr as (_ & _ & _ & He & _ & _). specialize (He emitted_ok_zero).
    destruct q as [row|]; simpl.
    + destruct Hr as (Hr1 & Hr2 & Hr3 & Hr4). split; [done|split; [done|split]].
      * by apply emitted_ok_add.
      * intros k disp. by rewrite counted_add, Hr4, Ht.
    + split; [done|split; [done|split]].
      * by apply emitted_ok_add; [apply emitted_ok_zero|].
      * intros k disp. by rewrite counted_add, counted_zero, Ht, Hr.
  - destruct (producer_completion d !! (run', p')) as [row|].
    + destruct Hr as (? & ? & ? & Hr4). split_and!; try done. intros k disp. by rewrite Ht, Z.add_0_r.
    + intros k disp. by rewrite Ht, Hr.
Qed.
Lemma clean_d3 : failures c = [] → clean run d → clean run d3.
Proof using Htr Hd3.
  intros Hf Hcl k p'. destruct (Hcl k p') as [H1 H2].
  destruct (proj1 (failures_nil c) Hf k) as [H3 H4].
  rewrite !tally_d3. destruct (_ && _); lia.
Qed.
Lemma clean_other_d3 run' : run' ≠ run → clean run' d → clean run' d3.
Proof using Htr Hd3.
  intros Hne Hcl k p'. destruct (Hcl k p') as [H1 H2]. rewrite !tally_d3.
  apply String.eqb_neq in Hne as ->. simpl. lia.
Qed.
Lemma complete_d3 run' : production_complete run' d3 = production_complete run' d.
Proof using Htr Hd3 Hopen.
  unfold production_complete. rewrite producers_d3.
  destruct (String.eqb_spec run' run) as [->|]; [|done].
  destruct (String.eqb_spec _PRODUCERS_COMPLETE_ID p) as [Hp|]; [|done]. rewrite Hp. simpl. fold q.
  destruct q; simpl in *; [|done]. by rewrite Hopen.
Qed.
Lemma staged_d3 : staged run job p (failures c) d d3.
Proof using Htr Hd3 Hopen.
  exact (conj grows_d3 (conj coherent_d3 (conj counters_d3 (conj clean_d3 (conj clean_other_d3 complete_d3))))).
Qed.
End producer.

Lemma stage_manifests_wp run job p cs now d :
  Forall fresh_candidate cs →
  wp (_stage_manifests_locked run job p cs now) (λ failure d', staged run job p failure d d') d.
Proof.
  intros Hcs. unfold _stage_manifests_locked. do 9 wp_step.
  eapply wp_mono; [by apply stage_candidates_wp|]. intros c d2 Htr. do 3 wp_step.
  eapply staged_d3; [|exact Htr|reflexivity].
  destruct (producer_completion d !! (run, p)); [|done]. by bool_hyps.
Qed.

Lemma staged_frame run job p failure d d' : staged run job p failure d d' → staged_only d d'.
Proof. by intros [[? _] _]. Qed.
Lemma staged_batches run job p failure d d' : staged run job p failure d d' → batches d' = batches d.
Proof. by intros (_ & _ & ? & _)%staged_frame. Qed.
Lemma staged_runs run job p failure d d' : staged run job p failure d d' → runs d' = runs d.
Proof. by intros (? & _)%staged_frame. Qed.
Lemma staged_barriers run job p failure d d' : staged run job p failure d d' → barriers d' = barriers d.
Proof. by intros (_ & _ & _ & ? & _)%staged_frame. Qed.
Lemma staged_audit run job p failure d d' : staged run job p failure d d' → endpoint_audit d' = endpoint_audit d.
Proof. by intros (_ & _ & _ & _ & ?)%staged_frame. Qed.

(** A batch without a manifest operation stages nothing. *)
Definition maybe_staged (run job : string) (d d' : db) : Prop := d' = d ∨ ∃ p, staged run job p [] d d'.
Lemma maybe_staged_frame run job d d' : maybe_staged run job d d' → staged_only d d'.
Proof. intros [->|[p Hst]]; [done|]. by eapply staged_frame. Qed.
