(* ===== verification/Transitions.v ===== *)
(** The fenced transitions of one batch in [SQLiteJournal]: lease renewal,
    acknowledgement, ambiguity, retry, reconciliation backoff and blocking.
    Each first selects the row by job, status, fencing token and live lease. *)
From S2P Require Import Prelude Json Models Retry Db Manifest Store.

Definition stale_fence : exn := StaleFenceError.

(** [fencing_token = ? AND lease_until > ?] *)
Definition holds_fence (token : string) (now : Z) (b : batch_row) : bool :=
  match b_fencing_token b with Some t => String.eqb t token | None => false end
  && match b_lease_until b with Some u => (now <? u)%Z | None => false end.
Definition leased_or_reconciling (b : batch_row) : bool :=
  b_is BatchStatus.LEASED b || b_is BatchStatus.RECONCILING b.
Definition has_token (token : string) (b : batch_row) : bool :=
  match b_fencing_token b with Some t => String.eqb t token | None => false end.

(** [_owned_lease] *)
Definition _owned_lease (job token : string) (now : Z) : M batch_row :=
  d ← tx_get;
  match batches d !! job with
  | Some b => if b_is BatchStatus.LEASED b && holds_fence token now b then mret b else tx_raise stale_fence
  | None => tx_raise stale_fence
  end.
(** [_owned_transition] *)
Definition _owned_transition (job token : string) (now : Z) : M batch_row :=
  d ← tx_get;
  match batches d !! job with
  | Some b => if leased_or_reconciling b && holds_fence token now b then mret b else tx_raise stale_fence
  | None => tx_raise stale_fence
  end.

Section transitions.
Context (limits : JournalLimits).

Definition renew_lease (ε : env) (job token : string) (lease_seconds : Z) : op BatchRecord :=
  let now := clock ε in
  let guard b := b_is BatchStatus.LEASED b && holds_fence token now b in
  op_guard (lease_seconds <=? 0)%Z ValueError (transaction (
    d ← tx_get;
    _ ← tx_reject (negb (update_count job guard (batches d) =? 1)%Z) stale_fence;
    _ ← update_batch job guard (λ b, b <| b_lease_until := Some (lease_end ε lease_seconds) |>
                                        <| b_updated_at := now |>);
    row ← fetch_batch job;
    mret (_batch_from_row row))).

(** ** Acknowledgement *)

Definition ack_row (now : Z) (b : batch_row) : batch_row :=
  b <| b_status := BatchStatus.DONE |> <| b_fencing_token := None |> <| b_lease_until := None |>
    <| b_retry_class := None |> <| b_error_code := None |> <| b_error_detail := None |>
    <| b_updated_at := now |>.
(** [UPDATE {table} SET acked = 1, graph_verified = 1 WHERE job_id = ? AND disposition = ?] *)
Definition ack_manifest (job : string) (now : Z) : gmap (string * string) manifest_row → gmap (string * string) manifest_row :=
  update_where
    (λ m, String.eqb (m_job_id m) job && bool_decide (m_disposition m = ManifestDisposition.STAGED_UNIQUE))
    (λ m, m <| m_acked := true |> <| m_graph_verified := true |> <| m_updated_at := now |>).
(** One more acknowledged producer of a barrier, drained if it was the last of a closed one. *)
Definition drain_barrier (run : string) (now : Z) (name : string) : M unit :=
  d ← tx_get;
  match barriers d !! (run, name) with
  | None => tx_raise bad_contract
  | Some barrier =>
      let drained_count := (br_drained barrier + 1)%Z in
      let status := if bool_decide (is_Some (br_closed barrier)) && (drained_count =? br_produced barrier)%Z
                    then BarrierStatus.DRAINED else br_stat barrier in
      _ ← put_barrier (barrier <| br_drained := drained_count |> <| br_stat := status |> <| br_updated := now |>);
      match status with
      | BarrierStatus.DRAINED =>
          _add_event run "barrier_reached" None [("produced", br_produced barrier)] None None None now
      | _ => mret ()
      end
  end.
Definition ack_batch_locked (job token : string) (elapsed_ms : option Z) (now : Z) : M BatchRecord :=
  row ← _owned_transition job token now;
  _ ← update_batch job (λ b, leased_or_reconciling b && has_token token b) (ack_row now);
  _ ← tx_modify (λ d, d <| node_manifest ::= ack_manifest job now |>
                        <| edge_manifest ::= ack_manifest job now |>);
  _ ← tx_for (drain_barrier (b_run_id row) now) (b_produced_barriers_json row);
  _ ← _add_event (b_run_id row) "batch_acked" (Some job) [("rows", b_row_count row)]
        (Some (b_attempt row)) elapsed_ms None now;
  _ ← _refresh_run_status_locked limits (b_run_id row) now;
  updated ← fetch_batch job;
  mret (_batch_from_row updated).
Definition ack_batch (ε : env) (job token : string) (elapsed_ms : option Z) : op BatchRecord :=
  transaction (ack_batch_locked job token elapsed_ms (clock ε)).

(** ** Ambiguity, retry and backoff *)

Definition mark_reconciling (ε : env) (job token : string) (error_code : option TerminalErrorCode) : op BatchRecord :=
  let now := clock ε in
  transaction (
    row ← _owned_lease job token now;
    _ ← update_batch job (λ b, b_is BatchStatus.LEASED b && has_token token b)
          (λ b, b <| b_status := BatchStatus.RECONCILING |> <| b_retry_class := Some RetryClass.AMBIGUOUS |>
                  <| b_error_code := error_code |> <| b_updated_at := now |>);
    _ ← _add_event (b_run_id row) "batch_reconciling" (Some job) [] (Some (b_attempt row)) None error_code now;
    updated ← fetch_batch job;
    mret (_batch_from_row updated)).

Definition retry_row (now retry_at : Z) (exhausted : bool) (class : RetryClass) (code : TerminalErrorCode)
    (b : batch_row) : batch_row :=
  b <| b_status := if exhausted then BatchStatus.DEAD_LETTER else BatchStatus.RETRY_WAIT |>
    <| b_fencing_token := None |> <| b_lease_until := None |>
    <| b_next_attempt_at := if exhausted then None else Some retry_at |>
    <| b_retry_class := Some class |> <| b_error_code := Some code |> <| b_updated_at := now |>.
Definition schedule_retry (ε : env) (job token : string) (retry_at : Z) (retry_class : RetryClass)
    (error_code : TerminalErrorCode) : op BatchRecord :=
  let now := clock ε in
  transaction (
    row ← _owned_transition job token now;
    let exhausted := (b_max_attempts row <=? b_attempt row)%Z in
    let terminal_code := if exhausted then TerminalErrorCode.MAX_ATTEMPTS else error_code in
    _ ← update_batch job (λ b, has_token token b && leased_or_reconciling b)
          (retry_row now retry_at exhausted retry_class terminal_code);
    _ ← _add_event (b_run_id row) (if exhausted then "batch_dead_lettered" else "retry_scheduled")
          (Some job) [] (Some (b_attempt row)) None (Some terminal_code) now;
    _ ← (if exhausted then _set_run_error_locked limits (b_run_id row) RunStatus.DEAD_LETTERED terminal_code now
         else mret () : M unit);
    updated ← fetch_batch job;
    mret (_batch_from_row updated)).

Definition backoff_row (now retry_at : Z) (exhausted : bool) (next_attempt : Z) (code : TerminalErrorCode)
    (b : batch_row) : batch_row :=
  b <| b_status := if exhausted then BatchStatus.DEAD_LETTER else BatchStatus.RECONCILING |>
    <| b_attempt := next_attempt |> <| b_fencing_token := None |> <| b_lease_until := None |>
    <| b_next_attempt_at := if exhausted then None else Some retry_at |>
    <| b_retry_class := Some RetryClass.TRANSIENT |> <| b_error_code := Some code |> <| b_updated_at := now |>.
Definition schedule_reconciliation_retry (ε : env) (job token : string) (retry_at : Z)
    (error_code : TerminalErrorCode) : op BatchRecord :=
  let now := clock ε in
  transaction (
    row ← _owned_transition job token now;
    _ ← tx_reject (negb (b_is BatchStatus.RECONCILING row)) bad_transition;
    let next_attempt := (b_attempt row + 1)%Z in
    let exhausted := (b_max_attempts row <=? next_attempt)%Z in
    let terminal_code := if exhausted then TerminalErrorCode.MAX_ATTEMPTS else error_code in
    _ ← update_batch job (λ b, has_token token b && b_is BatchStatus.RECONCILING b)
          (backoff_row now retry_at exhausted next_attempt terminal_code);
    _ ← _add_event (b_run_id row) (if exhausted then "batch_dead_lettered" else "reconciliation_retry_scheduled")
          (Some job) [] (Some next_attempt) None (Some terminal_code) now;
    _ ← (if exhausted then _set_run_error_locked limits (b_run_id row) RunStatus.DEAD_LETTERED terminal_code now
         else mret () : M unit);
    updated ← fetch_batch job;
    mret (_batch_from_row updated)).

(** ** Blocking *)

Definition block_row (now : Z) (class : RetryClass) (code : TerminalErrorCode) (b : batch_row) : batch_row :=
  b <| b_status := BatchStatus.BLOCKED |> <| b_fencing_token := None |> <| b_lease_until := None |>
    <| b_retry_class := Some class |> <| b_error_code := Some code |> <| b_updated_at := now |>.
Definition block_batch (ε : env) (job token : string) (retry_class : RetryClass)
    (error_code : TerminalErrorCode) : op BatchRecord :=
  let now := clock ε in
  transaction (
    row ← _owned_transition job token now;
    _ ← update_batch job (λ b, has_token token b && leased_or_reconciling b)
          (block_row now retry_class error_code);
    _ ← _add_event (b_run_id row) "batch_blocked" (Some job) [] (Some (b_attempt row)) None (Some error_code) now;
    _ ← _set_run_error_locked limits (b_run_id row) RunStatus.BLOCKED error_code now;
    updated ← fetch_batch job;
    mret (_batch_from_row updated)).
End transitions.
