(* ===== verification/Boundary.v ===== *)
(** The production boundary of [SQLiteJournal]: closing the producers, the
    conservation summary of the row manifests, the sealed endpoint audit and
    the end of a run's production. *)
From S2P Require Import Prelude Json Models Identity Retry Db Manifest Store.

(** [disposition IN (conflict, rejected)] *)
Definition invalid_row (run : string) (m : manifest_row) : bool :=
  String.eqb (m_run_id m) run && negb (accepted (m_disposition m)).
Definition in_run (run : string) (m : manifest_row) : bool := String.eqb (m_run_id m) run.
Definition with_disposition (run : string) (disp : ManifestDisposition) (m : manifest_row) : bool :=
  in_run run m && bool_decide (m_disposition m = disp).

(** ** [complete_producers] *)

Definition complete_row (now : Z) (p : producer_row) : producer_row :=
  p <| p_status := ProducerStatus.COMPLETE |> <| p_completed_at := Some now |> <| p_updated_at := now |>.
Definition open_in_run (run : string) (p : producer_row) : bool :=
  String.eqb (p_run_id p) run && bool_decide (p_status p = ProducerStatus.OPEN).
Definition list_open_producers (run : string) (d : db) : list string :=
  order_by id (map p_producer_id (select
    (λ p, open_in_run run p && negb (String.eqb (p_producer_id p) _PRODUCERS_COMPLETE_ID)) (producer_completion d))).
Definition complete_producers (ε : env) (run : string) : op Z :=
  let now := clock ε in
  transaction (
    d ← tx_get;
    _ ← tx_reject (negb (run_status_is RunStatus.OPEN run d)) bad_transition;
    let conflicts := (countM (invalid_row run) (node_manifest d) + countM (invalid_row run) (edge_manifest d))%Z in
    _ ← tx_reject (negb (conflicts =? 0)%Z) bad_contract;
    if production_complete run d then mret 0%Z
    else
      let completed := countM (open_in_run run) (producer_completion d) in
      _ ← tx_modify (λ d, d <| producer_completion ::= update_where (open_in_run run) (complete_row now) |>);
      d ← tx_get;
      _ ← tx_reject (bool_decide (is_Some (producer_completion d !! (run, _PRODUCERS_COMPLETE_ID))))
            (constraint_failed "UNIQUE");
      _ ← tx_modify (λ d, d <| producer_completion ::= <[(run, _PRODUCERS_COMPLETE_ID) :=
            MkProducer run _PRODUCERS_COMPLETE_ID ProducerStatus.COMPLETE counters_zero (Some now) now]> |>);
      _ ← _add_event run "producers_completed" None [("producers", completed)] None None None now;
      mret completed).

Section audit.
Context `{Sha256} (limits : JournalLimits).

(** ** [conservation_summary] *)

Record totals := MkTotals {
  t_emitted : Z; t_staged_unique : Z; t_declared_duplicate : Z; t_conflict : Z; t_rejected : Z;
  t_acked : Z; t_graph_verified : Z;
}.
(** The inner function [totals(table)]. *)
Definition table_totals (run : string) (t : gmap (string * string) manifest_row) : totals := MkTotals
  (countM (in_run run) t)
  (countM (with_disposition run ManifestDisposition.STAGED_UNIQUE) t)
  (countM (with_disposition run ManifestDisposition.DECLARED_DUPLICATE) t)
  (countM (with_disposition run ManifestDisposition.CONFLICT) t)
  (countM (with_disposition run ManifestDisposition.REJECTED) t)
  (countM (λ m, in_run run m && m_acked m) t)
  (countM (λ m, in_run run m && m_graph_verified m) t).
Definition classified (t : totals) : bool :=
  (t_emitted t =? t_staged_unique t + t_declared_duplicate t + t_conflict t + t_rejected t)%Z.
Definition conserved (t : totals) : bool :=
  classified t && (t_staged_unique t =? t_acked t)%Z && (t_acked t =? t_graph_verified t)%Z.

(** One row of [manifest_rows], with the sort columns first. *)
Definition node_digest_key (m : manifest_row) : string * string * string * string * string * string * string :=
  (m_scope m, m_shape m, m_identity_property m, m_identity_type m, m_identity_json m,
   m_payload_digest m, m_manifest_id m).
Definition node_digest_row (m : manifest_row) : json := JObj [
  ("scope", JStr (m_scope m)); ("node_label", JStr (m_shape m));
  ("identity_property", JStr (m_identity_property m)); ("identity_type", JStr (m_identity_type m));
  ("identity_json", JStr (m_identity_json m)); ("payload_digest", JStr (m_payload_digest m));
  ("disposition", JStr (ManifestDisposition.disposition_value (m_disposition m)))].
Definition node_manifest_digest (run : string) (d : db) : string :=
  sha256_hex (canonical_json (JArr (map node_digest_row
    (order_by node_digest_key (select (in_run run) (node_manifest d)))))).

(** The edge rows joined with their endpoints, [ORDER BY manifest_id, role];
    an edge without endpoints yields one row of NULLs. *)
Definition edge_columns (m : manifest_row) : list (string * json) := [
  ("manifest_id", JStr (m_manifest_id m)); ("job_id", JStr (m_job_id m));
  ("producer_id", JStr (m_producer_id m)); ("row_ordinal", JInt (m_row_ordinal m));
  ("scope", JStr (m_scope m)); ("relationship_type", JStr (m_shape m));
  ("identity_type", JStr (m_identity_type m)); ("identity_json", JStr (m_identity_json m));
  ("payload_digest", JStr (m_payload_digest m));
  ("disposition", JStr (ManifestDisposition.disposition_value (m_disposition m)))].
Definition endpoint_columns (e : option endpoint_row) : list (string * json) :=
  match e with
  | Some e => [("role", JStr (ep_role e)); ("endpoint_scope", JStr (ep_scope e));
      ("node_label", JStr (ep_node_label e)); ("identity_property", JStr (ep_identity_property e));
      ("endpoint_identity_type", JStr (ep_identity_type e));
      ("endpoint_identity_json", JStr (ep_identity_json e)); ("required", JInt (Z.b2z (ep_required e)))]
  | None => [("role", JNull); ("endpoint_scope", JNull); ("node_label", JNull);
      ("identity_property", JNull); ("endpoint_identity_type", JNull);
      ("endpoint_identity_json", JNull); ("required", JNull)]
  end.
Definition edge_digest_rows (d : db) (run manifest_id : string) : list json :=
  match edge_manifest d !! (run, manifest_id) with
  | None => []
  | Some m =>
      let join e := JObj (edge_columns m ++ endpoint_columns e) in
      match edge_endpoint d !! (run, manifest_id, "source"), edge_endpoint d !! (run, manifest_id, "target") with
      | Some s, Some t => [join (Some s); join (Some t)]
      | Some s, None => [join (Some s)]
      | None, Some t => [join (Some t)]
      | None, None => [join None]
      end
  end.
Definition edge_manifest_ids (run : string) (d : db) : list string :=
  order_by id (map m_manifest_id (select (in_run run) (edge_manifest d))).
Definition endpoint_manifest_digest (run : string) (d : db) : string :=
  sha256_hex (canonical_json (JArr (mjoin (map (edge_digest_rows d run) (edge_manifest_ids run d))))).

Record conservation := MkConservation {
  cs_node : totals; cs_edge : totals; cs_producers_total : Z; cs_producers_open : Z;
  cs_node_manifest_digest : string; cs_endpoint_manifest_digest : string;
  cs_auditable_edge_rows : Z; cs_v3_eligible : bool; cs_conserved : bool;
}.
Definition registered (run : string) (p : producer_row) : bool :=
  String.eqb (p_run_id p) run && negb (String.eqb (p_producer_id p) _PRODUCERS_COMPLETE_ID).
Definition v3_eligible (run : string) (d : db) : bool :=
  match runs d !! run with
  | Some r => negb (bool_decide (r_status r = RunStatus.QUARANTINED)
                && bool_decide (r_error_code r = Some TerminalErrorCode.INCOMPATIBLE_SCHEMA))
  | None => false
  end.
Definition conservation_summary (run : string) (d : db) : conservation :=
  let node := table_totals run (node_manifest d) in
  let edge := table_totals run (edge_manifest d) in
  MkConservation node edge
    (countM (registered run) (producer_completion d))
    (countM (λ p, registered run p && bool_decide (p_status p = ProducerStatus.OPEN)) (producer_completion d))
    (node_manifest_digest run d) (endpoint_manifest_digest run d) (t_emitted edge)
    (v3_eligible run d) (v3_eligible run d && conserved node && conserved edge).

(** ** The sealed endpoint audit *)

(** [_validate_endpoint_audit_boundary_locked] *)
Definition _validate_endpoint_audit_boundary_locked (run : string) (sealed : option audit_row) (d : db) : res conservation :=
  let summary := conservation_summary run d in
  let node := cs_node summary in
  let edge := cs_edge summary in
  if negb (production_complete run d) || negb (cs_producers_open summary =? 0)%Z then Err bad_transition
  else if negb (cs_v3_eligible summary) || negb (conserved node) || negb (classified edge)
       || negb (t_conflict node =? 0)%Z || negb (t_rejected node =? 0)%Z
       || negb (t_conflict edge =? 0)%Z || negb (t_rejected edge =? 0)%Z then Err bad_contract
  else match sealed with
       | Some s =>
           if negb (String.eqb (au_manifest_digest s) (cs_endpoint_manifest_digest summary))
              || negb (au_receipt_count s =? cs_auditable_edge_rows summary)%Z
           then Err bad_contract else Ok summary
       | None => Ok summary
       end.

Definition option_neqb (x : option Z) (y : Z) : bool := match x with Some x => negb (x =? y)%Z | None => false end.
Definition negative (x : option Z) : bool := match x with Some x => (x <? 0)%Z | None => false end.
(** [a if a is not None else b] *)
Definition first_given (a b : option Z) : option Z := match a with Some _ => a | None => b end.

Definition seal_locked (run : string) (manifest_digest : option string) (receipt_count audited_rows : option Z)
    (now : Z) : M EndpointAuditStatus :=
  d ← tx_get;
  summary ← tx_lift (_validate_endpoint_audit_boundary_locked run (endpoint_audit d !! run) d);
  match endpoint_audit d !! run with
  | Some existing =>
      _ ← tx_reject (match manifest_digest with
                     | Some x => negb (String.eqb (au_manifest_digest existing) x) | None => false end) bad_contract;
      _ ← tx_reject (option_neqb (first_given audited_rows receipt_count) (au_receipt_count existing)) bad_contract;
      mret (au_status existing)
  | None =>
      let resolved_digest := match manifest_digest with
                             | Some x => if is_empty x then cs_endpoint_manifest_digest summary else x
                             | None => cs_endpoint_manifest_digest summary end in
      let resolved_rows := default (cs_auditable_edge_rows summary) (first_given audited_rows receipt_count) in
      _ ← tx_reject (negb (String.eqb resolved_digest (cs_endpoint_manifest_digest summary))) bad_contract;
      _ ← tx_reject (negb (resolved_rows =? cs_auditable_edge_rows summary)%Z) bad_contract;
      _ ← tx_modify (λ d, d <| endpoint_audit ::= <[run :=
            MkAudit run EndpointAuditStatus.SEALED resolved_digest resolved_rows now]> |>);
      mret EndpointAuditStatus.SEALED
  end.
Definition seal_endpoint_audit (ε : env) (run : string) (manifest_digest : option string)
    (receipt_count audited_rows : option Z) : op EndpointAuditStatus :=
  op_guard (negative audited_rows) ValueError (op_guard (negative receipt_count) ValueError
    (transaction (seal_locked run manifest_digest receipt_count audited_rows (clock ε)))).

Definition endpoint_audit_status (run : string) (d : db) : res (option EndpointAuditStatus) :=
  match endpoint_audit d !! run with
  | Some row => match _validate_endpoint_audit_boundary_locked run (Some row) d with
                | Ok _ => Ok (Some (au_status row)) | Err e => Err e end
  | None => Ok None
  end.

(** ** [close_run_production] *)

Definition close_run_production (ε : env) (run : string) : op RunRecord :=
  let now := clock ε in
  transaction (
    d ← tx_get;
    _ ← (if run_status_is RunStatus.OPEN run d
         then tx_modify (λ d, d <| runs ::= update_key run (λ _, true)
                (λ r, r <| r_status := RunStatus.DRAINING |> <| r_updated_at := now |>) |>)
         else tx_reject (negb (run_status_is RunStatus.DRAINING run d || run_status_is RunStatus.DRAINED run d))
                bad_transition : M unit);
    _ ← _refresh_run_status_locked limits run now;
    row ← fetch_run run;
    mret (_run_from_row row)).
End audit.
