(* ===== verification/Admin.v ===== *)
(** Administration of the journal: schema migration, retention purge, artifact
    verification, what opening a journal runs of them, and the payload-free status
    and event queries of [SQLiteJournal]. *)
From S2P Require Import Prelude Json Models Identity Retry Db Manifest ArtifactApi Store Boundary.

Definition JOURNAL_SCHEMA_VERSION : Z := 3.

Section admin.
Context `{Sha256} {FS : Type} `{!ArtifactApi FS}.

(** ** [_migrate] *)

Definition migrate_legacy (now version : Z) : M unit :=
  d ← tx_get;
  _ ← tx_reject (negb (countM (λ b, negb (b_is BatchStatus.DONE b)) (batches d) =? 0)%Z)
        (JournalError TerminalErrorCode.INCOMPATIBLE_SCHEMA);
  let legacy_runs := map r_run_id (rows (runs d)) in
  _ ← tx_modify (λ d, d <| runs ::= update_where (λ _, true) (λ r,
        r <| r_status := RunStatus.QUARANTINED |>
          <| r_error_code := Some TerminalErrorCode.INCOMPATIBLE_SCHEMA |>
          <| r_error_detail := Some ("schema v" +:+ print_int version +:+ " run has no reconstructible v3 manifests") |>
          <| r_updated_at := now |>) |>);
  _ ← tx_for (λ run, _add_event run "run_quarantined" None [] None None
                (Some TerminalErrorCode.INCOMPATIBLE_SCHEMA) now) legacy_runs;
  tx_modify (λ d, d <| user_version := JOURNAL_SCHEMA_VERSION |>).
Definition _migrate (ε : env) : op unit := λ d,
  let version := user_version d in
  if (JOURNAL_SCHEMA_VERSION <? version)%Z
  then (Err (JournalError TerminalErrorCode.INCOMPATIBLE_SCHEMA), d)
  else if (version =? JOURNAL_SCHEMA_VERSION)%Z then (Ok tt, d)
  else if (version =? 0)%Z
  then transaction (tx_modify (λ _, empty_db <| user_version := JOURNAL_SCHEMA_VERSION |>)) d
  else if (version =? 1)%Z || (version =? 2)%Z then transaction (migrate_legacy (clock ε) version) d
  else (Err (JournalError TerminalErrorCode.INCOMPATIBLE_SCHEMA), d).

(** ** [purge_run] *)

(** [DELETE FROM m WHERE P] *)
Definition delete_where {K V} `{Countable K} (P : V → bool) (m : gmap K V) : gmap K V :=
  filter (λ kv, P kv.2 = false) m.
#[global] Arguments delete_where : simpl never.
(** [DELETE FROM runs WHERE run_id = ?], with its [ON DELETE CASCADE]s. *)
Definition delete_run (run : string) (d : db) : db :=
  d <| runs ::= delete run |>
    <| artifacts ::= delete_where (λ a, String.eqb (a_run_id a) run) |>
    <| batches ::= delete_where (b_in_run run) |>
    <| barriers ::= delete_where (λ b, String.eqb (br_run b) run) |>
    <| events ::= List.filter (λ e, negb (String.eqb (e_run_id e) run)) |>
    <| producer_completion ::= delete_where (λ p, String.eqb (p_run_id p) run) |>
    <| node_manifest ::= delete_where (in_run run) |>
    <| edge_manifest ::= delete_where (in_run run) |>
    <| edge_endpoint ::= delete_where (λ e, String.eqb (ep_run_id e) run) |>
    <| endpoint_audit ::= delete run |>.

Definition purge_started (run : string) (d : db) : bool :=
  existsb (λ e, String.eqb (e_run_id e) run && String.eqb (e_event_type e) _PURGE_STARTED_EVENT) (events d).
Definition ref_of_row (a : artifact_row) : ArtifactRef :=
  MkArtifactRef (a_sha256 a) (a_relative_path a) (a_byte_count a) (a_row_count a).
(** The first transaction: [None] when the run does not exist. *)
Definition purge_begin (now : Z) (run : string) : M (option (list ArtifactRef)) :=
  d ← tx_get;
  match runs d !! run with
  | None => mret None
  | Some r =>
      _ ← tx_reject (negb (is_terminal_run (r_status r))) bad_transition;
      _ ← tx_reject (now <? r_retention_until r)%Z bad_transition;
      _ ← tx_reject (negb (countM (λ b, b_in_run run b && owned b) (batches d) =? 0)%Z) bad_transition;
      let refs := map ref_of_row (select (λ a, String.eqb (a_run_id a) run) (artifacts d)) in
      _ ← (if purge_started run d then mret ()
           else _add_event run _PURGE_STARTED_EVENT None [("artifacts", Z.of_nat (length refs))] None None None now
           : M unit);
      mret (Some refs)
  end.
(** [for ref in refs: self.artifacts.remove(ref)], stopping at the first raise. *)
Fixpoint remove_all (refs : list ArtifactRef) (fs : FS) : res unit * FS :=
  match refs with
  | [] => (Ok tt, fs)
  | ref :: refs =>
      match art_remove fs ref with
      | (Ok _, fs') => remove_all refs fs'
      | (Err e, fs') => (Err e, fs')
      end
  end.
Definition purge_run (ε : env) (run : string) (ownership_confirmed : bool) (now : option Z)
    (w : db * FS) : res Z * (db * FS) :=
  let '(d, fs) := w in
  if negb ownership_confirmed then (Err bad_transition, (d, fs))
  else
    match transaction (purge_begin (default (clock ε) now) run) d with
    | (Err e, d') => (Err e, (d', fs))
    | (Ok None, d') => (Ok 0%Z, (d', fs))
    | (Ok (Some refs), d') =>
        match remove_all refs fs with
        | (Err e, fs') => (Err e, (d', fs'))
        | (Ok _, fs') =>
            let '(_, d'') := transaction (tx_modify (delete_run run)) d' in
            (Ok (Z.of_nat (length refs)), (d'', fs'))
        end
    end.

(** ** [verify_referenced_artifacts] *)

Definition verify_all (fs : FS) (refs : list ArtifactRef) : res unit :=
  foldr (λ ref k, match art_verify fs ref with Ok _ => k | Err e => Err e end) (Ok tt) refs.
Definition verify_referenced_artifacts (fs : FS) (d : db) : res unit :=
  verify_all fs (map ref_of_row
    (select (λ a, (0 <? a_ref_count a)%Z && negb (purge_started (a_run_id a) d)) (artifacts d))).

(** ** Opening the journal *)

(** [SQLiteJournal.__init__] from the schema check on: the expired leases are
    recovered, then the referenced artifacts verified. *)
Definition recover_and_verify (fs : FS) (ε : env) : op unit := λ d,
  match recover_expired_leases ε d with
  | (Err e, d1) => (Err e, d1)
  | (Ok _, d1) => (verify_referenced_artifacts fs d1, d1)
  end.
(** The whole of it, on a file that [_validate_database] finds intact; the
    schema is migrated in the environment [εm]. *)
Definition open_journal (fs : FS) (εm ε : env) : op unit := λ d,
  match _migrate εm d with
  | (Err e, d1) => (Err e, d1)
  | (Ok _, d1) => recover_and_verify fs ε d1
  end.
Lemma recover_and_verify_db fs ε d : (recover_and_verify fs ε d).2 = (recover_expired_leases ε d).2.
Proof. unfold recover_and_verify. by destruct (recover_expired_leases ε d) as [[]]. Qed.
End admin.

(** ** Status queries *)

Definition get_batch (job : string) (d : db) : option BatchRecord := _batch_from_row <$> batches d !! job.
Definition list_batches (run : string) (d : db) : list BatchRecord :=
  map _batch_from_row (order_by claim_key (select (b_in_run run) (batches d))).
(** [ORDER BY updated_at DESC, run_id] *)
Definition list_runs (d : db) : list RunRecord :=
  map _run_from_row (order_by (λ r, (- r_updated_at r, r_run_id r)%Z) (rows (runs d))).
Definition status_count (run : string) (s : BatchStatus) (d : db) : Z :=
  countM (λ b, b_in_run run b && b_is s b) (batches d).
Definition status_counts (run : string) (d : db) : list (BatchStatus * Z) :=
  map (λ s, (s, status_count run s d)) BatchStatus.all_batch_statuses.
(** One entry of [list_events]: the columns of the event, joined with those of
    its run and, when its job is a batch, of its batch. *)
Record listed_event := MkListedEvent {
  le_event_id : Z; le_run_id : string; le_job_id : option string; le_event_type : string;
  le_parser : string; le_phase : string; le_operation : string; le_rows : Z; le_pending : Z;
  le_counters : list (string * Z); le_attempt : Z; le_elapsed_ms : Z;
  le_error_code : option TerminalErrorCode; le_created_at : Z;
}.
(** [LEFT JOIN batches AS b ON b.job_id = e.job_id] *)
Definition event_batch (e : event_row) (d : db) : option batch_row :=
  match e_job_id e with Some job => batches d !! job | None => None end.
(** [row[k] or fallback] for a column that may be NULL. *)
Definition text_column (v : option string) (fallback : string) : string :=
  match v with Some t => if is_empty t then fallback else t | None => fallback end.
Definition list_event (d : db) (r : run_row) (e : event_row) : listed_event :=
  let b := event_batch e d in
  MkListedEvent (e_event_id e) (e_run_id e) (e_job_id e) (e_event_type e) (parser (r_metadata_json r))
    (text_column (OperationPhase.phase_value ∘ b_phase <$> b) "run") (text_column (b_operation_key <$> b) (e_event_type e))
    (default 0%Z (b_row_count <$> b)) (default 0%Z (Json.assoc "pending" (e_counters_json e)))
    (e_counters_json e) (default 0%Z (e_attempt e)) (default 0%Z (e_elapsed_ms e)) (e_error_code e) (e_created_at e).
(** [JOIN runs AS r ON r.run_id = e.run_id]: no event without its run. *)
Definition list_events (run : string) (d : db) : list listed_event :=
  match runs d !! run with
  | Some r => map (list_event d r) (order_by e_event_id (List.filter (λ e, String.eqb (e_run_id e) run) (events d)))
  | None => []
  end.

(** The operator's next step, in the priority order of the code. *)
Definition next_action (run : string) (status : RunStatus) (d : db) : string :=
  let some s := negb (status_count run s d =? 0)%Z in
  if purge_started run d then "retry_purge"
  else match status with
  | RunStatus.DRAINED => "none"
  | RunStatus.BLOCKED | RunStatus.DEAD_LETTERED => "inspect_error_and_acknowledge_or_purge_after_retention"
  | RunStatus.QUARANTINED => "inspect_incompatible_fingerprint"
  | _ =>
      if some BatchStatus.RECONCILING then "reconcile_ambiguous_batches"
      else if some BatchStatus.RETRY_WAIT then "wait_for_retry"
      else if some BatchStatus.LEASED then "wait_for_active_consumer"
      else if some BatchStatus.PENDING then "resume_consumer"
      else "close_production"
  end.

Section summary.
Context `{Sha256}.
Record summary := MkSummary {
  su_run_id : string; su_status : RunStatus; su_resumed : bool; su_parser : string;
  su_produced : Z; su_counts : list (BatchStatus * Z); su_rows : Z; su_payload_bytes : Z;
  su_artifact_bytes : Z; su_endpoint_audit : option EndpointAuditStatus;
  su_conservation : conservation; su_oldest_unfinished_at : option Z;
  su_oldest_unfinished_age : option Z; su_next_action : string; su_error_code : option TerminalErrorCode;
}.
Definition min_opt (a b : option Z) : option Z :=
  match a, b with Some x, Some y => Some (Z.min x y) | Some x, None => Some x | None, b => b end.
(** [SELECT MIN(created_at) FROM batches WHERE run_id = ? AND status != done] *)
Definition oldest_unfinished (run : string) (d : db) : option Z :=
  foldr (λ b acc, min_opt (Some (b_created_at b)) acc) None
    (select (λ b, b_in_run run b && negb (b_is BatchStatus.DONE b)) (batches d)).
Definition resumed (run : string) (d : db) : bool :=
  existsb (λ e, String.eqb (e_run_id e) run && String.eqb (e_event_type e) "run_resumed") (events d).
Definition status_summary (now : Z) (run : string) (d : db) : res summary :=
  match runs d !! run with
  | None => Err bad_transition
  | Some r =>
      audit ← endpoint_audit_status run d;
      Ok (MkSummary (r_run_id r) (r_status r) (resumed run d) (parser (r_metadata_json r))
        (run_items run d) (status_counts run d)
        (sumM (λ b, if b_in_run run b then b_row_count b else 0%Z) (batches d))
        (run_bytes run d)
        (sumM (λ a, if String.eqb (a_run_id a) run then a_byte_count a else 0%Z) (artifacts d))
        audit (conservation_summary run d) (oldest_unfinished run d)
        ((λ t, Z.max 0 (now - t)) <$> oldest_unfinished run d)
        (next_action run (r_status r) d) (r_error_code r))
  end.
End summary.
