(* ===== verification/Config.v ===== *)
(** Journal configuration ([code-tiny/tools/graph/journal/config.py]): reading
    it from an environment, writing it for a child process, resuming an
    incomplete run, and closing production after a successful child.  Each of them
    that uses a journal opens it first, with the recovery that implies. *)
From S2P Require Import Prelude Json Text PyValue Models Identity Schema Retry Db Manifest ArtifactApi Store Staging Transitions Boundary Admin.

(** * Environment *)

(** A process environment; [os.environ] and the mappings passed for it. *)
Abbreviation environment := (gmap string string).

Definition MODE_ENV : string := "CORTEX_GRAPH_JOURNAL_MODE".
Definition PATH_ENV : string := "CORTEX_GRAPH_JOURNAL_PATH".
Definition METADATA_ENV : string := "CORTEX_GRAPH_JOURNAL_METADATA".
Definition GENERATION_ENV : string := "CORTEX_GRAPH_JOURNAL_GENERATION".
Definition AUTO_RESUME_ENV : string := "CORTEX_GRAPH_JOURNAL_AUTO_RESUME".
Definition LEASE_SECONDS_ENV : string := "CORTEX_GRAPH_JOURNAL_LEASE_SECONDS".
Definition MAX_ATTEMPTS_ENV : string := "CORTEX_GRAPH_JOURNAL_MAX_ATTEMPTS".
Definition RETRY_BASE_SECONDS_ENV : string := "CORTEX_GRAPH_JOURNAL_RETRY_BASE_SECONDS".
Definition RETRY_MAX_SECONDS_ENV : string := "CORTEX_GRAPH_JOURNAL_RETRY_MAX_SECONDS".
Definition OFF_MODES : list string := [""; "0"; "false"; "off"; "disabled"].
Definition SHADOW_MODES : list string := ["shadow"; "shared-shadow"; "cplus-canary"].
Definition REQUIRED_MODES : list string := ["required"; "shared-required"].

Record JournalConfig := MkJournalConfig {
  jc_mode : string; jc_path : string; jc_metadata : RunMetadata; jc_limits : JournalLimits;
  jc_auto_resume : bool; jc_lease_seconds : Z; jc_max_attempts : Z;
  jc_retry_base_seconds : Z; jc_retry_max_seconds : Z;
}.
Definition required (c : JournalConfig) : bool := String.eqb (jc_mode c) "required".
Definition shadow (c : JournalConfig) : bool := String.eqb (jc_mode c) "shadow".

(** [str(source.get(name) or "").strip()] *)
Definition env_text (source : environment) (name : string) : string := strip (default "" (source !! name)).
Definition _positive_int (source : environment) (name : string) (default_value : Z) : res Z :=
  let raw := env_text source name in
  if is_empty raw then Ok default_value
  else match int_of_text raw with
       | Ok value => if (value <=? 0)%Z then Err bad_contract else Ok value
       | Err _ => Err bad_contract
       end.
Definition _boolean (source : environment) (name : string) (default_value : bool) : res bool :=
  let raw := casefold (env_text source name) in
  if is_empty raw then Ok default_value
  else if in_list raw ["1"; "true"; "yes"; "on"] then Ok true
  else if in_list raw ["0"; "false"; "no"; "off"] then Ok false
  else Err bad_contract.
Definition _normalize_mode (raw : option string) : res string :=
  let value := casefold (strip (default "" raw)) in
  if in_list value OFF_MODES then Ok "off"
  else if in_list value SHADOW_MODES then Ok "shadow"
  else if in_list value REQUIRED_MODES then Ok "required"
  else Err bad_contract.

(** * Run metadata from JSON *)

(** [dict(value.get("operation_versions") or {})]; a version that is no integer
    is refused by the constructor.  (A JSON boolean, which Python counts as an
    integer, is refused here too.) *)
Definition versions_of (v : json) : res (list (string * Z)) :=
  match py_or v (JObj []) with
  | JObj l => foldr (λ kv acc, versions ← acc;
                match kv.2 with JInt z => Ok ((kv.1, z) :: versions) | _ => Err TypeError end) (Ok []) l
  | _ => Err TypeError
  end.
Definition _metadata_from_mapping (value : dict) : res RunMetadata :=
  project_id ← getitem "project_id" value; scope_id ← getitem "scope_id" value;
  source_revision ← getitem "source_revision" value; source_snapshot ← getitem "source_snapshot" value;
  physical_target ← getitem "physical_target" value; generation ← getitem "generation" value;
  parser ← getitem "parser" value; parser_version ← getitem "parser_version" value;
  schema_fingerprint ← getitem "schema_fingerprint" value;
  query_shape_version ← getitem "query_shape_version" value;
  versions ← versions_of (get "operation_versions" value);
  contract_version ← py_int (py_or (get "contract_version" value) (JInt 1));
  make_run_metadata (MkRunMetadata (py_str project_id) (py_str scope_id) (py_str source_revision)
    (py_str source_snapshot) (py_str physical_target) (py_str generation) (py_str parser)
    (py_str parser_version) (py_str schema_fingerprint) (py_str query_shape_version) versions contract_version).

(** [except (KeyError, TypeError, ValueError)] *)
Definition contract_error (e : exn) : bool :=
  match e with KeyError | TypeError | ValueError => true | _ => false end.
Definition metadata_of_text (text : string) : res RunMetadata :=
  let parsed := match loads text with
                | Some (JObj value) => _metadata_from_mapping value
                | Some _ => Err TypeError
                | None => Err ValueError end in
  match parsed with
  | Ok m => Ok m
  | Err e => if contract_error e then Err bad_contract else Err e
  end.

(** * Reading a configuration *)

(** [pathlib]: expansion, absoluteness and resolution depend on the host. *)
Class PathApi : Type := {
  expanduser : string → string;
  is_absolute : string → bool;
  resolve : string → string;
}.

Section config.
Context `{Sha256} `{!PathApi}.

(** [_LIMIT_ENV], field by field in the order of the dict. *)
Definition limits_from_env (source : environment) : res JournalLimits :=
  let d := default_limits in
  batches ← _positive_int source "CORTEX_GRAPH_JOURNAL_MAX_BATCHES" (max_batches_per_run d);
  payload ← _positive_int source "CORTEX_GRAPH_JOURNAL_MAX_PAYLOAD_BYTES" (max_payload_bytes_per_run d);
  artifact ← _positive_int source "CORTEX_GRAPH_JOURNAL_MAX_ARTIFACT_BYTES" (max_artifact_bytes d);
  journal ← _positive_int source "CORTEX_GRAPH_JOURNAL_MAX_DATABASE_BYTES" (max_journal_bytes d);
  free ← _positive_int source "CORTEX_GRAPH_JOURNAL_MIN_FREE_BYTES" (min_free_bytes d);
  retention ← _positive_int source "CORTEX_GRAPH_JOURNAL_RETENTION_SECONDS" (retention_seconds d);
  busy ← _positive_int source "CORTEX_GRAPH_JOURNAL_BUSY_TIMEOUT_MS" (busy_timeout_ms d);
  wal ← _positive_int source "CORTEX_GRAPH_JOURNAL_WAL_CHECKPOINT_PAGES" (wal_autocheckpoint_pages d);
  make_limits (MkJournalLimits batches payload artifact journal free retention busy wal).

Definition journal_config_from_env (source : environment) : res (option JournalConfig) :=
  mode ← _normalize_mode (source !! MODE_ENV);
  if String.eqb mode "off" then Ok None
  else
    let path_text := env_text source PATH_ENV in
    let metadata_text := env_text source METADATA_ENV in
    if is_empty path_text || is_empty metadata_text then Err bad_contract
    else
      metadata ← metadata_of_text metadata_text;
      limits ← limits_from_env source;
      lease_seconds ← _positive_int source LEASE_SECONDS_ENV 300;
      max_attempts ← _positive_int source MAX_ATTEMPTS_ENV 5;
      retry_base ← _positive_int source RETRY_BASE_SECONDS_ENV 1;
      retry_max ← _positive_int source RETRY_MAX_SECONDS_ENV 60;
      if (retry_max <? retry_base)%Z then Err bad_contract
      else
        let path := expanduser path_text in
        if negb (is_absolute path) then Err bad_contract
        else
          auto_resume ← _boolean source AUTO_RESUME_ENV true;
          Ok (Some (MkJournalConfig mode (resolve path) metadata limits auto_resume lease_seconds
                max_attempts retry_base retry_max)).

(** * Writing a configuration for a child process *)

(** [character.isalnum() or character in "-_"], else an underscore. *)
Definition safe_parser_char (c : ascii) : ascii :=
  let n := Ascii.nat_of_ascii c in
  if ((48 <=? n) && (n <=? 57))%nat || ((65 <=? n) && (n <=? 90))%nat || ((97 <=? n) && (n <=? 122))%nat
     || Ascii.eqb c "-" || Ascii.eqb c "_" then c else "_"%char.
Fixpoint safe_parser (s : string) : string :=
  match s with EmptyString => EmptyString | String c s => String (safe_parser_char c) (safe_parser s) end.
(** [a or b] for strings. *)
Definition or_else (a : option string) (b : string) : string :=
  match a with Some s => if is_empty s then b else s | None => b end.

(** The arguments of [configure_journal_env]; [ca_journal_root] and
    [ca_scope_id] are what the path functions and [scan_scope_id] give. *)
Record configure_args := MkConfigureArgs {
  ca_project_id : string; ca_parser : string; ca_source_revision : string; ca_source_snapshot : string;
  ca_physical_target : string; ca_mode : string; ca_generation : option string;
  ca_journal_root : string; ca_scope_id : string;
}.
Definition node_first_parser (parser : string) : bool := String.eqb (casefold parser) "cplus".
Definition child_metadata (a : configure_args) (run_generation : string) : res RunMetadata :=
  make_run_metadata (MkRunMetadata (ca_project_id a) (ca_scope_id a)
    (or_else (Some (ca_source_revision a)) (ca_source_snapshot a)) (ca_source_snapshot a)
    (ca_physical_target a) run_generation (ca_parser a) "1" (schema_fingerprint_of CODE_GRAPH_SCHEMA)
    (if node_first_parser (ca_parser a) then "language-writer-node-first-v1" else "language-writer-v1")
    (("graph-write", 1%Z) :: if node_first_parser (ca_parser a) then [("node-first", 1%Z)] else []) 1).
Definition metadata_text (m : RunMetadata) : string := canonical_json (run_metadata_to_dict m).
Definition child_env (a : configure_args) (mode run_generation : string) (m : RunMetadata) (env0 : environment)
    : environment :=
  <[METADATA_ENV := metadata_text m]> (<[GENERATION_ENV := run_generation]>
    (<[PATH_ENV := ca_journal_root a +:+ "/" +:+ safe_parser (ca_parser a) +:+ ".sqlite3"]>
      (<[MODE_ENV := mode]> env0))).

(** [legacy_physical_target_from_env]: each variable with its default. *)
Definition env_default (env0 : environment) (k v : string) : string := default v (env0 !! k).
Definition legacy_physical_target_from_env (env0 : environment) : string :=
  let provider := casefold (or_else (env0 !! "CODE_GRAPH_PROVIDER") (or_else (env0 !! "GRAPH_PROVIDER") "falkordb")) in
  if in_list provider ["neo4j"; "neo"] then
    "neo4j:" +:+ env_default env0 "NEO4J_URI" "" +:+ ":" +:+ env_default env0 "NEO4J_DB" "neo4j"
  else if in_list provider ["ladybug"; "ladybugdb"; "ladybug-db"] then
    "ladybug:" +:+ env_default env0 "LADYBUG_PATH" "" +:+ ":" +:+ env_default env0 "FALKORDB_GRAPH" "hyper_graph"
  else
    "falkordb:" +:+ or_else (env0 !! "FALKORDB_PATH") "embedded" +:+ ":"
    +:+ or_else (env0 !! "FALKORDB_GRAPH") (or_else (env0 !! "FALKORDB_DATABASE") "hyper_graph").

(** The artifact files beside the journal, and the environments of the reads of
    the clock: opening a journal takes the first two. *)
Context {FS : Type} `{!ArtifactApi FS} (fs : FS) (supply : nat → env).
Definition open_from_env : op unit := open_journal fs (supply 0%nat) (supply 1%nat).

(** [configure_journal_env]: [journal] is the database at the path, when the
    file exists. *)
Definition configure_journal_env (a : configure_args) (env0 : environment) (journal : option db)
    : res JournalConfig * environment * option db :=
  match (mode ← _normalize_mode (Some (ca_mode a));
         if String.eqb mode "off" then Err ValueError
         else
           let run_generation := or_else (ca_generation a) (or_else (env0 !! GENERATION_ENV) (ca_source_snapshot a)) in
           m ← child_metadata a run_generation; Ok (mode, run_generation, m)) with
  | Err e => (Err e, env0, journal)
  | Ok (mode, run_generation, m) =>
      let env1 := child_env a mode run_generation m env0 in
      match journal_config_from_env env1 with
      | Err e => (Err e, env1, journal)
      | Ok None => (Err AssertionError, env1, journal)
      | Ok (Some config) =>
          match journal with
          | Some d =>
              if negb (String.eqb mode "required") then (Ok config, env1, journal)
              else
                match open_from_env d with
                | (Err e, d0) => (Err e, env1, Some d0)
                | (Ok _, d0) =>
                match quarantine_legacy_targets (jc_limits config) (supply 2%nat) m
                        [legacy_physical_target_from_env env1] d0 with
                | (Err e, d1) => (Err e, env1, Some d1)
                | (Ok _, d1) =>
                    match find_resumable_run m d1 with
                    | None => (Ok config, env1, Some d1)
                    | Some resumable =>
                        if negb (jc_auto_resume config) then (Err bad_transition, env1, Some d1)
                        else
                          let m' := rr_metadata resumable in
                          let env2 := <[METADATA_ENV := metadata_text m']> (<[GENERATION_ENV := generation m']> env1) in
                          match journal_config_from_env env2 with
                          | Ok (Some config') => (Ok config', env2, Some d1)
                          | Ok None => (Err AssertionError, env2, Some d1)
                          | Err e => (Err e, env2, Some d1)
                          end
                    end
                end
                end
          | None => (Ok config, env1, journal)
          end
      end
  end.

Definition snapshot_for_paths (source_revision : string) (changed deleted : list string) : string :=
  sha256_hex (canonical_json (JObj [("source_revision", JStr source_revision);
    ("changed", JArr (map JStr (order_by id changed))); ("deleted", JArr (map JStr (order_by id deleted)))])).

(** * Publication *)

Definition node_first (m : RunMetadata) : bool :=
  String.eqb (query_shape_version m) "language-writer-node-first-v1".
(** The gate of a node-first run, on the open journal. *)
Definition publication_check (config : JournalConfig) (d : db) : res unit :=
  let run := run_id (jc_metadata config) in
  if negb (node_first (jc_metadata config)) then Ok tt
  else
    let summary := conservation_summary run d in
    audit ← endpoint_audit_status run d;
    match audit with
    | None => Err bad_transition
    | Some _ => if negb (cs_producers_open summary =? 0)%Z || negb (cs_conserved summary)
                then Err bad_contract else Ok tt
    end.
(** [finalize_journal_from_env]: [journal] is [None] when the file is absent. *)
Definition finalize_journal (config : option JournalConfig) (journal : option db)
    : res (option RunStatus) * option db :=
  match config with
  | None => (Ok None, journal)
  | Some config =>
      if shadow config then (Ok None, journal)
      else match journal with
      | None => (Err bad_transition, journal)
      | Some d =>
          match open_from_env d with
          | (Err e, d1) => (Err e, Some d1)
          | (Ok _, d1) =>
              let run := run_id (jc_metadata config) in
              match get_run run d1 with
              | None => (Err bad_transition, Some d1)
              | Some _ =>
                  match publication_check config d1 with
                  | Err e => (Err e, Some d1)
                  | Ok _ =>
                      let '(r, d2) := close_run_production (jc_limits config) (supply 2%nat) run d1 in
                      (match r with Ok run_record => Ok (Some (rr_status run_record)) | Err e => Err e end, Some d2)
                  end
              end
          end
      end
  end.
(** [journal_status_from_env], which reads the age of the run at the third
    reading of the clock. *)
Definition journal_status (config : option JournalConfig) (journal : option db) : res (option summary) * option db :=
  match config, journal with
  | Some config, Some d =>
      if shadow config then (Ok None, journal)
      else
        match open_from_env d with
        | (Err e, d1) => (Err e, Some d1)
        | (Ok _, d1) =>
            let run := run_id (jc_metadata config) in
            match get_run run d1 with
            | None => (Ok None, Some d1)
            | Some _ => (s ← status_summary (clock (supply 2%nat)) run d1; Ok (Some s), Some d1)
            end
        end
  | _, _ => (Ok None, journal)
  end.
End config.

(** * Lemmas *)

Lemma versions_of_map (l : list (string * Z)) :
  versions_of (JObj (map (λ kv, (kv.1, JInt kv.2)) l)) = Ok l.
Proof.
  unfold versions_of, py_or.
  assert (foldr (λ kv acc, versions ← acc;
    match kv.2 with JInt z => Ok ((kv.1, z) :: versions) | _ => Err TypeError end) (Ok [])
    (map (λ kv : string * Z, (kv.1, JInt kv.2)) l) = Ok l) as Hf.
  { induction l as [|[k z] l IH]; [done|]. cbn [map foldr]. by rewrite IH. }
  destruct l as [|kv l]; [done|]. exact Hf.
Qed.
Lemma print_object_shape l : ∃ s, print (JObj l) = String "{" (s +:+ String "}" EmptyString).
Proof. eexists. cbn [print]. rewrite str_app_cons, str_app_nil_l. reflexivity. Qed.
Lemma strip_canonical_object l : strip (canonical_json (JObj l)) = canonical_json (JObj l).
Proof.
  unfold canonical_json. cbn [sort_keys]. destruct (print_object_shape (order_by fst (map (λ kv, (kv.1, sort_keys kv.2)) l))) as [s ->].
  unfold strip. change (lstrip (String "{" ?x)) with (String "{" x). rewrite <- (str_app_cons "{" s). by apply rstrip_id.
Qed.
Lemma strip_metadata m : strip (metadata_text m) = metadata_text m.
Proof. apply strip_canonical_object. Qed.
Lemma make_metadata_idemp m m' : NoDup (operation_versions m).*1 → make_run_metadata m = Ok m' →
  make_run_metadata m' = Ok m'.
Proof.
  intros Hnd. unfold make_run_metadata. cbv zeta.
  destruct (existsb _ _) eqn:E1; [done|]. destruct (existsb _ (order_by fst _)) eqn:E2; [done|].
  destruct (_ <? 1)%Z eqn:E3; [done|]. intros [= <-]. pose proof (order_by_fst_idemp (operation_versions m) Hnd) as Hv.
  revert E2 Hv. generalize (order_by fst (operation_versions m)). intros v E2 Hv.
  change (operation_versions (m <| operation_versions := v |>)) with v. rewrite Hv, E2.
  change (contract_version (m <| operation_versions := v |>)) with (contract_version m). rewrite E3.
  change (existsb (λ s, is_empty (strip s)) [project_id m; scope_id m; source_revision m; source_snapshot m;
    physical_target m; generation m; parser m; parser_version m; schema_fingerprint m;
    query_shape_version m] = false) in E1. cbn [project_id scope_id source_revision source_snapshot
    physical_target generation parser parser_version schema_fingerprint query_shape_version update_field] in *.
  by rewrite E1.
Qed.

(** Metadata written for a child process is read back as it was. *)
Lemma metadata_text_roundtrip m : sorted_versions m → make_run_metadata m = Ok m →
  metadata_of_text (metadata_text m) = Ok m.
Proof.
  intros Hs Hm. unfold metadata_of_text, metadata_text.
  rewrite loads_canonical by apply run_metadata_wf. rewrite sort_keys_metadata by done.
  unfold _metadata_from_mapping, getitem, get. cbn [Json.assoc String.eqb Ascii.eqb Bool.eqb mbind result_bind default from_option id].
  rewrite versions_of_map. cbn [mbind result_bind py_str py_int].
  assert (contract_version m ≠ 0%Z) as Hz.
  { intros Hz. unfold make_run_metadata in Hm. rewrite Hz in Hm. repeat case_match; done. }
  unfold py_or. cbn [truthy]. apply Z.eqb_neq in Hz as ->. cbn [negb py_int mbind result_bind].
  destruct m. cbn in *. by rewrite Hm.
Qed.

Section readback.
Context `{Sha256} `{!PathApi} {FS : Type} `{!ArtifactApi FS} (fs : FS) (supply : nat → env).

Lemma config_metadata source c : journal_config_from_env source = Ok (Some c) →
  metadata_of_text (env_text source METADATA_ENV) = Ok (jc_metadata c).
Proof.
  unfold journal_config_from_env. destruct (_normalize_mode _); [|done]. cbn [mbind result_bind].
  destruct (String.eqb _ _); [done|]. destruct (_ || _); [done|].
  destruct (metadata_of_text _) as [m|]; [|done]. cbn [mbind result_bind].
  destruct (limits_from_env _); [|done]. cbn [mbind result_bind].
  destruct (_positive_int _ LEASE_SECONDS_ENV _); [|done]. cbn [mbind result_bind].
  destruct (_positive_int _ MAX_ATTEMPTS_ENV _); [|done]. cbn [mbind result_bind].
  destruct (_positive_int _ RETRY_BASE_SECONDS_ENV _); [|done]. cbn [mbind result_bind].
  destruct (_positive_int _ RETRY_MAX_SECONDS_ENV _); [|done]. cbn [mbind result_bind].
  destruct (_ <? _)%Z; [done|]. destruct (negb _); [done|].
  destruct (_boolean _ _ _); [|done]. by intros [= <-].
Qed.
Lemma env_text_metadata m source : source !! METADATA_ENV = Some (metadata_text m) →
  env_text source METADATA_ENV = metadata_text m.
Proof. unfold env_text. intros ->. apply strip_metadata. Qed.
Lemma child_metadata_valid a g m : child_metadata a g = Ok m → sorted_versions m ∧ make_run_metadata m = Ok m.
Proof.
  intros Hm. assert (∀ b : bool, NoDup (("graph-write", 1%Z) :: (if b then [("node-first", 1%Z)] else [])).*1) as Hnd.
  { intros []; apply (bool_decide_unpack _); vm_compute; exact I. }
  split; [eapply make_run_metadata_sorted; [|exact Hm]|eapply make_metadata_idemp; [|exact Hm]]; apply Hnd.
Qed.

(** A child process reads the configuration its parent wrote: when
    [configure_journal_env] returns a configuration, reading the environment it
    leaves gives that same configuration, and its metadata are those the parent
    built, or those of the compatible incomplete run it resumes. *)
Theorem child_reads_configuration (a : configure_args) (env0 env' : environment)
    (journal journal' : option db) (config : JournalConfig) :
  configure_journal_env fs supply a env0 journal = (Ok config, env', journal') →
  journal_config_from_env env' = Ok (Some config) ∧
  ∃ g m, child_metadata a g = Ok m ∧
    (jc_metadata config = m ∨
     ∃ d r, journal' = Some d ∧ find_resumable_run m d = Some r ∧
       metadata_of_text (metadata_text (rr_metadata r)) = Ok (jc_metadata config)).
Proof.
  unfold configure_journal_env. destruct (_normalize_mode _) as [mode|]; [|done]. cbn [mbind result_bind].
  destruct (String.eqb mode "off"); [done|]. cbv zeta.
  destruct (child_metadata a _) as [m|] eqn:Hm; [|done]. cbn [mbind result_bind].
  set (env1 := child_env a mode _ m env0). destruct (journal_config_from_env env1) as [[c|]|] eqn:Hc; [|done..].
  assert (jc_metadata c = m) as Hcm.
  { apply config_metadata in Hc. rewrite (env_text_metadata m) in Hc by apply lookup_insert_eq.
    destruct (child_metadata_valid _ _ _ Hm) as [Hs Hv]. rewrite metadata_text_roundtrip in Hc by done.
    by injection Hc. }
  destruct journal as [d|]; [|intros [= <- <- <-]; eauto 6].
  destruct (negb _); [intros [= <- <- <-]; eauto 6|].
  destruct (open_from_env fs supply d) as [[[]|e] d0]; [|done].
  destruct (quarantine_legacy_targets _ _ _ _ d0) as [[n|e] d1]; [|done].
  destruct (find_resumable_run m d1) as [r|] eqn:Hr; [|intros [= <- <- <-]; eauto 6].
  destruct (negb (jc_auto_resume c)); [done|].
  set (env2 := <[METADATA_ENV:=_]> _). destruct (journal_config_from_env env2) as [[c'|]|] eqn:Hc'; [|done..].
  intros [= <- <- <-]. split; [done|]. eexists _, m. split; [exact Hm|]. right. exists d1, r. split; [done|]. split; [done|].
  apply config_metadata in Hc'. by rewrite (env_text_metadata (rr_metadata r)) in Hc' by apply lookup_insert_eq.
Qed.

(** C12: The publication gate: [finalize_journal_from_env] opens the journal and
    closes the production of a node-first run only when its endpoint audit is
    sealed, every producer is complete, and the rows are conserved; otherwise it
    raises and leaves the journal as its opening left it. *)
Theorem publication_gate (config : JournalConfig) (d : db) (r : res (option RunStatus)) (j' : option db) :
  shadow config = false → node_first (jc_metadata config) = true →
  finalize_journal fs supply (Some config) (Some d) = (r, j') →
  let run := run_id (jc_metadata config) in
  let '(opened, d1) := open_from_env fs supply d in
  (opened = Ok tt ∧
   ∃ run_row, runs d1 !! run = Some run_row ∧ endpoint_audit_status run d1 = Ok (Some EndpointAuditStatus.SEALED) ∧
     cs_producers_open (conservation_summary run d1) = 0%Z ∧ cs_conserved (conservation_summary run d1) = true ∧
     j' = Some (close_run_production (jc_limits config) (supply 2%nat) run d1).2)
  ∨ ((∃ e, r = Err e) ∧ j' = Some d1).
Proof.
  intros Hsh Hnf. unfold finalize_journal. rewrite Hsh. cbv zeta.
  destruct (open_from_env fs supply d) as [[[]|e] d1]; [|intros [= <- <-]; right; eauto]. unfold get_run.
  destruct (runs d1 !! _) as [row|] eqn:Hrow; [|intros [= <- <-]; right; eauto]. cbn [fmap option_fmap option_map].
  unfold publication_check. rewrite Hnf. cbn [negb]. cbv zeta.
  destruct (endpoint_audit_status _ d1) as [[[]|]|e]; cbn [mbind result_bind];
    [|intros [= <- <-]; right; eauto..].
  destruct (negb (_ =? 0)%Z || _) eqn:Hg; [intros [= <- <-]; right; eauto|].
  apply orb_false_iff in Hg as [Hp Hc]. bool_hyps.
  destruct (close_run_production _ _ _ d1) as [x d']. intros [= <- <-]. left. split; [done|]. by exists row.
Qed.
End readback.

(** ** A concrete host *)

#[local] Instance plain_paths : PathApi := {
  expanduser p := p; is_absolute p := startswith "/" p; resolve p := p }.
#[local] Instance text_digest : Sha256 := λ s, s.
Definition sample_args : configure_args :=
  MkConfigureArgs "bank" "cplus" "" "snap" "db" "Shared-Required" None "/cache/journal/s" "s".
(** No artifact file is there. *)
Definition no_artifacts : ArtifactApi unit := {|
  art_verify _ _ := Err bad_contract; art_read_jsonl _ _ := Err bad_contract; art_remove fs _ := (Ok tt, fs) |}.
#[local] Existing Instance no_artifacts.
Definition sample_supply (tick : nat) : env := MkEnv (Z.of_nat tick) 1000000000000 "".
Definition sample_configured : res JournalConfig * environment * option db :=
  configure_journal_env tt sample_supply sample_args ∅ None.
Definition sample_config : JournalConfig :=
  match sample_configured.1.1 with
  | Ok c => c
  | Err _ => MkJournalConfig "" "" (MkRunMetadata "" "" "" "" "" "" "" "" "" "" [] 0) default_limits false 0 0 0 0
  end.
Lemma sample_configures : sample_configured = (Ok sample_config, sample_configured.1.2, None).
Proof. vm_compute. reflexivity. Qed.
Lemma child_reads_configuration_witness :
  required sample_config = true ∧ journal_config_from_env sample_configured.1.2 = Ok (Some sample_config).
Proof.
  split; [vm_compute; reflexivity|].
  exact (proj1 (child_reads_configuration tt sample_supply sample_args ∅ sample_configured.1.2 None None
    sample_config sample_configures)).
Defined.
(** The journal of a run without a producer, whose production a node-first
    analyzer has closed and sealed. *)
Definition sample_journal : db :=
  let d0 := (open_from_env tt sample_supply empty_db).2 in
  let d1 := (open_run (jc_limits sample_config) (sample_supply 3) (jc_metadata sample_config) 0 0 d0).2 in
  let d2 := (complete_producers (sample_supply 4) (run_id (jc_metadata sample_config)) d1).2 in
  (seal_endpoint_audit (sample_supply 5) (run_id (jc_metadata sample_config)) None None None d2).2.
Definition finalized : res (option RunStatus) * option db :=
  finalize_journal tt sample_supply (Some sample_config) (Some sample_journal).
Example finalize_drains : finalized.1 = Ok (Some RunStatus.DRAINED).
Proof. vm_compute. reflexivity. Qed.
Lemma publication_gate_witness :
  let run := run_id (jc_metadata sample_config) in
  let '(opened, d1) := open_from_env tt sample_supply sample_journal in
  (opened = Ok tt ∧
   ∃ run_row, runs d1 !! run = Some run_row ∧ endpoint_audit_status run d1 = Ok (Some EndpointAuditStatus.SEALED) ∧
     cs_producers_open (conservation_summary run d1) = 0%Z ∧ cs_conserved (conservation_summary run d1) = true ∧
     finalized.2 = Some (close_run_production (jc_limits sample_config) (sample_supply 2%nat) run d1).2)
  ∨ ((∃ e, finalized.1 = Err e) ∧ finalized.2 = Some d1).
Proof.
  assert (finalize_journal tt sample_supply (Some sample_config) (Some sample_journal) = (finalized.1, finalized.2)) as Hf
    by exact (surjective_pairing finalized).
  assert (shadow sample_config = false) as Hs by (vm_compute; reflexivity).
  assert (node_first (jc_metadata sample_config) = true) as Hn by (vm_compute; reflexivity).
  exact (publication_gate tt sample_supply sample_config sample_journal finalized.1 finalized.2 Hs Hn Hf).
Defined.
