(* ===== verification/Steps.v ===== *)
(** The abstract journal: every operation of the store is a sequence of atomic
    steps on the tables, up to the audit trail of events.  The steps are the
    specification the invariants of [Invariant.v] and [Barriers.v] are proved
    against; [Refinement.v] shows the store implements them. *)
From S2P Require Import Prelude Json Models Identity Retry Db Manifest ArtifactApi Store Transitions Boundary Admin Staging.
From stdpp Require Export relations.

(** * Equality up to events *)

(** The database without its audit trail. *)
Definition forget (d : db) : db := d <| events := [] |> <| event_seq := 0%Z |>.
Definition db_equiv (d d' : db) : Prop := forget d = forget d'.
Infix "≈" := db_equiv (at level 70) : journal_scope.

#[export] Instance db_equiv_equivalence : Equivalence db_equiv.
Proof. split; unfold db_equiv; [done|intros ??; congruence|intros ???; congruence]. Qed.

Section proper.
Ltac solve_proj := intros [] [] Heq; unfold db_equiv, forget in Heq; cbn in *; by simplify_eq.
#[export] Instance runs_proper : Proper (db_equiv ==> eq) runs.
Proof. solve_proj. Qed.
#[export] Instance artifacts_proper : Proper (db_equiv ==> eq) artifacts.
Proof. solve_proj. Qed.
#[export] Instance batches_proper : Proper (db_equiv ==> eq) batches.
Proof. solve_proj. Qed.
#[export] Instance barriers_proper : Proper (db_equiv ==> eq) barriers.
Proof. solve_proj. Qed.
#[export] Instance producers_proper : Proper (db_equiv ==> eq) producer_completion.
Proof. solve_proj. Qed.
#[export] Instance node_manifest_proper : Proper (db_equiv ==> eq) node_manifest.
Proof. solve_proj. Qed.
#[export] Instance edge_manifest_proper : Proper (db_equiv ==> eq) edge_manifest.
Proof. solve_proj. Qed.
#[export] Instance edge_endpoint_proper : Proper (db_equiv ==> eq) edge_endpoint.
Proof. solve_proj. Qed.
#[export] Instance endpoint_audit_proper : Proper (db_equiv ==> eq) endpoint_audit.
Proof. solve_proj. Qed.
End proper.

(** * Moves of one batch that leave its run as it is *)

Inductive batch_step : batch_row → batch_row → Prop :=
  | bst_expire now b :
      b_is BatchStatus.LEASED b = true → batch_step b (to_ambiguous now b)
  | bst_release now b :
      b_is BatchStatus.RECONCILING b = true → batch_step b (release_owner now b)
  | bst_fence ε secs b :
      unowned_reconciling b = true → batch_step b (fence_batch ε secs b)
  | bst_renew now until b :
      b_is BatchStatus.LEASED b = true →
      batch_step b (b <| b_lease_until := Some until |> <| b_updated_at := now |>)
  | bst_ambiguous now code b :
      b_is BatchStatus.LEASED b = true →
      batch_step b (b <| b_status := BatchStatus.RECONCILING |> <| b_retry_class := Some RetryClass.AMBIGUOUS |>
                      <| b_error_code := code |> <| b_updated_at := now |>)
  | bst_retry now at_ class code b :
      leased_or_reconciling b = true → (b_attempt b < b_max_attempts b)%Z →
      batch_step b (retry_row now at_ false class code b)
  | bst_backoff now at_ code b :
      b_is BatchStatus.RECONCILING b = true → (b_attempt b + 1 < b_max_attempts b)%Z →
      batch_step b (backoff_row now at_ false (b_attempt b + 1) code b).

(** Moves that end a batch for good and fail its run with it. *)
Inductive batch_failure : batch_row → batch_row → RunStatus → Prop :=
  | bf_block now class code b :
      leased_or_reconciling b = true →
      batch_failure b (block_row now class code b) RunStatus.BLOCKED
  | bf_exhausted now at_ class code b :
      leased_or_reconciling b = true → (b_max_attempts b ≤ b_attempt b)%Z →
      batch_failure b (retry_row now at_ true class code b) RunStatus.DEAD_LETTERED
  | bf_exhausted_backoff now at_ code b :
      b_is BatchStatus.RECONCILING b = true → (b_max_attempts b ≤ b_attempt b + 1)%Z →
      batch_failure b (backoff_row now at_ true (b_attempt b + 1) code b) RunStatus.DEAD_LETTERED.

Definition fail_run (status : RunStatus) (code : TerminalErrorCode) (now until : Z) (r : run_row) : run_row :=
  r <| r_status := status |> <| r_error_code := Some code |> <| r_updated_at := now |>
    <| r_retention_until := until |>.
Definition quarantine_effect (until now : Z) (detail run : string) (d : db) : db :=
  d <| runs ::= update_key run (λ _, true) (λ r,
         r <| r_status := RunStatus.QUARANTINED |> <| r_updated_at := now |> <| r_retention_until := until |>
           <| r_error_code := Some TerminalErrorCode.INCOMPATIBLE_SCHEMA |> <| r_error_detail := Some detail |>) |>
    <| batches ::= update_where (λ b, b_in_run run b && negb (b_is BatchStatus.DONE b)) (quarantine_batch now) |>.

(** What an acknowledgement does to one barrier its batch produces. *)
Definition drained_once (now : Z) (bar : barrier_row) : barrier_row :=
  bar <| br_drained ::= (λ n, n + 1)%Z |>
      <| br_stat := if bool_decide (is_Some (br_closed bar)) && (br_drained bar + 1 =? br_produced bar)%Z
                    then BarrierStatus.DRAINED else br_stat bar |>
      <| br_updated := now |>.
Definition produced_once (run name : string) (now : Z) (bar : option barrier_row) : barrier_row :=
  match bar with
  | Some bar => bar <| br_produced ::= (λ n, n + 1)%Z |> <| br_updated := now |>
  | None => MkBarrier run name BarrierStatus.OPEN 1 0 None now
  end.
Definition closed_barrier (now : Z) (bar : barrier_row) : barrier_row :=
  bar <| br_stat := if (br_drained bar =? br_produced bar)%Z then BarrierStatus.DRAINED else BarrierStatus.PRODUCED |>
      <| br_closed := Some now |> <| br_updated := now |>.

(** * Atomic steps *)

Section jstep.
Context `{Sha256}.

Inductive jstep (d : db) : db → Prop :=
| js_batch job b b' :
    batches d !! job = Some b → batch_step b b' →
    jstep d (d <| batches ::= <[job := b']> |>)
| js_lease ε secs job b :
    batches d !! job = Some b → claimable (clock ε) d b = true →
    jstep d (d <| batches ::= <[job := lease_batch ε secs b]> |>)
| js_fail job b b' status code now until :
    batches d !! job = Some b → batch_failure b b' status →
    jstep d (d <| batches ::= <[job := b']> |>
               <| runs ::= update_key (b_run_id b) (λ _, true) (fail_run status code now until) |>)
| js_ack now job b bars :
    batches d !! job = Some b → leased_or_reconciling b = true →
    (∀ run name, bars !! (run, name) =
       if String.eqb run (b_run_id b) && in_list name (b_produced_barriers_json b)
       then drained_once now <$> barriers d !! (run, name) else barriers d !! (run, name)) →
    (∀ name, name ∈ b_produced_barriers_json b → is_Some (barriers d !! (b_run_id b, name))) →
    jstep d (d <| batches ::= <[job := ack_row now b]> |>
               <| node_manifest ::= ack_manifest job now |> <| edge_manifest ::= ack_manifest job now |>
               <| barriers := bars |>)
| js_drained now until run r :
    runs d !! run = Some r → r_status r = RunStatus.DRAINING →
    unfinished run d = 0%Z → undrained run d = 0%Z →
    jstep d (d <| runs ::= <[run := r <| r_status := RunStatus.DRAINED |> <| r_updated_at := now |>
                                     <| r_retention_until := until |>]> |>)
| js_close_production now run r :
    runs d !! run = Some r → r_status r = RunStatus.OPEN →
    jstep d (d <| runs ::= <[run := r <| r_status := RunStatus.DRAINING |> <| r_updated_at := now |>]> |>)
| js_quarantine until now detail run r :
    runs d !! run = Some r → is_active (r_status r) = true →
    jstep d (quarantine_effect until now detail run d)
| js_open_run r :
    runs d !! r_run_id r = None → r_status r = RunStatus.OPEN →
    (∀ run r', runs d !! run = Some r' → r_fingerprint r' ≠ r_fingerprint r) →
    jstep d (d <| runs ::= <[r_run_id r := r]> |>)
| js_open_barrier now run name r :
    runs d !! run = Some r → r_status r = RunStatus.OPEN → barriers d !! (run, name) = None →
    jstep d (d <| barriers ::= <[(run, name) := MkBarrier run name BarrierStatus.OPEN 0 0 None now]> |>)
| js_close_barrier now run name r bar :
    runs d !! run = Some r → r_status r = RunStatus.OPEN → barriers d !! (run, name) = Some bar →
    br_stat bar ≠ BarrierStatus.DRAINED →
    jstep d (d <| barriers ::= <[(run, name) := closed_barrier now bar]> |>)
| js_enqueue now run job r spec d1 d2 bars :
    runs d !! run = Some r → r_status r = RunStatus.OPEN → batches d !! job = None →
    (0 < bs_max_attempts spec)%Z → production_complete run d = false →
    d1 = d <| batches ::= <[job := new_batch run job spec now]> |> <| artifacts := artifacts d1 |> →
    maybe_staged run job d1 d2 →
    (∀ run' name, bars !! (run', name) =
       if String.eqb run' run && in_list name (sorted_set (bs_produced_barriers spec))
       then Some (produced_once run name now (barriers d !! (run', name))) else barriers d !! (run', name)) →
    (∀ name bar, name ∈ sorted_set (bs_produced_barriers spec) → barriers d !! (run, name) = Some bar →
       br_stat bar = BarrierStatus.OPEN) →
    jstep d (d2 <| barriers := bars |>)
| js_enqueue_rejected now until run job r spec p failure d1 d2 :
    runs d !! run = Some r → r_status r = RunStatus.OPEN → batches d !! job = None →
    (0 < bs_max_attempts spec)%Z → production_complete run d = false → failure ≠ [] →
    d1 = d <| batches ::= <[job := new_batch run job spec now]> |> <| artifacts := artifacts d1 |> →
    staged run job p failure d1 d2 →
    jstep d (d2 <| batches ::= update_key job (λ _, true) (reject_batch failure now) |>
                <| runs ::= update_key run (λ _, true)
                     (fail_run RunStatus.BLOCKED TerminalErrorCode.INVALID_CONTRACT now until) |>)
| js_complete now run r :
    runs d !! run = Some r → r_status r = RunStatus.OPEN →
    (countM (invalid_row run) (node_manifest d) + countM (invalid_row run) (edge_manifest d) = 0)%Z →
    producer_completion d !! (run, _PRODUCERS_COMPLETE_ID) = None →
    jstep d (d <| producer_completion ::= (λ t,
      <[(run, _PRODUCERS_COMPLETE_ID) :=
          MkProducer run _PRODUCERS_COMPLETE_ID ProducerStatus.COMPLETE counters_zero (Some now) now]>
      (update_where (open_in_run run) (complete_row now) t)) |>)
| js_seal now run :
    _validate_endpoint_audit_boundary_locked run None d = Ok (conservation_summary run d) →
    endpoint_audit d !! run = None →
    jstep d (d <| endpoint_audit ::= <[run := MkAudit run EndpointAuditStatus.SEALED
               (endpoint_manifest_digest run d) (t_emitted (table_totals run (edge_manifest d))) now]> |>).

(** The one step that removes rows: a retained terminal run without an owner is
    deleted with everything that refers to it. *)
Inductive purge_step (d : db) : db → Prop :=
| ps_purge run r :
    runs d !! run = Some r → is_terminal_run (r_status r) = true →
    countM (λ b, b_in_run run b && owned b) (batches d) = 0%Z →
    purge_step d (delete_run run d).

(** What one operation may do: a sequence of atomic steps and events. *)
Inductive steps : db → db → Prop :=
| steps_refl d d' : d ≈ d' → steps d d'
| steps_step d d1 d2 d3 : steps d d1 → jstep d1 d2 → d2 ≈ d3 → steps d d3.

Lemma steps_trans d1 d2 d3 : steps d1 d2 → steps d2 d3 → steps d1 d3.
Proof.
  intros H1 H2. induction H2 as [d d' He|d d1' d2' d3' _ IH Hj He].
  - destruct H1; [|econstructor; [done..|]]; [constructor|]; by etrans.
  - by econstructor; [apply IH| |].
Qed.
Lemma steps_one d d1 d2 : jstep d d1 → d1 ≈ d2 → steps d d2.
Proof. intros. econstructor; [by apply steps_refl|done|done]. Qed.
Lemma steps_equiv_r d d1 d2 : steps d d1 → d1 ≈ d2 → steps d d2.
Proof. intros. eapply steps_trans; [done|by apply steps_refl]. Qed.
End jstep.

#[export] Hint Constructors batch_step batch_failure : journal.
