(* ===== verification/Invariant.v ===== *)
(** The row discipline of the journal: how each atomic step may change one
    batch or one run, the invariant every reachable database satisfies, and its
    preservation by every step and by the purge. *)
From S2P Require Import Prelude Json Models Identity Retry Db Manifest ArtifactApi Store Staging Transitions Boundary Admin Steps.

(** * Lookups after an update *)

Section updates.
Context `{Countable K} {V : Type}.
Lemma lookup_update_key (k k' : K) P (f : V → V) m :
  update_key k P f m !! k' =
    if decide (k = k') then (λ v, if P v then f v else v) <$> m !! k' else m !! k'.
Proof.
  unfold update_key. case_decide as Hk; [subst k'|]; destruct (m !! k) as [v|] eqn:E; simpl.
  - destruct (P v); [by rewrite lookup_insert_eq|done].
  - done.
  - destruct (P v); [by rewrite lookup_insert_ne|done].
  - done.
Qed.
Lemma lookup_update_where (k : K) P (f : V → V) m :
  update_where P f m !! k = (λ v, if P v then f v else v) <$> m !! k.
Proof. unfold update_where. by rewrite lookup_fmap. Qed.
Lemma update_key_some (k : K) P (f : V → V) m v :
  m !! k = Some v → P v = true → update_key k P f m = <[k := f v]> m.
Proof. intros Hk HP. unfold update_key. by rewrite Hk, HP. Qed.
Lemma update_key_none (k : K) P (f : V → V) m :
  (∀ v, m !! k = Some v → P v = false) → update_key k P f m = m.
Proof. intros HP. unfold update_key. destruct (m !! k) as [v|]; [by rewrite (HP v)|done]. Qed.
Lemma update_count_one (k : K) P (m : gmap K V) :
  (update_count k P m =? 1)%Z = true → ∃ v, m !! k = Some v ∧ P v = true.
Proof. unfold update_count. destruct (m !! k) as [v|]; [|done]. destruct (P v) eqn:?; eauto; done. Qed.
Lemma lookup_delete_where (k : K) P (m : gmap K V) v :
  delete_where P m !! k = Some v ↔ m !! k = Some v ∧ P v = false.
Proof. unfold delete_where. by rewrite map_lookup_filter_Some. Qed.

Lemma countM_insert P (m : gmap K V) k v v0 :
  m !! k = Some v0 → countM P (<[k:=v]> m) = (countM P m - Z.b2z (P v0) + Z.b2z (P v))%Z.
Proof. intros. unfold countM. by rewrite (sumM_insert _ _ _ _ v0). Qed.
Lemma countM_insert_fresh P (m : gmap K V) k v :
  m !! k = None → countM P (<[k:=v]> m) = (Z.b2z (P v) + countM P m)%Z.
Proof. intros. unfold countM. by rewrite sumM_insert_fresh. Qed.
Lemma countM_ext P Q (m : gmap K V) : (∀ k v, m !! k = Some v → P v = Q v) → countM P m = countM Q m.
Proof. intros Hext. apply sumM_ext. intros k v Hk. by rewrite (Hext k v). Qed.
Lemma countM_update_where P Q (f : V → V) (m : gmap K V) :
  (∀ k v, m !! k = Some v → Q v = true → P (f v) = P v) → countM P (update_where Q f m) = countM P m.
Proof.
  intros Hf. unfold countM, update_where. rewrite sumM_fmap. apply sumM_ext.
  intros k v Hk. destruct (Q v) eqn:HQ; [by rewrite (Hf k v)|done].
Qed.
Lemma countM_delete_where P Q (m : gmap K V) :
  (∀ k v, m !! k = Some v → Q v = true → P v = false) → countM P (delete_where Q m) = countM P m.
Proof.
  intros HPQ. unfold countM, delete_where. apply sumM_filter. intros k v Hk HQ.
  rewrite (HPQ k v Hk); [done|]. simpl in HQ. by destruct (Q v).
Qed.
End updates.

Ltac run_cases :=
  repeat match goal with
  | |- context [decide (?a = ?b)] => destruct (decide (a = b)); subst
  | H : context [decide (?a = ?b)] |- _ => destruct (decide (a = b)); subst
  end.

(** Case analysis on an atomic step, with the names used below. *)
Ltac jstep_cases Hj := destruct Hj as
  [job0 b0 b1 Hb0 Hs|ε secs job0 b0 Hb0 Hc|job0 b0 b1 st code now until Hb0 Hf
  |now job0 b0 bars Hb0 Hl Hbars Hex|now until run0 r0 Hr0 Hs0 Hun Hud|now run0 r0 Hr0 Hs0
  |until now detail run0 r0 Hr0 Ha|r0 Hr0 Hs0 Hfp|now run0 name0 r0 Hr0 Hs0 Hbar0
  |now run0 name0 r0 bar0 Hr0 Hs0 Hbar0 Hnd
  |now run0 job0 r0 spec d1 d2 bars Hr0 Hs0 Hn0 Hm0 Hp0 Hd1 Hst Hbars Hop
  |now until run0 job0 r0 spec p failure d1 d2 Hr0 Hs0 Hn0 Hm0 Hp0 Hf Hd1 Hst
  |now run0 r0 Hr0 Hs0 Hinv Hnp|now run0 Hval Hnone].

Section moves.
Context `{Sha256}.

(** * How one step changes one batch *)

Inductive row_move (d : db) (b : batch_row) : batch_row → Prop :=
  | mv_same : row_move d b b
  | mv_step b' : batch_step b b' → row_move d b b'
  | mv_lease ε secs : claimable (clock ε) d b = true → row_move d b (lease_batch ε secs b)
  | mv_fail b' status : batch_failure b b' status → row_move d b b'
  | mv_ack now : leased_or_reconciling b = true → row_move d b (ack_row now b)
  | mv_quarantine now :
      b_is BatchStatus.DONE b = false → run_active d b = true → row_move d b (quarantine_batch now b).

Inductive row_new (run job : string) : batch_row → Prop :=
  | nw_enqueued spec now :
      (0 < bs_max_attempts spec)%Z → row_new run job (new_batch run job spec now)
  | nw_rejected spec now failure :
      (0 < bs_max_attempts spec)%Z → row_new run job (reject_batch failure now (new_batch run job spec now)).

Lemma jstep_row d d' job b :
  jstep d d' → batches d !! job = Some b → ∃ b', batches d' !! job = Some b' ∧ row_move d b b'.
Proof.
  intros Hj Hb. jstep_cases Hj; cbn;
    try (exists b; split; [done|constructor 1]).
  - rewrite lookup_insert. case_decide; [subst|]; simplify_eq; eexists; (split; [done|]); [by apply mv_step|constructor 1].
  - rewrite lookup_insert. case_decide; [subst|]; simplify_eq; eexists; (split; [done|]); [by apply mv_lease|constructor 1].
  - rewrite lookup_insert. case_decide; [subst|]; simplify_eq; eexists; (split; [done|]); [by eapply mv_fail|constructor 1].
  - rewrite lookup_insert. case_decide; [subst|]; simplify_eq; eexists; (split; [done|]); [by apply mv_ack|constructor 1].
  - rewrite lookup_update_where, Hb. simpl. eexists; split; [done|].
    destruct (b_in_run run0 b && negb (b_is BatchStatus.DONE b)) eqn:E; [|constructor 1]. bool_hyps.
    apply mv_quarantine; [done|]. unfold run_active. unfold b_in_run in *. bool_hyps. by subst; rewrite Hr0.
  - apply maybe_staged_frame in Hst as (_ & _ & -> & _).
    rewrite Hd1. cbn. rewrite lookup_insert_ne by congruence. exists b; split; [done|constructor 1].
  - apply staged_batches in Hst as ->. rewrite lookup_update_key.
    rewrite Hd1. cbn. rewrite lookup_insert_ne by congruence.
    case_decide; [subst; congruence|]. exists b; split; [done|constructor 1].
Qed.

Lemma jstep_new d d' job b' :
  jstep d d' → batches d !! job = None → batches d' !! job = Some b' →
  ∃ run r, runs d !! run = Some r ∧ r_status r = RunStatus.OPEN ∧ row_new run job b'.
Proof.
  intros Hj Hb. jstep_cases Hj; cbn; try congruence;
    try (rewrite lookup_insert_ne by congruence; congruence).
  - by rewrite lookup_update_where, Hb.
  - apply maybe_staged_frame in Hst as (_ & _ & -> & _).
    rewrite Hd1. cbn. rewrite lookup_insert. case_decide; [subst|congruence].
    intros [= <-]. exists run0, r0. split_and!; [done..|by constructor].
  - apply staged_batches in Hst as ->. rewrite lookup_update_key.
    rewrite Hd1. cbn. rewrite lookup_insert. case_decide; [subst|congruence].
    intros [= <-]. exists run0, r0. split_and!; [done..|by constructor].
Qed.

(** * How one step changes one run *)

Inductive run_move (d : db) (run : string) (r : run_row) : run_row → Prop :=
  | rm_same : run_move d run r r
  | rm_failed status code now until job b :
      status = RunStatus.BLOCKED ∨ status = RunStatus.DEAD_LETTERED →
      batches d !! job = Some b → b_run_id b = run → leased_or_reconciling b = true →
      run_move d run r (fail_run status code now until r)
  | rm_rejected code now until :
      r_status r = RunStatus.OPEN → run_move d run r (fail_run RunStatus.BLOCKED code now until r)
  | rm_drained now until :
      r_status r = RunStatus.DRAINING → unfinished run d = 0%Z → undrained run d = 0%Z →
      run_move d run r (r <| r_status := RunStatus.DRAINED |> <| r_updated_at := now |> <| r_retention_until := until |>)
  | rm_closed now :
      r_status r = RunStatus.OPEN →
      run_move d run r (r <| r_status := RunStatus.DRAINING |> <| r_updated_at := now |>)
  | rm_quarantined now until detail :
      is_active (r_status r) = true →
      run_move d run r (r <| r_status := RunStatus.QUARANTINED |> <| r_updated_at := now |>
         <| r_retention_until := until |> <| r_error_code := Some TerminalErrorCode.INCOMPATIBLE_SCHEMA |>
         <| r_error_detail := Some detail |>).

Lemma batch_failure_from b b' status : batch_failure b b' status →
  leased_or_reconciling b = true ∧ (status = RunStatus.BLOCKED ∨ status = RunStatus.DEAD_LETTERED).
Proof.
  unfold leased_or_reconciling.
  destruct 1 as [??? b Hl|???? b Hl|??? b Hr]; (split; [|tauto]); [done..|]. by rewrite Hr, orb_true_r.
Qed.

Lemma jstep_run d d' run r :
  jstep d d' → runs d !! run = Some r → ∃ r', runs d' !! run = Some r' ∧ run_move d run r r'.
Proof.
  intros Hj Hr. jstep_cases Hj; cbn; try (exists r; split; [done|constructor 1]).
  - rewrite lookup_update_key. case_decide; rewrite Hr; simpl; (eexists; split; [done|]); [|constructor 1].
    destruct (batch_failure_from _ _ _ Hf). by eapply rm_failed.
  - rewrite lookup_insert. case_decide; [subst|]; simplify_eq; (eexists; split; [done|]); [by apply rm_drained|constructor 1].
  - rewrite lookup_insert. case_decide; [subst|]; simplify_eq; (eexists; split; [done|]); [by apply rm_closed|constructor 1].
  - rewrite lookup_update_key. case_decide; [subst|]; rewrite Hr; simplify_eq/=; (eexists; split; [done|]); [by apply rm_quarantined|constructor 1].
  - rewrite lookup_insert_ne by congruence. exists r; split; [done|constructor 1].
  - apply maybe_staged_frame in Hst as (-> & _). rewrite Hd1. exists r; split; [done|constructor 1].
  - apply staged_runs in Hst as ->. rewrite lookup_update_key, Hd1. cbn.
    case_decide; [subst|]; rewrite Hr; simplify_eq/=; (eexists; split; [done|]); [by apply rm_rejected|constructor 1].
Qed.
Lemma jstep_run_new d d' run r' :
  jstep d d' → runs d !! run = None → runs d' !! run = Some r' →
  r_run_id r' = run ∧ r_status r' = RunStatus.OPEN ∧ batches d' = batches d ∧ barriers d' = barriers d
  ∧ (∀ k, manifest_table k d' = manifest_table k d).
Proof.
  intros Hj Hr. jstep_cases Hj; cbn; try congruence; try (rewrite lookup_insert_ne by congruence; congruence).
  - rewrite lookup_update_key, Hr. by case_decide.
  - rewrite lookup_update_key, Hr. by case_decide.
  - rewrite lookup_insert. case_decide; [|congruence]. intros [= <-]. by split_and!.
  - apply maybe_staged_frame in Hst as (-> & _). rewrite Hd1; cbn. congruence.
  - apply staged_runs in Hst as ->. rewrite lookup_update_key, Hd1. cbn. rewrite Hr. by case_decide.
Qed.
End moves.

(** * The discipline of one batch row *)

Definition attempts_ok (b : batch_row) : Prop :=
  match b_status b with
  | BatchStatus.PENDING => b_attempt b = 0
  | BatchStatus.RETRY_WAIT => 1 ≤ b_attempt b < b_max_attempts b
  | BatchStatus.LEASED | BatchStatus.RECONCILING | BatchStatus.DONE => 1 ≤ b_attempt b ≤ b_max_attempts b
  | BatchStatus.BLOCKED => 0 ≤ b_attempt b ≤ b_max_attempts b
  | BatchStatus.DEAD_LETTER => b_max_attempts b ≤ b_attempt b ≤ b_max_attempts b + 1
  end%Z.
(** Who may hold a fencing token; a token and a lease come and go together. *)
Definition fence_ok (b : batch_row) : Prop :=
  match b_status b with
  | BatchStatus.LEASED => is_Some (b_fencing_token b) ∧ is_Some (b_lease_until b)
  | BatchStatus.RECONCILING => is_Some (b_fencing_token b) ↔ is_Some (b_lease_until b)
  | _ => b_fencing_token b = None ∧ b_lease_until b = None
  end.
(** A row carries an error detail only if its manifests were rejected. *)
Definition rejected (b : batch_row) : bool := bool_decide (is_Some (b_error_detail b)).

Record row_ok (job : string) (b : batch_row) : Prop := {
  row_key : b_job_id b = job;
  row_produced : NoDup (b_produced_barriers_json b);
  row_max : (0 < b_max_attempts b)%Z;
  row_attempts : attempts_ok b;
  row_fence : fence_ok b;
  row_rejected : rejected b = true → b_status b = BatchStatus.BLOCKED;
}.

Lemma b_is_spec s b : b_is s b = true ↔ b_status b = s.
Proof. unfold b_is. apply bool_decide_eq_true. Qed.
Lemma b_is_false s b : b_is s b = false ↔ b_status b ≠ s.
Proof. unfold b_is. apply bool_decide_eq_false. Qed.
Lemma leased_or_reconciling_spec b :
  leased_or_reconciling b = true ↔ b_status b = BatchStatus.LEASED ∨ b_status b = BatchStatus.RECONCILING.
Proof. unfold leased_or_reconciling. by rewrite orb_true_iff, !b_is_spec. Qed.
Lemma owned_spec b : owned b = true ↔ is_Some (b_fencing_token b).
Proof. unfold owned. apply bool_decide_eq_true. Qed.

Lemma row_not_rejected job b : row_ok job b → b_status b ≠ BatchStatus.BLOCKED → rejected b = false.
Proof. intros Hok Hs. destruct (rejected b) eqn:E; [|done]. by apply (row_rejected _ _ Hok) in E. Qed.

Section row.
Context `{Sha256} (job : string).

Lemma not_rejected_None b : rejected b = false → b_error_detail b = None.
Proof. unfold rejected. intros Hr%bool_decide_eq_false. by apply eq_None_not_Some. Qed.

(** A move keeps the discipline if it keeps the fixed columns and its new
    status, counters and fence agree. *)
Lemma row_ok_intro b b' :
  row_ok job b → b_job_id b' = b_job_id b →
  b_produced_barriers_json b' = b_produced_barriers_json b → b_max_attempts b' = b_max_attempts b →
  attempts_ok b' → fence_ok b' → (rejected b' = true → b_status b' = BatchStatus.BLOCKED) → row_ok job b'.
Proof. intros [] Hk Hp Hm Ha Hf Hr; constructor; rewrite ?Hk, ?Hp, ?Hm; done. Qed.

Lemma live_row b : row_ok job b → leased_or_reconciling b = true →
  b_error_detail b = None ∧ (1 ≤ b_attempt b ≤ b_max_attempts b)%Z.
Proof.
  intros Hok Hl%leased_or_reconciling_spec. split.
  - apply not_rejected_None, (row_not_rejected job); [done|]. by destruct Hl as [-> | ->].
  - pose proof (row_attempts _ _ Hok) as Ha. unfold attempts_ok in Ha. by destruct Hl as [Hl|Hl]; rewrite Hl in Ha.
Qed.

(** Closes a move of a leased or reconciling row. *)
Ltac row_move Hok Hl :=
  destruct (live_row _ Hok Hl) as [Herr Hatt];
  apply (row_ok_intro _ _ Hok); try reflexivity;
  unfold attempts_ok, fence_ok, rejected; cbn; rewrite ?Herr; cbn;
  try lia; try done.

Lemma leased_live s b : b_is s b = true → s = BatchStatus.LEASED ∨ s = BatchStatus.RECONCILING →
  leased_or_reconciling b = true.
Proof. rewrite b_is_spec, leased_or_reconciling_spec. naive_solver. Qed.

Lemma batch_step_ok b b' : row_ok job b → batch_step b b' → row_ok job b'.
Proof.
  intros Hok Hs. pose proof (row_fence _ _ Hok) as Hf. unfold fence_ok in Hf.
  destruct Hs as [now b Hs|now b Hs|ε secs b Hs|now u b Hs|now code b Hs|now at_ cl code b Hs Hlt|now at_ code b Hs Hlt].
  - assert (leased_or_reconciling b = true) as Hl by (eapply leased_live; eauto). row_move Hok Hl.
  - assert (leased_or_reconciling b = true) as Hl by (eapply leased_live; eauto). apply b_is_spec in Hs.
    row_move Hok Hl; rewrite Hs; done.
  - unfold unowned_reconciling in Hs. bool_hyps.
    assert (leased_or_reconciling b = true) as Hl by (eapply leased_live; eauto). 
    match goal with Hx : b_is _ b = true |- _ => apply b_is_spec in Hx; rename Hx into Hs end.
    row_move Hok Hl; rewrite Hs; done.
  - assert (leased_or_reconciling b = true) as Hl by (eapply leased_live; eauto). apply b_is_spec in Hs.
    rewrite Hs in Hf. row_move Hok Hl; rewrite Hs; destruct Hf; eauto.
  - assert (leased_or_reconciling b = true) as Hl by (eapply leased_live; eauto). apply b_is_spec in Hs.
    rewrite Hs in Hf. row_move Hok Hl; tauto.
  - row_move Hok Hs.
  - assert (leased_or_reconciling b = true) as Hl by (eapply leased_live; eauto). row_move Hok Hl.
Qed.

Lemma batch_failure_ok b b' status : row_ok job b → batch_failure b b' status → row_ok job b'.
Proof.
  intros Hok Hf. destruct (batch_failure_from _ _ _ Hf) as [Hl _]. destruct Hf; row_move Hok Hl.
Qed.

Lemma row_move_ok d b b' :
  row_ok job b → (run_active d b = true → b_status b ≠ BatchStatus.DEAD_LETTER) → row_move d b b' → row_ok job b'.
Proof.
  intros Hok Hnd Hm. destruct Hm as [|b' Hs|ε secs Hc|b' st Hf|now Hl|now Hd Ha].
  - done.
  - by eapply batch_step_ok.
  - unfold claimable, executable in Hc. bool_hyps.
    match goal with Hx : b_is _ b || b_is _ b = true |- _ => rewrite orb_true_iff, !b_is_spec in Hx; rename Hx into Hs end.
    assert (b_error_detail b = None) as Herr.
    { apply not_rejected_None, (row_not_rejected job); [done|]. by destruct Hs as [-> | ->]. }
    pose proof (row_attempts _ _ Hok) as Hatt. pose proof (row_max _ _ Hok) as Hmx. unfold attempts_ok in Hatt.
    apply (row_ok_intro _ _ Hok); try reflexivity; unfold attempts_ok, fence_ok, rejected; cbn; rewrite ?Herr; cbn.
    + destruct Hs as [Hs|Hs]; rewrite Hs in Hatt; lia.
    + split; eauto.
    + done.
  - by eapply batch_failure_ok.
  - row_move Hok Hl.
  - pose proof (row_attempts _ _ Hok) as Hatt. pose proof (row_max _ _ Hok) as Hmx. unfold attempts_ok in Hatt.
    apply (row_ok_intro _ _ Hok); try reflexivity; unfold attempts_ok, fence_ok, rejected; cbn; try done.
    specialize (Hnd Ha). destruct (b_status b); try done; lia.
Qed.

Lemma row_new_ok run b : row_new run job b → row_ok job b.
Proof.
  destruct 1 as [spec now Hmax|spec now failure Hmax]; constructor; cbn; try done;
    try apply NoDup_sorted_set; unfold attempts_ok, fence_ok, rejected; cbn; try done; lia.
Qed.
End row.

(** * What a move keeps *)

(** The columns written once, by the insert. *)
Definition fixed_columns (b : batch_row) :=
  (b_job_id b, b_run_id b, b_phase b, b_operation_key b, b_sequence b, b_artifact_sha256 b,
   b_artifact_path b, b_payload_bytes b, b_row_count b, b_expected_count b, b_max_attempts b,
   b_required_barriers_json b, b_produced_barriers_json b, b_operation_json b, b_created_at b).
Definition terminal_batch (s : BatchStatus) : bool :=
  match s with BatchStatus.DONE | BatchStatus.BLOCKED | BatchStatus.DEAD_LETTER => true | _ => false end.
Definition failed_batch (s : BatchStatus) : bool :=
  match s with BatchStatus.BLOCKED | BatchStatus.DEAD_LETTER => true | _ => false end.

Section kept.
Context `{Sha256}.

Lemma row_move_fixed d b b' : row_move d b b' → fixed_columns b' = fixed_columns b.
Proof. destruct 1 as [|b' Hs| |b' st Hf| |]; [done|by destruct Hs|done|by destruct Hf|done..]. Qed.
Lemma row_move_run d b b' : row_move d b b' → b_run_id b' = b_run_id b.
Proof. intros Hf%row_move_fixed. unfold fixed_columns in Hf. congruence. Qed.

Lemma batch_step_from b b' : batch_step b b' → leased_or_reconciling b = true.
Proof.
  destruct 1 as [? b Hs|? b Hs|?? b Hs|?? b Hs|?? b Hs|???? b Hs|??? b Hs]; try done;
    unfold unowned_reconciling in *; bool_hyps; unfold leased_or_reconciling;
    rewrite ?Hs; rewrite ?orb_true_r; try done.
  match goal with Hx : b_is BatchStatus.RECONCILING _ = true |- _ => by rewrite Hx, orb_true_r end.
Qed.
Lemma batch_step_live b b' : batch_step b b' → terminal_batch (b_status b') = false.
Proof.
  destruct 1 as [? b Hs|? b Hs|?? b Hs|?? b Hs|?? b Hs|???? b Hs|??? b Hs]; cbn; try done;
    unfold unowned_reconciling in *; bool_hyps; rewrite ?b_is_spec in *;
    match goal with Hx : b_status _ = _ |- _ => by rewrite Hx end.
Qed.
Lemma batch_failure_failed b b' status : batch_failure b b' status → failed_batch (b_status b') = true.
Proof. by destruct 1. Qed.

(** Only an unfinished row moves, and a terminal one only into quarantine. *)
Lemma row_move_done d b b' : b_status b = BatchStatus.DONE → row_move d b b' → b' = b.
Proof.
  intros Hd Hm. destruct Hm as [|b' Hs|ε secs Hc|b' st Hf|now Hl|now Hnd Ha].
  - done.
  - apply batch_step_from in Hs. unfold leased_or_reconciling, b_is in Hs. by rewrite Hd in Hs.
  - unfold claimable, executable, b_is in Hc. by rewrite Hd in Hc.
  - apply batch_failure_from in Hf as [Hs _]. unfold leased_or_reconciling, b_is in Hs. by rewrite Hd in Hs.
  - unfold leased_or_reconciling, b_is in Hl. by rewrite Hd in Hl.
  - apply b_is_false in Hnd. congruence.
Qed.

Definition run_down (d : db) (run : string) : Prop :=
  ∀ r, runs d !! run = Some r → is_active (r_status r) = false ∧ r_status r ≠ RunStatus.DRAINED.

Lemma jstep_down d d' job b' :
  jstep d d' → batches d' !! job = Some b' → failed_batch (b_status b') = true →
  (batches d !! job = Some b') ∨ run_down d' (b_run_id b').
Proof.
  intros Hj Hb' Hbad. jstep_cases Hj; cbn in Hb'; try (by left);
    rewrite ?lookup_insert in Hb'; try (case_decide; [subst|by left]; simplify_eq).
  - apply batch_step_live in Hs. by destruct (b_status b').
  - right. intros r. cbn. rewrite lookup_update_key.
    assert (b_run_id b' = b_run_id b0) as -> by (destruct Hf; done).
    case_decide; [|done]. destruct (runs d !! b_run_id b0); [|done]. intros [= <-]. cbn.
    by destruct (batch_failure_from _ _ _ Hf) as [_ [-> | ->]].
  - rewrite lookup_update_where in Hb'. destruct (batches d !! job) as [b|] eqn:Hb; [|done]. simplify_eq/=.
    destruct (b_in_run run0 b && negb (b_is BatchStatus.DONE b)) eqn:E; [|by left].
    right. bool_hyps. unfold b_in_run in *. bool_hyps. subst. intros r. cbn.
    rewrite lookup_update_key. rewrite decide_True by done. rewrite Hr0. by intros [= <-].
  - apply maybe_staged_frame in Hst as (_ & _ & Hbs & _). rewrite Hbs, Hd1 in Hb'. cbn in Hb'.
    rewrite lookup_insert in Hb'. case_decide; [subst; simplify_eq|by left].
  - apply staged_batches in Hst as Hbs. apply staged_runs in Hst as Hrs.
    rewrite Hbs, Hd1, lookup_update_key in Hb'. cbn in Hb'. rewrite lookup_insert in Hb'.
    case_decide; [subst|]; rewrite ?decide_True in Hb' by done; simplify_eq/=; [|by left].
    right. intros r. cbn. rewrite lookup_update_key, decide_True, Hrs, Hd1 by done. cbn. rewrite Hr0.
    by intros [= <-].
Qed.
End kept.

(** * The invariant of rows and runs *)

(** What a run's status says of each of its batches. *)
Definition run_allows (s : RunStatus) (b : batch_row) : Prop :=
  (is_active s = true → failed_batch (b_status b) = false) ∧
  (s = RunStatus.DRAINED → b_status b = BatchStatus.DONE).

Record inv (d : db) : Prop := {
  inv_row job b : batches d !! job = Some b → row_ok job b;
  inv_run_key run r : runs d !! run = Some r → r_run_id r = run;
  inv_batch job b : batches d !! job = Some b →
    ∃ r, runs d !! b_run_id b = Some r ∧ run_allows (r_status r) b;
  inv_barrier run name bar : barriers d !! (run, name) = Some bar →
    br_run bar = run ∧ br_name bar = name ∧
    ∃ r, runs d !! run = Some r ∧ (r_status r = RunStatus.DRAINED → br_stat bar = BarrierStatus.DRAINED);
}.

Section preserved.
Context `{Sha256}.

Lemma run_move_active d run r r' :
  run_move d run r r' → is_active (r_status r') = true → is_active (r_status r) = true.
Proof. destruct 1 as [|???? ?? Hst| | |? Ho|]; try done; cbn; [by destruct Hst as [-> | ->]|by rewrite Ho]. Qed.
Lemma run_move_key d run r r' : run_move d run r r' → r_run_id r' = r_run_id r.
Proof. by destruct 1. Qed.

Lemma inv_not_dead d job b : inv d → batches d !! job = Some b → run_active d b = true →
  failed_batch (b_status b) = false.
Proof.
  intros Hi Hb Ha. destruct (inv_batch _ Hi _ _ Hb) as (r & Hr & [Hact _]).
  unfold run_active in Ha. rewrite Hr in Ha. by apply Hact.
Qed.

Lemma jstep_run_allows d d' job b' :
  inv d → jstep d d' → batches d' !! job = Some b' →
  ∃ r', runs d' !! b_run_id b' = Some r' ∧ run_allows (r_status r') b'.
Proof.
  intros Hi Hj Hb'. destruct (batches d !! job) as [b|] eqn:Hb.
  - destruct (jstep_row _ _ _ _ Hj Hb) as (b'' & Hb'' & Hm). simplify_eq.
    destruct (inv_batch _ Hi _ _ Hb) as (r & Hr & Hact & Hdr).
    destruct (jstep_run _ _ _ _ Hj Hr) as (r' & Hr' & Hrm).
    rewrite (row_move_run _ _ _ Hm). exists r'. split; [done|]. split.
    + intros Ha'. destruct (failed_batch (b_status b')) eqn:Hbad; [exfalso|done].
      destruct (jstep_down _ _ _ _ Hj Hb' Hbad) as [Heq|Hdown].
      * simplify_eq. rewrite Hact in Hbad; [done|]. by eapply run_move_active.
      * rewrite (row_move_run _ _ _ Hm) in Hdown. destruct (Hdown _ Hr'). congruence.
    + intros Hd'. enough (b_status b = BatchStatus.DONE) as Hd by (by rewrite (row_move_done _ _ _ Hd Hm)).
      destruct Hrm as [|????????|????| ?? Hdg Hun _| |]; cbn in Hd'; try done; [by apply Hdr|destruct_or!; congruence|].
      eapply countM_zero in Hun; [|exact Hb]. unfold b_in_run in Hun.
      rewrite String.eqb_refl in Hun. simpl in Hun. bool_hyps. by apply b_is_spec.
  - destruct (jstep_new _ _ _ _ Hj Hb Hb') as (run & r & Hr & Hopen & Hnew).
    assert (b_run_id b' = run) as Hrun by (by destruct Hnew). rewrite Hrun.
    destruct (jstep_run _ _ _ _ Hj Hr) as (r' & Hr' & Hrm). exists r'. split; [done|]. split.
    + intros Ha'. destruct (failed_batch (b_status b')) eqn:Hbad; [exfalso|done].
      destruct (jstep_down _ _ _ _ Hj Hb' Hbad) as [Heq|Hdown]; [congruence|].
      rewrite Hrun in Hdown. destruct (Hdown _ Hr'). congruence.
    + intros Hd'. exfalso. destruct Hrm; cbn in Hd'; try congruence. destruct_or!; congruence.
Qed.

(** ** Barriers *)

Inductive bar_move (d : db) (run name : string) (bar : barrier_row) : barrier_row → Prop :=
  | bm_same : bar_move d run name bar bar
  | bm_drained now job b :
      batches d !! job = Some b → leased_or_reconciling b = true → b_run_id b = run →
      name ∈ b_produced_barriers_json b → bar_move d run name bar (drained_once now bar)
  | bm_produced now :
      br_stat bar = BarrierStatus.OPEN → bar_move d run name bar (produced_once run name now (Some bar))
  | bm_closed now :
      br_stat bar ≠ BarrierStatus.DRAINED → bar_move d run name bar (closed_barrier now bar).

Lemma bar_move_drained d run name bar bar' :
  bar_move d run name bar bar' → br_stat bar = BarrierStatus.DRAINED → br_stat bar' = BarrierStatus.DRAINED.
Proof. destruct 1 as [|now job b|now Ho|now Hnd]; intros Hd; try congruence. cbn. by destruct (_ && _). Qed.
Lemma bar_move_key d run name bar bar' :
  bar_move d run name bar bar' → br_run bar' = br_run bar ∧ br_name bar' = br_name bar.
Proof. by destruct 1. Qed.

Lemma jstep_barrier d d' run name bar :
  jstep d d' → barriers d !! (run, name) = Some bar →
  ∃ bar', barriers d' !! (run, name) = Some bar' ∧ bar_move d run name bar bar'.
Proof.
  intros Hj Hb. jstep_cases Hj; cbn; try (exists bar; split; [done|constructor 1]).
  - rewrite Hbars, Hb. destruct (_ && _) eqn:E; (eexists; split; [done|]); [|constructor 1].
    apply andb_true_iff in E as [->%String.eqb_eq Hin%in_list_elem]. by eapply bm_drained.
  - rewrite lookup_insert_ne by congruence. exists bar; split; [done|constructor 1].
  - rewrite lookup_insert. case_decide; [|exists bar; split; [done|constructor 1]].
    simplify_eq. eexists; split; [done|]. by apply bm_closed.
  - rewrite Hbars, Hb. destruct (_ && _) eqn:E; (eexists; split; [done|]); [|constructor 1].
    apply andb_true_iff in E as [->%String.eqb_eq Hin%in_list_elem]. apply bm_produced. by eapply Hop.
  - apply staged_barriers in Hst as ->. rewrite Hd1. cbn. exists bar; split; [done|constructor 1].
Qed.

Lemma jstep_barrier_new d d' run name bar' :
  jstep d d' → barriers d !! (run, name) = None → barriers d' !! (run, name) = Some bar' →
  ∃ n now r, bar' = MkBarrier run name BarrierStatus.OPEN n 0 None now
    ∧ runs d !! run = Some r ∧ r_status r = RunStatus.OPEN.
Proof.
  intros Hj Hb. jstep_cases Hj; cbn; try congruence.
  - rewrite Hbars, Hb. by destruct (_ && _).
  - rewrite lookup_insert. case_decide; [|congruence]. intros [= <-]. simplify_eq. by exists 0%Z, now, r0.
  - rewrite lookup_insert_ne by congruence. congruence.
  - rewrite Hbars, Hb. destruct (_ && _) eqn:E; [|done].
    apply andb_true_iff in E as [->%String.eqb_eq _]. intros [= <-]. by exists 1%Z, now, r0.
  - apply staged_barriers in Hst as ->. rewrite Hd1. cbn. congruence.
Qed.

Lemma jstep_inv_barrier d d' run name bar' :
  inv d → jstep d d' → barriers d' !! (run, name) = Some bar' →
  br_run bar' = run ∧ br_name bar' = name ∧
  ∃ r, runs d' !! run = Some r ∧ (r_status r = RunStatus.DRAINED → br_stat bar' = BarrierStatus.DRAINED).
Proof.
  intros Hi Hj Hbar'. destruct (barriers d !! (run, name)) as [bar|] eqn:Hbar.
  - destruct (jstep_barrier _ _ _ _ _ Hj Hbar) as (bar'' & Hb & Hm). simplify_eq.
    destruct (inv_barrier _ Hi _ _ _ Hbar) as (Hk1 & Hk2 & r & Hr & Hd).
    destruct (bar_move_key _ _ _ _ _ Hm) as [-> ->]. split; [done|split; [done|]].
    destruct (jstep_run _ _ _ _ Hj Hr) as (r' & Hr' & Hrm). exists r'. split; [done|].
    intros Hd'. apply (bar_move_drained _ _ _ _ _ Hm).
    destruct Hrm as [|????????|????| ?? Hdg _ Hud| |]; cbn in Hd'; try done; [by apply Hd|destruct_or!; congruence|].
    eapply countM_zero in Hud; [|exact Hbar]. rewrite Hk1, String.eqb_refl in Hud. simpl in Hud. by bool_hyps.
  - destruct (jstep_barrier_new _ _ _ _ _ Hj Hbar Hbar') as (n & now & r & -> & Hr & Ho).
    split; [done|split; [done|]]. destruct (jstep_run _ _ _ _ Hj Hr) as (r' & Hr' & Hrm).
    exists r'. split; [done|]. intros Hd'. exfalso. destruct Hrm; cbn in Hd'; try congruence. destruct_or!; congruence.
Qed.

(** ** Every step preserves the invariant *)

Lemma jstep_inv d d' : inv d → jstep d d' → inv d'.
Proof.
  intros Hi Hj. split.
  - intros job b' Hb'. destruct (batches d !! job) as [b|] eqn:Hb.
    + destruct (jstep_row _ _ _ _ Hj Hb) as (b'' & Hb'' & Hm). simplify_eq.
      eapply row_move_ok; [by eapply inv_row| |exact Hm]. intros Ha Hdl.
      pose proof (inv_not_dead _ _ _ Hi Hb Ha) as Hnd. by rewrite Hdl in Hnd.
    + destruct (jstep_new _ _ _ _ Hj Hb Hb') as (run & r & _ & _ & Hnew). by eapply row_new_ok.
  - intros run r' Hr'. destruct (runs d !! run) as [r|] eqn:Hr.
    + destruct (jstep_run _ _ _ _ Hj Hr) as (r'' & Hr'' & Hm). simplify_eq.
      rewrite (run_move_key _ _ _ _ Hm). by eapply inv_run_key.
    + by destruct (jstep_run_new _ _ _ _ Hj Hr Hr').
  - intros job b' Hb'. by eapply jstep_run_allows.
  - intros run name bar Hbar. by eapply jstep_inv_barrier.
Qed.
Lemma purge_inv d d' : inv d → purge_step d d' → inv d'.
Proof.
  intros Hi [run r Hr Ht Hown]. split; cbn.
  - intros job b [Hb _]%lookup_delete_where. by eapply inv_row.
  - intros run' r' [_ Hr']%lookup_delete_Some. by eapply inv_run_key.
  - intros job b [Hb Hnr]%lookup_delete_where. unfold b_in_run in Hnr. bool_hyps.
    rewrite lookup_delete_ne by congruence. by eapply inv_batch.
  - intros run' name bar [Hb Hnr]%lookup_delete_where. bool_hyps.
    destruct (inv_barrier _ Hi _ _ _ Hb) as (Hk & Hn & Hrr). split; [done|split; [done|]].
    rewrite lookup_delete_ne by congruence. done.
Qed.
Lemma inv_equiv d d' : d ≈ d' → inv d → inv d'.
Proof.
  intros He [H1 H2 H3 H4].
  pose proof (batches_proper _ _ He) as Hb. pose proof (runs_proper _ _ He) as Hr.
  pose proof (barriers_proper _ _ He) as Hbar.
  split; rewrite <- ?Hb, <- ?Hr, <- ?Hbar; done.
Qed.
Lemma steps_inv d d' : inv d → steps d d' → inv d'.
Proof.
  intros Hi. induction 1 as [d d' He|d d1 d2 d3 _ IH Hj He]; [by eapply inv_equiv|].
  eapply inv_equiv; [done|]. by eapply jstep_inv; [apply IH|].
Qed.
Lemma empty_inv : inv empty_db.
Proof. split; intros *; cbn; by rewrite lookup_empty. Qed.
End preserved.

#[export] Hint Resolve empty_inv : journal.
