(* ===== verification/Refinement.v ===== *)
(** The store implements the abstract journal: started from a database that
    satisfies the invariant, every operation of [SQLiteJournal] performs a
    sequence of the atomic steps of [Steps.v], whatever it returns or raises. *)
From S2P Require Import Prelude Json PyValue Models Identity Retry Db Manifest ArtifactApi Store Staging Transitions Boundary Admin Steps Invariant.

Section refines.
Context `{Sha256}.

Definition refines {A} (o : op A) : Prop := ∀ d r d', inv d → o d = (r, d') → steps d d'.

Lemma transaction_refines {A} (body : M A) :
  (∀ d, inv d → wp body (λ _ d', steps d d') d) → refines (transaction body).
Proof.
  intros Hwp d r d' Hi Ht. destruct (transaction_wp _ _ _ _ _ (Hwp d Hi) Ht) as [(a & -> & Hs)|[_ ->]]; [done|].
  by apply steps_refl.
Qed.
Lemma guard_refines {A} cond e (o : op A) : refines o → refines (op_guard cond e o).
Proof.
  intros Ho d r d' Hi. unfold op_guard. destruct cond; [|by apply Ho].
  intros [= <- <-]. by apply steps_refl.
Qed.

(** * Rules for the pieces the operations share *)

Lemma wp_event run ty job cnt at_ el err now (Q : unit → db → Prop) d :
  (∀ d', d ≈ d' → Q tt d') → wp (_add_event run ty job cnt at_ el err now) Q d.
Proof. intros HQ. unfold _add_event. wp_step. apply HQ. by destruct d. Qed.
Lemma wp_fetch_batch job (Q : batch_row → db → Prop) d :
  (∀ b, batches d !! job = Some b → Q b d) → wp (fetch_batch job) Q d.
Proof. intros HQ. unfold fetch_batch. wp_steps. by apply HQ. Qed.
Lemma wp_fetch_run run (Q : run_row → db → Prop) d :
  (∀ r, runs d !! run = Some r → Q r d) → wp (fetch_run run) Q d.
Proof. intros HQ. unfold fetch_run. wp_steps. by apply HQ. Qed.
Lemma wp_fetch_barrier run name (Q : barrier_row → db → Prop) d :
  (∀ b, barriers d !! (run, name) = Some b → Q b d) → wp (fetch_barrier run name) Q d.
Proof. intros HQ. unfold fetch_barrier. wp_steps. by apply HQ. Qed.

Lemma batches_same f d : f (batches d) = batches d → d <| batches ::= f |> = d.
Proof. intros Hf. destruct d. unfold update_field. cbn in *. by rewrite Hf. Qed.
(** A guarded update of one batch row. *)
Lemma wp_update_batch job P f (Q : unit → db → Prop) d :
  (∀ b, batches d !! job = Some b → P b = true → Q tt (d <| batches ::= <[job := f b]> |>)) →
  ((∀ b, batches d !! job = Some b → P b = false) → Q tt d) →
  wp (update_batch job P f) Q d.
Proof.
  intros H1 H2. unfold update_batch. wp_step.
  destruct (batches d !! job) as [b|] eqn:Hb; [destruct (P b) eqn:HP|].
  - specialize (H1 b eq_refl HP).
    assert (d <| batches ::= update_key job P f |> = d <| batches ::= <[job:=f b]> |>) as ->; [|done].
    unfold update_field. cbn. by rewrite (update_key_some _ _ _ _ b).
  - rewrite batches_same; [apply H2; intros; by simplify_eq|].
    apply update_key_none. intros; by simplify_eq.
  - rewrite batches_same; [by apply H2|]. apply update_key_none. intros; by simplify_eq.
Qed.

Lemma steps_step_one d0 d d1 d2 : steps d0 d → jstep d d1 → d1 ≈ d2 → steps d0 d2.
Proof. intros. by econstructor. Qed.

(** ** Recovery *)

Lemma wp_recover_one d0 from f ev now b d :
  (∀ v, b_is from v = true → batch_step v (f v)) → steps d0 d →
  wp (recover_one from f ev now b) (λ _ d', steps d0 d') d.
Proof.
  intros Hf Hs. unfold recover_one. wp_step. apply wp_update_batch.
  - intros v Hv HP. apply wp_event. intros d' He. eapply steps_step_one; [done| |exact He].
    by eapply js_batch; [|apply Hf].
  - intros _. apply wp_event. intros d' He. by eapply steps_equiv_r.
Qed.
Lemma wp_recover_all d0 from f ev now bs d :
  (∀ v, b_is from v = true → batch_step v (f v)) → steps d0 d →
  wp (tx_for (recover_one from f ev now) bs) (λ _ d', steps d0 d') d.
Proof.
  intros Hf Hs. apply (wp_for_inv _ (λ d', steps d0 d')); [done|]. intros. by apply wp_recover_one.
Qed.
Lemma wp_recover_expired d0 now d (Q : Z → db → Prop) :
  steps d0 d → (∀ n d', steps d0 d' → Q n d') → wp (_recover_expired_leases_locked now) Q d.
Proof.
  intros Hs HQ. unfold _recover_expired_leases_locked. do 3 wp_step.
  eapply wp_mono; [apply wp_recover_all; [|exact Hs]; intros; by constructor|]. intros [] d1 Hs1.
  do 3 wp_step. eapply wp_mono; [apply wp_recover_all; [|exact Hs1]; intros; by constructor|].
  intros [] d2 Hs2. wp_step. by apply HQ.
Qed.
Lemma recover_expired_leases_refines ε : refines (recover_expired_leases ε).
Proof.
  apply transaction_refines. intros d Hi. apply (wp_recover_expired d); [by apply steps_refl|done].
Qed.
Lemma recover_run_leases_refines ε run : refines (recover_run_leases_as_ambiguous ε run).
Proof.
  apply transaction_refines. intros d Hi. do 3 wp_step.
  eapply wp_mono; [apply (wp_recover_all d); [intros; by constructor|by apply steps_refl]|]. intros [] d1 Hs1.
  do 3 wp_step. eapply wp_mono; [apply wp_recover_all; [|exact Hs1]; intros; by constructor|].
  intros [] d2 Hs2. by wp_step.
Qed.

(** ** Claims *)

Lemma wp_claim_row d0 ε job guard f ev b d :
  steps d0 d → batches d !! job = Some b →
  (guard b = true → jstep d (d <| batches ::= <[job := f b]> |>)) →
  wp (claim_row ε job guard f ev) (λ _ d', steps d0 d') d.
Proof.
  intros Hs Hb Hj. unfold claim_row. wp_step. wp_step. wp_step; [by wp_step|]. bool_hyps.
  wp_step. apply wp_update_batch.
  - intros b' Hb' HP. simplify_eq. wp_step. apply wp_fetch_batch. intros c _. wp_step. apply wp_event.
    intros d' He. wp_step. eapply steps_step_one; [done| |exact He]. by apply Hj.
  - intros _. wp_step. apply wp_fetch_batch. intros c _. wp_step. apply wp_event.
    intros d' He. wp_step. by eapply steps_equiv_r.
Qed.

(** What makes the fencing of an eligible row an atomic step. *)
Definition claim_steps (eligible : db → batch_row → bool) (f : batch_row → batch_row) : Prop :=
  ∀ d job b, batches d !! job = Some b → eligible d b = true → jstep d (d <| batches ::= <[job := f b]> |>).

Lemma claim_first_refines ε eligible run guard f ev :
  claim_steps eligible f → refines (transaction (claim_first ε eligible run guard f ev)).
Proof.
  intros Hc. apply transaction_refines. intros d Hi. unfold claim_first. wp_step.
  apply (wp_recover_expired d); [by apply steps_refl|]. intros _ d1 Hs. wp_step. wp_step.
  destruct (head _) as [row|] eqn:Hh; [|by wp_step].
  apply head_order_by in Hh as [[Hel [k Hk]]%elem_of_select _]. bool_hyps.
  pose proof (steps_inv _ _ Hi Hs) as Hi1. pose proof (row_key _ _ (inv_row _ Hi1 _ _ Hk)) as Hkey. subst k.
  eapply wp_claim_row; [done..|]. intros _. by apply Hc.
Qed.
Lemma claim_exact_refines ε eligible job guard f ev :
  claim_steps eligible f → refines (transaction (claim_exact ε eligible job guard f ev)).
Proof.
  intros Hc. apply transaction_refines. intros d Hi. unfold claim_exact. wp_step.
  apply (wp_recover_expired d); [by apply steps_refl|]. intros _ d1 Hs. wp_step. wp_step.
  destruct (batches d1 !! job) as [row|] eqn:Hb; [|by wp_step].
  destruct (eligible d1 row) eqn:He; [|by wp_step].
  eapply wp_claim_row; [done..|]. intros _. by apply Hc.
Qed.
Lemma lease_claim_steps ε secs : claim_steps (claimable (clock ε)) (lease_batch ε secs).
Proof. intros d job b Hb Hc. by apply js_lease. Qed.
Lemma fence_claim_steps ε secs : claim_steps (reconcilable (clock ε)) (fence_batch ε secs).
Proof.
  intros d job b Hb Hc. eapply js_batch; [done|]. constructor. unfold reconcilable in Hc. bool_hyps.
  unfold unowned_reconciling. apply andb_true_iff. split; [done|]. by apply negb_true_iff.
Qed.
Lemma claim_batch_refines ε run secs : refines (claim_batch ε run secs).
Proof. apply guard_refines, claim_first_refines, lease_claim_steps. Qed.
Lemma claim_job_refines ε job secs : refines (claim_job ε job secs).
Proof. apply guard_refines, claim_exact_refines, lease_claim_steps. Qed.
Lemma claim_reconciling_refines ε run secs : refines (claim_reconciling ε run secs).
Proof. apply guard_refines, claim_first_refines, fence_claim_steps. Qed.
Lemma claim_reconciling_job_refines ε job secs : refines (claim_reconciling_job ε job secs).
Proof. apply guard_refines, claim_exact_refines, fence_claim_steps. Qed.

(** ** Fenced transitions *)

Lemma wp_owned_transition job token now (Q : batch_row → db → Prop) d :
  (∀ b, batches d !! job = Some b → leased_or_reconciling b = true → holds_fence token now b = true → Q b d) →
  wp (_owned_transition job token now) Q d.
Proof.
  intros HQ. unfold _owned_transition. wp_step. wp_step. wp_step; [|wp_step]. wp_step; [|wp_step]. bool_hyps.
  wp_step. by apply HQ.
Qed.
Lemma wp_owned_lease job token now (Q : batch_row → db → Prop) d :
  (∀ b, batches d !! job = Some b → b_is BatchStatus.LEASED b = true → holds_fence token now b = true → Q b d) →
  wp (_owned_lease job token now) Q d.
Proof.
  intros HQ. unfold _owned_lease. wp_step. wp_step. wp_step; [|wp_step]. wp_step; [|wp_step]. bool_hyps.
  wp_step. by apply HQ.
Qed.
Lemma holds_fence_token token now b : holds_fence token now b = true → has_token token b = true.
Proof. unfold holds_fence, has_token. intros. by bool_hyps. Qed.

Lemma renew_lease_refines ε job token secs : refines (renew_lease ε job token secs).
Proof.
  apply guard_refines, transaction_refines. intros d Hi. do 4 wp_step. bool_hyps. wp_step.
  apply wp_update_batch; [|intros _; wp_step; apply wp_fetch_batch; intros; wp_step; by apply steps_refl].
  intros b Hb HP. wp_step. apply wp_fetch_batch. intros. wp_step. bool_hyps.
  eapply steps_one; [|done]. eapply js_batch; [done|]. by apply bst_renew.
Qed.
Lemma mark_reconciling_refines ε job token code : refines (mark_reconciling ε job token code).
Proof.
  apply transaction_refines. intros d Hi. wp_step. apply wp_owned_lease. intros b Hb Hl Hf. wp_step.
  apply wp_update_batch.
  - intros b' Hb' HP. simplify_eq. wp_step. apply wp_event. intros d' He. wp_step. apply wp_fetch_batch. intros. wp_step.
    eapply steps_one; [|exact He]. eapply js_batch; [done|]. by apply bst_ambiguous.
  - intros Hn. pose proof (Hn _ Hb) as HP. rewrite Hl, (holds_fence_token _ _ _ Hf) in HP. by simpl in HP.
Qed.

Lemma equiv_runs f d d' : d ≈ d' → d <| runs ::= f |> ≈ d' <| runs ::= f |>.
Proof. destruct d, d'. unfold db_equiv, forget, update_field. cbn. intros He. injection He; intros; by subst. Qed.
Lemma equiv_batches f d d' : d ≈ d' → d <| batches ::= f |> ≈ d' <| batches ::= f |>.
Proof. destruct d, d'. unfold db_equiv, forget, update_field. cbn. intros He. injection He; intros; by subst. Qed.
Lemma equiv_barriers f d d' : d ≈ d' → d <| barriers ::= f |> ≈ d' <| barriers ::= f |>.
Proof. destruct d, d'. unfold db_equiv, forget, update_field. cbn. intros He. injection He; intros; by subst. Qed.

Lemma wp_set_run_error limits run status code now (Q : unit → db → Prop) d :
  Q tt (d <| runs ::= update_key run (λ _, true) (fail_run status code now (retention_from limits now)) |>) →
  wp (_set_run_error_locked limits run status code now) Q d.
Proof. intros HQ. unfold _set_run_error_locked. by wp_step. Qed.

(** The tail of a transition that may fail its run. *)
Lemma wp_end_transition limits b b' job status code now fails err at_ el cnt ev d1 d0 :
  batches d0 !! job = Some b → d1 = d0 <| batches ::= <[job := b']> |> →
  (fails = true → batch_failure b b' status) → (fails = false → batch_step b b') →
  wp (_ ← _add_event (b_run_id b) ev (Some job) cnt at_ el err now;
      _ ← (if fails then _set_run_error_locked limits (b_run_id b) status code now else mret () : M unit);
      updated ← fetch_batch job;
      mret (_batch_from_row updated)) (λ _ d', steps d0 d') d1.
Proof.
  intros Hb -> Hf Hs. wp_step. apply wp_event. intros d2 He. wp_step. destruct fails.
  - apply wp_set_run_error. wp_step. apply wp_fetch_batch. intros. wp_step.
    eapply steps_one; [|apply equiv_runs; exact He]. by eapply js_fail; [|apply Hf].
  - wp_step. wp_step. apply wp_fetch_batch. intros. wp_step. eapply steps_one; [|exact He].
    by eapply js_batch; [|apply Hs].
Qed.

Lemma schedule_retry_refines limits ε job token at_ class code :
  refines (schedule_retry limits ε job token at_ class code).
Proof.
  apply transaction_refines. intros d Hi. wp_step. apply wp_owned_transition. intros b Hb Hl Hf.
  cbv zeta. wp_step.
  apply wp_update_batch.
  - intros b' Hb' HP. simplify_eq. eapply wp_end_transition; [done|reflexivity|..].
    + intros Hx. rewrite Hx. apply bf_exhausted; [done|]. by bool_hyps.
    + intros Hx. rewrite Hx. apply bst_retry; [done|]. by bool_hyps.
  - intros Hn. pose proof (Hn _ Hb) as HP. rewrite Hl, (holds_fence_token _ _ _ Hf) in HP. by simpl in HP.
Qed.
Lemma schedule_reconciliation_retry_refines limits ε job token at_ code :
  refines (schedule_reconciliation_retry limits ε job token at_ code).
Proof.
  apply transaction_refines. intros d Hi. wp_step. apply wp_owned_transition. intros b Hb Hl Hf.
  do 2 wp_step. bool_hyps. cbv zeta. wp_step. apply wp_update_batch.
  - intros b' Hb' HP. simplify_eq. eapply wp_end_transition; [done|reflexivity|..].
    + intros Hx. rewrite Hx. apply bf_exhausted_backoff; [done|]. by bool_hyps.
    + intros Hx. rewrite Hx. apply bst_backoff; [done|]. by bool_hyps.
  - intros Hn. pose proof (Hn _ Hb) as HP. rewrite (holds_fence_token _ _ _ Hf) in HP. simpl in HP. congruence.
Qed.
Lemma block_batch_refines limits ε job token class code : refines (block_batch limits ε job token class code).
Proof.
  apply transaction_refines. intros d Hi. wp_step. apply wp_owned_transition. intros b Hb Hl Hf.
  cbv zeta. wp_step.
  apply wp_update_batch.
  - intros b' Hb' HP. simplify_eq.
    eapply (wp_end_transition limits b _ job RunStatus.BLOCKED code (clock ε) true); [done|reflexivity| |done].
    intros _. by constructor.
  - intros Hn. pose proof (Hn _ Hb) as HP. rewrite Hl, (holds_fence_token _ _ _ Hf) in HP. by simpl in HP.
Qed.
End refines.
