(* ===== verification/RefinementRuns.v ===== *)
(** The refinement of the remaining operations of [SQLiteJournal]: those that
    touch barriers, runs, manifests and audits, and the whole-journal call. *)
From S2P Require Import Prelude Json PyValue Models Identity Retry Db Manifest ArtifactApi Store Staging Transitions Boundary Admin Steps Invariant Refinement.

Section refines.
Context `{Sha256}.

(** * Barrier loops *)

(** A loop whose body rewrites one barrier of the run per name rewrites exactly
    those barriers, each once. *)
Lemma wp_for_barriers run (body : string → M unit) (g : string → option barrier_row → option barrier_row)
    (pre : string → option barrier_row → Prop) xs d :
  NoDup xs →
  (∀ name s, (∀ bar, barriers s !! (run, name) = Some bar → br_run bar = run ∧ br_name bar = name) →
     wp (body name) (λ _ s', pre name (barriers s !! (run, name)) ∧
       s' ≈ s <| barriers ::= partial_alter (g name) (run, name) |>) s) →
  (∀ name bar, name ∈ xs → barriers d !! (run, name) = Some bar → br_run bar = run ∧ br_name bar = name) →
  wp (tx_for body xs) (λ _ s', ∃ bars, s' ≈ d <| barriers := bars |> ∧
    (∀ name, name ∈ xs → pre name (barriers d !! (run, name))) ∧
    ∀ r n, bars !! (r, n) = if String.eqb r run && in_list n xs then g n (barriers d !! (r, n)) else barriers d !! (r, n)) d.
Proof.
  intros Hnd Hbody. revert d. induction Hnd as [|x xs Hx Hnd IH]; intros d Hk.
  - apply wp_ret. exists (barriers d). split; [by destruct d|]. split; [by intros ? ?%not_elem_of_nil|].
    intros r n. by rewrite andb_false_r.
  - unfold tx_for; fold (tx_for body). apply wp_bind.
    eapply wp_mono; [apply Hbody; intros bar; apply Hk; by left|]. intros [] d1 [Hpre He].
    assert (∀ r n, barriers d1 !! (r, n) =
      if String.eqb r run && String.eqb n x then g x (barriers d !! (r, n)) else barriers d !! (r, n)) as Hl.
    { intros r n. rewrite (barriers_proper _ _ He). cbn.
      destruct (String.eqb_spec r run) as [->|]; [destruct (String.eqb_spec n x) as [->|]|]; simpl.
      - by rewrite lookup_partial_alter_eq.
      - by rewrite lookup_partial_alter_ne by congruence.
      - by rewrite lookup_partial_alter_ne by congruence. }
    eapply wp_mono; [apply IH|].
    { intros name bar Hin. rewrite Hl. destruct (String.eqb_spec name x) as [->|_]; [done|].
      rewrite andb_false_r. apply Hk. by right. }
    intros [] d2 (bars & He2 & Hpre2 & Hb2). exists bars. split; [|split].
    + rewrite He2. unfold db_equiv, forget, update_field in He |- *. cbn in He |- *.
      injection He; intros; congruence.
    + intros name Hin%elem_of_cons. destruct Hin as [Heq|Hin]; [by rewrite Heq|].
      specialize (Hpre2 _ Hin). rewrite Hl in Hpre2.
      destruct (String.eqb_spec name x) as [Heq|_]; [by rewrite Heq|]. by rewrite andb_false_r in Hpre2.
    + intros r n. rewrite Hb2, Hl. destruct (String.eqb r run); simpl; [|done].
      change (in_list n (x :: xs)) with (String.eqb n x || in_list n xs).
      destruct (String.eqb_spec n x) as [->|_]; simpl; [|done].
      destruct (in_list x xs) eqn:Hin; [|done]. by apply in_list_elem in Hin.
Qed.
Lemma wp_put_barrier bar (Q : unit → db → Prop) d :
  Q tt (d <| barriers ::= <[(br_run bar, br_name bar) := bar]> |>) → wp (put_barrier bar) Q d.
Proof. intros HQ. unfold put_barrier. by wp_steps. Qed.

(** [drain_barrier] and [produce_barrier] are such bodies. *)
Lemma wp_drain_barrier run now name d :
  (∀ bar, barriers d !! (run, name) = Some bar → br_run bar = run ∧ br_name bar = name) →
  wp (drain_barrier run now name) (λ _ d', is_Some (barriers d !! (run, name)) ∧
    d' ≈ d <| barriers ::= partial_alter (λ o, drained_once now <$> o) (run, name) |>) d.
Proof.
  intros Hk. unfold drain_barrier. wp_step. wp_step. destruct (barriers d !! (run, name)) as [bar|] eqn:Hb; [|wp_step].
  destruct (Hk _ eq_refl) as [Hr Hn]. cbv zeta. wp_step. apply wp_put_barrier. cbn. rewrite Hr, Hn.
  match goal with |- wp _ _ (?d1) => assert (d1 ≈ d <| barriers ::= partial_alter (λ o, drained_once now <$> o) (run, name) |>) as He end.
  { unfold update_field. cbn. replace (partial_alter (λ o, drained_once now <$> o) (run, name) (barriers d))
      with (<[(run, name) := drained_once now bar]> (barriers d)); [done|].
    apply map_eq. intros key. destruct (decide (key = (run, name))) as [->|].
    - by rewrite lookup_insert_eq, lookup_partial_alter_eq, Hb.
    - by rewrite lookup_insert_ne, lookup_partial_alter_ne. }
  wp_step; try (wp_step; split; [done|exact He]).
  apply wp_event. intros d' He'. split; [done|]. rewrite <- He'. exact He.
Qed.
Lemma wp_produce_barrier run now name d :
  (∀ bar, barriers d !! (run, name) = Some bar → br_run bar = run ∧ br_name bar = name) →
  wp (produce_barrier run now name) (λ _ d',
    (∀ bar, barriers d !! (run, name) = Some bar → br_stat bar = BarrierStatus.OPEN) ∧
    d' ≈ d <| barriers ::= partial_alter (λ o, Some (produced_once run name now o)) (run, name) |>) d.
Proof.
  intros Hk. unfold produce_barrier. wp_step. wp_step.
  assert (∀ bar, produced_once run name now (barriers d !! (run, name)) = bar →
    d <| barriers ::= <[(run, name) := bar]> |>
    = d <| barriers ::= partial_alter (λ o, Some (produced_once run name now o)) (run, name) |>) as Heq.
  { intros bar <-. unfold update_field. cbn. f_equal. apply map_eq. intros key.
    destruct (decide (key = (run, name))) as [->|].
    - by rewrite lookup_insert_eq, lookup_partial_alter_eq.
    - by rewrite lookup_insert_ne, lookup_partial_alter_ne. }
  destruct (barriers d !! (run, name)) as [bar|] eqn:Hb.
  - destruct (Hk _ eq_refl) as [Hr Hn]. wp_step; [|wp_step]. bool_hyps.
    apply wp_put_barrier. cbn. rewrite Hr, Hn. split; [by intros ? [= <-]|]. by erewrite Heq.
  - apply wp_put_barrier. cbn. split; [done|]. by erewrite Heq.
Qed.

(** * Acknowledgement *)

Lemma run_status_is_spec s run d :
  run_status_is s run d = true ↔ ∃ r, runs d !! run = Some r ∧ r_status r = s.
Proof.
  unfold run_status_is. destruct (runs d !! run) as [r|]; [|split; [done|by intros (? & ? & _)]].
  rewrite bool_decide_eq_true. split; [eauto|]. intros (? & ? & ?). by simplify_eq.
Qed.
Lemma runs_update d run f r : runs d !! run = Some r →
  d <| runs ::= update_key run (λ _, true) f |> = d <| runs ::= <[run := f r]> |>.
Proof. intros Hr. unfold update_field. cbn. by rewrite (update_key_some _ _ _ _ r). Qed.

Lemma wp_refresh limits run now d0 (Q : unit → db → Prop) d :
  steps d0 d → (∀ d', steps d0 d' → Q tt d') → wp (_refresh_run_status_locked limits run now) Q d.
Proof.
  intros Hs HQ. unfold _refresh_run_status_locked. wp_step. wp_step. wp_step; [wp_step; by apply HQ|].
  wp_step; [|wp_step; by apply HQ]. bool_hyps.
  match goal with Hx : run_status_is _ _ _ = true |- _ => apply run_status_is_spec in Hx as (r & Hr & Hst) end.
  do 2 wp_step. apply wp_event. intros d' He. apply HQ. erewrite runs_update in He by done.
  eapply steps_step_one; [done| |exact He]. by apply js_drained.
Qed.

Lemma ack_batch_refines limits ε job token el : refines (ack_batch limits ε job token el).
Proof.
  apply transaction_refines. intros d Hi. unfold ack_batch_locked. wp_step.
  apply wp_owned_transition. intros b Hb Hl Hf. wp_step. apply wp_update_batch.
  2: { intros Hn. pose proof (Hn _ Hb) as HP. rewrite Hl, (holds_fence_token _ _ _ Hf) in HP. by simpl in HP. }
  intros b' Hb' _. simplify_eq. do 3 wp_step.
  match goal with |- wp _ _ ?x => set (dB := x) end.
  eapply wp_mono.
  { apply (wp_for_barriers (b_run_id b) _ (λ _ o, drained_once (clock ε) <$> o) (λ _ o, is_Some o)).
    - by apply (row_produced job), inv_row with d.
    - intros name s Hk. by apply wp_drain_barrier.
    - intros name bar _ Hbar. cbn in Hbar. by destruct (inv_barrier _ Hi _ _ _ Hbar) as (? & ? & _). }
  intros [] d2 (bars & He2 & Hpre & Hbars). cbn in Hpre, Hbars. wp_step. apply wp_event. intros d3 He3.
  wp_step. apply (wp_refresh _ _ _ d).
  { eapply steps_one; [|etrans; [symmetry; exact He2|exact He3]]. by apply (js_ack _ (clock ε) job b bars). }
  intros d4 Hs4. wp_step. apply wp_fetch_batch. intros. by wp_step.
Qed.

Lemma close_run_production_refines limits ε run : refines (close_run_production limits ε run).
Proof.
  apply transaction_refines. intros d Hi. do 3 wp_step.
  destruct (run_status_is RunStatus.OPEN run d) eqn:Ho.
  - apply run_status_is_spec in Ho as (r & Hr & Ho). wp_step. wp_step. erewrite runs_update by done.
    apply (wp_refresh _ _ _ d).
    { eapply steps_one; [|done]. by apply js_close_production. }
    intros d' Hs. wp_step. apply wp_fetch_run. intros. by wp_step.
  - wp_step. wp_step. apply (wp_refresh _ _ _ d); [by apply steps_refl|].
    intros d' Hs. wp_step. apply wp_fetch_run. intros. by wp_step.
Qed.

(** * Runs *)

Lemma wp_quarantine limits d0 now detail run r d :
  runs d !! run = Some r → is_active (r_status r) = true → steps d0 d →
  wp (quarantine_locked limits now detail run) (λ _ d', steps d0 d' ∧
    ∀ run', run' ≠ run → runs d' !! run' = runs d !! run') d.
Proof.
  intros Hr Ha Hs. unfold quarantine_locked. do 2 wp_step. wp_step. apply wp_event. intros d1 He. wp_step.
  split.
  - eapply steps_step_one; [done| |].
    + by apply (js_quarantine _ (retention_from limits now) now detail run r).
    + unfold quarantine_effect. by apply equiv_batches.
  - intros run' Hne. cbn. rewrite <- (runs_proper _ _ He). cbn. rewrite lookup_update_key. by rewrite decide_False.
Qed.

Lemma NoDup_select_key {V} P (g : V → string) (m : gmap string V) :
  (∀ k v, m !! k = Some v → g v = k) → NoDup (map g (select P m)).
Proof.
  intros Hg. unfold select, rows.
  assert (∀ l, (∀ k v, (k, v) ∈ l → m !! k = Some v) → NoDup (l.*1) → NoDup (map g (List.filter P l.*2))) as Hl.
  { induction l as [|[k v] l IH]; intros Hin Hnd; [constructor|]. inversion Hnd as [|?? Hk Hnd']; subst. simpl.
    assert (NoDup (map g (List.filter P l.*2))) as Hrec by (apply IH; [intros; apply Hin; by right|done]).
    destruct (P v); [|done]. simpl. constructor; [|done]. rewrite (Hg k v) by (apply Hin; by left).
    intros (v' & Hv' & Hf)%list_elem_of_fmap. apply list_elem_of_In, filter_In in Hf as [Hf _].
    apply list_elem_of_In, list_elem_of_fmap in Hf as ([k' w] & -> & Hkw). simpl in Hv'.
    rewrite (Hg k' w) in Hv' by (apply Hin; by right). subst k'. apply Hk.
    apply list_elem_of_fmap. by exists (k, w). }
  apply Hl; [intros k v; by rewrite elem_of_map_to_list|apply NoDup_fst_map_to_list].
Qed.
Lemma wp_quarantine_all limits d0 now detail xs d :
  NoDup xs → (∀ run, run ∈ xs → ∃ r, runs d !! run = Some r ∧ is_active (r_status r) = true) → steps d0 d →
  wp (tx_for (quarantine_locked limits now detail) xs) (λ _ d', steps d0 d') d.
Proof.
  intros Hnd Hact Hs.
  eapply wp_mono; [apply (wp_for _ (λ xs d', NoDup xs ∧ steps d0 d' ∧
    ∀ run, run ∈ xs → ∃ r, runs d' !! run = Some r ∧ is_active (r_status r) = true))|].
  - done.
  - intros x xs' s (Hnd' & Hs' & Ha). inversion Hnd' as [|?? Hx Hnd'']; subst.
    destruct (Ha x) as (r & Hr & Hra); [by left|].
    eapply wp_mono; [by eapply wp_quarantine|]. intros [] s' [Hs1 Hfr]. split; [done|split; [done|]].
    intros run Hin. destruct (Ha run) as (r' & Hr' & Hra'); [by right|]. exists r'.
    rewrite Hfr; [done|]. by intros ->.
  - by intros [] d' (_ & ? & _).
Qed.
Lemma select_runs_active P d run :
  inv d → (∀ r, P r = true → is_active (r_status r) = true) → run ∈ map r_run_id (select P (runs d)) →
  ∃ r, runs d !! run = Some r ∧ is_active (r_status r) = true.
Proof.
  intros Hi HP (r & -> & [Hr [k Hk]]%elem_of_select)%list_elem_of_fmap.
  rewrite (inv_run_key _ Hi _ _ Hk). eauto.
Qed.

Lemma open_run_refines limits ε m n k : refines (open_run limits ε m n k).
Proof.
  intros d r d' Hi. unfold open_run. destruct (_admit _ _ _ _); [|intros [= _ <-]; by apply steps_refl].
  revert r d' Hi. apply (transaction_refines (open_run_locked limits m (clock ε))). clear. intros d Hi.
  unfold open_run_locked. wp_step. wp_step.
  destruct (runs d !! run_id m) as [existing|] eqn:Hr.
  - do 5 wp_step. apply wp_event. intros d' He. wp_step. by apply steps_refl.
  - cbv zeta. wp_step. eapply wp_mono; [apply (wp_quarantine_all limits d)|].
    + apply NoDup_select_key. by apply inv_run_key.
    + intros run. apply select_runs_active; [done|]. unfold same_target. intros. by bool_hyps.
    + by apply steps_refl.
    + intros [] d1 Hs. wp_step. unfold insert_run. do 6 wp_step. wp_step. wp_step. apply wp_event. intros d2 He.
      wp_step. apply wp_fetch_run. intros. wp_step. eapply steps_step_one; [done| |exact He].
      apply (js_open_run _ (new_run limits m (clock ε))); [|done|].
      * unfold run_exists in *. bool_hyps. by apply eq_None_not_Some.
      * intros run r' Hr' Hfp. 
        match goal with Hx : exists_row _ _ = false |- _ => rewrite exists_row_false in Hx; specialize (Hx _ _ Hr') end.
        bool_hyps. done.
Qed.
Lemma quarantine_legacy_targets_refines limits ε m ts : refines (quarantine_legacy_targets limits ε m ts).
Proof.
  unfold quarantine_legacy_targets. intros d r d' Hi. cbv zeta.
  destruct (legacy_targets m ts) as [|t targets]; [intros [= _ <-]; by apply steps_refl|].
  revert r d' Hi. match goal with |- ∀ r d', _ → transaction ?b _ = _ → _ => apply (transaction_refines b) end.
  clear d. intros d Hi. wp_step. wp_step. cbv zeta. wp_step.
  eapply wp_mono; [apply (wp_quarantine_all limits d)|].
  - apply NoDup_select_key. by apply inv_run_key.
  - intros run. apply select_runs_active; [done|]. intros. by bool_hyps.
  - by apply steps_refl.
  - intros [] d1 Hs. by wp_step.
Qed.

(** * Enqueue *)

Lemma wp_reference_artifact run art now (Q : unit → db → Prop) d :
  (∀ d1, d1 = d <| artifacts := artifacts d1 |> → Q tt d1) → wp (reference_artifact run art now) Q d.
Proof.
  intros HQ. unfold reference_artifact. wp_step. wp_step. wp_step.
  - do 3 wp_step. by apply HQ.
  - unfold insert_artifact. do 11 wp_step. by apply HQ.
Qed.
Lemma wp_insert_batch b (Q : unit → db → Prop) d :
  ((0 < b_max_attempts b)%Z → Q tt (d <| batches ::= <[b_job_id b := b]> |>)) → wp (insert_batch b) Q d.
Proof.
  intros HQ. unfold insert_batch. do 13 wp_step. apply HQ. bool_hyps. done.
Qed.

(** The staging of a clean or a rejected batch. *)
Lemma wp_stage run job producer cs now (Q : list (string * Z) → db → Prop) d :
  Forall fresh_candidate cs →
  (∀ d', maybe_staged run job d d' → Q [] d') →
  (∀ p failure d', failure ≠ [] → staged run job p failure d d' → Q failure d') →
  wp (match producer with Some p => _stage_manifests_locked run job p cs now | None => mret [] end
      : M (list (string * Z))) Q d.
Proof.
  intros Hcs H1 H2. destruct producer as [p|].
  - eapply wp_mono; [by apply stage_manifests_wp|]. intros failure d' Hst. destruct failure eqn:Hf.
    + apply H1. right. by exists p.
    + by eapply H2.
  - wp_step. apply H1. by left.
Qed.

Lemma enqueue_locked_wp limits ε run job spec producer cs d :
  inv d → Forall fresh_candidate cs →
  wp (enqueue_batch_locked limits ε run job spec producer cs) (λ _ d', steps d d') d.
Proof.
  intros Hi Hcs. unfold enqueue_batch_locked. cbv zeta. do 4 wp_step.
  destruct (batches d !! job) as [dup|] eqn:Hb; [wp_step; by apply steps_refl|].
  do 2 wp_step. bool_hyps.
  match goal with Hx : run_status_is _ _ _ = true |- _ => apply run_status_is_spec in Hx as (r & Hr & Ho) end.
  do 3 wp_step. apply wp_reference_artifact. intros d1 Hd1. wp_step. apply wp_insert_batch. cbn. intros Hmax.
  assert (∀ f, d1 <| batches ::= f |> = d <| batches ::= f |> <| artifacts := artifacts (d1 <| batches ::= f |>) |>) as Hd1'
    by (intros f; rewrite Hd1; done).
  specialize (Hd1' <[job := new_batch run job spec (clock ε)]>).
  assert (barriers d1 = barriers d) as Hbar1 by (by rewrite Hd1).
  match type of Hd1' with ?x = _ => set (d1' := x) in * end.
  assert (barriers d1' = barriers d) as Hbar1' by done. clearbody d1'.
  wp_step. apply wp_stage; [done| |].
  - intros d2 Hst. wp_step.
    pose proof (maybe_staged_frame _ _ _ _ Hst) as (_ & _ & _ & Hbar2 & _). rewrite Hbar1' in Hbar2.
    eapply wp_mono.
    { apply (wp_for_barriers run _ (λ name o, Some (produced_once run name (clock ε) o))
        (λ _ o, ∀ bar, o = Some bar → br_stat bar = BarrierStatus.OPEN)).
      - apply NoDup_sorted_set.
      - intros name s Hk. by apply wp_produce_barrier.
      - intros name bar _ Hbar. rewrite Hbar2 in Hbar. by destruct (inv_barrier _ Hi _ _ _ Hbar) as (? & ? & _). }
    intros [] d3 (bars & He3 & Hpre & Hbars). rewrite Hbar2 in *. cbv beta in *. wp_step. apply wp_event. intros d4 He4.
    wp_step. apply wp_fetch_batch. intros. wp_step.
    eapply steps_one; [|etrans; [symmetry; exact He3|exact He4]].
    eapply (js_enqueue _ (clock ε) run job r spec d1' d2 bars); try done.
    intros name bar Hin Hbar. by apply (Hpre _ Hin).
  - intros p failure d2 Hf Hst. destruct failure as [|f0 fs] eqn:Hfe; [done|]. rewrite <- Hfe in *. wp_step. wp_step. apply wp_update_batch.
    + intros b Hb2 _. apply wp_set_run_error. wp_step. apply wp_event. intros d3 He. wp_step. apply wp_fetch_batch.
      intros. wp_step. eapply steps_one; [|exact He].
      assert (batches d2 !! job = Some b) as Hb2' by done.
      assert (d2 <| batches ::= <[job := reject_batch failure (clock ε) b]> |>
        = d2 <| batches ::= update_key job (λ _, true) (reject_batch failure (clock ε)) |>) as ->.
      { unfold update_field. cbn. by rewrite (update_key_some _ _ _ _ b). }
      by eapply js_enqueue_rejected.
    + intros Hno. exfalso. assert (batches d2 !! job = Some (new_batch run job spec (clock ε))) as Hb2.
      { apply staged_batches in Hst as ->. rewrite Hd1'. cbn. by rewrite lookup_insert_eq. }
      by specialize (Hno _ Hb2).
Qed.

Lemma enqueue_batch_refines {FS : Type} `{!ArtifactApi FS} limits (fs : FS) ε run spec :
  refines (enqueue_batch limits fs ε run spec).
Proof.
  intros d r d' Hi. unfold enqueue_batch.
  destruct (runs d !! run) as [rr|]; [|intros [= _ <-]; by apply steps_refl].
  destruct (negb _); [intros [= _ <-]; by apply steps_refl|].
  destruct (art_verify fs _); [|intros [= _ <-]; by apply steps_refl].
  destruct (art_read_jsonl fs _) as [rows|]; [|intros [= _ <-]; by apply steps_refl].
  match goal with |- context [_manifest_candidates ?p ?s ?r ?j] =>
    pose proof (manifest_candidates_fresh p s r j) as Hfr; destruct (_manifest_candidates p s r j) as [producer cs] end.
  simpl in Hfr. match goal with |- context [transaction ?b d] => set (body := b) end.
  destruct (transaction body d) as [r' d''] eqn:Ht.
  assert (steps d d'') as Hs.
  { eapply (transaction_refines body); [|exact Hi|exact Ht]. intros. by apply enqueue_locked_wp. }
  destruct r' as [[b [|]]|]; by intros [= _ <-].
Qed.

(** * Barriers, producers, audits *)

Lemma open_barrier_refines ε run name : refines (open_barrier ε run name).
Proof.
  apply guard_refines, transaction_refines. intros d Hi. do 4 wp_step. bool_hyps.
  match goal with Hx : run_status_is _ _ _ = true |- _ => apply run_status_is_spec in Hx as (r & Hr & Ho) end.
  wp_step. destruct (barriers d !! (run, name)) as [bar|] eqn:Hb.
  - do 2 wp_step. apply wp_fetch_barrier. intros. wp_step. by apply steps_refl.
  - apply wp_put_barrier. wp_step. apply wp_fetch_barrier. intros. wp_step.
    eapply steps_one; [|done]. by eapply js_open_barrier.
Qed.
Lemma close_barrier_refines ε run name : refines (close_barrier ε run name).
Proof.
  apply transaction_refines. intros d Hi. do 2 wp_step.
  destruct (barriers d !! (run, name)) as [bar|] eqn:Hb; [|wp_step].
  wp_step; [wp_step; by apply steps_refl|]. do 2 wp_step. bool_hyps.
  match goal with Hx : run_status_is _ _ _ = true |- _ => apply run_status_is_spec in Hx as (r & Hr & Ho) end.
  destruct (inv_barrier _ Hi _ _ _ Hb) as (Hbr & Hbn & _). cbv zeta.
  wp_step. apply wp_put_barrier. cbn [br_run br_name update_field]. 
  match goal with |- wp _ _ ?x => assert (jstep d x) as Hj end.
  { cbn. rewrite Hbr, Hbn. by eapply (js_close_barrier _ (clock ε)). }
  wp_step. match goal with |- wp (match ?s with _ => _ end) _ _ => destruct s end.
  - wp_step. wp_step. apply wp_fetch_barrier. intros. wp_step. by eapply steps_one.
  - wp_step. wp_step. apply wp_fetch_barrier. intros. wp_step. by eapply steps_one.
  - apply wp_event. intros d' He. wp_step. apply wp_fetch_barrier. intros. wp_step. by eapply steps_one.
Qed.

Lemma complete_producers_refines ε run : refines (complete_producers ε run).
Proof.
  apply transaction_refines. intros d Hi. do 4 wp_step. cbv zeta. do 2 wp_step.
  wp_step; [wp_step; by apply steps_refl|]. do 2 wp_step. bool_hyps.
  match goal with Hx : run_status_is _ _ _ = true |- _ => apply run_status_is_spec in Hx as (r & Hr & Ho) end.
  do 7 wp_step. apply wp_event. intros d' He. wp_step.
  eapply steps_one; [apply (js_complete _ (clock ε) run r); try done; bool_hyps|exact He].
  match goal with Hx : ¬ is_Some _ |- _ => cbn in Hx; rewrite lookup_update_where in Hx;
    destruct (producer_completion d !! (run, _PRODUCERS_COMPLETE_ID)); [|done]; exfalso; apply Hx; eauto end.
Qed.

Lemma validate_ok run s d x :
  _validate_endpoint_audit_boundary_locked run s d = Ok x → x = conservation_summary run d.
Proof.
  unfold _validate_endpoint_audit_boundary_locked. repeat case_match; congruence.
Qed.
Lemma seal_endpoint_audit_refines ε run dg rc ar : refines (seal_endpoint_audit ε run dg rc ar).
Proof.
  apply guard_refines, guard_refines, transaction_refines. intros d Hi. unfold seal_locked. do 3 wp_step.
  wp_step. match goal with Hx : _ = Ok ?a |- _ => rename Hx into Hv; pose proof (validate_ok _ _ _ _ Hv) as Hs end.
  destruct (endpoint_audit d !! run) as [au|] eqn:Ha.
  - do 5 wp_step. by apply steps_refl.
  - cbv zeta. do 4 wp_step. bool_hyps. do 3 wp_step. eapply steps_one; [|done]. subst a.
    match goal with Hx : _ = cs_endpoint_manifest_digest _ |- _ => rewrite Hx end.
    match goal with Hx : _ = cs_auditable_edge_rows _ |- _ => rewrite Hx end.
    by apply js_seal.
Qed.
End refines.
