(* ===== verification/Behaviour.v ===== *)
(** The functional behaviour of single operations: what each returns and writes
    on every branch, beyond the steps it performs. *)
From S2P Require Import Prelude Json PyValue Models Identity Retry Db Manifest ArtifactApi Store Staging Transitions Boundary Admin Steps Invariant Refinement RefinementRuns.

(** * Fences *)

Section fences.
Context `{Sha256} (limits : JournalLimits).

(** The caller of a transition does not hold the batch. *)
Definition not_holder (job token : string) (now : Z) (d : db) : Prop := ∀ b,
  batches d !! job = Some b → leased_or_reconciling b && holds_fence token now b = false.

Lemma owned_transition_stale {A} job token now (k : batch_row → M A) d :
  not_holder job token now d → transaction (b ← _owned_transition job token now; k b) d = (Err StaleFenceError, d).
Proof.
  intros Hn. unfold transaction, _owned_transition, mbind, tx_bind, tx_get.
  destruct (batches d !! job) as [b|] eqn:Hb; [|done]. by rewrite (Hn b Hb).
Qed.
Lemma owned_lease_stale {A} job token now (k : batch_row → M A) d :
  not_holder job token now d → transaction (b ← _owned_lease job token now; k b) d = (Err StaleFenceError, d).
Proof.
  intros Hn. unfold transaction, _owned_lease, mbind, tx_bind, tx_get.
  destruct (batches d !! job) as [b|] eqn:Hb; [|done]. specialize (Hn b Hb).
  unfold leased_or_reconciling in Hn. destruct (b_is BatchStatus.LEASED b); simpl in *; [by rewrite Hn|done].
Qed.
Lemma renew_stale ε job token secs d : (0 < secs)%Z →
  not_holder job token (clock ε) d → renew_lease ε job token secs d = (Err StaleFenceError, d).
Proof.
  intros Hs Hn. unfold renew_lease, op_guard. apply Z.leb_gt in Hs as ->.
  unfold transaction, mbind, tx_bind, tx_get, tx_reject, update_count.
  destruct (batches d !! job) as [b|] eqn:Hb; [|done]. specialize (Hn b Hb).
  unfold leased_or_reconciling in Hn. destruct (b_is BatchStatus.LEASED b); simpl in *; [by rewrite Hn|done].
Qed.
Lemma done_not_holder job token now d b :
  batches d !! job = Some b → b_status b = BatchStatus.DONE → not_holder job token now d.
Proof.
  intros Hb Hd b' Hb'. simplify_eq. unfold leased_or_reconciling, b_is. by rewrite Hd.
Qed.
End fences.

(** * Recovery, row by row *)

Section recovery.
Context `{Sha256}.

(** The loop rewrites exactly the listed rows that still have their status. *)
Lemma recover_all_spec from f ev now bs d :
  NoDup (map b_job_id bs) →
  ∃ d', tx_for (recover_one from f ev now) bs d = Ok (tt, d') ∧
    (∀ job, batches d' !! job = (λ b, if in_list job (map b_job_id bs) && b_is from b then f b else b) <$> batches d !! job).
Proof.
  revert d. induction bs as [|b bs IH]; intros d Hnd.
  - exists d. split; [done|]. intros job. simpl. by destruct (batches d !! job).
  - inversion Hnd as [|?? Hx Hnd']; subst. unfold tx_for; fold (tx_for (recover_one from f ev now)).
    unfold mbind, tx_bind. 
    destruct (recover_one from f ev now b d) as [[[] d1]|e] eqn:E; [|discriminate].
    assert (batches d1 = update_key (b_job_id b) (b_is from) f (batches d)) as Hd1.
    { unfold recover_one, mbind, tx_bind, update_batch, tx_modify, _add_event in E. cbn in E. by injection E as <-. }
    destruct (IH d1 Hnd') as (d' & Hd' & Hl). exists d'. split; [exact Hd'|]. intros job.
    rewrite Hl, Hd1, lookup_update_key. simpl. case_decide as Hj.
    + subst job. rewrite String.eqb_refl. simpl. destruct (batches d !! b_job_id b) as [v|]; simpl; [|done].
      assert (in_list (b_job_id b) (map b_job_id bs) = false) as ->; [|by destruct (b_is from v)].
      apply not_true_is_false. by rewrite in_list_elem.
    + assert (String.eqb job (b_job_id b) = false) as -> by (apply String.eqb_neq; congruence). done.
Qed.
Lemma select_jobs P d job b : inv d → batches d !! job = Some b →
  in_list job (map b_job_id (select P (batches d))) = P b.
Proof.
  intros Hi Hb. apply eq_true_iff_eq. rewrite in_list_elem, list_elem_of_fmap. split.
  - intros (b' & -> & [HP [k Hk]]%elem_of_select).
    rewrite (row_key _ _ (inv_row _ Hi _ _ Hk)) in Hb. by simplify_eq.
  - intros HP. exists b. rewrite (row_key _ _ (inv_row _ Hi _ _ Hb)). split; [done|].
    apply elem_of_select. eauto.
Qed.
Lemma NoDup_select_jobs P d : inv d → NoDup (map b_job_id (select P (batches d))).
Proof. intros Hi. apply NoDup_select_key. intros k v Hv. by apply (row_key _ _ (inv_row _ Hi _ _ Hv)). Qed.

(** What a recovery with two predicates does to a row. *)
Definition recovered (now : Z) (P Q : batch_row → bool) (b : batch_row) : batch_row :=
  if P b then to_ambiguous now b else if Q b then release_owner now b else b.

Lemma recover_two d now (P Q : batch_row → bool) ev1 ev2 :
  inv d →
  (∀ b, P b = true → b_is BatchStatus.LEASED b = true) →
  (∀ b, Q b = true → b_is BatchStatus.RECONCILING b = true) →
  (∀ b, Q (to_ambiguous now b) = false) →
  ∃ n d', transaction (
    leased ← tx_gets (λ d, select P (batches d));
    _ ← tx_for (recover_one BatchStatus.LEASED (to_ambiguous now) ev1 now) leased;
    reconciling ← tx_gets (λ d, select Q (batches d));
    _ ← tx_for (recover_one BatchStatus.RECONCILING (release_owner now) ev2 now) reconciling;
    mret (Z.of_nat (length leased + length reconciling))) d = (Ok n, d') ∧
  (∀ job, batches d' !! job = recovered now P Q <$> batches d !! job).
Proof.
  intros Hi HP HQ HQa. unfold transaction, mbind, tx_bind, tx_gets.
  destruct (recover_all_spec BatchStatus.LEASED (to_ambiguous now) ev1 now (select P (batches d)) d) as (d1 & E1 & H1);
    [by apply NoDup_select_jobs|]. rewrite E1.
  assert (inv d1) as Hi1.
  { apply (steps_inv d); [done|].
    exact (wp_elim _ _ _ _ _ (wp_recover_all d BatchStatus.LEASED (to_ambiguous now) ev1 now _ d
      ltac:(intros; by constructor) ltac:(by apply steps_refl)) E1). }
  destruct (recover_all_spec BatchStatus.RECONCILING (release_owner now) ev2 now (select Q (batches d1)) d1) as (d2 & E2 & H2);
    [by apply NoDup_select_jobs|]. rewrite E2. eexists _, _. split; [done|]. intros job.
  rewrite H2, H1. destruct (batches d !! job) as [b|] eqn:Hb; [|done]. cbn [fmap option_fmap option_map].
  rewrite (select_jobs P d job b) by done.
  assert (batches d1 !! job = Some (if P b then to_ambiguous now b else b)) as Hb1.
  { rewrite H1, Hb. cbn [fmap option_fmap option_map]. rewrite (select_jobs P d job b) by done.
    destruct (P b) eqn:E; [by rewrite (HP b E)|done]. }
  rewrite (select_jobs Q d1 job _ Hi1 Hb1). unfold recovered. f_equal.
  destruct (P b) eqn:E; [rewrite (HP b E); simpl; by rewrite HQa|]. simpl.
  destruct (Q b) eqn:E'; [by rewrite (HQ b E')|done].
Qed.
End recovery.

(** * Claims *)

Section claims.
Context `{Sha256}.

Lemma expired_to_ambiguous now b : b_is BatchStatus.RECONCILING (to_ambiguous now b) && owned (to_ambiguous now b)
  && expired now (to_ambiguous now b) = false.
Proof. done. Qed.
Definition expired_lease (now : Z) (b : batch_row) : bool := b_is BatchStatus.LEASED b && expired now b.
Definition expired_owner (now : Z) (b : batch_row) : bool :=
  b_is BatchStatus.RECONCILING b && owned b && expired now b.

Lemma transaction_ok {A} (body : M A) d a d' : transaction body d = (Ok a, d') → body d = Ok (a, d').
Proof. unfold transaction. destruct (body d) as [[x y]|]; congruence. Qed.
Lemma recover_expired_spec d ε : inv d →
  ∃ n d1, _recover_expired_leases_locked (clock ε) d = Ok (n, d1) ∧ inv d1 ∧
    ∀ job, batches d1 !! job =
      recovered (clock ε) (expired_lease (clock ε)) (expired_owner (clock ε)) <$> batches d !! job.
Proof.
  intros Hi. destruct (recover_two d (clock ε) (expired_lease (clock ε)) (expired_owner (clock ε))
    "lease_recovered_as_ambiguous" "reconciliation_recovered" Hi) as (n & d1 & Ht & Hl).
  - unfold expired_lease. intros. by bool_hyps.
  - unfold expired_owner. intros. by bool_hyps.
  - done.
  - exists n, d1. split; [by apply transaction_ok in Ht|]. split; [|done].
    eapply (steps_inv d); [done|]. by apply (recover_expired_leases_refines ε d (Ok n)).
Qed.

Lemma claim_row_spec ε job guard f ev b d :
  batches d !! job = Some b → guard b = true →
  ∃ d', claim_row ε job guard f ev d = Ok (Some (_batch_from_row (f b)), d') ∧
    d <| batches ::= <[job := f b]> |> ≈ d'.
Proof.
  intros Hb Hg. unfold claim_row, mbind, tx_bind, tx_get, update_count. rewrite Hb, Hg. simpl.
  unfold update_batch, tx_modify, fetch_batch, mbind, tx_bind, tx_get. 
  assert (d <| batches ::= update_key job guard f |> = d <| batches ::= <[job := f b]> |>) as ->.
  { unfold update_field. cbn. by rewrite (update_key_some _ _ _ _ b). }
  assert (batches (d <| batches ::= <[job := f b]> |>) !! job = Some (f b)) as -> by apply lookup_insert_eq.
  eexists. split; [reflexivity|]. done.
Qed.

(** The row a queue claim picks, in the database after recovery. *)
Definition next_row (eligible : db → batch_row → bool) (run : option string) (d : db) : option batch_row :=
  head (order_by claim_key (select (λ b, eligible d b && in_scope run b) (batches d))).
Lemma next_row_spec eligible run d b : inv d → next_row eligible run d = Some b →
  batches d !! b_job_id b = Some b ∧ eligible d b = true ∧ in_scope run b = true ∧
  ∀ job b', batches d !! job = Some b' → eligible d b' = true → in_scope run b' = true →
    cmp_le (claim_key b) (claim_key b').
Proof.
  intros Hi Hh. apply head_order_by in Hh as [[Hel [k Hk]]%elem_of_select Hmin]. bool_hyps.
  rewrite (row_key _ _ (inv_row _ Hi _ _ Hk)). split_and!; try done. intros job b' Hb' He Hs.
  apply Hmin, elem_of_select. rewrite He, Hs. eauto.
Qed.
Lemma next_row_none eligible run d : next_row eligible run d = None →
  ∀ job b, batches d !! job = Some b → eligible d b && in_scope run b = false.
Proof.
  intros Hh%head_order_by_None job b Hb. apply not_true_is_false. intros He.
  assert (b ∈ select (λ b, eligible d b && in_scope run b) (batches d)) as Hin by (apply elem_of_select; eauto).
  rewrite Hh in Hin. by apply not_elem_of_nil in Hin.
Qed.

Lemma claim_first_spec ε eligible run guard f ev d :
  inv d → (∀ d b, eligible d b = true → guard b = true) →
  ∃ n d1, _recover_expired_leases_locked (clock ε) d = Ok (n, d1) ∧ inv d1 ∧
  match next_row eligible run d1 with
  | None => transaction (claim_first ε eligible run guard f ev) d = (Ok None, d1)
  | Some b => ∃ d2, transaction (claim_first ε eligible run guard f ev) d = (Ok (Some (_batch_from_row (f b))), d2)
                ∧ d1 <| batches ::= <[b_job_id b := f b]> |> ≈ d2
  end.
Proof.
  intros Hi Hg. destruct (recover_expired_spec d ε Hi) as (n & d1 & Hrec & Hi1 & _).
  exists n, d1. split; [done|split; [done|]].
  unfold transaction, claim_first, mbind, tx_bind, tx_get. rewrite Hrec.
  fold (next_row eligible run d1). destruct (next_row eligible run d1) as [b|] eqn:Hn; [|done].
  destruct (next_row_spec _ _ _ _ Hi1 Hn) as (Hb & He & _).
  destruct (claim_row_spec ε (b_job_id b) guard f ev b d1 Hb (Hg _ _ He)) as (d2 & E & Hd2).
  rewrite E. by exists d2.
Qed.
Lemma claimable_executable now d b : claimable now d b = true → executable b = true.
Proof. unfold claimable. intros. by bool_hyps. Qed.
Lemma reconcilable_unowned now d b : reconcilable now d b = true → unowned_reconciling b = true.
Proof.
  unfold reconcilable, unowned_reconciling. intros. bool_hyps. apply andb_true_iff. split; [done|].
  by apply negb_true_iff.
Qed.
End claims.

(** * Acknowledgement *)

Section ack.
Context `{Sha256} (limits : JournalLimits).
Lemma drain_barrier_batches run now name m d :
  batches d = m → wp (drain_barrier run now name) (λ _ d', batches d' = m) d.
Proof.
  intros Hm. unfold drain_barrier. do 2 wp_step. wp_step; [|wp_step]. cbv zeta. wp_step. apply wp_put_barrier.
  wp_step; try (wp_step; exact Hm). apply wp_event. intros d' He. by rewrite <- (batches_proper _ _ He).
Qed.
Lemma refresh_batches run now m d :
  batches d = m → wp (_refresh_run_status_locked limits run now) (λ _ d', batches d' = m) d.
Proof.
  intros Hm. unfold _refresh_run_status_locked. do 2 wp_step. wp_step; [by wp_step|]. wp_step; [|by wp_step].
  do 2 wp_step. apply wp_event. intros d' He. by rewrite <- (batches_proper _ _ He).
Qed.
Lemma ack_result job token el now d :
  wp (ack_batch_locked limits job token el now) (λ rec d', ∃ b, batches d !! job = Some b ∧
    leased_or_reconciling b = true ∧ holds_fence token now b = true ∧
    batches d' = <[job := ack_row now b]> (batches d) ∧ rec = _batch_from_row (ack_row now b)) d.
Proof.
  unfold ack_batch_locked. wp_step. apply wp_owned_transition. intros b Hb Hl Hf. wp_step. apply wp_update_batch.
  2: { intros Hn. pose proof (Hn _ Hb) as HP. rewrite Hl, (holds_fence_token _ _ _ Hf) in HP. by simpl in HP. }
  intros b' Hb' _. simplify_eq. do 3 wp_step. set (m := <[job := ack_row now b]> (batches d)).
  eapply wp_mono; [apply (wp_for_inv _ (λ d', batches d' = m))|].
  - done.
  - intros name s _ Hs. by apply drain_barrier_batches.
  - intros [] d2 H2. wp_step. apply wp_event. intros d3 He. wp_step.
    eapply wp_mono; [apply refresh_batches; by rewrite <- (batches_proper _ _ He)|]. intros [] d4 H4.
    wp_step. apply wp_fetch_batch. intros row Hrow. wp_step. exists b. split_and!; try done.
    rewrite H4 in Hrow. unfold m in Hrow. rewrite lookup_insert_eq in Hrow. by simplify_eq.
Qed.
End ack.

(** * Enqueue twice *)

Section enqueue.
Context `{Sha256} {FS : Type} `{!ArtifactApi FS} (limits : JournalLimits).

Definition still_open (run : string) (d0 d : db) : Prop :=
  runs d = runs d0 ∧ production_complete run d = production_complete run d0 ∧ batches d = batches d0.
Lemma still_open_equiv run d0 d d' : d ≈ d' → still_open run d0 d → still_open run d0 d'.
Proof.
  intros He (H1 & H2 & H3). unfold still_open, production_complete in *.
  by rewrite <- (runs_proper _ _ He), <- (producers_proper _ _ He), <- (batches_proper _ _ He).
Qed.
Lemma produce_barrier_open run now name d0 d :
  still_open run d0 d → wp (produce_barrier run now name) (λ _ d', still_open run d0 d') d.
Proof.
  intros Ho. unfold produce_barrier. do 2 wp_step. wp_step; [wp_step; [|by wp_step]|]; by apply wp_put_barrier.
Qed.
Lemma staged_open run job p failure d d' : staged run job p failure d d' → still_open run d d'.
Proof.
  intros Hst. split; [by eapply staged_runs|]. split; [by destruct Hst as (_ & _ & _ & _ & _ & ?)|by eapply staged_batches].
Qed.
Lemma maybe_staged_open run job d d' : maybe_staged run job d d' → still_open run d d'.
Proof. intros [->|[p Hst]]; [done|by eapply staged_open]. Qed.

Lemma enqueue_locked_result ε run job spec producer cs d :
  Forall fresh_candidate cs →
  wp (enqueue_batch_locked limits ε run job spec producer cs) (λ x d', x.2 = [] →
    ∃ row, batches d' !! job = Some row ∧ x.1 = _batch_from_row row
      ∧ runs d' = runs d ∧ production_complete run d' = false
      ∧ (batches d !! job = Some row ∨ batches d !! job = None ∧ row = new_batch run job spec (clock ε))) d.
Proof.
  intros Hcs. unfold enqueue_batch_locked. cbv zeta. do 4 wp_step.
  destruct (batches d !! job) as [dup|] eqn:Hb; [wp_step; intros _; exists dup; eauto 6|].
  do 5 wp_step. apply wp_reference_artifact. intros d1 Hd1. wp_step. apply wp_insert_batch. intros _.
  set (d1' := d1 <| batches ::= <[b_job_id (new_batch run job spec (clock ε)) := new_batch run job spec (clock ε)]> |>).
  assert (runs d1' = runs d) as Hruns by (unfold d1'; by rewrite Hd1).
  assert (production_complete run d1' = production_complete run d) as Hcomplete by (unfold d1'; by rewrite Hd1).
  assert (batches d1' !! job = Some (new_batch run job spec (clock ε))) as Hnew by (apply lookup_insert_eq).
  clearbody d1'. wp_step. apply wp_stage; [done| |].
  - intros d2 Hst%maybe_staged_open. wp_step. eapply wp_mono; [apply (wp_for_inv _ (still_open run d1')); [exact Hst|]|].
    + intros name s _ Hs. by apply produce_barrier_open.
    + intros [] d3 Ho3. wp_step. apply wp_event. intros d4 He4. wp_step. apply wp_fetch_batch. intros row Hrow.
      wp_step. intros _. exists row. split; [done|split; [done|]].
      destruct (still_open_equiv _ _ _ _ He4 Ho3) as (Ho4 & Hc4 & Hb4). rewrite Hb4, Hnew in Hrow. injection Hrow as <-.
      split_and!; [congruence|congruence|by right].
  - intros p failure d2 Hf Hst. apply wp_intro. destruct failure as [|f0 fs]; [done|]. intros [rec fl] d' E Hfl. exfalso.
    revert E Hfl. unfold mbind, tx_bind. destruct (update_batch _ _ _ _) as [[? ?]|]; [|done].
    destruct (_set_run_error_locked _ _ _ _ _ _) as [[? ?]|]; [|done].
    destruct (_add_event _ _ _ _ _ _ _ _ _) as [[? ?]|]; [|done].
    destruct (fetch_batch _ _) as [[? ?]|]; [|done]. by intros [= <- <- <-].
Qed.

(** What a returning [enqueue_batch] leaves: the row it found, or a new one of
    the specification. *)
Lemma enqueue_result fs ε run spec d rec d1 :
  enqueue_batch limits fs ε run spec d = (Ok rec, d1) →
  ∃ r row, runs d !! run = Some r ∧
    let job := deterministic_job_id (r_fingerprint r) (bs_phase spec) (bs_operation_key spec) (bs_sequence spec)
                 (sha256 (bs_artifact spec)) in
    batches d1 !! job = Some row ∧ rec = _batch_from_row row ∧
    (batches d !! job = Some row ∨ batches d !! job = None ∧ row = new_batch run job spec (clock ε)).
Proof.
  unfold enqueue_batch. destruct (runs d !! run) as [r|] eqn:Hr; [|done].
  destruct (negb _) eqn:Hpath; [done|].
  destruct (art_verify fs _) eqn:Hv; [|done]. destruct (art_read_jsonl fs _) as [rows|] eqn:Hrd; [|done].
  match goal with |- context [_manifest_candidates ?p ?s ?r ?j] =>
    pose proof (manifest_candidates_fresh p s r j) as Hfr; set (job := j) in *;
    destruct (_manifest_candidates p s r job) as [producer cs] eqn:Hcand end.
  simpl in Hfr. destruct (transaction _ d) as [[[b [|? ?]]|] d'] eqn:Ht; try done. intros [= <- <-].
  apply transaction_ok in Ht. pose proof (enqueue_locked_result ε run job spec producer cs d Hfr) as Hw.
  unfold wp in Hw. rewrite Ht in Hw. destruct (Hw eq_refl) as (row & Hrow & Hb & _ & _ & Hold). simpl in Hb. subst b.
  exists r, row. eauto.
Qed.

Lemma enqueue_again fs ε ε' run spec d rec d1 :
  enqueue_batch limits fs ε run spec d = (Ok rec, d1) → enqueue_batch limits fs ε' run spec d1 = (Ok rec, d1).
Proof.
  unfold enqueue_batch. destruct (runs d !! run) as [r|] eqn:Hr; [|done].
  destruct (negb _) eqn:Hpath; [done|].
  destruct (art_verify fs _) eqn:Hv; [|done]. destruct (art_read_jsonl fs _) as [rows|] eqn:Hrd; [|done].
  match goal with |- context [_manifest_candidates ?p ?s ?r ?j] =>
    pose proof (manifest_candidates_fresh p s r j) as Hfr; set (job := j) in *;
    destruct (_manifest_candidates p s r job) as [producer cs] eqn:Hcand end.
  simpl in Hfr. destruct (transaction _ d) as [[[b [|? ?]]|] d'] eqn:Ht; try done. intros [= <- <-].
  apply transaction_ok in Ht. pose proof (enqueue_locked_result ε run job spec producer cs d Hfr) as Hw.
  unfold wp in Hw. rewrite Ht in Hw. destruct (Hw eq_refl) as (row & Hrow & Hb & Hruns & Hpc & _). simpl in Hb. subst b.
  rewrite Hruns, Hr. cbv beta iota. fold job. rewrite Hcand.
  unfold transaction, enqueue_batch_locked, mbind, tx_bind, tx_get, tx_reject. by rewrite Hpc, Hrow.
Qed.
End enqueue.

(** * Purge *)

Section purge.
Context `{Sha256} {FS : Type} `{!ArtifactApi FS}.

(** Nothing of the run is left. *)
Definition purged (run : string) (d : db) : Prop :=
  runs d !! run = None ∧
  (∀ job b, batches d !! job = Some b → b_run_id b ≠ run) ∧
  (∀ key a, artifacts d !! key = Some a → a_run_id a ≠ run) ∧
  (∀ key b, barriers d !! key = Some b → br_run b ≠ run) ∧
  (∀ k key m, manifest_table k d !! key = Some m → m_run_id m ≠ run) ∧
  (∀ key p, producer_completion d !! key = Some p → p_run_id p ≠ run) ∧
  (∀ key e, edge_endpoint d !! key = Some e → ep_run_id e ≠ run) ∧
  (∀ e, e ∈ events d → e_run_id e ≠ run) ∧ endpoint_audit d !! run = None.
Lemma delete_run_purged run d : purged run (delete_run run d).
Proof.
  unfold purged, delete_run. cbn. split_and!; try (apply lookup_delete_eq).
  - intros job b [_ Hb]%lookup_delete_where. unfold b_in_run in Hb. by bool_hyps.
  - intros key a [_ Ha]%lookup_delete_where. by bool_hyps.
  - intros key b [_ Hb]%lookup_delete_where. by bool_hyps.
  - intros [] key m [_ Hm]%lookup_delete_where; unfold in_run in Hm; by bool_hyps.
  - intros key p [_ Hp]%lookup_delete_where. by bool_hyps.
  - intros key e [_ He]%lookup_delete_where. by bool_hyps.
  - intros e [_ He]%list_elem_of_In%filter_In. by bool_hyps.
Qed.
(** The rows of every other run are as they were. *)
Definition others_kept (run : string) (d d' : db) : Prop :=
  (∀ run', run' ≠ run → runs d' !! run' = runs d !! run') ∧
  (∀ job b, batches d !! job = Some b → b_run_id b ≠ run → batches d' !! job = Some b) ∧
  (∀ key a, artifacts d !! key = Some a → a_run_id a ≠ run → artifacts d' !! key = Some a) ∧
  (∀ key b, barriers d !! key = Some b → br_run b ≠ run → barriers d' !! key = Some b) ∧
  (∀ k key m, manifest_table k d !! key = Some m → m_run_id m ≠ run → manifest_table k d' !! key = Some m).
Lemma delete_run_others run d : others_kept run d (delete_run run d).
Proof.
  unfold others_kept, delete_run. cbn. split_and!.
  - intros run' Hne. by rewrite lookup_delete_ne.
  - intros job b Hb Hne. apply lookup_delete_where. split; [done|]. by apply String.eqb_neq.
  - intros key a Ha Hne. apply lookup_delete_where. split; [done|]. by apply String.eqb_neq.
  - intros key b Hb Hne. apply lookup_delete_where. split; [done|]. by apply String.eqb_neq.
  - intros [] key m Hm Hne; apply lookup_delete_where; (split; [done|]); by apply String.eqb_neq.
Qed.
End purge.
