(* ===== verification/Effects.v ===== *)
(** What each journal call a consumer makes does to the batch rows: which row
    it moves, to which status, and that it keeps the contract of the batch. *)
From S2P Require Import Prelude Json PyValue Models Identity Retry Db Manifest ArtifactApi Store Staging Transitions Boundary Admin Steps Invariant Refinement RefinementRuns Behaviour.

(** * The fixed part of a row *)

(** What enqueueing fixes for the life of a batch. *)
Definition batch_contract (b : batch_row) :=
  (b_job_id b, b_run_id b, b_phase b, b_operation_key b, b_operation_json b,
   (b_artifact_sha256 b, b_artifact_path b, b_payload_bytes b, b_row_count b), b_expected_count b).
Definition same_contract (b b' : batch_row) : Prop := batch_contract b' = batch_contract b.
#[export] Instance same_contract_preorder : PreOrder same_contract.
Proof. split; unfold same_contract; [done|]. intros x y z H1 H2. congruence. Qed.
Lemma same_contract_job b b' : same_contract b b' → b_job_id b' = b_job_id b.
Proof. unfold same_contract, batch_contract. congruence. Qed.
Lemma same_contract_run b b' : same_contract b b' → b_run_id b' = b_run_id b.
Proof. unfold same_contract, batch_contract. congruence. Qed.

(** The one row [job] went from [b], which satisfies [P], to a status in [sts]. *)
Definition moved (job : string) (P : batch_row → Prop) (sts : list BatchStatus) (d d' : db) : Prop :=
  ∃ b b', batches d !! job = Some b ∧ P b ∧ batches d' = <[job := b']> (batches d) ∧
          same_contract b b' ∧ b_status b' ∈ sts.
Definition held (b : batch_row) : Prop := leased_or_reconciling b = true.
(** An operation that moves one row when it returns and nothing when it raises. *)
Definition moves {A} (job : string) (P : batch_row → Prop) (sts : list BatchStatus) (o : op A) : Prop :=
  ∀ d r d', o d = (r, d') → match r with Ok _ => moved job P sts d d' | Err _ => d' = d end.
(** An operation that never writes a batch row. *)
Definition still {A} (o : op A) : Prop := ∀ d, batches (o d).2 = batches d.

Lemma transaction_moves {A} job P sts (body : M A) :
  (∀ d, wp body (λ _ d', moved job P sts d d') d) → moves job P sts (transaction body).
Proof.
  intros Hwp d r d' Ht. by destruct (transaction_wp _ _ _ _ _ (Hwp d) Ht) as [(a & -> & Hs)|[(e & ->) ->]].
Qed.
Lemma transaction_still {A} (body : M A) :
  (∀ d, wp body (λ _ d', batches d' = batches d) d) → still (transaction body).
Proof.
  intros Hwp d. destruct (transaction body d) as [r d'] eqn:Ht.
  by destruct (transaction_wp _ _ _ _ _ (Hwp d) Ht) as [(a & _ & Hs)|[_ ->]].
Qed.
Lemma guard_still {A} c e (o : op A) : still o → still (op_guard c e o).
Proof. intros Ho d. unfold op_guard. by destruct c. Qed.

Section effects.
Context `{Sha256} (limits : JournalLimits).

(** The tail of a transition after its row was updated: nothing else moves. *)
Lemma wp_tail_moved job P sts d d1 b b' run (fails : bool) st code now ev cnt at_ el err :
  batches d !! job = Some b → P b → d1 = d <| batches ::= <[job := b']> |> →
  same_contract b b' → b_status b' ∈ sts →
  wp (_ ← _add_event run ev (Some job) cnt at_ el err now;
      _ ← (if fails then _set_run_error_locked limits run st code now else mret () : M unit);
      updated ← fetch_batch job; mret (_batch_from_row updated)) (λ _ d', moved job P sts d d') d1.
Proof.
  intros Hb HP -> Hc Hst. wp_step. apply wp_event. intros d2 He.
  assert (moved job P sts d d2) as Hm.
  { exists b, b'. split_and!; try done. by rewrite <- (batches_proper _ _ He). }
  wp_step. destruct fails.
  - apply wp_set_run_error. wp_step. apply wp_fetch_batch. intros. by wp_step.
  - wp_step. wp_step. apply wp_fetch_batch. intros. by wp_step.
Qed.
Lemma ack_moves ε job token el : moves job held [BatchStatus.DONE] (ack_batch limits ε job token el).
Proof.
  apply transaction_moves. intros d. eapply wp_mono; [apply ack_result|].
  intros rec d' (b & Hb & Hl & _ & Hd & _). exists b, (ack_row (clock ε) b). split_and!; try done. by left.
Qed.
Lemma schedule_retry_moves ε job token at_ class code :
  moves job held [BatchStatus.RETRY_WAIT; BatchStatus.DEAD_LETTER] (schedule_retry limits ε job token at_ class code).
Proof.
  apply transaction_moves. intros d. wp_step. apply wp_owned_transition. intros b Hb Hl Hf. cbv zeta. wp_step.
  apply wp_update_batch.
  - intros b' Hb' _. simplify_eq. eapply wp_tail_moved; try done.
    simpl. destruct (_ <=? _)%Z; [right|]; by left.
  - intros Hn. pose proof (Hn _ Hb) as HP. rewrite Hl, (holds_fence_token _ _ _ Hf) in HP. by simpl in HP.
Qed.
Lemma block_moves ε job token class code :
  moves job held [BatchStatus.BLOCKED] (block_batch limits ε job token class code).
Proof.
  apply transaction_moves. intros d. wp_step. apply wp_owned_transition. intros b Hb Hl Hf. cbv zeta. wp_step.
  apply wp_update_batch.
  - intros b' Hb' _. simplify_eq.
    eapply (wp_tail_moved job held _ d _ b _ _ true); try done. by left.
  - intros Hn. pose proof (Hn _ Hb) as HP. rewrite Hl, (holds_fence_token _ _ _ Hf) in HP. by simpl in HP.
Qed.
Lemma backoff_moves ε job token at_ code :
  moves job held [BatchStatus.RECONCILING; BatchStatus.DEAD_LETTER]
    (schedule_reconciliation_retry limits ε job token at_ code).
Proof.
  apply transaction_moves. intros d. wp_step. apply wp_owned_transition. intros b Hb Hl Hf.
  do 2 wp_step. bool_hyps. cbv zeta. wp_step. apply wp_update_batch.
  - intros b' Hb' _. simplify_eq. eapply wp_tail_moved; try done.
    simpl. destruct (_ <=? _)%Z; [right|]; by left.
  - intros Hn. pose proof (Hn _ Hb) as HP. rewrite (holds_fence_token _ _ _ Hf) in HP. simpl in HP. congruence.
Qed.
Lemma mark_moves ε job token code :
  moves job held [BatchStatus.RECONCILING] (mark_reconciling ε job token code).
Proof.
  apply transaction_moves. intros d. wp_step. apply wp_owned_lease. intros b Hb Hl Hf. wp_step.
  apply wp_update_batch.
  - intros b' Hb' _. simplify_eq. wp_step. apply wp_event. intros d' He. wp_step. apply wp_fetch_batch.
    intros. wp_step. exists b, (b <| b_status := BatchStatus.RECONCILING |> <| b_retry_class := Some RetryClass.AMBIGUOUS |>
                  <| b_error_code := code |> <| b_updated_at := clock ε |>).
    split_and!; try done.
    + unfold held, leased_or_reconciling. by rewrite Hl.
    + by rewrite <- (batches_proper _ _ He).
    + by left.
  - intros Hn. pose proof (Hn _ Hb) as HP. rewrite Hl, (holds_fence_token _ _ _ Hf) in HP. by simpl in HP.
Qed.

Lemma close_barrier_still ε run name : still (close_barrier ε run name).
Proof.
  apply transaction_still. intros d. do 2 wp_step. wp_step; [|wp_step]. wp_step; [by wp_step|].
  do 2 wp_step. cbv zeta. wp_step. apply wp_put_barrier. wp_step.
  match goal with |- wp (match ?s with _ => _ end) _ _ => destruct s end.
  - wp_step. wp_step. apply wp_fetch_barrier. intros. by wp_step.
  - wp_step. wp_step. apply wp_fetch_barrier. intros. by wp_step.
  - apply wp_event. intros d' He. wp_step. apply wp_fetch_barrier. intros. wp_step.
    by rewrite <- (batches_proper _ _ He).
Qed.
Lemma seal_still ε run dg rc ar : still (seal_endpoint_audit ε run dg rc ar).
Proof.
  do 2 apply guard_still. apply transaction_still. intros d. unfold seal_locked. by wp_steps.
Qed.
End effects.

(** * Claims *)

Section claim_effects.
Context `{Sha256}.

(** The database between the two halves of a claim, after recovery. *)
Definition recovered_at (now : Z) (d d1 : db) : Prop := inv d1 ∧ ∀ job,
  batches d1 !! job = recovered now (expired_lease now) (expired_owner now) <$> batches d !! job.
Lemma recovered_contract now P Q b : same_contract b (recovered now P Q b).
Proof. unfold recovered. by destruct (P b), (Q b). Qed.

Definition claim_outcome (eligible : db → batch_row → bool) (f : batch_row → batch_row) (run : option string)
    (d1 : db) (r : res (option BatchRecord)) (d' : db) : Prop :=
  match r with
  | Ok None => d' = d1 ∧ next_row eligible run d1 = None
  | Ok (Some rec) => ∃ b, rec = _batch_from_row (f b) ∧ batches d1 !! b_job_id b = Some b ∧
      eligible d1 b = true ∧ in_scope run b = true ∧ batches d' = <[b_job_id b := f b]> (batches d1)
  | Err _ => False
  end.
Lemma claim_first_effect ε eligible run guard f ev d r d' :
  inv d → (∀ d b, eligible d b = true → guard b = true) →
  transaction (claim_first ε eligible run guard f ev) d = (r, d') →
  ∃ d1, recovered_at (clock ε) d d1 ∧ claim_outcome eligible f run d1 r d'.
Proof.
  intros Hi Hg Ht. destruct (recover_expired_spec d ε Hi) as (n & d1 & Hrec & Hi1 & Hl).
  destruct (claim_first_spec ε eligible run guard f ev d Hi Hg) as (n' & d1' & Hrec' & _ & Hm).
  rewrite Hrec in Hrec'. injection Hrec' as <- <-. exists d1. split; [done|].
  destruct (next_row eligible run d1) as [b|] eqn:Hn.
  - destruct Hm as (d2 & E & He). rewrite E in Ht. injection Ht as <- <-.
    destruct (next_row_spec _ _ _ _ Hi1 Hn) as (Hb & Hel & Hs & _). exists b. split_and!; try done.
    by rewrite <- (batches_proper _ _ He).
  - rewrite Hm in Ht. by injection Ht as <- <-.
Qed.
(** A queue claim with any lease: refused at once, or the outcome above. *)
Definition claim_effect (now : Z) (eligible : db → batch_row → bool) (f : batch_row → batch_row)
    (run : option string) (d : db) (r : res (option BatchRecord)) (d' : db) : Prop :=
  (r = Err ValueError ∧ d' = d) ∨ ∃ d1, recovered_at now d d1 ∧ claim_outcome eligible f run d1 r d'.
Lemma claim_batch_effect ε run secs d r d' : inv d → claim_batch ε run secs d = (r, d') →
  claim_effect (clock ε) (claimable (clock ε)) (lease_batch ε secs) run d r d'.
Proof.
  intros Hi. unfold claim_batch, op_guard. destruct (secs <=? 0)%Z; [intros [= <- <-]; by left|].
  intros Ht. right. eapply claim_first_effect; [done| |exact Ht]. intros. by eapply claimable_executable.
Qed.
Lemma claim_reconciling_effect ε run secs d r d' : inv d → claim_reconciling ε run secs d = (r, d') →
  claim_effect (clock ε) (reconcilable (clock ε)) (fence_batch ε secs) run d r d'.
Proof.
  intros Hi. unfold claim_reconciling, op_guard. destruct (secs <=? 0)%Z; [intros [= <- <-]; by left|].
  intros Ht. right. eapply claim_first_effect; [done| |exact Ht]. intros. by eapply reconcilable_unowned.
Qed.

(** Recovery of one run at startup never fails. *)
Lemma recover_run_effect ε run d : inv d → ∃ P Q n d',
  recover_run_leases_as_ambiguous ε run d = (Ok n, d') ∧
  ∀ job, batches d' !! job = recovered (clock ε) P Q <$> batches d !! job.
Proof.
  intros Hi. destruct (recover_two d (clock ε) (λ b, b_in_run run b && b_is BatchStatus.LEASED b)
    (λ b, b_in_run run b && b_is BatchStatus.RECONCILING b && owned b)
    "lease_recovered_as_ambiguous" "reconciliation_ownership_recovered" Hi) as (n & d' & Ht & Hl).
  - intros b Hb. by bool_hyps.
  - intros b Hb. by bool_hyps.
  - intros b. unfold owned. simpl. by rewrite andb_false_r.
  - by exists (λ b, b_in_run run b && b_is BatchStatus.LEASED b),
      (λ b, b_in_run run b && b_is BatchStatus.RECONCILING b && owned b), n, d'.
Qed.

(** ** Rows that were not acknowledged stay so *)

(** Every row of [d'] continues one of [d], and is done only if that was. *)
Definition carried (d d' : db) : Prop := ∀ job b', batches d' !! job = Some b' →
  ∃ b, batches d !! job = Some b ∧ same_contract b b' ∧ (b_status b' = BatchStatus.DONE → b_status b = BatchStatus.DONE).
#[export] Instance carried_preorder : PreOrder carried.
Proof.
  split; [intros d job b Hb; by exists b|]. intros d1 d2 d3 H12 H23 job b3 H3.
  destruct (H23 _ _ H3) as (b2 & H2 & Hc2 & Hs2). destruct (H12 _ _ H2) as (b1 & H1 & Hc1 & Hs1).
  exists b1. split; [done|]. split; [by etrans|auto].
Qed.
Lemma carried_same d d' : batches d' = batches d → carried d d'.
Proof. intros Hd job b Hb. rewrite Hd in Hb. by exists b. Qed.
Lemma carried_recovered now P Q d d' :
  (∀ job, batches d' !! job = recovered now P Q <$> batches d !! job) → carried d d'.
Proof.
  intros Hl job b' Hb'. rewrite Hl in Hb'. destruct (batches d !! job) as [b|]; [|done]. injection Hb' as <-.
  exists b. split; [done|]. split; [apply recovered_contract|]. unfold recovered. by destruct (P b), (Q b).
Qed.
Lemma carried_insert job b b' d d' : batches d !! job = Some b → batches d' = <[job := b']> (batches d) →
  same_contract b b' → b_status b' ≠ BatchStatus.DONE → carried d d'.
Proof.
  intros Hb Hd Hc Hs job' x Hx. rewrite Hd, lookup_insert in Hx. case_decide; simplify_eq; [by exists b|by exists x].
Qed.
Lemma carried_moved job P sts d d' : moved job P sts d d' → BatchStatus.DONE ∉ sts → carried d d'.
Proof. intros (b & b' & Hb & _ & Hd & Hc & Hs) Hn. eapply carried_insert; try done. congruence. Qed.
(** The claimed row: in the journal as returned, of the run, and not done. *)
Definition claimed_row (run : string) (rec : BatchRecord) (d : db) : Prop := ∃ b,
  batches d !! br_job_id rec = Some b ∧ rec = _batch_from_row b ∧ b_run_id b = run ∧ b_status b ≠ BatchStatus.DONE.
Lemma claim_carried now eligible f run d r d' :
  (∀ d b, eligible d b = true → same_contract b (f b) ∧ b_status (f b) ≠ BatchStatus.DONE) →
  claim_effect now eligible f (Some run) d r d' →
  carried d d' ∧ ∀ rec, r = Ok (Some rec) → claimed_row run rec d'.
Proof.
  intros Hf [[-> ->]|(d1 & [_ Hl] & Hout)]; [done|]. pose proof (carried_recovered _ _ _ _ _ Hl) as Hc.
  destruct r as [[rec|]|]; [|by destruct Hout as [-> _]|done].
  destruct Hout as (b & -> & Hb & He & Hs & Hd). destruct (Hf _ _ He) as [Hcon Hst]. split.
  - etrans; [exact Hc|]. by eapply carried_insert.
  - intros rec [= <-]. exists (f b). pose proof (same_contract_job _ _ Hcon) as Hj. cbn [br_job_id _batch_from_row].
    rewrite Hj, Hd, lookup_insert_eq. split_and!; try done. rewrite (same_contract_run _ _ Hcon).
    unfold in_scope, b_in_run in Hs. by bool_hyps.
Qed.
Lemma lease_carries ε secs d b : claimable (clock ε) d b = true →
  same_contract b (lease_batch ε secs b) ∧ b_status (lease_batch ε secs b) ≠ BatchStatus.DONE.
Proof. done. Qed.
Lemma fence_carries ε secs d b : reconcilable (clock ε) d b = true →
  same_contract b (fence_batch ε secs b) ∧ b_status (fence_batch ε secs b) ≠ BatchStatus.DONE.
Proof.
  intros Hr. split; [done|]. unfold reconcilable in Hr. bool_hyps. simpl. unfold b_is in *. bool_hyps. congruence.
Qed.
End claim_effects.
