(* ===== verification/Journal.v ===== *)
(** The journal as a system: the calls its clients make, the databases they can
    reach, and the proof that every call is a sequence of atomic steps. *)
From S2P Require Import Prelude Json PyValue Models Identity Retry Db Manifest ArtifactApi Store Staging Transitions Boundary Admin Steps Invariant Refinement RefinementRuns.

(** The state-changing methods of [SQLiteJournal], with their arguments. *)
Inductive call : Type :=
  | COpenRun (m : RunMetadata) (expected_items expected_bytes : Z)
  | CQuarantineLegacyTargets (m : RunMetadata) (targets : list string)
  | CRecoverExpiredLeases
  | CRecoverRunLeases (run : string)
  | CEnqueue (run : string) (spec : BatchSpec)
  | COpenBarrier (run name : string)
  | CCloseBarrier (run name : string)
  | CClaim (run : option string) (lease_seconds : Z)
  | CClaimJob (job : string) (lease_seconds : Z)
  | CClaimReconciling (run : option string) (lease_seconds : Z)
  | CClaimReconcilingJob (job : string) (lease_seconds : Z)
  | CRenew (job token : string) (lease_seconds : Z)
  | CAck (job token : string) (elapsed_ms : option Z)
  | CMarkReconciling (job token : string) (code : option TerminalErrorCode)
  | CScheduleRetry (job token : string) (retry_at : Z) (class : RetryClass) (code : TerminalErrorCode)
  | CScheduleReconciliationRetry (job token : string) (retry_at : Z) (code : TerminalErrorCode)
  | CBlock (job token : string) (class : RetryClass) (code : TerminalErrorCode)
  | CCompleteProducers (run : string)
  | CSealEndpointAudit (run : string) (digest : option string) (receipts rows : option Z)
  | CCloseRunProduction (run : string)
  | CPurge (run : string) (ownership_confirmed : bool) (now : option Z).

Definition is_purge (c : call) : bool := match c with CPurge _ _ _ => true | _ => false end.

Section journal.
Context `{Sha256} {FS : Type} `{!ArtifactApi FS} (limits : JournalLimits).

(** The database after one call, made in environment [ε] with artifact files [fs]. *)
Definition exec (ε : env) (fs : FS) (c : call) (d : db) : db :=
  match c with
  | COpenRun m n k => (open_run limits ε m n k d).2
  | CQuarantineLegacyTargets m ts => (quarantine_legacy_targets limits ε m ts d).2
  | CRecoverExpiredLeases => (recover_expired_leases ε d).2
  | CRecoverRunLeases run => (recover_run_leases_as_ambiguous ε run d).2
  | CEnqueue run spec => (enqueue_batch limits fs ε run spec d).2
  | COpenBarrier run name => (open_barrier ε run name d).2
  | CCloseBarrier run name => (close_barrier ε run name d).2
  | CClaim run secs => (claim_batch ε run secs d).2
  | CClaimJob job secs => (claim_job ε job secs d).2
  | CClaimReconciling run secs => (claim_reconciling ε run secs d).2
  | CClaimReconcilingJob job secs => (claim_reconciling_job ε job secs d).2
  | CRenew job token secs => (renew_lease ε job token secs d).2
  | CAck job token el => (ack_batch limits ε job token el d).2
  | CMarkReconciling job token code => (mark_reconciling ε job token code d).2
  | CScheduleRetry job token at_ class code => (schedule_retry limits ε job token at_ class code d).2
  | CScheduleReconciliationRetry job token at_ code =>
      (schedule_reconciliation_retry limits ε job token at_ code d).2
  | CBlock job token class code => (block_batch limits ε job token class code d).2
  | CCompleteProducers run => (complete_producers ε run d).2
  | CSealEndpointAudit run dg rc ar => (seal_endpoint_audit ε run dg rc ar d).2
  | CCloseRunProduction run => (close_run_production limits ε run d).2
  | CPurge run conf now => (purge_run ε run conf now (d, fs)).2.1
  end.

(** Any number of calls, each in its own environment; [P] restricts the calls. *)
Inductive calls (P : call → Prop) (d : db) : db → Prop :=
  | calls_nil : calls P d d
  | calls_snoc ε fs c d' : calls P d d' → P c → calls P d (exec ε fs c d').
(** The database of a fresh journal. *)
Definition initial : db := empty_db <| user_version := JOURNAL_SCHEMA_VERSION |>.
Definition reachable (d : db) : Prop := calls (λ _, True) initial d.

Lemma initial_inv : inv initial.
Proof. split; intros *; cbn; by rewrite lookup_empty. Qed.

(** ** Every call but the purge is a sequence of atomic steps *)

Lemma refines_exec {A} (o : op A) d : inv d → refines o → steps d (o d).2.
Proof. intros Hi Ho. destruct (o d) as [r d'] eqn:E. by eapply Ho. Qed.
Lemma exec_steps ε fs c d : inv d → is_purge c = false → steps d (exec ε fs c d).
Proof.
  intros Hi Hp. destruct c; try done; simpl; apply refines_exec; try done.
  - apply open_run_refines.
  - apply quarantine_legacy_targets_refines.
  - apply recover_expired_leases_refines.
  - apply recover_run_leases_refines.
  - apply enqueue_batch_refines.
  - apply open_barrier_refines.
  - apply close_barrier_refines.
  - apply claim_batch_refines.
  - apply claim_job_refines.
  - apply claim_reconciling_refines.
  - apply claim_reconciling_job_refines.
  - apply renew_lease_refines.
  - apply ack_batch_refines.
  - apply mark_reconciling_refines.
  - apply schedule_retry_refines.
  - apply schedule_reconciliation_retry_refines.
  - apply block_batch_refines.
  - apply complete_producers_refines.
  - apply seal_endpoint_audit_refines.
  - apply close_run_production_refines.
Qed.

(** ** The purge deletes one terminal run, or nothing *)

Lemma purge_begin_wp now run d :
  wp (purge_begin now run) (λ o d', d ≈ d' ∧ match o with
    | Some _ => purge_step d (delete_run run d) ∧ ∃ r, runs d !! run = Some r ∧
                  is_terminal_run (r_status r) = true ∧ (r_retention_until r ≤ now)%Z
    | None => runs d !! run = None ∧ d' = d
    end) d.
Proof.
  unfold purge_begin. do 2 wp_step. destruct (runs d !! run) as [r|] eqn:Hr; [|by wp_step].
  do 6 wp_step. bool_hyps. cbv zeta.
  assert (purge_step d (delete_run run d)) as Hp by (by eapply ps_purge).
  assert (∃ r0, Some r = Some r0 ∧ is_terminal_run (r_status r0) = true ∧ (r_retention_until r0 ≤ now)%Z) as Hx by eauto.
  do 2 wp_step.
  - by do 2 wp_step.
  - apply wp_event. intros d' He. by wp_step.
Qed.
Lemma delete_run_equiv run d d' : d ≈ d' → delete_run run d ≈ delete_run run d'.
Proof.
  assert (∀ x, forget (delete_run run x) = forget (delete_run run (forget x))) as Hf by reflexivity.
  unfold db_equiv. intros He. by rewrite (Hf d), (Hf d'), He.
Qed.
Lemma exec_purge ε fs run conf now d :
  let d' := exec ε fs (CPurge run conf now) d in
  d ≈ d' ∨ (conf = true ∧ purge_step d (delete_run run d) ∧ delete_run run d ≈ d' ∧
    ∃ r, runs d !! run = Some r ∧ is_terminal_run (r_status r) = true ∧ (r_retention_until r ≤ default (clock ε) now)%Z).
Proof.
  simpl. unfold purge_run. destruct conf; simpl; [|by left].
  destruct (transaction (purge_begin (default (clock ε) now) run) d) as [r d1] eqn:Ht.
  destruct (transaction_wp _ _ _ _ _ (purge_begin_wp (default (clock ε) now) run d) Ht) as [(o & -> & He & Hp)|[[e ->] ->]]; [|by left].
  destruct o as [refs|]; [|by left]. destruct (remove_all refs fs) as [[|e] fs']; [|by left].
  right. simpl. destruct Hp as [Hp Hr]. split_and!; [done|done| |done].
  unfold transaction. simpl. by apply delete_run_equiv.
Qed.

Lemma exec_inv ε fs c d : inv d → inv (exec ε fs c d).
Proof.
  intros Hi. destruct (is_purge c) eqn:Hp.
  - destruct c as [| | | | | | | | | | | | | | | | | | | |run conf now]; try done.
    destruct (exec_purge ε fs run conf now d) as [He|(_ & Hps & He & _)]; [by eapply inv_equiv|].
    eapply inv_equiv; [exact He|]. by eapply purge_inv.
  - eapply steps_inv; [done|]. by apply exec_steps.
Qed.
Lemma calls_inv P d d' : inv d → calls P d d' → inv d'.
Proof. intros Hi. induction 1; [done|]. by apply exec_inv. Qed.
Lemma reachable_inv d : reachable d → inv d.
Proof. apply calls_inv, initial_inv. Qed.

(** Induction for what every atomic step and every purge preserve. *)
Lemma calls_preserve (P : call → Prop) (J : db → Prop) d d' :
  (∀ d1 d2, inv d1 → J d1 → jstep d1 d2 → J d2) → (∀ d1 d2, inv d1 → J d1 → purge_step d1 d2 → J d2) →
  (∀ d1 d2, d1 ≈ d2 → J d1 → J d2) → inv d → J d → calls P d d' → J d'.
Proof.
  intros Hj Hp He Hi H0 Hc. induction Hc as [|ε fs c d1 Hc IH Hpc]; [done|].
  pose proof (calls_inv _ _ _ Hi Hc) as Hi1. destruct (is_purge c) eqn:Hpu.
  - destruct c as [| | | | | | | | | | | | | | | | | | | |run conf now]; try done.
    destruct (exec_purge ε fs run conf now d1) as [Heq|(_ & Hps & Heq & _)]; [by eapply He|].
    eapply He; [exact Heq|]. by eapply Hp.
  - pose proof (exec_steps ε fs c d1 Hi1 Hpu) as Hs. clear Hpu Hpc Hc. revert Hi1 IH.
    induction Hs as [d1 d2 Heq|d1 d2 d3 d4 Hs IHs Hj' Heq]; intros Hi1 IH; [by eapply He|].
    eapply He; [exact Heq|]. eapply Hj; [by eapply steps_inv| |exact Hj']. by apply IHs.
Qed.
Lemma steps_preserve (J : db → Prop) d d' :
  (∀ d1 d2, inv d1 → J d1 → jstep d1 d2 → J d2) → (∀ d1 d2, d1 ≈ d2 → J d1 → J d2) →
  inv d → J d → steps d d' → J d'.
Proof.
  intros Hj He Hi H0 Hs. induction Hs as [d d' Heq|d d1 d2 d3 Hs IH Hj' Heq]; [by eapply He|].
  eapply He; [exact Heq|]. eapply Hj; [by eapply steps_inv| |exact Hj']. by apply IH.
Qed.
Lemma calls_steps (P : call → Prop) d d' :
  (∀ c, P c → is_purge c = false) → inv d → calls P d d' → steps d d'.
Proof.
  intros HP Hi Hc. induction Hc as [|ε fs c d1 Hc IH Hpc]; [by apply steps_refl|].
  eapply steps_trans; [exact IH|]. apply exec_steps; [by eapply calls_inv|by apply HP].
Qed.

(** ** What no call but a purge undoes *)

Lemma done_stays d d' job b :
  inv d → batches d !! job = Some b → b_status b = BatchStatus.DONE → steps d d' → batches d' !! job = Some b.
Proof.
  intros Hi Hb Hd Hs. apply (steps_preserve (λ d, batches d !! job = Some b) d); [| |done..].
  - intros d1 d2 _ H1 Hj. destruct (jstep_row _ _ _ _ Hj H1) as (b' & Hb' & Hm).
    by rewrite (row_move_done _ _ _ Hd Hm) in Hb'.
  - intros d1 d2 He. by rewrite (batches_proper _ _ He).
Qed.
Lemma terminal_run_move d run r r' :
  run_move d run r r' → is_terminal_run (r_status r) = true → is_terminal_run (r_status r') = true.
Proof.
  destruct 1 as [|???? ?? Hst|??? Ho|?? Hd|? Ho|??? Ha]; cbn; try done.
  - by destruct Hst as [-> | ->].
  - by rewrite Ho.
Qed.
Lemma terminal_stays d d' run r :
  inv d → runs d !! run = Some r → is_terminal_run (r_status r) = true → steps d d' →
  ∃ r', runs d' !! run = Some r' ∧ is_terminal_run (r_status r') = true.
Proof.
  intros Hi Hr Ht Hs.
  apply (steps_preserve (λ d, ∃ r, runs d !! run = Some r ∧ is_terminal_run (r_status r) = true) d); [| |done|eauto|done].
  - intros d1 d2 _ (r1 & Hr1 & Ht1) Hj. destruct (jstep_run _ _ _ _ Hj Hr1) as (r2 & Hr2 & Hm).
    exists r2. split; [done|]. by eapply terminal_run_move.
  - intros d1 d2 He. by rewrite (runs_proper _ _ He).
Qed.
(** A drained run is not touched again, nor are its batches. *)
Lemma drained_move d run r r' :
  inv d → runs d !! run = Some r → r_status r = RunStatus.DRAINED → run_move d run r r' → r' = r.
Proof.
  intros Hi Hr Hd Hm. destruct Hm as [|status code now until job b Hst Hb Hrun Hl|??? Ho|?? Hdr|? Ho|??? Ha]; try done; try congruence.
  - destruct (inv_batch _ Hi _ _ Hb) as (r' & Hr' & _ & Hdone). rewrite Hrun in Hr'. simplify_eq.
    apply leased_or_reconciling_spec in Hl. specialize (Hdone Hd). rewrite Hdone in Hl. by destruct Hl.
  - by rewrite Hd in Ha.
Qed.
Lemma drained_stays d d' run r :
  inv d → runs d !! run = Some r → r_status r = RunStatus.DRAINED → steps d d' → runs d' !! run = Some r.
Proof.
  intros Hi Hr Hd Hs. apply (steps_preserve (λ d, runs d !! run = Some r) d); [| |done..].
  - intros d1 d2 Hi1 H1 Hj. destruct (jstep_run _ _ _ _ Hj H1) as (r2 & Hr2 & Hm).
    by rewrite (drained_move _ _ _ _ Hi1 H1 Hd Hm) in Hr2.
  - intros d1 d2 He. by rewrite (runs_proper _ _ He).
Qed.
End journal.
