(* ===== verification/Artifacts.v ===== *)
(** The content-addressed payload files of
    [code-tiny/tools/graph/journal/artifacts.py]: atomic writes under a root
    directory, verification against an immutable reference, and reading back.
    Every system call may fail; what the directory held after each of them is
    kept, because the process may die there. *)
From S2P Require Import Prelude Json Text PyValue Models Identity Db Manifest ArtifactApi Store.

(** * Errors and the file system *)

(** [OSError.errno], as far as the code distinguishes it. *)
Inductive errno : Type := ENOSPC | EDQUOT | EACCES | EPERM | EROFS | EOTHER.
(** [_translate_os_error] *)
Definition _translate_os_error (e : errno) : exn :=
  JournalError match e with
  | ENOSPC | EDQUOT => TerminalErrorCode.DISK_FULL
  | EACCES | EPERM | EROFS => TerminalErrorCode.PERMISSION_DENIED
  | EOTHER => TerminalErrorCode.INVALID_CONTRACT
  end.

(** A path below the root, by components; the files there and their contents. *)
Abbreviation path := (list string).
Abbreviation tree := (gmap (list string) string).
(** The files, how many system calls were made, and what was there after each
    of them, the latest first. *)
Record volume := MkVolume { vol_files : tree; vol_calls : nat; vol_seen : list tree }.
(** What the host decides: which calls fail, how much of a failing write was
    done, the free space, and the names of temporary files. *)
Record host := MkHost {
  h_fault : nat → option errno; h_torn : nat → nat; h_free : Z; h_nonce : string;
}.
Inductive failure : Type := Os (e : errno) | Raised (e : exn).
Definition io (A : Type) : Type := volume → result failure A * volume.
#[export] Instance io_ret : MRet io := λ A a v, (Ok a, v).
#[export] Instance io_bind : MBind io := λ A B f m v,
  match m v with (Ok a, v') => f a v' | (Err e, v') => (Err e, v') end.
Definition io_raise {A} (e : exn) : io A := λ v, (Err (Raised e), v).
Definition io_os {A} (e : errno) : io A := λ v, (Err (Os e), v).
Definition io_lift {A} (r : res A) : io A := λ v, (match r with Ok a => Ok a | Err e => Err (Raised e) end, v).
Definition io_get : io tree := λ v, (Ok (vol_files v), v).
(** [try: m except JournalError: raise except OSError as exc: raise f(exc)] *)
Definition translating {A} (f : errno → exn) (m : io A) : io A := λ v,
  match m v with (Err (Os e), v') => (Err (Raised (f e)), v') | x => x end.
(** [try: m finally: f] for a cleanup [f] that swallows [OSError]. *)
Definition finally {A} (m : io A) (f : io unit) : io A := λ v,
  let '(r, v1) := m v in let '(r2, v2) := f v1 in
  (match r2 with Err (Raised e) => Err (Raised e) | _ => r end, v2).
(** [except OSError: pass] *)
Definition ignoring_os (m : io unit) : io unit := λ v,
  match m v with (Err (Os _), v') => (Ok (), v') | x => x end.

Section store.
Context `{Sha256} (h : host).

(** A system call: it fails, leaving what [partial] makes of the files, or it
    does [effect]. *)
Definition syscall (partial effect : tree → tree) : io unit := λ v,
  let finish r files := (r, MkVolume files (S (vol_calls v)) (files :: vol_seen v)) in
  match h_fault h (vol_calls v) with
  | Some e => finish (Err (Os e)) (partial (vol_files v))
  | None => finish (Ok ()) (effect (vol_files v))
  end.
(** A call with no effect on the files: [mkdir], [chmod], [stat], [fsync]. *)
Definition touch_host : io unit := syscall id id.
(** [os.open(p, O_WRONLY | O_CREAT | O_EXCL)] *)
Definition open_exclusive (p : path) : io unit :=
  files ← io_get;
  match files !! p with
  | Some _ => io_os EOTHER
  | None => syscall id <[p := ""]>
  end.
(** [handle.write(data)]: a failing write may leave a prefix. *)
Definition write (p : path) (data : string) : io unit := λ v,
  let append s files := match files !! p with Some old => <[p := old +:+ s]> files | None => files end in
  syscall (append (take (h_torn h (vol_calls v)) data)) (append data) v.
(** [os.replace(p, q)] *)
Definition replace (p q : path) : io unit :=
  syscall id (λ files, match files !! p with Some s => <[q := s]> (delete p files) | None => files end).
(** [p.unlink(missing_ok=True)] *)
Definition unlink (p : path) : io unit := syscall id (delete p).
(** [p.open("rb")] and reading it all *)
Definition read_file (p : path) : io string :=
  _ ← touch_host;
  files ← io_get;
  match files !! p with Some s => mret s | None => io_os EOTHER end.

(** * [ArtifactStore] *)

(** [self.root], resolved, and the configured limits. *)
Context (root : path) (max_artifact_bytes min_free_bytes : Z).
Definition unsafe_placement : exn := JournalError TerminalErrorCode.UNSAFE_PLACEMENT.
Definition disk_full : exn := JournalError TerminalErrorCode.DISK_FULL.
Definition admission_rejected : exn := JournalError TerminalErrorCode.ADMISSION_REJECTED.
Definition hash_mismatch : exn := JournalError TerminalErrorCode.ARTIFACT_HASH_MISMATCH.

(** [Path(run_id).name]: the last component, if there is one. *)
Definition path_name (s : string) : string :=
  match last (posix_parts s) with
  | Some p => if startswith "/" p then EmptyString else p
  | None => EmptyString
  end.
(** The guards of [_run_directory] on the name; directories are not modelled
    beyond the calls that make them. *)
Definition _run_directory (run_id : string) : io string :=
  if is_empty run_id || negb (String.eqb (path_name run_id) run_id) then io_raise unsafe_placement
  else if in_list run_id ["."; ".."] then io_raise unsafe_placement
  else translating _translate_os_error (_ ← touch_host; _ ← touch_host; _ ← touch_host; mret run_id).
(** [_admit] *)
Definition _admit_artifact (byte_count : Z) : io unit :=
  if (max_artifact_bytes <? byte_count)%Z then io_raise admission_rejected
  else if (h_free h - byte_count <? min_free_bytes)%Z then io_raise disk_full
  else mret ().

(** [Path.resolve()] of a path below the root: there are no symbolic links. *)
Definition resolve_parts (parts : list string) : path :=
  let '(start, parts) := match parts with
    | p :: ps => if startswith "/" p then ([], ps) else (root, parts)
    | [] => (root, []) end in
  fold_left (λ acc p, if String.eqb p ".." then removelast acc else acc ++ [p]) parts start.
(** [path.relative_to(self.root)] *)
Fixpoint below (base p : path) : option path :=
  match base, p with
  | [], _ => Some p
  | b :: base, x :: p => if String.eqb b x then below base p else None
  | _ :: _, [] => None
  end.
Definition path_for (ref : ArtifactRef) : res path :=
  match below root (resolve_parts (posix_parts (relative_path ref))) with
  | Some p => Ok p
  | None => Err unsafe_placement
  end.

Definition verify_content (ref : ArtifactRef) (payload : string) : res unit :=
  if negb (Z.of_nat (String.length payload) =? byte_count ref)%Z
     || negb (String.eqb (sha256_hex payload) (sha256 ref)) then Err hash_mismatch else Ok ().
Definition verify (ref : ArtifactRef) : io path :=
  p ← io_lift (path_for ref);
  payload ← translating _translate_os_error (read_file p);
  _ ← io_lift (verify_content ref payload);
  mret p.

Definition newline : string := String (Ascii.ascii_of_nat 10) EmptyString.
Definition encode_row (row : json) : string := canonical_json row +:+ newline.
Definition target_name (digest : string) : string := digest +:+ ".jsonl".
Definition relative_name (run_id digest : string) : string := run_id +:+ "/" +:+ target_name digest.

(** The loop over the rows: bytes and rows so far, and what was hashed. *)
Fixpoint write_rows (temp : path) (byte_limit : Z) (rows : list json) (bytes count : Z) (hashed : string)
    : io (Z * Z * string) :=
  match rows with
  | [] => mret (bytes, count, hashed)
  | row :: rows =>
      let encoded := encode_row row in
      let bytes := (bytes + Z.of_nat (String.length encoded))%Z in
      if (byte_limit <? bytes)%Z
      then io_raise (if (max_artifact_bytes <? bytes)%Z then admission_rejected else disk_full)
      else
        _ ← write temp encoded;
        write_rows temp byte_limit rows bytes (count + 1) (hashed +:+ encoded)
  end.
(** [os.replace], [os.chmod], [_fsync_directory] *)
Definition publish_payload (temp target : path) : io unit :=
  _ ← replace temp target; _ ← touch_host; touch_host.
(** [temp.unlink(missing_ok=True)], errors ignored *)
Definition discard (temp : path) : io unit := ignoring_os (unlink temp).

Definition write_jsonl (run : string) (rows : list json) : io ArtifactRef :=
  run_dir ← _run_directory run;
  let temp := [run_dir; ".payload." +:+ h_nonce h +:+ ".tmp"] in
  if (h_free h <? min_free_bytes)%Z then io_raise disk_full
  else
    let available := Z.max 0 (h_free h - min_free_bytes) in
    let byte_limit := Z.min max_artifact_bytes available in
    finally (translating _translate_os_error (
      _ ← open_exclusive temp;
      '(bytes, count, hashed) ← write_rows temp byte_limit rows 0 0 "";
      _ ← touch_host;
      let digest := sha256_hex hashed in
      let target := [run_dir; target_name digest] in
      let ref := MkArtifactRef digest (relative_name run_dir digest) bytes count in
      files ← io_get;
      _ ← (match files !! target with
           | Some _ => _ ← verify ref; mret ()
           | None => publish_payload temp target
           end);
      mret ref)) (discard temp).

Definition write_bytes (run : string) (payload : string) (row_count : Z) : io ArtifactRef :=
  if (row_count <? 0)%Z then io_raise ValueError
  else
    _ ← _admit_artifact (Z.of_nat (String.length payload));
    let digest := sha256_hex payload in
    run_dir ← _run_directory run;
    let target := [run_dir; target_name digest] in
    let ref := MkArtifactRef digest (relative_name run_dir digest) (Z.of_nat (String.length payload)) row_count in
    files ← io_get;
    match files !! target with
    | Some _ => _ ← verify ref; mret ref
    | None =>
        let temp := [run_dir; "." +:+ digest +:+ "." +:+ h_nonce h +:+ ".tmp"] in
        _ ← finally (translating _translate_os_error (
          _ ← open_exclusive temp; _ ← write temp payload; _ ← touch_host; publish_payload temp target)) (discard temp);
        mret ref
    end.

(** Text mode: the lines of a payload, under universal newlines. *)
Fixpoint lines (cur s : string) : list string :=
  match s with
  | EmptyString => if is_empty cur then [] else [cur]
  | String c s' =>
      if Ascii.eqb c (Ascii.ascii_of_nat 10) then cur :: lines "" s'
      else if Ascii.eqb c (Ascii.ascii_of_nat 13) then
        match s' with
        | String c' s'' => if Ascii.eqb c' (Ascii.ascii_of_nat 10) then cur :: lines "" s'' else cur :: lines "" s'
        | EmptyString => [cur]
        end
      else lines (cur +:+ String c EmptyString) s'
  end.
(** [[json.loads(line) for line in handle if line.strip()]] *)
Definition decode_rows (payload : string) : res (list json) :=
  foldr (λ line acc,
    rows ← acc;
    match loads line with Some v => Ok (v :: rows) | None => Err hash_mismatch end)
    (Ok []) (List.filter (λ line, negb (is_empty (strip line))) (lines "" payload)).
Definition read_jsonl (ref : ArtifactRef) : io (list json) :=
  p ← verify ref;
  payload ← translating (λ _, hash_mismatch) (read_file p);
  rows ← io_lift (decode_rows payload);
  if negb (Z.of_nat (length rows) =? row_count ref)%Z then io_raise hash_mismatch else mret rows.

(** [remove]: the payload, its directory if that is now empty, and a sync. *)
Definition remove (ref : ArtifactRef) : io unit :=
  p ← io_lift (path_for ref);
  translating _translate_os_error (
    _ ← unlink p;
    _ ← (match p with _ :: _ :: _ => ignoring_os touch_host | _ => mret () end);
    touch_host).
End store.
