(* ===== verification/ArtifactSafety.v ===== *)
(** What the payload files guarantee: at every instant a payload is absent or
    complete and never changes, a written payload is read back, and its
    reference is one that [enqueue_batch] accepts. *)
From S2P Require Import Prelude Json Text PyValue Models Identity Db Manifest ArtifactApi Store Artifacts.

(** * Names *)

Definition no_slash (s : string) : bool := all_chars (λ c, negb (Ascii.eqb c "/")) s.
Lemma split_slash_plain cur a : no_slash a = true → split_slash cur a = [cur +:+ a].
Proof.
  revert cur. induction a as [|c a IH]; intros cur Ha; [by rewrite str_app_nil_r|].
  unfold no_slash in Ha. simpl in Ha. apply andb_true_iff in Ha as [Hc Ha]. apply negb_true_iff in Hc.
  simpl. rewrite Hc, IH by done. by rewrite str_app_assoc, str_app_cons, str_app_nil_l.
Qed.
Lemma split_slash_sep cur a b : no_slash a = true →
  split_slash cur (a +:+ "/" +:+ b) = (cur +:+ a) :: split_slash "" b.
Proof.
  revert cur. induction a as [|c a IH]; intros cur Ha.
  - rewrite str_app_nil_l, str_app_cons, str_app_nil_l, str_app_nil_r. done.
  - unfold no_slash in Ha. simpl in Ha. apply andb_true_iff in Ha as [Hc Ha]. apply negb_true_iff in Hc.
    rewrite str_app_cons. cbn [split_slash]. rewrite Hc, IH by done. by rewrite str_app_assoc, str_app_cons, str_app_nil_l.
Qed.
Lemma split_slash_parts cur s p : no_slash cur = true → p ∈ split_slash cur s → no_slash p = true.
Proof.
  revert cur. induction s as [|c s IH]; intros cur Hc Hp; cbn [split_slash] in Hp.
  - by apply list_elem_of_singleton in Hp as ->.
  - destruct (Ascii.eqb c "/") eqn:E.
    + apply elem_of_cons in Hp as [->|Hp]; [done|]. by apply (IH "").
    + apply (IH (cur +:+ String c EmptyString)); [|done]. unfold no_slash in *. rewrite all_chars_app, Hc. simpl. by rewrite E.
Qed.
(** A name that [_run_directory] lets through is one plain component. *)
Definition plain_name (s : string) : Prop := no_slash s = true ∧ s ≠ "" ∧ s ≠ "." ∧ s ≠ "..".
Lemma startswith_cons a p c s : startswith (String a p) (String c s) = Ascii.eqb a c && startswith p s.
Proof.
  unfold startswith. cbn [String.prefix]. destruct (ascii_dec a c) as [<-|Hn]; [by rewrite Ascii.eqb_refl|].
  by apply Ascii.eqb_neq in Hn as ->.
Qed.
Lemma plain_start s p : no_slash s = true → s ≠ "" → startswith (String "/" p) (s) = false.
Proof.
  destruct s as [|c s]; [done|]. unfold no_slash. cbn [all_chars]. intros [Hc _]%andb_true_iff _.
  rewrite startswith_cons, Ascii.eqb_sym. by apply negb_true_iff in Hc as ->.
Qed.
Lemma plain_start_app s p t : no_slash s = true → s ≠ "" → startswith (String "/" p) (s +:+ t) = false.
Proof.
  destruct s as [|c s]; [done|]. unfold no_slash. cbn [all_chars]. intros [Hc _]%andb_true_iff _.
  rewrite str_app_cons, startswith_cons, Ascii.eqb_sym. by apply negb_true_iff in Hc as ->.
Qed.
Lemma plain_parts s : plain_name s → posix_parts s = [s].
Proof.
  intros (Hs & H1 & H2 & _). unfold posix_parts. rewrite split_slash_plain by done. rewrite str_app_nil_l.
  rewrite !plain_start by done.
  simpl. unfold is_empty. apply String.eqb_neq in H1, H2. by rewrite H1, H2.
Qed.
Lemma run_directory_plain h run a v v' : _run_directory h run v = (Ok a, v') → plain_name run ∧ a = run.
Proof.
  unfold _run_directory. destruct (is_empty run) eqn:He; [done|]. destruct (String.eqb (path_name run) run) eqn:Hn; [|done].
  cbn [orb negb]. destruct (in_list run ["."; ".."]) eqn:Hd; [done|]. intros Hr. split.
  - apply String.eqb_eq in Hn. unfold is_empty in He. apply String.eqb_neq in He. unfold path_name in Hn.
    destruct (last (posix_parts run)) as [p|] eqn:Hl; [|congruence].
    destruct (startswith "/" p) eqn:Hp; [congruence|]. subst p.
    assert (run ≠ "." ∧ run ≠ "..") as [? ?].
    { split; intros ->; discriminate Hd. }
    split_and!; try done. apply last_Some_elem_of in Hl. unfold posix_parts in Hl. apply elem_of_app in Hl as [Hl|Hl].
    + exfalso. rewrite Hp in Hl. destruct (_ && _); [|by apply not_elem_of_nil in Hl].
      apply list_elem_of_singleton in Hl. rewrite Hl in Hp. discriminate Hp.
    + apply list_elem_of_In, filter_In in Hl as [Hl _]. apply list_elem_of_In in Hl. by eapply (split_slash_parts ""); [|exact Hl].
  - unfold translating, mbind, io_bind, mret, io_ret, touch_host, syscall in Hr. by repeat case_match; simplify_eq.
Qed.
Lemma relative_parts run digest : plain_name run → no_slash digest = true →
  posix_parts (relative_name run digest) = [run; target_name digest].
Proof.
  intros (Hs & H1 & H2 & H3) Hd. unfold relative_name, posix_parts. rewrite split_slash_sep by done.
  rewrite str_app_nil_l, split_slash_plain.
  2: { unfold target_name, no_slash in *. by rewrite all_chars_app, Hd. }
  rewrite str_app_nil_l.
  rewrite !plain_start_app by done.
  cbn [app List.filter andb]. unfold is_empty. apply String.eqb_neq in H1, H2. rewrite H1, H2. cbn [negb andb].
  assert (∀ s, (String.length s < 2)%nat → target_name digest ≠ s) as Hne.
  { intros s Hlen <-. unfold target_name in Hlen. rewrite str_length_app in Hlen. simpl in Hlen. lia. }
  rewrite (proj2 (String.eqb_neq _ "")), (proj2 (String.eqb_neq _ ".")) by (apply Hne; simpl; lia). done.
Qed.
Lemma below_app root p : below root (root ++ p) = Some p.
Proof. induction root as [|x root IH]; [done|]. simpl. by rewrite String.eqb_refl. Qed.
(** The reference of a written payload names its file. *)
Lemma path_for_relative root run digest bytes count : plain_name run → no_slash digest = true →
  path_for root (MkArtifactRef digest (relative_name run digest) bytes count) = Ok [run; target_name digest].
Proof.
  intros Hrun Hd. unfold path_for. cbn [relative_path]. rewrite relative_parts by done. unfold resolve_parts.
  pose proof Hrun as (Hs & H1 & _ & H3). rewrite plain_start by done. cbn [fold_left].
  rewrite (proj2 (String.eqb_neq run "..")) by done.
  rewrite (proj2 (String.eqb_neq (target_name digest) "..")).
  2: { intros Heq%(f_equal String.length). unfold target_name in Heq. rewrite str_length_app in Heq. simpl in Heq. lia. }
  by rewrite <- app_assoc, below_app.
Qed.

Fixpoint last_char (s : string) : option ascii :=
  match s with EmptyString => None | String c s => match last_char s with Some x => Some x | None => Some c end end.
Lemma last_char_app a c b : last_char (a +:+ String c b) = last_char (String c b).
Proof.
  induction a as [|x a IH]; [done|]. rewrite str_app_cons. cbn [last_char] in *. rewrite IH. by destruct (last_char b).
Qed.
Lemma temp_not_target a digest : a +:+ ".tmp" ≠ target_name digest.
Proof. intros He%(f_equal last_char). unfold target_name in He. rewrite !last_char_app in He. discriminate He. Qed.

(** * Runs of file operations *)

(** From files that satisfy [I], [m] only ever shows files that do, and leaves
    with a result and files related by [Q]. *)
Definition runs {A : Type} (I : tree → Prop) (m : io A) (Q : result failure A → tree → Prop) (v : volume) : Prop :=
  I (vol_files v) → Forall I (vol_seen v) →
  I (vol_files (m v).2) ∧ Forall I (vol_seen (m v).2) ∧ Q (m v).1 (vol_files (m v).2).

Section rules.
Context (I : tree → Prop).
Lemma runs_mono {A : Type} (m : io A) (Q Q' : result failure A → tree → Prop) v :
  runs I m Q v → (∀ r f, I f → Q r f → Q' r f) → runs I m Q' v.
Proof. intros Hm HQ Hi Hs. destruct (Hm Hi Hs) as (? & ? & ?). auto. Qed.
Lemma runs_pure {A : Type} (r : result failure A) (Q : result failure A → tree → Prop) v :
  (I (vol_files v) → Q r (vol_files v)) → runs I (λ v, (r, v)) Q v.
Proof. intros HQ Hi Hs. simpl. auto. Qed.
Lemma runs_ret {A : Type} (a : A) (Q : result failure A → tree → Prop) v :
  (I (vol_files v) → Q (Ok a) (vol_files v)) → runs I (mret a) Q v.
Proof. apply runs_pure. Qed.
Lemma runs_raise {A : Type} (e : exn) (Q : result failure A → tree → Prop) v :
  (I (vol_files v) → Q (Err (Raised e)) (vol_files v)) → runs I (io_raise e) Q v.
Proof. apply runs_pure. Qed.
Lemma runs_bind {A B : Type} (m : io A) (g : A → io B) (Q : result failure B → tree → Prop) v :
  runs I m (λ r f, match r with Ok a => ∀ v', vol_files v' = f → runs I (g a) Q v' | Err e => Q (Err e) f end) v →
  runs I (mbind g m) Q v.
Proof.
  intros Hm Hi Hs. destruct (Hm Hi Hs) as (Hi1 & Hs1 & HQ). unfold mbind, io_bind.
  destruct (m v) as [[a|e] v1]; simpl in *; [by apply HQ|done].
Qed.
Lemma runs_get (Q : result failure tree → tree → Prop) v :
  (I (vol_files v) → Q (Ok (vol_files v)) (vol_files v)) → runs I io_get Q v.
Proof. apply (runs_pure (Ok (vol_files v))). Qed.
Lemma runs_lift {A : Type} (r : res A) (Q : result failure A → tree → Prop) v :
  (I (vol_files v) → match r with Ok a => Q (Ok a) (vol_files v) | Err e => Q (Err (Raised e)) (vol_files v) end) →
  runs I (io_lift r) Q v.
Proof. intros HQ. apply runs_pure. destruct r; auto. Qed.
Lemma runs_syscall (h : host) (partial effect : tree → tree) (Q : result failure unit → tree → Prop) v :
  (I (vol_files v) → I (effect (vol_files v)) ∧ Q (Ok ()) (effect (vol_files v))) →
  (I (vol_files v) → I (partial (vol_files v)) ∧ ∀ e, Q (Err (Os e)) (partial (vol_files v))) →
  runs I (syscall h partial effect) Q v.
Proof.
  intros He Hp Hi Hs. destruct (He Hi) as [? ?], (Hp Hi) as [? ?]. unfold syscall.
  destruct (h_fault h (vol_calls v)); simpl; auto.
Qed.
Lemma runs_touch (h : host) (Q : result failure unit → tree → Prop) v :
  (I (vol_files v) → ∀ r, Q r (vol_files v)) → runs I (touch_host h) Q v.
Proof. intros HQ. apply runs_syscall; intros Hi; (split; [done|]); intros; by apply HQ. Qed.
Lemma runs_translating {A : Type} (f : errno → exn) (m : io A) (Q : result failure A → tree → Prop) v :
  runs I m (λ r t, match r with Err (Os e) => Q (Err (Raised (f e))) t | _ => Q r t end) v → runs I (translating f m) Q v.
Proof.
  intros Hm Hi Hs. destruct (Hm Hi Hs) as (Hi1 & Hs1 & HQ). unfold translating.
  by destruct (m v) as [[a|[e|e]] v1].
Qed.
Lemma runs_finally {A : Type} (m : io A) (g : io unit) (Q : result failure A → tree → Prop) v :
  runs I m (λ r f, ∀ v', vol_files v' = f → runs I g (λ r2 f', match r2 with Err (Raised e) => Q (Err (Raised e)) f' | _ => Q r f' end) v') v →
  runs I (finally m g) Q v.
Proof.
  intros Hm Hi Hs. destruct (Hm Hi Hs) as (Hi1 & Hs1 & HQ). unfold finally.
  destruct (m v) as [r v1]. simpl in *. specialize (HQ v1 eq_refl Hi1 Hs1). destruct (g v1) as [r2 v2].
  destruct HQ as (? & ? & HQ). simpl in *. split_and!; try done. by destruct r2 as [[]|[?|?]].
Qed.
Lemma runs_ignoring (m : io unit) (Q : result failure unit → tree → Prop) v :
  runs I m (λ r t, match r with Err (Os e) => Q (Ok ()) t | _ => Q r t end) v → runs I (ignoring_os m) Q v.
Proof.
  intros Hm Hi Hs. destruct (Hm Hi Hs) as (Hi1 & Hs1 & HQ). unfold ignoring_os.
  by destruct (m v) as [[a|[e|e]] v1].
Qed.
End rules.

(** * Writing *)

Definition payload_of (rows : list json) : string := foldr (λ row acc, encode_row row +:+ acc) EmptyString rows.
(** Away from the temporary file, [f] is [f0], or has the new payload where
    [f0] had nothing. *)
Definition only_adds (temp target : path) (content : string) (f0 f : tree) : Prop := ∀ p, p ≠ temp →
  f !! p = f0 !! p ∨ (p = target ∧ f0 !! p = None ∧ f !! p = Some content).

Section writes.
Context `{Sha256} (h : host) (root : path) (max_artifact_bytes min_free_bytes : Z).

Lemma only_adds_refl (temp target : path) (content : string) (f : tree) : only_adds temp target content f f.
Proof. intros p _. by left. Qed.
Lemma only_adds_temp (temp target : path) (content : string) (f0 f g : tree) : only_adds temp target content f0 f →
  (∀ p, p ≠ temp → g !! p = f !! p) → only_adds temp target content f0 g.
Proof. intros Hf Hg p Hp. rewrite Hg by done. by apply Hf. Qed.
Lemma only_adds_insert (temp target : path) (content : string) (f0 f : tree) (s : string) : only_adds temp target content f0 f →
  only_adds temp target content f0 (<[temp := s]> f).
Proof. intros Hf. eapply only_adds_temp; [exact Hf|]. intros p Hp. by rewrite lookup_insert_ne. Qed.
Lemma only_adds_delete (temp target : path) (content : string) (f0 f : tree) : only_adds temp target content f0 f →
  only_adds temp target content f0 (delete temp f).
Proof. intros Hf. eapply only_adds_temp; [exact Hf|]. intros p Hp. by rewrite lookup_delete_ne. Qed.

Lemma runs_verify (I : tree → Prop) (ref : ArtifactRef) (Q : result failure path → tree → Prop) (v : volume) :
  (∀ r, match r with
    | Ok p => path_for root ref = Ok p ∧ ∃ s, vol_files v !! p = Some s ∧ verify_content ref s = Ok ()
    | Err _ => True end → Q r (vol_files v)) → runs I (verify h root ref) Q v.
Proof.
  intros HQ. unfold verify. apply runs_bind, runs_lift. intros _. destruct (path_for root ref) as [p|e] eqn:Ep;
    [|by apply (HQ (Err _))].
  intros v1 Hv1. apply runs_bind, runs_translating. unfold read_file. apply runs_bind, runs_touch. intros _ r.
  rewrite Hv1. destruct r as [[]|[e|e]]; [|by apply (HQ (Err _))..].
  intros v2 Hv2. apply runs_bind, runs_get. intros _ v3 Hv3. rewrite Hv2 in *.
  destruct (vol_files v !! p) as [s|] eqn:Es.
  - apply runs_ret. intros _ v4 Hv4. apply runs_bind, runs_lift. intros _. rewrite Hv4, Hv3.
    destruct (verify_content ref s) as [[]|e] eqn:Ec; [|by apply (HQ (Err _))].
    intros v5 Hv5. apply runs_ret. intros _. rewrite Hv5. apply (HQ (Ok p)). eauto.
  - apply runs_pure. intros _. rewrite Hv3. by apply (HQ (Err _)).
Qed.
Lemma runs_write (I : tree → Prop) (temp : path) (data : string) (Q : result failure unit → tree → Prop) (v : volume) (old : string) :
  (∀ f s, I f → I (<[temp := s]> f)) → vol_files v !! temp = Some old →
  Q (Ok ()) (<[temp := old +:+ data]> (vol_files v)) → (∀ e s, Q (Err (Os e)) (<[temp := s]> (vol_files v))) →
  runs I (write h temp data) Q v.
Proof.
  intros HI Hold Hok Herr. unfold write. apply runs_syscall; rewrite Hold; intros Hi; (split; [by apply HI|]); [done|].
  intros e. apply Herr.
Qed.
Lemma runs_write_rows (I : tree → Prop) (temp : path) (limit : Z) (rows : list json) (bytes count : Z) (hashed : string)
    (Q : result failure (Z * Z * string) → tree → Prop) (v : volume) :
  (∀ f s, I f → I (<[temp := s]> f)) → vol_files v !! temp = Some hashed →
  (∀ f, f !! temp = Some (hashed +:+ payload_of rows) →
     Q (Ok ((bytes + Z.of_nat (String.length (payload_of rows)))%Z, (count + Z.of_nat (length rows))%Z,
            hashed +:+ payload_of rows)) f) →
  (∀ e f, Q (Err e) f) → runs I (write_rows h max_artifact_bytes temp limit rows bytes count hashed) Q v.
Proof.
  intros HI. revert bytes count hashed v. induction rows as [|row rows IH]; intros bytes count hashed v Hold Hok Herr;
    cbn [write_rows payload_of foldr length].
  - apply runs_ret. intros _. specialize (Hok (vol_files v)). cbn [payload_of foldr length String.length] in Hok.
    rewrite str_app_nil_r, !Z.add_0_r in Hok. by apply Hok.
  - fold (payload_of rows). destruct (_ <? _)%Z; [by apply runs_raise|]. apply runs_bind.
    eapply runs_write; [exact HI|exact Hold| |intros; apply Herr]. intros v1 Hv1.
    apply IH; [by rewrite Hv1, lookup_insert_eq| |exact Herr]. intros f Hf.
    rewrite str_app_assoc in *. specialize (Hok f). cbn [payload_of foldr length] in Hok. fold (payload_of rows) in Hok.
    rewrite str_length_app, Nat2Z.inj_add, Nat2Z.inj_succ in Hok.
    replace (bytes + Z.of_nat (String.length (encode_row row)) + Z.of_nat (String.length (payload_of rows)))%Z
      with (bytes + (Z.of_nat (String.length (encode_row row)) + Z.of_nat (String.length (payload_of rows))))%Z by lia.
    replace (count + 1 + Z.of_nat (length rows))%Z with (count + Z.succ (Z.of_nat (length rows)))%Z by lia. by apply Hok.
Qed.

(** A digest is one plain name: it is hexadecimal. *)
Context (Hhex : ∀ s, no_slash (sha256_hex s) = true).
Definition ref_of (run content : string) (rows : Z) : ArtifactRef :=
  MkArtifactRef (sha256_hex content) (relative_name run (sha256_hex content)) (Z.of_nat (String.length content)) rows.
Definition target_of (run content : string) : path := [run; target_name (sha256_hex content)].
Definition temp_of (run : string) : path := [run; ".payload." +:+ h_nonce h +:+ ".tmp"].
(** The reference of [content] is in the tree, and verified. *)
Definition stored (run content : string) (rows : Z) (f : tree) : Prop :=
  plain_name run ∧ ∃ s, f !! target_of run content = Some s ∧ verify_content (ref_of run content rows) s = Ok ().

Lemma verify_content_self run content rows : verify_content (ref_of run content rows) content = Ok ().
Proof. unfold verify_content, ref_of. cbn [byte_count sha256]. by rewrite Z.eqb_refl, String.eqb_refl. Qed.
Lemma temp_target run content : temp_of run ≠ target_of run content.
Proof. intros [=He]. revert He. rewrite <- (str_app_assoc ".payload."). apply temp_not_target. Qed.
Lemma runs_discard (I : tree → Prop) (temp : path) (Q : result failure unit → tree → Prop) (v : volume) : (∀ f, I f → I (delete temp f)) →
  Q (Ok ()) (vol_files v) → Q (Ok ()) (delete temp (vol_files v)) → runs I (discard h temp) Q v.
Proof.
  intros HI H1 H2. unfold discard. apply runs_ignoring, runs_syscall; intros Hi; (split; [|done]); [by apply HI|done].
Qed.
(** [os.replace] of a complete temporary file. *)
Lemma runs_publish (f0 : tree) (temp : path) (run content : string) (Q : result failure unit → tree → Prop) (v : volume) :
  let I := only_adds temp (target_of run content) content f0 in
  temp ≠ target_of run content →
  vol_files v !! temp = Some content → vol_files v !! target_of run content = None →
  (∀ f, f !! target_of run content = Some content → Q (Ok ()) f) → (∀ e f, Q (Err e) f) →
  runs I (publish_payload h temp (target_of run content)) Q v.
Proof.
  intros I Hne Htemp Htarget Hok Herr. unfold publish_payload. apply runs_bind.
  assert (∀ f, f !! target_of run content = Some content → ∀ v, vol_files v = f →
    runs I (_ ← touch_host h; touch_host h) Q v) as Htail.
  { intros f Hf v1 <-. apply runs_bind, runs_touch. intros _ [[]|e]; [|apply Herr]. intros v2 Hv2.
    apply runs_touch. intros _ [[]|e]; [|apply Herr]. rewrite Hv2. by apply Hok. }
  apply runs_syscall; rewrite ?Htemp; intros Hi.
  - split; [|by apply Htail, lookup_insert_eq]. intros p Hp. destruct (decide (p = target_of run content)) as [->|Hpt].
    + right. rewrite lookup_insert_eq. split_and!; try done. destruct (Hi _ Hp) as [Heq|(_ & _ & Heq)]; congruence.
    + rewrite lookup_insert_ne, lookup_delete_ne by done. destruct (Hi _ Hp) as [Heq|(? & _)]; [by left|done].
  - split; [done|]. intros e. apply Herr.
Qed.
Lemma runs_run_directory (I : tree → Prop) (run : string) (Q : result failure string → tree → Prop) (v : volume) :
  (∀ r, match r with Ok a => plain_name run ∧ a = run | Err _ => True end → Q r (vol_files v)) →
  runs I (_run_directory h run) Q v.
Proof.
  intros HQ. pose proof (λ a v', run_directory_plain h run a v v') as Hplain. revert Hplain. unfold _run_directory.
  destruct (is_empty run || _); [intros _; apply runs_raise; intros _; by apply HQ|].
  destruct (in_list run _); [intros _; apply runs_raise; intros _; by apply HQ|]. intros Hplain Hi Hs.
  assert (∀ x, vol_files x = vol_files v → I (vol_files x)) as Hx by (intros x ->; done).
  revert Hplain. unfold translating, mbind, io_bind, mret, io_ret, touch_host, syscall, id.
  destruct (h_fault h (vol_calls v)); [intros _; simpl; split_and!; [done|by constructor|by apply HQ]|]. simpl.
  destruct (h_fault h (S (vol_calls v))); [intros _; simpl; split_and!; [done|by repeat constructor|by apply HQ]|]. simpl.
  destruct (h_fault h (S (S (vol_calls v)))); [intros _; simpl; split_and!; [done|by repeat constructor|by apply HQ]|]. simpl.
  intros Hplain. split_and!; [done|by repeat constructor|]. apply (HQ (Ok run)). by eapply Hplain.
Qed.
Lemma runs_write_jsonl (run : string) (rows : list json) (v : volume) :
  runs (only_adds (temp_of run) (target_of run (payload_of rows)) (payload_of rows) (vol_files v))
    (write_jsonl h root max_artifact_bytes min_free_bytes run rows)
    (λ r f, match r with
      | Ok ref => ref = ref_of run (payload_of rows) (Z.of_nat (length rows)) ∧ stored run (payload_of rows) (Z.of_nat (length rows)) f
      | Err _ => True end) v.
Proof.
  set (content := payload_of rows). set (I := only_adds _ _ _ _). unfold write_jsonl. apply runs_bind, runs_run_directory.
  intros [run'|e]; [|done]. intros [Hplain ->] v1 Hv1. fold (temp_of run).
  destruct (_ <? _)%Z; [by apply runs_raise|]. cbv zeta. apply runs_finally, runs_translating.
  assert (∀ (r : result failure ArtifactRef) f, (∀ ref, r = Ok ref → ref = ref_of run content (Z.of_nat (length rows)) ∧
      stored run content (Z.of_nat (length rows)) f) →
    ∀ v', vol_files v' = f → runs I (discard h (temp_of run)) (λ r2 f', match r2 with
      | Err (Raised e) => True
      | _ => match r with Ok ref => ref = ref_of run content (Z.of_nat (length rows)) ∧
               stored run content (Z.of_nat (length rows)) f' | Err _ => True end end) v') as Hend.
  { intros r f Hr v' <-. apply runs_discard; [intros; by apply only_adds_delete| |]; destruct r as [ref|]; try done; [by apply Hr|].
    destruct (Hr ref eq_refl) as [-> (Hp & s & Hs & Hver)]. split; [done|]. split; [done|]. exists s.
    by rewrite lookup_delete_ne by (apply temp_target). }
  apply (runs_mono _ _ (λ (r : result failure ArtifactRef) f, ∀ ref, r = Ok ref →
    ref = ref_of run content (Z.of_nat (length rows)) ∧ stored run content (Z.of_nat (length rows)) f)).
  2: { intros [ref|[e|e]] f _ Hr; [exact (Hend (Ok ref) f Hr)|exact (Hend (Err (Raised (_translate_os_error e))) f ltac:(done))|
       exact (Hend (Err (Raised e)) f ltac:(done))]. }
  assert (∀ (f : tree) s, I f → I (<[temp_of run := s]> f)) as HI by (intros; by apply only_adds_insert).
  apply runs_bind. unfold open_exclusive. apply runs_bind, runs_get. intros _ v2 Hv2.
  destruct (vol_files v1 !! temp_of run) as [old|] eqn:Et; [by apply runs_pure|].
  apply runs_syscall; intros Hi; (split; [by first [apply HI|exact Hi]|]); [|done]. intros v3 Hv3.
  apply runs_bind, runs_write_rows; [exact HI|by rewrite Hv3, lookup_insert_eq| |done]. rewrite !Z.add_0_l, str_app_nil_l.
  intros f Hf v4 Hv4. apply runs_bind, runs_touch. intros _ [[]|e]; [|done]. intros v5 Hv5.
  cbv zeta. fold content. apply runs_bind, runs_get. intros _ v6 Hv6.
  change [run; target_name (sha256_hex content)] with (target_of run content).
  change (MkArtifactRef _ _ _ _) with (ref_of run content (Z.of_nat (length rows))).
  assert (vol_files v6 = f) as Hf6 by congruence. rewrite Hv5, Hv4.
  apply runs_bind. destruct (f !! target_of run content) as [old|] eqn:Eo.
  - apply runs_bind, runs_verify. intros [p|e]; [|done]. intros [Hp (s & Hs & Hver)].
    intros v7 Hv7. apply runs_ret. intros _ v8 Hv8. apply runs_ret. intros _ ref [= <-]. split; [done|]. split; [done|].
    exists s. split; [|done]. unfold ref_of in Hp. rewrite path_for_relative in Hp by done. injection Hp as <-.
    by rewrite Hv8, Hv7.
  - eapply runs_publish; [apply temp_target|by rewrite Hf6|by rewrite Hf6| |done].
    intros f' Hf' v7 Hv7. apply runs_ret. intros _ ref [= <-]. split; [done|]. split; [done|].
    exists content. by rewrite Hv7, verify_content_self.
Qed.

(** The same for [write_bytes], which looks for the target first. *)
Definition bytes_temp (run content : string) : path :=
  [run; "." +:+ sha256_hex content +:+ "." +:+ h_nonce h +:+ ".tmp"].
Lemma bytes_temp_target run content content' : bytes_temp run content ≠ target_of run content'.
Proof.
  intros [=He]. revert He. rewrite <- (str_app_assoc (sha256_hex content)), <- (str_app_assoc (_ +:+ ".")).
  apply (temp_not_target (String "." _)).
Qed.
Lemma runs_write_bytes (run content : string) (rows : Z) (v : volume) :
  runs (only_adds (bytes_temp run content) (target_of run content) content (vol_files v))
    (write_bytes h root max_artifact_bytes min_free_bytes run content rows)
    (λ r f, match r with
      | Ok ref => ref = ref_of run content rows ∧ stored run content rows f
      | Err _ => True end) v.
Proof.
  set (I := only_adds _ _ _ _). unfold write_bytes. destruct (rows <? 0)%Z; [by apply runs_raise|].
  apply runs_bind. unfold _admit_artifact. assert (∀ v, runs I (mret () : io unit) (λ r f, r = Ok () ∧ f = vol_files v) v) as Hadm
    by (intros; by apply runs_ret).
  destruct (_ <? _)%Z; [by apply runs_raise|]. destruct (_ <? _)%Z; [by apply runs_raise|].
  apply runs_ret. intros _ v1 Hv1. cbv zeta. apply runs_bind, runs_run_directory. intros [run'|e]; [|done].
  intros [Hplain ->] v2 Hv2. apply runs_bind, runs_get. intros _ v3 Hv3.
  change [run; target_name (sha256_hex content)] with (target_of run content).
  change (MkArtifactRef _ _ _ _) with (ref_of run content rows).
  change [run; _] with (bytes_temp run content).
  assert (vol_files v3 = vol_files v) as Hf3 by congruence. rewrite Hv2, Hv1.
  destruct (vol_files v !! target_of run content) as [old|] eqn:Eo.
  - apply runs_bind, runs_verify. intros [p|e]; [|done]. intros [Hp (s & Hs & Hver)]. intros v4 Hv4.
    apply runs_ret. intros _. split; [done|]. split; [done|]. exists s. split; [|done].
    unfold ref_of in Hp. rewrite path_for_relative in Hp by done. injection Hp as <-. by rewrite Hv4.
  - apply runs_bind, runs_finally, runs_translating.
    apply (runs_mono _ _ (λ (r : result failure unit) f, r = Ok () → f !! target_of run content = Some content)).
    2: { intros r f _ Hr. assert (∀ v', vol_files v' = f → runs I (discard h (bytes_temp run content)) (λ r2 f',
           match r2 with Err (Raised _) => True | _ => r = Ok () → f' !! target_of run content = Some content end) v') as Hd.
         { intros v' <-. apply runs_discard; [intros; by apply only_adds_delete|done|].
           intros Hok. rewrite lookup_delete_ne by apply bytes_temp_target. by apply Hr. }
         assert (∀ f', (r = Ok () → f' !! target_of run content = Some content) → ∀ v', vol_files v' = f' → r = Ok () →
           runs I (mret (ref_of run content rows) : io ArtifactRef) (λ r f, match r with
             | Ok ref => ref = ref_of run content rows ∧ stored run content rows f | Err _ => True end) v') as Hend.
         { intros f' Hf' v' <- Hr'. apply runs_ret. intros _. split; [done|]. split; [done|]. exists content.
           by rewrite verify_content_self, Hf'. }
         destruct r as [[]|[e|e]]; intros v' Hv'; eapply runs_mono; try (by apply Hd);
           intros [[]|[e2|e2]] f' _ Hq; try done; intros; by eapply Hend. }
    assert (∀ (f : tree) s, I f → I (<[bytes_temp run content := s]> f)) as HI by (intros; by apply only_adds_insert).
    apply runs_bind. unfold open_exclusive. apply runs_bind, runs_get. intros _ v4 Hv4.
    destruct (vol_files v3 !! bytes_temp run content); [by apply runs_pure|].
    apply runs_syscall; intros Hi; (split; [by first [apply HI|exact Hi]|]); [|done]. intros v5 Hv5.
    apply runs_bind. eapply runs_write; [exact HI|by rewrite Hv5, lookup_insert_eq| |done]. intros v6 Hv6.
    apply runs_bind, runs_touch. intros _ [[]|e]; [|done]. intros v7 Hv7.
    assert (vol_files v7 !! target_of run content = None) as Hno.
    { rewrite Hv7, Hv6, Hv5, !lookup_insert_ne by apply bytes_temp_target. congruence. }
    eapply runs_publish; [apply bytes_temp_target|by rewrite Hv7, Hv6, lookup_insert_eq|done|done|done].
Qed.
End writes.
