(* ===== verification/Jsonl.v ===== *)
(** The lines of a payload: one canonical JSON text each, so that splitting and
    decoding a written payload gives the rows back. *)
From S2P Require Import Prelude Json Text PyValue Models Identity Db Manifest ArtifactApi Store Artifacts ArtifactSafety.

(** No control characters, so no line breaks. *)
Definition inline_char (c : ascii) : bool := (32 <=? Ascii.nat_of_ascii c)%nat.
Definition inline (s : string) : bool := all_chars inline_char s.

Lemma inline_app a b : inline (a +:+ b) = inline a && inline b.
Proof. apply all_chars_app. Qed.
Lemma num_char_inline c : is_num_char c = true → inline_char c = true ∧ is_space c = false.
Proof. destruct c as [[] [] [] [] [] [] [] []]; intros Hc; first [discriminate Hc|by split]. Qed.
Lemma escape_char_inline c : inline (escape_char c) = true.
Proof. destruct c as [[] [] [] [] [] [] [] []]; reflexivity. Qed.
Lemma print_string_inline s : inline (print_string s) = true.
Proof.
  assert (inline (escape s) = true) as Hs.
  { induction s as [|c s IH]; [done|]. cbn [escape]. by rewrite inline_app, escape_char_inline. }
  unfold print_string, inline in *. cbn [all_chars]. by rewrite all_chars_app, Hs.
Qed.
Lemma tokens_inline s : all_chars is_num_char s = true → inline s = true.
Proof. apply all_chars_impl. intros c Hc. by apply num_char_inline. Qed.
Lemma join_inline sep l : inline sep = true → forallb inline l = true → inline (join sep l) = true.
Proof.
  intros Hs. induction l as [|a [|b l] IH]; intros Hl; [done| |].
  - simpl in *. by apply andb_true_iff in Hl as [Ha _].
  - rewrite join_cons2, !inline_app, Hs. cbn [forallb] in Hl. apply andb_true_iff in Hl as [-> Hl]. by rewrite IH.
Qed.
Lemma forallb_map_intro {A B} (p : B → bool) (f : A → B) l : (∀ x, x ∈ l → p (f x) = true) → forallb p (map f l) = true.
Proof.
  intros Hp. apply forallb_forall. intros y [x [<- Hx]]%in_map_iff. by apply Hp, list_elem_of_In.
Qed.
Lemma print_inline v : json_wf v = true → inline (print v) = true.
Proof.
  induction v as [|[]|z|r|s|l IH|l IH] using json_ind'; intros Hwf; try reflexivity.
  - apply tokens_inline, (all_chars_impl is_int_char); [apply int_char_num_char|apply print_int_chars].
  - simpl in Hwf. unfold float_token in Hwf. apply andb_true_iff in Hwf as [Hr _]. by apply tokens_inline.
  - apply print_string_inline.
  - change (print (JArr l)) with ("[" +:+ join "," (map print l) +:+ "]"). rewrite !inline_app, join_inline; [done|done|].
    simpl in Hwf. apply forallb_map_intro. intros x Hx.
    rewrite Forall_forall in IH. rewrite forallb_forall in Hwf. apply IH; [done|by apply Hwf, list_elem_of_In].
  - change (print (JObj l)) with ("{" +:+ join "," (map print_member l) +:+ "}"). rewrite !inline_app, join_inline; [done|done|].
    simpl in Hwf. apply forallb_map_intro. intros kv Hx. unfold print_member.
    rewrite Forall_forall in IH. rewrite forallb_forall in Hwf. rewrite !inline_app, print_string_inline.
    rewrite IH; [done|done|by apply Hwf, list_elem_of_In].
Qed.
(** The text of a value starts with a visible character. *)
Lemma print_first v : json_wf v = true → ∃ c s, print v = String c s ∧ is_space c = false.
Proof.
  assert (∀ s, s ≠ "" → all_chars is_num_char s = true → ∃ c t, s = String c t ∧ is_space c = false) as Htok.
  { intros [|c s] Hne Hs; [done|]. exists c, s. split; [done|]. cbn [all_chars] in Hs.
    apply andb_true_iff in Hs as [Hc _]. by apply num_char_inline. }
  intros Hwf. destruct v as [|[]|z|r|s|l|l]; try (by eexists _, _).
  - apply Htok; [|apply (all_chars_impl is_int_char); [apply int_char_num_char|apply print_int_chars]].
    pose proof (print_int_length z) as Hl. cbn [print]. intros E. rewrite E in Hl. simpl in Hl. lia.
  - simpl in Hwf. unfold float_token in Hwf. apply andb_true_iff in Hwf as [Hr Hn]. apply Htok; [|done].
    intros E. simpl in E. subst r. discriminate Hn.
Qed.

(** * Splitting *)

Lemma inline_not_break c : inline_char c = true →
  Ascii.eqb c (Ascii.ascii_of_nat 10) = false ∧ Ascii.eqb c (Ascii.ascii_of_nat 13) = false.
Proof. destruct c as [[] [] [] [] [] [] [] []]; intros Hc; first [discriminate Hc|by split]. Qed.
Lemma lines_row s rest : inline s = true → ∀ cur, lines cur (s +:+ newline +:+ rest) = (cur +:+ s) :: lines "" rest.
Proof.
  induction s as [|c s IH]; intros Hs cur.
  - rewrite str_app_nil_l, str_app_nil_r. unfold newline. rewrite str_app_cons, str_app_nil_l. reflexivity.
  - unfold inline in Hs. cbn [all_chars] in Hs. apply andb_true_iff in Hs as [Hc Hs].
    rewrite str_app_cons. cbn [lines].
    destruct (inline_not_break c Hc) as [-> ->].
    rewrite IH by done. by rewrite str_app_assoc, str_app_cons, str_app_nil_l.
Qed.
Lemma lines_payload rows : forallb json_wf rows = true →
  lines "" (payload_of rows) = map canonical_json rows.
Proof.
  induction rows as [|row rows IH]; [done|]. cbn [forallb payload_of foldr map]. fold (payload_of rows).
  intros [Hr Hrows]%andb_true_iff. unfold encode_row. rewrite str_app_assoc, lines_row, IH; [done|done|].
  by apply print_inline, sort_keys_wf.
Qed.
Lemma strip_visible c s : is_space c = false → is_empty (strip (String c s)) = false.
Proof.
  intros Hc. unfold strip. cbn [lstrip]. rewrite Hc. cbn [rstrip]. destruct (rstrip s); [by rewrite Hc|done].
Qed.
(** A written payload decodes to its rows, with the keys of objects sorted. *)
Lemma decode_payload rows : forallb json_wf rows = true →
  decode_rows (payload_of rows) = Ok (map sort_keys rows).
Proof.
  intros Hwf. unfold decode_rows. rewrite lines_payload by done.
  induction rows as [|row rows IH]; [done|]. cbn [forallb map] in *. apply andb_true_iff in Hwf as [Hr Hrows].
  assert (is_empty (strip (canonical_json row)) = false) as He.
  { destruct (print_first (sort_keys row)) as (c & s & Hp & Hc); [by apply sort_keys_wf|].
    unfold canonical_json. rewrite Hp. by apply strip_visible. }
  cbn [List.filter]. rewrite He. cbn [negb foldr]. rewrite IH by done. cbn [mbind result_bind].
  by rewrite loads_canonical.
Qed.
