(* ===== verification/Session.v ===== *)
(** A session of a journal client: Python code that calls the journal, reads
    it, and sends queries to the graph.  State survives an exception: what was
    committed before a raise stays committed. *)
From S2P Require Import Prelude Json PyValue Models Identity Retry Db Manifest ArtifactApi Store Staging Transitions Boundary Admin Steps Invariant Refinement RefinementRuns Journal Guard.

(** The journal's database, the graph, and how many journal calls and clock
    reads were made (each of them reads its own environment). *)
Record session (W : Type) := MkSession { ss_db : db; ss_graph : W; ss_tick : nat }.
Arguments MkSession {W} _ _ _.
Arguments ss_db {W} _.
Arguments ss_graph {W} _.
Arguments ss_tick {W} _.

Definition prog (W A : Type) : Type := session W → res A * session W.
#[export] Instance prog_ret W : MRet (prog W) := λ A a s, (Ok a, s).
#[export] Instance prog_bind W : MBind (prog W) := λ A B f m s,
  match m s with
  | (Ok a, s') => f a s'
  | (Err e, s') => (Err e, s')
  end.

Section session.
Context {W : Type}.

Definition raise {A} (e : exn) : prog W A := λ s, (Err e, s).
Definition lift {A} (r : res A) : prog W A := λ s, (r, s).
(** [try: m] with handlers [except ...]: [handle e] is [None] when no handler
    takes [e], which is then raised again. *)
Definition try_except {A} (m : prog W A) (handle : exn → option (prog W A)) : prog W A := λ s,
  match m s with
  | (Ok a, s') => (Ok a, s')
  | (Err e, s') => match handle e with Some h => h s' | None => (Err e, s') end
  end.
(** A read of the journal outside a transaction. *)
Definition read_db {A} (f : db → A) : prog W A := λ s, (Ok (f (ss_db s)), s).

Context (supply : nat → env).
(** A call of the journal, in the next environment. *)
Definition journal_call {A} (o : env → op A) : prog W A := λ s,
  let '(r, d) := o (supply (ss_tick s)) (ss_db s) in (r, MkSession d (ss_graph s) (S (ss_tick s))).
(** [datetime.now(timezone.utc)] *)
Definition read_clock : prog W Z := λ s,
  (Ok (clock (supply (ss_tick s))), MkSession (ss_db s) (ss_graph s) (S (ss_tick s))).
(** [await self.driver.execute_query(query, parameters)] on the guarded driver. *)
Definition query `{!GraphDriver W} (context : option fence) (text : string) (parameters : dict)
    : prog W (list dict) := λ s,
  let '(r, w) := guarded context (ss_graph s) text parameters in (r, MkSession (ss_db s) w (ss_tick s)).

(** * Reasoning about sessions *)

(** [sp m Q s]: whatever [m] returns or raises from [s], [Q] holds of it. *)
Definition sp {A} (m : prog W A) (Q : res A → session W → Prop) (s : session W) : Prop := Q (m s).1 (m s).2.

Lemma sp_mono {A} (m : prog W A) (Q Q' : res A → session W → Prop) s :
  sp m Q s → (∀ r s', Q r s' → Q' r s') → sp m Q' s.
Proof. unfold sp. auto. Qed.
Lemma sp_ret {A} (a : A) (Q : res A → session W → Prop) s : Q (Ok a) s → sp (mret a) Q s.
Proof. done. Qed.
Lemma sp_raise {A} e (Q : res A → session W → Prop) s : Q (Err e) s → sp (raise e) Q s.
Proof. done. Qed.
Lemma sp_lift {A} (r : res A) (Q : res A → session W → Prop) s : Q r s → sp (lift r) Q s.
Proof. done. Qed.
Lemma sp_bind {A B} (m : prog W A) (f : A → prog W B) Q s :
  sp m (λ r s', match r with Ok a => sp (f a) Q s' | Err e => Q (Err e) s' end) s → sp (mbind f m) Q s.
Proof. unfold sp, mbind, prog_bind. by destruct (m s) as [[a|e] s']. Qed.
Lemma sp_try {A} (m : prog W A) handle Q s :
  sp m (λ r s', match r with
    | Ok a => Q (Ok a) s'
    | Err e => match handle e with Some h => sp h Q s' | None => Q (Err e) s' end end) s →
  sp (try_except m handle) Q s.
Proof. unfold sp, try_except. destruct (m s) as [[a|e] s']; [done|]. simpl. by destruct (handle e). Qed.
Lemma sp_read {A} (f : db → A) (Q : res A → session W → Prop) s : Q (Ok (f (ss_db s))) s → sp (read_db f) Q s.
Proof. done. Qed.
Lemma sp_clock (Q : res Z → session W → Prop) s :
  Q (Ok (clock (supply (ss_tick s)))) (MkSession (ss_db s) (ss_graph s) (S (ss_tick s))) → sp read_clock Q s.
Proof. done. Qed.
Lemma sp_call {A} (o : env → op A) (Q : res A → session W → Prop) s :
  (∀ r d, o (supply (ss_tick s)) (ss_db s) = (r, d) → Q r (MkSession d (ss_graph s) (S (ss_tick s)))) →
  sp (journal_call o) Q s.
Proof. unfold sp, journal_call. destruct (o _ _) as [r d]. eauto. Qed.
Lemma sp_query `{!GraphDriver W} context text parameters (Q : res (list dict) → session W → Prop) s :
  (∀ r w, guarded context (ss_graph s) text parameters = (r, w) → Q r (MkSession (ss_db s) w (ss_tick s))) →
  sp (query context text parameters) Q s.
Proof. unfold sp, query. destruct (guarded _ _ _ _) as [r w]. eauto. Qed.

(** [ok_post m Q s]: when [m] returns from [s], [Q] holds of it. *)
Definition ok_post {A} (m : prog W A) (Q : A → session W → Prop) (s : session W) : Prop :=
  sp m (λ r s', match r with Ok a => Q a s' | Err _ => True end) s.
(** Programs that never return. *)
Definition raises {A} (m : prog W A) : Prop := ∀ s, ok_post m (λ _ _, False) s.

Lemma ok_mono {A} (m : prog W A) (Q Q' : A → session W → Prop) s :
  ok_post m Q s → (∀ a s', Q a s' → Q' a s') → ok_post m Q' s.
Proof. unfold ok_post, sp. intros Hm HQ. destruct (m s) as [[a|e] s']; [by apply HQ|done]. Qed.
Lemma ok_ret {A} (a : A) (Q : A → session W → Prop) s : Q a s → ok_post (mret a) Q s.
Proof. done. Qed.
Lemma ok_raise {A} e (Q : A → session W → Prop) s : ok_post (raise e) Q s.
Proof. done. Qed.
Lemma ok_lift {A} (r : res A) (Q : A → session W → Prop) s : (∀ a, r = Ok a → Q a s) → ok_post (lift r) Q s.
Proof. intros HQ. unfold ok_post, sp, lift. simpl. destruct r; auto. Qed.
Lemma ok_bind {A B} (m : prog W A) (f : A → prog W B) (Q : B → session W → Prop) s :
  ok_post m (λ a s', ok_post (f a) Q s') s → ok_post (mbind f m) Q s.
Proof. unfold ok_post, sp, mbind, prog_bind. by destruct (m s) as [[a|e] s']. Qed.
Lemma ok_try {A} (m : prog W A) handle (Q : A → session W → Prop) s :
  ok_post m Q s → (∀ e h, handle e = Some h → raises h) → ok_post (try_except m handle) Q s.
Proof.
  unfold ok_post, sp, try_except. intros Hm Hh. destruct (m s) as [[a|e] s']; [done|].
  destruct (handle e) as [h|] eqn:E; [|done]. simpl. specialize (Hh e h E s'). unfold ok_post, sp in Hh.
  by destruct (h s').1.
Qed.
Lemma ok_read {A} (f : db → A) (Q : A → session W → Prop) s : Q (f (ss_db s)) s → ok_post (read_db f) Q s.
Proof. done. Qed.
Lemma ok_call {A} (o : env → op A) (Q : A → session W → Prop) s :
  (∀ a d, o (supply (ss_tick s)) (ss_db s) = (Ok a, d) → Q a (MkSession d (ss_graph s) (S (ss_tick s)))) →
  ok_post (journal_call o) Q s.
Proof. intros HQ. apply sp_call. intros [a|e] d E; [by apply HQ|done]. Qed.
Lemma ok_query `{!GraphDriver W} context text parameters (Q : list dict → session W → Prop) s :
  (∀ r w, guarded context (ss_graph s) text parameters = (Ok r, w) → Q r (MkSession (ss_db s) w (ss_tick s))) →
  ok_post (query context text parameters) Q s.
Proof. intros HQ. apply sp_query. intros [a|e] w E; [by apply HQ|done]. Qed.
Lemma raises_raise {A} e : raises (raise (A:=A) e).
Proof. by intros s. Qed.
Lemma raises_after {A B} (m : prog W A) (f : A → prog W B) : (∀ a, raises (f a)) → raises (mbind f m).
Proof.
  intros Hf s. apply ok_bind. unfold ok_post, sp. destruct (m s) as [[a|e] s']; [|done]. apply Hf.
Qed.

(** A relation between the sessions before and after that holds of every
    piece holds of the whole. *)
Section preserved.
Context (R : session W → session W → Prop) `{!PreOrder R}.
Definition keeps {A} (m : prog W A) : Prop := ∀ s, R s (m s).2.
Lemma keeps_ret {A} (a : A) : keeps (mret a).
Proof. by intros s. Qed.
Lemma keeps_raise {A} e : keeps (raise (A:=A) e).
Proof. by intros s. Qed.
Lemma keeps_lift {A} (r : res A) : keeps (lift r).
Proof. by intros s. Qed.
Lemma keeps_read {A} (f : db → A) : keeps (read_db f).
Proof. by intros s. Qed.
Lemma keeps_bind {A B} (m : prog W A) (f : A → prog W B) : keeps m → (∀ a, keeps (f a)) → keeps (mbind f m).
Proof.
  intros Hm Hf s. unfold mbind, prog_bind. specialize (Hm s). destruct (m s) as [[a|e] s']; [|done].
  simpl in Hm. etrans; [exact Hm|apply Hf].
Qed.
Lemma keeps_lift_bind {A B} (r : res A) (f : A → prog W B) : (∀ a, r = Ok a → keeps (f a)) → keeps (mbind f (lift r)).
Proof. intros Hf s. unfold mbind, prog_bind, lift. destruct r as [a|e]; [by apply Hf|done]. Qed.
Lemma keeps_try {A} (m : prog W A) handle :
  keeps m → (∀ e h, handle e = Some h → keeps h) → keeps (try_except m handle).
Proof.
  intros Hm Hh s. unfold try_except. specialize (Hm s). destruct (m s) as [[a|e] s']; [done|].
  destruct (handle e) as [h|] eqn:E; [|done]. simpl in Hm. etrans; [exact Hm|by eapply Hh].
Qed.
End preserved.
Lemma ok_keeps {A} (R : session W → session W → Prop) (m : prog W A) (Q : A → session W → Prop) s :
  keeps R m → ok_post m Q s → ok_post m (λ a s', Q a s' ∧ R s s') s.
Proof. unfold keeps, ok_post, sp. intros Hk. specialize (Hk s). by destruct (m s) as [[a|e] s']. Qed.
End session.

(** One structural step of a [keeps] goal. *)
Ltac keeps_step :=
  match goal with
  | |- keeps _ (mbind _ _) => apply keeps_bind; [apply _| |intros ?]
  | |- keeps _ (mret _) => apply keeps_ret; apply _
  | |- keeps _ (raise _) => apply keeps_raise; apply _
  | |- keeps _ (lift _) => apply keeps_lift; apply _
  | |- keeps _ (read_db _) => apply keeps_read; apply _
  | |- keeps _ (try_except _ _) => apply keeps_try; [apply _| |intros ? ? ?]
  | |- keeps _ (if ?b then _ else _) => destruct b eqn:?
  | |- keeps _ (match ?x with _ => _ end) => destruct x eqn:?
  end.

(** A program that ends in [raise] on every path. *)
Ltac solve_raises :=
  repeat match goal with
  | |- raises (raise _) => apply raises_raise
  | |- raises (mbind _ _) => apply raises_after; intros
  | |- raises (if ?b then _ else _) => destruct b
  | |- raises (let '_ := ?x in _) => destruct x
  end.
