(* ===== verification/Clients.v ===== *)
(** Programs that change the journal only by its public calls, none of them a
    purge: the relation, its structural rules and their automation, shared by
    the consumer and the producer. *)
From S2P Require Import Prelude Json PyValue Models Identity Retry Db Manifest ArtifactApi Store Staging Transitions Boundary Admin Steps Invariant Refinement RefinementRuns Behaviour Journal Guard Session.

Section clients.
Context `{Sha256} {FS : Type} `{!ArtifactApi FS} {W : Type}.
Context (limits : JournalLimits) (fs : FS) (supply : nat → env).

(** Any number of calls that are no purge, with whatever artifact files. *)
Abbreviation client_calls := (calls (FS:=FS) limits (λ c, is_purge c = false)).
Definition client (s s' : session W) : Prop := client_calls (ss_db s) (ss_db s').
Lemma client_calls_trans d1 d2 d3 : client_calls d1 d2 → client_calls d2 d3 → client_calls d1 d3.
Proof. intros H1 H2. induction H2 as [|ε fs' c d' H2 IH Hc]; [done|]. by constructor. Qed.
#[export] Instance client_preorder : PreOrder client.
Proof. split; [intros s; constructor|]. intros s1 s2 s3. apply client_calls_trans. Qed.
Lemma client_inv s s' : inv (ss_db s) → client s s' → inv (ss_db s').
Proof. unfold client. apply calls_inv. Qed.
Lemma client_steps s s' : inv (ss_db s) → client s s' → steps (ss_db s) (ss_db s').
Proof. unfold client. by apply calls_steps. Qed.
Lemma client_reachable d d' : reachable (FS:=FS) limits d → client_calls d d' → reachable (FS:=FS) limits d'.
Proof. unfold reachable. intros Hr Hc. induction Hc as [|ε fs' c d' Hc IH Hp]; [done|]. by constructor. Qed.

(** A program step that leaves the database alone. *)
Lemma keeps_local {A} (m : prog W A) : (∀ s, ss_db (m s).2 = ss_db s) → keeps client m.
Proof. intros Hm s. unfold client. rewrite Hm. constructor. Qed.
(** The session a named run of a program leaves. *)
Lemma keeps_run {A} (m : prog W A) s (p : res A * session W) : p = m s → keeps client m → client s p.2.
Proof. by intros ->. Qed.
Lemma keeps_call {A} (o : env → op A) (c : call) :
  is_purge c = false → (∀ ε d, (o ε d).2 = exec limits ε fs c d) → keeps client (journal_call supply o).
Proof.
  intros Hc Ho s. unfold client, journal_call. specialize (Ho (supply (ss_tick s)) (ss_db s)).
  destruct (o _ _) as [r d]. simpl in *. subst d. constructor; [constructor|done].
Qed.
Lemma keeps_query `{!GraphDriver W} context text parameters : keeps client (query context text parameters).
Proof. apply keeps_local. intros s. unfold query. by destruct (guarded _ _ _ _). Qed.
Lemma keeps_clock : keeps client (read_clock supply).
Proof. by apply keeps_local. Qed.
Lemma keeps_tick : keeps client ((λ s, (Ok (ss_tick s), s)) : prog W nat).
Proof. by apply keeps_local. Qed.

(** Opening a journal of the current schema is the recovery of its leases. *)
Lemma keeps_reopen : keeps client (journal_call supply (recover_and_verify fs)).
Proof. apply (keeps_call _ CRecoverExpiredLeases); [done|]. intros ε d. apply recover_and_verify_db. Qed.

(** What a row was made for never changes. *)
Lemma client_contract d d' job b : inv d → client_calls d d' → batches d !! job = Some b →
  ∃ b', batches d' !! job = Some b' ∧ fixed_columns b' = fixed_columns b.
Proof.
  intros Hi Hc Hb. apply (steps_preserve (λ d, ∃ b', batches d !! job = Some b' ∧ fixed_columns b' = fixed_columns b) d);
    [| |done|eauto|eapply calls_steps; [|done|exact Hc]; done].
  - intros d1 d2 _ (b1 & H1 & Hf1) Hj. destruct (jstep_row _ _ _ _ Hj H1) as (b2 & Hb2 & Hm).
    exists b2. split; [done|]. by rewrite (row_move_fixed _ _ _ Hm).
  - intros d1 d2 He. by rewrite (batches_proper _ _ He).
Qed.
End clients.

(** The journal call an operation makes, by the operation. *)
Ltac client_call supply fs o :=
  lazymatch o with
  | (λ ε, open_run _ _ ?m ?a ?b) => apply (keeps_call _ fs supply _ (COpenRun m a b))
  | (λ ε, open_barrier _ ?r ?n) => apply (keeps_call _ fs supply _ (COpenBarrier r n))
  | (λ ε, close_barrier _ ?r ?n) => apply (keeps_call _ fs supply _ (CCloseBarrier r n))
  | (λ ε, enqueue_batch _ _ _ ?r ?s) => apply (keeps_call _ fs supply _ (CEnqueue r s))
  | (λ ε, claim_batch _ ?r ?l) => apply (keeps_call _ fs supply _ (CClaim r l))
  | (λ ε, claim_job _ ?j ?l) => apply (keeps_call _ fs supply _ (CClaimJob j l))
  | (λ ε, claim_reconciling _ ?r ?l) => apply (keeps_call _ fs supply _ (CClaimReconciling r l))
  | (λ ε, claim_reconciling_job _ ?j ?l) => apply (keeps_call _ fs supply _ (CClaimReconcilingJob j l))
  | (λ ε, recover_run_leases_as_ambiguous _ ?r) => apply (keeps_call _ fs supply _ (CRecoverRunLeases r))
  | (λ ε, renew_lease _ ?j ?t ?l) => apply (keeps_call _ fs supply _ (CRenew j t l))
  | (λ ε, ack_batch _ _ ?j ?t ?el) => apply (keeps_call _ fs supply _ (CAck j t el))
  | (λ ε, mark_reconciling _ ?j ?t ?c) => apply (keeps_call _ fs supply _ (CMarkReconciling j t c))
  | (λ ε, schedule_retry _ _ ?j ?t ?a ?c ?e) => apply (keeps_call _ fs supply _ (CScheduleRetry j t a c e))
  | (λ ε, schedule_reconciliation_retry _ _ ?j ?t ?a ?e) =>
      apply (keeps_call _ fs supply _ (CScheduleReconciliationRetry j t a e))
  | (λ ε, block_batch _ _ ?j ?t ?c ?e) => apply (keeps_call _ fs supply _ (CBlock j t c e))
  | (λ ε, complete_producers _ ?r) => apply (keeps_call _ fs supply _ (CCompleteProducers r))
  | (λ ε, seal_endpoint_audit _ ?r ?d ?c ?a) => apply (keeps_call _ fs supply _ (CSealEndpointAudit r d c a))
  | (λ ε, close_run_production _ _ ?r) => apply (keeps_call _ fs supply _ (CCloseRunProduction r))
  end; reflexivity.
(** One step of a [keeps client] goal, with [fs] for the artifact files. *)
Ltac client_step_with fs :=
  match goal with
  | |- keeps _ (journal_call ?supply ?o) => client_call supply fs o
  | _ => keeps_step
  | _ => apply keeps_reopen
  | _ => apply keeps_query
  | _ => apply keeps_clock
  | _ => apply keeps_tick
  end.
