(* ===== verification/Consumer.v ===== *)
(** The autonomous consumer of [code-tiny/tools/graph/journal/consumer.py]: it
    drains one run from its persisted descriptors and artifacts alone. *)
From S2P Require Import Prelude Json PyValue Models Identity Schema QueryContract Operation Retry Db Manifest ArtifactApi Store Executor Guard Staging Transitions Boundary Admin Config Steps Invariant Refinement RefinementRuns Journal Session.

Definition ENDPOINT_AUDIT_BARRIER : string := "audit:endpoints".
Definition NODE_PHASE_BARRIER : string := "phase:nodes".

Section consumer.
Context `{Sha256} {FS : Type} `{!ArtifactApi FS} {W : Type} `{!GraphDriver W}.
(** The configuration, the artifact files, the environments of the journal
    calls, the jitter of the retry policy and the measured milliseconds. *)
Context (config : JournalConfig) (fs : FS) (supply : nat → env) (jitter : nat → Z → Z) (elapsed : nat → Z).

Definition limits : JournalLimits := jc_limits config.
Definition consumer_run : string := run_id (jc_metadata config).
Abbreviation program := (prog W).
Abbreviation call_journal := (journal_call supply).

(** * Loading a batch *)

Definition row_objects (rows : list json) : res (list dict) :=
  foldr (λ row acc, l ← acc; match row with JObj d => Ok (d :: l) | _ => Err ValueError end) (Ok []) rows.
Definition load_batch (batch : BatchRecord) : res (GraphWriteOperation * list dict) :=
  o ← from_dict (br_operation batch);
  if negb (String.eqb (operation_key o) (br_operation_key batch)) then Err ValueError
  else
    raw ← art_read_jsonl fs (br_artifact batch);
    rows ← row_objects raw;
    Ok (o, rows).
(** [_load] *)
Definition _load (batch : BatchRecord) : res (GraphWriteOperation * list dict) :=
  match load_batch batch with
  | Err e => if contract_error e then Err bad_contract else Err e
  | Ok (o, rows) =>
      if negb (Z.of_nat (length rows) =? br_expected_count batch)%Z
      then Err (JournalError TerminalErrorCode.ARTIFACT_HASH_MISMATCH)
      else Ok (o, rows)
  end.

(** [assert batch.fencing_token] *)
Definition fencing_token (batch : BatchRecord) : res string :=
  match br_fencing_token batch with
  | Some token => if is_empty token then Err AssertionError else Ok token
  | None => Err AssertionError
  end.

Definition block (batch : BatchRecord) (token : string) (class : RetryClass) (code : TerminalErrorCode) : program unit :=
  _ ← call_journal (λ ε, block_batch limits ε (br_job_id batch) token class code); mret ().

(** * [_reconcile_one] *)

(** The contract of the readback: descriptor, rows and query. *)
Definition readback_of (batch : BatchRecord) : res (string * dict) :=
  '(o, rows) ← _load batch;
  readback ← compile_reconciliation_readback o rows (br_job_id batch) (sha256 (br_artifact batch))
               (br_run_id batch) (generation (jc_metadata config));
  match readback with
  | None => Err bad_contract
  | Some (text, parameters) => Ok (render text, parameters)
  end.
Definition readback_handler (batch : BatchRecord) (token : string) (e : exn) : option (program (string * dict)) :=
  match e with
  | JournalError code => Some (_ ← block batch token (classify_error e) code; raise e)
  | AssertionError | TypeError | ValueError =>
      Some (_ ← block batch token RetryClass.INCOMPATIBLE TerminalErrorCode.INVALID_CONTRACT; raise bad_contract)
  | _ => None
  end.
(** [retry_at(attempt, base_seconds, max_seconds)], at the current time. *)
Definition next_retry (attempt : Z) : program Z :=
  tick ← (λ s, (Ok (ss_tick s), s)) : program nat;
  now ← read_clock supply;
  lift (retry_at attempt now (jc_retry_base_seconds config) (jc_retry_max_seconds config) (jitter tick)).
(** [except Exception]: everything but the exceptions outside [Exception]. *)
Definition query_handler (batch : BatchRecord) (token : string) (e : exn) : option (program (list dict)) :=
  match e with
  | BaseException => None
  | _ => Some (
      if bool_decide (classify_error e = RetryClass.TRANSIENT) then
        at_ ← next_retry (br_attempt batch);
        _ ← call_journal (λ ε, schedule_reconciliation_retry limits ε (br_job_id batch) token at_
              TerminalErrorCode.INVALID_TRANSITION);
        raise e
      else
        _ ← block batch token (classify_error e) TerminalErrorCode.INVALID_CONTRACT; raise e)
  end.
Definition count_handler (batch : BatchRecord) (token : string) (e : exn) : option (program Z) :=
  match e with
  | TypeError | ValueError =>
      Some (_ ← block batch token RetryClass.INTEGRITY TerminalErrorCode.INVALID_CONTRACT; raise bad_contract)
  | _ => None
  end.
Definition settle_reconciliation (batch : BatchRecord) (token : string) (receipt_count : Z) : program unit :=
  if (receipt_count =? 1)%Z then
    _ ← call_journal (λ ε, ack_batch limits ε (br_job_id batch) token None); mret ()
  else if negb (receipt_count =? 0)%Z then
    _ ← block batch token RetryClass.INTEGRITY TerminalErrorCode.INVALID_CONTRACT; raise bad_contract
  else
    now ← read_clock supply;
    _ ← call_journal (λ ε, schedule_retry limits ε (br_job_id batch) token now RetryClass.AMBIGUOUS
          TerminalErrorCode.INVALID_TRANSITION);
    mret ().
Definition _reconcile_one (batch : BatchRecord) : program unit :=
  token ← lift (fencing_token batch);
  '(text, parameters) ← try_except (lift (readback_of batch)) (readback_handler batch token);
  records ← try_except (query None text parameters) (query_handler batch token);
  receipt_count ← try_except (lift (result_count records)) (count_handler batch token);
  settle_reconciliation batch token receipt_count.

(** * [_execute_one] *)

Definition mutation_of (batch : BatchRecord) : res (GraphWriteOperation * string * dict) :=
  '(o, rows) ← _load batch;
  '(text, parameters) ← compile_persisted_mutation o rows;
  Ok (o, render text, parameters).
Definition mutation_handler (batch : BatchRecord) (token : string) (e : exn)
    : option (program (GraphWriteOperation * string * dict)) :=
  match e with
  | JournalError code => Some (_ ← block batch token RetryClass.INCOMPATIBLE code; raise e)
  | _ => None
  end.
Definition batch_fence (batch : BatchRecord) (o : GraphWriteOperation) : fence :=
  journaled_mutation (Some (br_job_id batch)) (operation_key o) (sha256 (br_artifact batch))
    (br_run_id batch) (generation (jc_metadata config)).
(** The body of the [try]: run the mutation, compare its count, acknowledge. *)
Definition apply_mutation (batch : BatchRecord) (token : string) (o : GraphWriteOperation) (text : string)
    (parameters : dict) : program unit :=
  records ← query (Some (batch_fence batch o)) text parameters;
  count ← lift (result_count records);
  if negb (count =? br_expected_count batch)%Z then
    _ ← block batch token RetryClass.INTEGRITY TerminalErrorCode.INVALID_CONTRACT; raise bad_contract
  else
    tick ← (λ s, (Ok (ss_tick s), s)) : program nat;
    _ ← call_journal (λ ε, ack_batch limits ε (br_job_id batch) token (Some (elapsed tick)));
    mret ().
Definition apply_handler (batch : BatchRecord) (token : string) (e : exn) : option (program unit) :=
  match e with
  | JournalError _ => None
  | _ => Some (_ ← call_journal (λ ε, mark_reconciling ε (br_job_id batch) token
                     (Some TerminalErrorCode.INVALID_TRANSITION)); raise e)
  end.
Definition _execute_one (batch : BatchRecord) : program unit :=
  token ← lift (fencing_token batch);
  '(o, text, parameters) ← try_except (lift (mutation_of batch)) (mutation_handler batch token);
  let parameters := setitem "__journal_operation_key" (JStr (operation_key o)) parameters in
  try_except (apply_mutation batch token o text parameters) (apply_handler batch token).

(** * [_seal_endpoint_audit_if_ready] *)

Definition is_edge_phase (p : OperationPhase) : bool :=
  match p with OperationPhase.RELATIONSHIPS | OperationPhase.CALLS => true | _ => false end.
Fixpoint audit_batches (batches : list BatchRecord) (audited_rows : Z) : program Z :=
  match batches with
  | [] => mret audited_rows
  | batch :: batches =>
      if negb (is_edge_phase (br_phase batch)) then audit_batches batches audited_rows
      else
        '(o, rows) ← lift (_load batch);
        audit ← lift (compile_endpoint_audit o rows);
        match audit with
        | None => audit_batches batches audited_rows
        | Some (text, parameters) =>
            records ← query None (render text) parameters;
            match records with
            | [] => audit_batches batches (audited_rows + Z.of_nat (length rows))
            | _ => raise bad_contract
            end
        end
  end.
Definition close_audit_barrier : program unit :=
  _ ← call_journal (λ ε, close_barrier ε consumer_run ENDPOINT_AUDIT_BARRIER); mret ().
Definition _seal_endpoint_audit_if_ready : program unit :=
  if negb (node_first (jc_metadata config)) then mret ()
  else
    status ← read_db (endpoint_audit_status consumer_run); status ← lift status;
    match status with
    | Some _ => close_audit_barrier
    | None =>
        node_barrier ← read_db (get_barrier consumer_run NODE_PHASE_BARRIER);
        match node_barrier with
        | None => mret ()
        | Some b =>
            if negb (bool_decide (bar_status b = BarrierStatus.DRAINED)) then mret ()
            else
              batches ← read_db (list_batches consumer_run);
              audited_rows ← audit_batches batches 0;
              _ ← call_journal (λ ε, seal_endpoint_audit ε consumer_run None None (Some audited_rows));
              close_audit_barrier
        end
    end.

(** * [drain] *)

Definition claim_ambiguous : program (option BatchRecord) :=
  call_journal (λ ε, claim_reconciling ε (Some consumer_run) (jc_lease_seconds config)).
Definition claim_pending : program (option BatchRecord) :=
  call_journal (λ ε, claim_batch ε (Some consumer_run) (jc_lease_seconds config)).
(** The [while True] loop: [None] is out of fuel. *)
Fixpoint drain_loop (fuel : nat) (drained : Z) : program (option Z) :=
  match fuel with
  | O => mret None
  | S fuel =>
      ambiguous ← claim_ambiguous;
      match ambiguous with
      | Some batch => _ ← _reconcile_one batch; drain_loop fuel (drained + 1)
      | None =>
          pending ← claim_pending;
          match pending with
          | Some batch => _ ← _execute_one batch; drain_loop fuel (drained + 1)
          | None =>
              _ ← _seal_endpoint_audit_if_ready;
              pending ← claim_pending;
              match pending with
              | Some batch => _ ← _execute_one batch; drain_loop fuel (drained + 1)
              | None => mret (Some drained)
              end
          end
      end
  end.
Definition drain (fuel : nat) : program (option Z) :=
  _ ← _seal_endpoint_audit_if_ready; drain_loop fuel 0.

(** * [resume_journal] *)

(** The driver's schema preflight: the fingerprint it verified, if any. *)
Context (ensure_schema : option (W → res (option string) * W)).
Definition _ensure_recovery_schema : program unit :=
  let expected := schema_fingerprint_of CODE_GRAPH_SCHEMA in
  if negb (String.eqb (schema_fingerprint (jc_metadata config)) expected)
  then raise (JournalError TerminalErrorCode.INCOMPATIBLE_SCHEMA)
  else match ensure_schema with
  | None => raise bad_contract
  | Some ensure =>
      actual ← (λ s, let '(r, w) := ensure (ss_graph s) in (r, MkSession (ss_db s) w (ss_tick s))) : program (option string);
      if bool_decide (actual = Some expected) then mret ()
      else raise (JournalError TerminalErrorCode.INCOMPATIBLE_SCHEMA)
  end.
(** [GraphWriteJournalConsumer.__init__], given its schema preflight, on a
    journal of the current schema. *)
Definition open_consumer : program unit :=
  if negb (required config) then raise ValueError
  else
    _ ← call_journal (recover_and_verify fs);
    run ← read_db (get_run consumer_run);
    match run with
    | None => raise bad_transition
    | Some _ => _ ← call_journal (λ ε, recover_run_leases_as_ambiguous ε consumer_run); mret ()
    end.
Definition resume_journal (journal_exists : bool) (fuel : nat) : program (option Z) :=
  if negb (required config) || negb journal_exists then mret (Some 0%Z)
  else
    _ ← call_journal (recover_and_verify fs);
    run ← read_db (get_run consumer_run);
    match run with
    | None => mret (Some 0%Z)
    | Some _ => _ ← _ensure_recovery_schema; _ ← open_consumer; drain fuel
    end.
End consumer.
