(* ===== verification/Runtime.v ===== *)
(** The inline producer of [code-tiny/tools/graph/journal/runtime.py]: it
    persists the batches of an analyzer, orders relationships after the nodes
    they join, and claims, resolves and acknowledges its own batches. *)
From S2P Require Import Prelude Json Text PyValue Models Identity Schema Operation Retry Db Manifest ArtifactApi Store Executor Guard Staging Transitions Boundary Admin Config Steps Invariant Refinement RefinementRuns Journal Session Consumer.

(** [(scope, label, identity property, canonical identity)] *)
Definition node_key : Type := string * string * string * string.
Abbreviation node_barriers := (gmap node_key string).
(** What a runtime keeps besides the journal: the payload files and
    [self._node_barriers]. *)
Record producer (FS : Type) := MkProducerState { pd_files : FS; pd_barriers : node_barriers }.
Arguments MkProducerState {FS} _ _.
Arguments pd_files {FS} _.
Arguments pd_barriers {FS} _.

Record JournalTicket := MkTicket {
  tk_batch : BatchRecord; tk_execute : bool; tk_operation : GraphWriteOperation; tk_rows : list dict;
  tk_reconcile : bool;
}.

(** * [_barrier_contract] *)

(** [str(row.get("project_id_normalized") or row.get("project_id") or project_id.casefold())] *)
Definition row_scope (project : string) (row : dict) : string :=
  py_str (py_or (py_or (get "project_id_normalized" row) (get "project_id" row)) (JStr (casefold project))).
Definition node_barrier (node_label : string) (sequence : Z) (artifact_sha256 : string) : string :=
  "node:" +:+ node_label +:+ ":" +:+ print_int sequence +:+ ":" +:+ Text.take 16 artifact_sha256.
(** [operation.node_label and operation.identity_property], when
    [reconciliation] is [node_identity]. *)
Definition node_contract (o : GraphWriteOperation) : option (string * string) :=
  match go_node_label o, go_identity_property o with
  | Some node_label, Some identity_property =>
      if String.eqb (go_reconciliation o) "node_identity"
         && negb (is_empty node_label) && negb (is_empty identity_property)
      then Some (node_label, identity_property) else None
  | _, _ => None
  end.
Definition row_node_key (project : string) (o : GraphWriteOperation) (c : string * string) (row : dict) : option node_key :=
  match get (go_row_identity_property o) row with
  | JNull => None
  | identity => Some (row_scope project row, c.1, c.2, canonical_json identity)
  end.
(** The loop over the rows of a node batch. *)
Fixpoint register_rows (project : string) (o : GraphWriteOperation) (c : string * string) (barrier : string)
    (rows : list dict) (known : node_barriers) : node_barriers :=
  match rows with
  | [] => known
  | row :: rows => register_rows project o c barrier rows
      (match row_node_key project o c row with Some key => <[key := barrier]> known | None => known end)
  end.
(** One endpoint of a relationship row, named by its columns. *)
Definition described_endpoint (scope : string) (row : dict) (label_key property_key identity_key : string) : node_key :=
  (scope, py_str (get label_key row), py_str (py_or (get property_key row) (JStr "id")),
   canonical_json (get identity_key row)).
(** The endpoints the branches for [typed_relationship], [repository_file],
    [evidence_edge] and the three call contracts look up. *)
Definition endpoint_keys (project : string) (o : GraphWriteOperation) (row : dict) : list node_key :=
  let scope := row_scope project row in
  let reconciliation := go_reconciliation o in
  if in_list reconciliation ["typed_relationship"; "evidence_edge"] then
    [described_endpoint scope row "source_label" "source_property" "source_id";
     described_endpoint scope row "target_label" "target_property" "target_id"]
  else if String.eqb reconciliation "repository_file" then
    [(scope, "File", "id", canonical_json (get "id" row))]
  else if in_list reconciliation ["call_edge"; "call_site"; "possible_call_site"] then
    [(scope, "Function", "id", canonical_json (get "caller_id" row));
     (scope, "Function", "id", canonical_json (get "callee_id" row))]
  else [].
(** [if dependency: required.add(dependency)] *)
Definition dependencies (known : node_barriers) (keys : list node_key) : list string :=
  omap (λ key, d ← known !! key; if is_empty d then None else Some d) keys.

Definition _barrier_contract (project : string) (first : bool) (o : GraphWriteOperation) (rows : list dict)
    (sequence : Z) (artifact_sha256 : string) (known : node_barriers)
    : list string * list string * node_barriers :=
  let '(required, produced, known) :=
    match node_contract o with
    | Some c =>
        let barrier := node_barrier c.1 sequence artifact_sha256 in
        ([], [barrier], register_rows project o c barrier rows known)
    | None => (dependencies known (List.concat (map (endpoint_keys project o) rows)), [], known)
    end in
  if first then
    if bool_decide (go_phase o = OperationPhase.NODES)
    then (sorted_set required, sorted_set (produced ++ [NODE_PHASE_BARRIER]), known)
    else (sorted_set (required ++ [NODE_PHASE_BARRIER; ENDPOINT_AUDIT_BARRIER]), produced, known)
  else (sorted_set required, produced, known).

Section runtime.
Context `{Sha256} {FS : Type} `{!ArtifactApi FS} `{!ArtifactWriter FS}.
(** The configuration, the environments of the journal calls, and the jitter
    of the retry policy. *)
Context (config : JournalConfig) (supply : nat → env) (jitter : Z → Z).
Definition runtime_limits : JournalLimits := jc_limits config.
Abbreviation program := (prog (producer FS)).
Abbreviation call_journal := (journal_call supply).
Definition runtime_node_first : bool := node_first (jc_metadata config).
Definition lease_time : Z := jc_lease_seconds config.

(** [__init__], on a journal of the current schema. *)
Definition open_runtime : program RunRecord :=
  _ ← (λ s, call_journal (recover_and_verify (pd_files (ss_graph s))) s) : program unit;
  run ← call_journal (λ ε, open_run runtime_limits ε (jc_metadata config) 0 0);
  _ ← call_journal (λ ε, recover_run_leases_as_ambiguous ε (rr_run_id run));
  _ ← (λ s, (Ok (), MkSession (ss_db s) (MkProducerState (pd_files (ss_graph s)) ∅) (ss_tick s))) : program unit;
  if runtime_node_first then
    _ ← call_journal (λ ε, open_barrier ε (rr_run_id run) NODE_PHASE_BARRIER);
    _ ← call_journal (λ ε, open_barrier ε (rr_run_id run) ENDPOINT_AUDIT_BARRIER);
    mret run
  else mret run.

(** [self.run] *)
Context (run : RunRecord).
Definition self_run : string := rr_run_id run.

Definition replayable (s : RunStatus) : bool :=
  match s with RunStatus.OPEN | RunStatus.DRAINING | RunStatus.DRAINED => true | _ => false end.
(** [self.artifacts.write_jsonl(run_id_value, rows)] *)
Definition write_payload (run : string) (rows : list json) : program ArtifactRef := λ s,
  let '(r, fs) := art_write_jsonl (pd_files (ss_graph s)) run rows in
  (r, MkSession (ss_db s) (MkProducerState fs (pd_barriers (ss_graph s))) (ss_tick s)).
(** [SQLiteJournal.create_artifact] *)
Definition create_artifact (run : string) (rows : list json) : program ArtifactRef :=
  found ← read_db (get_run run);
  if match found with Some r => replayable (rr_status r) | None => false end
  then write_payload run rows else raise bad_transition.
(** [self._barrier_contract(...)], which updates [self._node_barriers]. *)
Definition barrier_contract (o : GraphWriteOperation) (rows : list dict) (sequence : Z) (sha : string)
    : program (list string * list string) := λ s,
  let '(required, produced, known) := _barrier_contract (project_id (rr_metadata run)) runtime_node_first o rows
    sequence sha (pd_barriers (ss_graph s)) in
  (Ok (required, produced), MkSession (ss_db s) (MkProducerState (pd_files (ss_graph s)) known) (ss_tick s)).
Definition enqueue (spec : BatchSpec) : program BatchRecord := λ s,
  call_journal (λ ε, enqueue_batch runtime_limits (pd_files (ss_graph s)) ε self_run spec) s.
Fixpoint close_produced (barriers : list string) : program unit :=
  match barriers with
  | [] => mret ()
  | name :: barriers =>
      _ ← (if String.eqb name NODE_PHASE_BARRIER then mret ()
           else _ ← call_journal (λ ε, close_barrier ε self_run name); mret () : program unit);
      close_produced barriers
  end.

(** [not claimed.fencing_token] *)
Definition unfenced (b : BatchRecord) : bool :=
  match br_fencing_token b with Some token => is_empty token | None => true end.
Definition is_status (s : BatchStatus) (b : BatchRecord) : bool := bool_decide (br_status b = s).

(** [prepare] after the batch is enqueued and its barriers are closed. *)
Definition claim_ticket (o : GraphWriteOperation) (rows : list dict) (defer : bool) (batch : BatchRecord)
    : program JournalTicket :=
  let ticket b execute := MkTicket b execute o rows false in
  let defer := defer || (runtime_node_first && negb (bool_decide (go_phase o = OperationPhase.NODES))) in
  if defer && negb (is_status BatchStatus.DONE batch) then mret (ticket batch false)
  else if is_status BatchStatus.DONE batch then mret (ticket batch false)
  else if is_status BatchStatus.BLOCKED batch || is_status BatchStatus.DEAD_LETTER batch
  then raise (JournalError (default TerminalErrorCode.INVALID_TRANSITION (br_error_code batch)))
  else if is_status BatchStatus.RECONCILING batch then
    reconciliation ← call_journal (λ ε, claim_reconciling_job ε (br_job_id batch) lease_time);
    match reconciliation with
    | Some b => if unfenced b then raise bad_transition else mret (MkTicket b false o rows true)
    | None => raise bad_transition
    end
  else
    claimed ← call_journal (λ ε, claim_job ε (br_job_id batch) lease_time);
    let lost := (current ← read_db (get_batch (br_job_id batch));
                 match current with
                 | Some c => if is_status BatchStatus.DONE c then mret (ticket c false) else raise bad_transition
                 | None => raise bad_transition
                 end) : program JournalTicket in
    match claimed with
    | Some b => if unfenced b then lost else mret (ticket b true)
    | None => lost
    end.
(** [prepare] once the operation is known and the run is not a shadow. *)
Definition prepare_batch (o : GraphWriteOperation) (rows : list dict) (sequence : Z)
    (additional_required_barriers : list string) : program BatchRecord :=
  artifact ← create_artifact self_run (map JObj rows);
  '(required, produced) ← barrier_contract o rows sequence (sha256 artifact);
  spec ← lift (make_batch_spec (MkBatchSpec (go_phase o) (operation_key o) sequence artifact (Z.of_nat (length rows))
      (sorted_set (required ++ additional_required_barriers)) produced (jc_max_attempts config) (to_dict o)));
  batch ← enqueue spec;
  _ ← close_produced produced;
  mret batch.
Definition prepare (label : string) (rows : list dict) (sequence : Z) (operation : option GraphWriteOperation)
    (additional_required_barriers : list string) (defer : bool) : program JournalTicket :=
  o ← lift (match operation with Some o => Ok o | None => for_label label end);
  if shadow config then raise RuntimeError
  else if String.eqb (go_reconciliation o) "unsupported" then raise bad_contract
  else
    batch ← prepare_batch o rows sequence additional_required_barriers;
    claim_ticket o rows defer batch.

(** [close_node_production] *)
Definition close_node_production : program unit :=
  if negb runtime_node_first then mret ()
  else
    _ ← call_journal (λ ε, complete_producers ε self_run);
    _ ← call_journal (λ ε, close_barrier ε self_run NODE_PHASE_BARRIER);
    mret ().

Definition claim_deferred (t : JournalTicket) : program JournalTicket :=
  let job := br_job_id (tk_batch t) in
  let ticket b execute := MkTicket b execute (tk_operation t) (tk_rows t) false in
  let retry := (claimed ← call_journal (λ ε, claim_job ε job lease_time);
    match claimed with
    | Some b => mret (ticket b true)
    | None =>
        current ← read_db (get_batch job);
        match current with
        | Some c => if is_status BatchStatus.PENDING c || is_status BatchStatus.RETRY_WAIT c
                    then mret (ticket c false) else raise bad_transition
        | None => raise bad_transition
        end
    end) : program JournalTicket in
  current ← read_db (get_batch job);
  match current with
  | Some c => if is_status BatchStatus.DONE c then mret (ticket c false) else retry
  | None => retry
  end.

(** [not ticket.reconcile or not ticket.batch.fencing_token]; otherwise the token. *)
Definition reconcile_token (t : JournalTicket) : option string :=
  if tk_reconcile t && negb (unfenced (tk_batch t)) then br_fencing_token (tk_batch t) else None.
Definition execute_token (t : JournalTicket) : option string :=
  if tk_execute t && negb (unfenced (tk_batch t)) then br_fencing_token (tk_batch t) else None.

(** [resolve_reconciliation]; [applied] is [None] when there is no readback. *)
Definition resolve_reconciliation (t : JournalTicket) (applied : option bool) : program JournalTicket :=
  let job := br_job_id (tk_batch t) in
  let ticket b execute := MkTicket b execute (tk_operation t) (tk_rows t) false in
  match reconcile_token t with
  | None => raise ValueError
  | Some token =>
      match applied with
      | Some true =>
          completed ← call_journal (λ ε, ack_batch runtime_limits ε job token None);
          mret (ticket completed false)
      | None =>
          _ ← call_journal (λ ε, block_batch runtime_limits ε job token RetryClass.INTEGRITY TerminalErrorCode.INVALID_CONTRACT);
          raise bad_contract
      | Some false =>
          now ← read_clock supply;
          _ ← call_journal (λ ε, schedule_retry runtime_limits ε job token now RetryClass.AMBIGUOUS
                TerminalErrorCode.INVALID_TRANSITION);
          claimed ← call_journal (λ ε, claim_job ε job lease_time);
          match claimed with Some b => mret (ticket b true) | None => raise bad_transition end
      end
  end.

Definition defer_reconciliation_error (t : JournalTicket) (error : exn) : program unit :=
  let job := br_job_id (tk_batch t) in
  match reconcile_token t with
  | None => raise ValueError
  | Some token =>
      if bool_decide (classify_error error = RetryClass.TRANSIENT) then
        now ← read_clock supply;
        at_ ← lift (retry_at (br_attempt (tk_batch t)) now (jc_retry_base_seconds config)
                     (jc_retry_max_seconds config) jitter);
        _ ← call_journal (λ ε, schedule_reconciliation_retry runtime_limits ε job token at_
              TerminalErrorCode.INVALID_TRANSITION);
        mret ()
      else
        _ ← call_journal (λ ε, block_batch runtime_limits ε job token (classify_error error)
              match error with JournalError code => code | _ => TerminalErrorCode.INVALID_CONTRACT end);
        mret ()
  end.

Definition block_integrity (t : JournalTicket) : program unit :=
  match execute_token t with
  | None => mret ()
  | Some token =>
      _ ← call_journal (λ ε, block_batch runtime_limits ε (br_job_id (tk_batch t)) token RetryClass.INTEGRITY
            TerminalErrorCode.INVALID_CONTRACT);
      mret ()
  end.
Definition acknowledge (t : JournalTicket) (count elapsed_ms : Z) : program unit :=
  if negb (count =? br_expected_count (tk_batch t))%Z then _ ← block_integrity t; raise bad_contract
  else match br_fencing_token (tk_batch t) with
  | None => raise AssertionError
  | Some token =>
      _ ← call_journal (λ ε, ack_batch runtime_limits ε (br_job_id (tk_batch t)) token (Some elapsed_ms));
      mret ()
  end.
Definition renew (t : JournalTicket) : program unit :=
  match execute_token t with
  | None => mret ()
  | Some token => _ ← call_journal (λ ε, renew_lease ε (br_job_id (tk_batch t)) token lease_time); mret ()
  end.
Definition mark_ambiguous (t : JournalTicket) : program unit :=
  match execute_token t with
  | None => mret ()
  | Some token =>
      current ← read_db (get_batch (br_job_id (tk_batch t)));
      match current with
      | Some c =>
          if is_status BatchStatus.LEASED c
          then _ ← call_journal (λ ε, mark_reconciling ε (br_job_id (tk_batch t)) token
                     (Some TerminalErrorCode.INVALID_TRANSITION)); mret ()
          else mret ()
      | None => mret ()
      end
  end.
End runtime.
