(* ===== verification/Ordering.v ===== *)
(** What the producer's runtime does to the journal: it is a client of it, what
    a prepared batch is stored with, and which node batches stand behind the
    barriers it remembers. *)
From S2P Require Import Prelude Json Text PyValue Models Identity Schema Operation Retry Db Manifest ArtifactApi Store Executor Guard Staging Transitions Boundary Admin Config Steps Invariant Refinement RefinementRuns Behaviour Effects Journal Session Clients Consumer Runtime.

(** * Claims of one job *)

Section claims.
Context `{Sha256}.

Lemma claim_row_record ε job guard f ev d :
  wp (claim_row ε job guard f ev) (λ r d', ∀ rec, r = Some rec → ∃ b, batches d' !! job = Some b ∧ rec = _batch_from_row b) d.
Proof.
  unfold claim_row. do 3 wp_step; [by wp_step|]. wp_step. unfold update_batch. do 2 wp_step. apply wp_fetch_batch.
  intros c Hc. wp_step. apply wp_event. intros d' He. wp_step. intros rec [= <-]. exists c.
  by rewrite <- (batches_proper _ _ He).
Qed.
Lemma claim_exact_record ε eligible job guard f ev d r d' : inv d →
  transaction (claim_exact ε eligible job guard f ev) d = (Ok (Some r), d') →
  ∃ b, batches d' !! job = Some b ∧ r = _batch_from_row b.
Proof.
  intros Hi Ht. apply transaction_ok in Ht.
  assert (wp (claim_exact ε eligible job guard f ev) (λ r d', ∀ rec, r = Some rec →
    ∃ b, batches d' !! job = Some b ∧ rec = _batch_from_row b) d) as Hw.
  { unfold claim_exact. wp_step. apply (wp_recover_expired d); [by apply steps_refl|]. intros _ d1 _. do 2 wp_step.
    destruct (batches d1 !! job) as [b|]; [|by wp_step]. destruct (eligible d1 b); [|by wp_step].
    apply claim_row_record. }
  unfold wp in Hw. rewrite Ht in Hw. by apply Hw.
Qed.
Lemma claim_job_record ε job secs d r d' : inv d → claim_job ε job secs d = (Ok (Some r), d') →
  ∃ b, batches d' !! job = Some b ∧ r = _batch_from_row b.
Proof. intros Hi. unfold claim_job, op_guard. destruct (_ <=? _)%Z; [done|]. by apply claim_exact_record. Qed.
Lemma claim_reconciling_job_record ε job secs d r d' : inv d → claim_reconciling_job ε job secs d = (Ok (Some r), d') →
  ∃ b, batches d' !! job = Some b ∧ r = _batch_from_row b.
Proof. intros Hi. unfold claim_reconciling_job, op_guard. destruct (_ <=? _)%Z; [done|]. by apply claim_exact_record. Qed.
End claims.

Section ordering.
Context `{Sha256} {FS : Type} `{!ArtifactApi FS} `{!ArtifactWriter FS}.
Context (config : JournalConfig) (supply : nat → env) (jitter : Z → Z) (run : RunRecord).
Abbreviation runtime_session := (session (producer FS)).
Abbreviation calling := (client (FS:=FS) (W:=producer FS) (runtime_limits config)).
Abbreviation known_nodes s := (pd_barriers (ss_graph s)).
Abbreviation project := (project_id (rr_metadata run)).

(** * The runtime is a client of the journal *)

Lemma keeps_enqueue spec : keeps calling (enqueue config supply run spec).
Proof. intros s. apply (keeps_call _ (pd_files (ss_graph s)) _ _ (CEnqueue (self_run run) spec)); reflexivity. Qed.
Lemma keeps_write name rows : keeps calling (write_payload (FS:=FS) name rows).
Proof. apply keeps_local. intros s. unfold write_payload. by destruct (art_write_jsonl _ _ _). Qed.
Lemma keeps_contract o rows seq sha : keeps calling (barrier_contract (FS:=FS) config run o rows seq sha).
Proof. apply keeps_local. intros s. unfold barrier_contract. by destruct (_barrier_contract _ _ _ _ _ _ _) as [[? ?] ?]. Qed.
Ltac runtime_step :=
  match goal with
  | |- keeps _ (journal_call ?supply ?o) => let s := fresh in intros s; client_call supply (pd_files (ss_graph s)) o
  | |- keeps _ (read_clock _) => apply keeps_clock
  end || keeps_step || apply keeps_enqueue || apply keeps_write || apply keeps_contract.
Ltac runtime_steps := repeat runtime_step.

Lemma keeps_close_produced names : keeps calling (close_produced (FS:=FS) supply run names).
Proof. induction names as [|n names IH]; cbn [close_produced]; runtime_steps; apply IH. Qed.
Lemma keeps_claim_ticket o rows defer batch : keeps calling (claim_ticket (FS:=FS) config supply o rows defer batch).
Proof. unfold claim_ticket. runtime_steps. Qed.
Lemma keeps_prepare_batch o rows seq extra : keeps calling (prepare_batch (FS:=FS) config supply run o rows seq extra).
Proof. unfold prepare_batch, create_artifact. runtime_steps. apply keeps_close_produced. Qed.
Lemma keeps_prepare label rows seq op extra defer :
  keeps calling (prepare (FS:=FS) config supply run label rows seq op extra defer).
Proof. unfold prepare. runtime_steps; [apply keeps_prepare_batch|apply keeps_claim_ticket]. Qed.
Lemma keeps_resolve t applied : keeps calling (resolve_reconciliation (FS:=FS) config supply t applied).
Proof. unfold resolve_reconciliation. runtime_steps. Qed.
Lemma keeps_claim_deferred t : keeps calling (claim_deferred (FS:=FS) config supply t).
Proof. unfold claim_deferred. runtime_steps. Qed.
Lemma keeps_defer_error t e : keeps calling (defer_reconciliation_error (FS:=FS) config supply jitter t e).
Proof. unfold defer_reconciliation_error. runtime_steps. Qed.
Lemma keeps_block_integrity t : keeps calling (block_integrity (FS:=FS) config supply t).
Proof. unfold block_integrity. runtime_steps. Qed.
Lemma keeps_acknowledge t n el : keeps calling (acknowledge (FS:=FS) config supply t n el).
Proof. unfold acknowledge. runtime_steps. apply keeps_block_integrity. Qed.
Lemma keeps_renew t : keeps calling (renew (FS:=FS) config supply t).
Proof. unfold renew. runtime_steps. Qed.
Lemma keeps_mark_ambiguous t : keeps calling (mark_ambiguous (FS:=FS) supply t).
Proof. unfold mark_ambiguous. runtime_steps. Qed.
Lemma keeps_close_nodes : keeps calling (close_node_production (FS:=FS) config supply run).
Proof. unfold close_node_production. runtime_steps. Qed.
Lemma keeps_open_runtime : keeps calling (open_runtime (FS:=FS) config supply).
Proof. unfold open_runtime. runtime_steps; first [by apply keeps_local | intros s; apply (keeps_reopen _ (pd_files (ss_graph s)))]. Qed.

(** Journal calls leave the runtime's own state alone. *)
Definition same_graph (s s' : runtime_session) : Prop := ss_graph s' = ss_graph s.
#[export] Instance same_graph_preorder : PreOrder same_graph.
Proof. split; unfold same_graph; [done|]. intros x y z. congruence. Qed.
Lemma call_same_graph {A} (o : env → op A) : keeps same_graph (journal_call supply o).
Proof. intros s. unfold same_graph, journal_call. by destruct (o _ _). Qed.
Lemma same_graph_known s s' : same_graph s s' → known_nodes s' = known_nodes s.
Proof. by intros ->. Qed.
Lemma acknowledge_same_graph t n el : keeps same_graph (acknowledge (FS:=FS) config supply t n el).
Proof. unfold acknowledge, block_integrity. repeat (apply call_same_graph || keeps_step). Qed.

(** * What a prepared batch is stored with *)

(** From [s] to [s'] a batch of operation [o] was prepared as [job]: the row
    that was there, or a new one with the barriers the contract computes from
    the nodes known in [s]. *)
Definition stored_as (o : GraphWriteOperation) (rows : list dict) (seq : Z) (extra : list string)
    (s s' : runtime_session) (job : string) : Prop :=
  ∃ art fs' fp required produced row row',
    art_write_jsonl (pd_files (ss_graph s)) (self_run run) (map JObj rows) = (Ok art, fs') ∧
    _barrier_contract project (runtime_node_first config) o rows seq (sha256 art) (known_nodes s)
      = (required, produced, known_nodes s') ∧
    job = deterministic_job_id fp (go_phase o) (operation_key o) seq (sha256 art) ∧
    batches (ss_db s') !! job = Some row' ∧ fixed_columns row' = fixed_columns row ∧
    (batches (ss_db s) !! job = Some row ∨
     batches (ss_db s) !! job = None ∧ b_run_id row = self_run run ∧
     b_required_barriers_json row = sorted_set (required ++ extra) ∧
     b_produced_barriers_json row = sorted_set produced).

Lemma make_batch_spec_fields spec spec' : make_batch_spec spec = Ok spec' →
  bs_phase spec' = bs_phase spec ∧ bs_operation_key spec' = bs_operation_key spec ∧ bs_sequence spec' = bs_sequence spec ∧
  bs_artifact spec' = bs_artifact spec ∧ bs_required_barriers spec' = sorted_set (bs_required_barriers spec) ∧
  bs_produced_barriers spec' = sorted_set (bs_produced_barriers spec).
Proof. unfold make_batch_spec. repeat (destruct (_ : bool); [done|]). by intros [= <-]. Qed.

(** Closing barriers changes neither the batches nor what the runtime knows. *)
Lemma close_produced_ok names s :
  ok_post (close_produced (FS:=FS) supply run names) (λ _ s', batches (ss_db s') = batches (ss_db s) ∧ ss_graph s' = ss_graph s) s.
Proof.
  revert s. induction names as [|name names IH]; intros s; cbn [close_produced]; [by apply ok_ret|].
  apply ok_bind. apply (ok_mono _ (λ _ s', batches (ss_db s') = batches (ss_db s) ∧ ss_graph s' = ss_graph s)).
  - destruct (String.eqb _ _); [by apply ok_ret|]. apply ok_bind, ok_call. intros a d Hd. apply ok_ret.
    split; [|done]. pose proof (close_barrier_still (supply (ss_tick s)) (self_run run) name (ss_db s)) as Hs.
    by rewrite Hd in Hs.
  - intros [] s1 [Hb1 Hg1]. eapply ok_mono; [apply IH|]. intros [] s2 [Hb2 Hg2]. split; congruence.
Qed.
Lemma prepare_batch_ok o rows seq extra s :
  ok_post (prepare_batch config supply run o rows seq extra) (λ batch s',
    ∃ job row, stored_as o rows seq extra s s' job ∧ batches (ss_db s') !! job = Some row ∧ batch = _batch_from_row row) s.
Proof.
  unfold prepare_batch, create_artifact. apply ok_bind, ok_bind, ok_read.
  match goal with |- context [if ?c then _ else _] => destruct c; [|apply ok_raise] end.
  red. unfold sp, write_payload. destruct (art_write_jsonl _ _ _) as [[art|e] fs'] eqn:Hart; [|done]. cbn [fst snd].
  apply ok_bind. red. unfold sp, barrier_contract. cbn [ss_graph pd_barriers].
  destruct (_barrier_contract _ _ _ _ _ _ _) as [[required produced] known] eqn:Hc. cbn [fst snd ss_db ss_tick pd_files].
  apply ok_bind, ok_lift. intros spec Hspec%make_batch_spec_fields. cbn [bs_phase bs_operation_key bs_sequence bs_artifact bs_required_barriers bs_produced_barriers] in Hspec.
  destruct Hspec as (Hph & Hop & Hseq & Ha & Hreq & Hprod).
  apply ok_bind. unfold enqueue. red. unfold sp, journal_call. cbn [ss_graph pd_files ss_db ss_tick].
  destruct (enqueue_batch _ _ _ _ _ _) as [[batch|e] d] eqn:He; [|done]. cbn [fst snd].
  apply enqueue_result in He as (r & row & _ & Hrow & -> & Hold).
  rewrite Hph, Hop, Hseq, Ha in Hrow, Hold. set (job := deterministic_job_id _ _ _ _ _) in *.
  apply ok_bind. eapply ok_mono; [apply close_produced_ok|]. cbn [ss_db ss_graph]. intros [] s' [Hb Hg]. apply ok_ret.
  exists job, row. rewrite Hb. split; [|done]. exists art, fs', (r_fingerprint r), required, produced, row, row.
  rewrite Hg, Hb. split_and!; try done. destruct Hold as [Hold|[Hnew ->]]; [by left|right].
  unfold new_batch. cbn [b_run_id b_required_barriers_json b_produced_barriers_json].
  by rewrite Hreq, Hprod, !sorted_set_idemp.
Qed.

(** The ticket is for that batch. *)
Lemma claim_ticket_ok o rows defer batch s : inv (ss_db s) →
  (∃ job row, batches (ss_db s) !! job = Some row ∧ batch = _batch_from_row row) →
  ok_post (claim_ticket (FS:=FS) config supply o rows defer batch) (λ t s',
    br_job_id (tk_batch t) = br_job_id batch ∧ ss_graph s' = ss_graph s) s.
Proof.
  intros Hi (job & row & Hrow & ->). pose proof (row_key _ _ (inv_row _ Hi _ _ Hrow)) as Hjob.
  unfold claim_ticket. cbv zeta. destruct (_ && _); [by apply ok_ret|]. destruct (is_status _ _); [by apply ok_ret|].
  destruct (_ || _); [apply ok_raise|]. assert (∀ rec d (s0 : runtime_session) (o' : op (option BatchRecord)),
    refines o' → (∀ d r d', inv d → o' d = (Ok (Some r), d') → ∃ b, batches d' !! job = Some b ∧ r = _batch_from_row b) →
    inv (ss_db s0) → o' (ss_db s0) = (Ok (Some rec), d) → br_job_id rec = job) as Hrec.
  { intros rec d s0 o' Hr Hs Hi0 Heq. destruct (Hs _ _ _ Hi0 Heq) as (b & Hb & ->).
    apply (row_key job b), (inv_row d); [|done]. eapply steps_inv; [exact Hi0|]. by eapply Hr. }
  destruct (is_status BatchStatus.RECONCILING _).
  - apply ok_bind, ok_call. intros [b|] d Hd; [|apply ok_raise]. destruct (unfenced b); [apply ok_raise|]. apply ok_ret.
    split; [|done]. cbn. rewrite Hjob. eapply (Hrec _ _ s _ (claim_reconciling_job_refines _ _ _)); [|done|exact Hd].
    cbn [br_job_id _batch_from_row]. rewrite Hjob. intros ???. apply claim_reconciling_job_record.
  - apply ok_bind, ok_call. intros c d Hd.
    assert (inv d) as Hi1 by (eapply steps_inv; [exact Hi|]; by eapply claim_job_refines).
    assert (∀ g, g = ss_graph s → ok_post (current ← read_db (get_batch (br_job_id (_batch_from_row row)));
      match current with
      | Some c => if is_status BatchStatus.DONE c then mret (MkTicket c false o rows false) else raise bad_transition
      | None => raise bad_transition
      end) (λ t s', br_job_id (tk_batch t) = br_job_id (_batch_from_row row) ∧ ss_graph s' = ss_graph s)
      (MkSession d g (S (ss_tick s)))) as Hlost.
    { intros g ->. apply ok_bind, ok_read. unfold get_batch. cbn [ss_db]. cbn [br_job_id _batch_from_row]. rewrite Hjob.
      destruct (batches d !! job) as [b|] eqn:Eb; [|apply ok_raise]. cbn [fmap option_fmap option_map].
      destruct (is_status _ _); [|apply ok_raise]. apply ok_ret. split; [|done]. cbn.
      by apply (row_key job b), (inv_row d). }
    destruct c as [b|]; [|by apply Hlost]. destruct (unfenced b); [by apply Hlost|]. apply ok_ret. split; [|done].
    cbn. rewrite Hjob. eapply (Hrec _ _ s _ (claim_job_refines _ _ _)); [|done|exact Hd].
    cbn [br_job_id _batch_from_row]. rewrite Hjob. intros ???. apply claim_job_record.
Qed.

Lemma stored_later o rows seq extra s s1 s2 job : inv (ss_db s1) → calling s1 s2 → ss_graph s2 = ss_graph s1 →
  stored_as o rows seq extra s s1 job → stored_as o rows seq extra s s2 job.
Proof.
  intros Hi Hc Hg (art & fs' & fp & required & produced & row & row' & Hart & Hb & Hjob & Hrow & Hfix & Hold).
  destruct (client_contract _ _ _ _ _ Hi Hc Hrow) as (row2 & Hrow2 & Hfix2).
  exists art, fs', fp, required, produced, row, row2. rewrite Hg. split_and!; try done. congruence.
Qed.
Lemma prepare_ok label rows seq op extra defer s : inv (ss_db s) →
  ok_post (prepare config supply run label rows seq op extra defer) (λ t s',
    ∃ o, match op with Some o => Ok o | None => for_label label end = Ok o ∧
      stored_as o rows seq extra s s' (br_job_id (tk_batch t))) s.
Proof.
  intros Hi. unfold prepare. apply ok_bind, ok_lift. intros o Ho. destruct (shadow config); [apply ok_raise|].
  destruct (String.eqb _ _); [apply ok_raise|]. apply ok_bind.
  eapply ok_mono; [exact (ok_keeps _ _ _ _ (keeps_prepare_batch o rows seq extra) (prepare_batch_ok o rows seq extra s))|].
  intros batch s1 [(job & row & Hst & Hrow & ->) Hc1]. assert (inv (ss_db s1)) as Hi1 by (by eapply client_inv).
  eapply ok_mono.
  { refine (ok_keeps _ _ _ _ (keeps_claim_ticket o rows defer _) (claim_ticket_ok o rows defer _ s1 Hi1 _)). by exists job, row. }
  intros t s2 [[Hj Hg] Hc2]. exists o. split; [done|]. rewrite Hj. cbn [br_job_id _batch_from_row].
  rewrite (row_key _ _ (inv_row _ Hi1 _ _ Hrow)). by eapply stored_later.
Qed.

(** * The nodes behind the barriers a runtime remembers *)

(** [job] is a batch the runtime prepares for rows that carry the node [key],
    and [bar] the barrier it produces. *)
Definition carries (job : string) (key : node_key) (bar : string) : Prop :=
  ∃ o c rows row seq files art fs' fp,
    node_contract o = Some c ∧ row ∈ rows ∧ row_node_key project o c row = Some key ∧
    art_write_jsonl files (self_run run) (map JObj rows) = (Ok art, fs') ∧
    job = deterministic_job_id fp (go_phase o) (operation_key o) seq (sha256 art) ∧
    bar = node_barrier c.1 seq (sha256 art).
(** A row that a prepare found already there was stored for the same barrier. *)
Definition resumed_alike (op : res GraphWriteOperation) (rows : list dict) (seq : Z) (s : runtime_session) (row : batch_row) : Prop :=
  b_run_id row = self_run run ∧
  ∀ o c art fs', op = Ok o → node_contract o = Some c →
    art_write_jsonl (pd_files (ss_graph s)) (self_run run) (map JObj rows) = (Ok art, fs') →
    node_barrier c.1 seq (sha256 art) ∈ b_produced_barriers_json row.
(** The life of a runtime, from its construction: it prepares batches, and
    everything else it or any other client does goes through the journal. *)
Inductive history : runtime_session → Prop :=
  | hist_start s : reachable (FS:=FS) (runtime_limits config) (ss_db s) → known_nodes s = ∅ → history s
  | hist_clients s s' : history s → calling s s' → known_nodes s' = known_nodes s → history s'
  | hist_prepare label rows seq op extra defer t s s' :
      history s → prepare config supply run label rows seq op extra defer s = (Ok t, s') →
      (∀ row, batches (ss_db s) !! br_job_id (tk_batch t) = Some row →
        resumed_alike (match op with Some o => Ok o | None => for_label label end) rows seq s row) →
      history s'.

Lemma history_reachable s : history s → reachable (FS:=FS) (runtime_limits config) (ss_db s).
Proof.
  induction 1 as [s Hr _|s s' _ IH Hc _|label rows seq op extra defer t s s' _ IH Hp _]; [done|by eapply client_reachable|].
  pose proof (keeps_prepare label rows seq op extra defer s) as Hc. rewrite Hp in Hc. by eapply client_reachable.
Qed.

Lemma register_rows_spec o c barrier rows known key bar :
  register_rows project o c barrier rows known !! key = Some bar →
  (bar = barrier ∧ ∃ row, row ∈ rows ∧ row_node_key project o c row = Some key) ∨ known !! key = Some bar.
Proof.
  revert known. induction rows as [|row rows IH]; intros known; [by right|]. cbn [register_rows].
  intros [[-> (row' & Hin & Hk)]|Hk]%IH; [left; split; [done|]; exists row'; split; [by right|done]|].
  destruct (row_node_key project o c row) as [key'|] eqn:E; [|by right].
  destruct (decide (key' = key)) as [->|Hne]; [|rewrite lookup_insert_ne in Hk by done; by right].
  rewrite lookup_insert_eq in Hk. injection Hk as <-. left. split; [done|]. exists row. split; [left|done].
Qed.
(** A node batch produces the barrier of its nodes, under which they are known. *)
Lemma contract_known first o rows seq sha known required produced known' :
  _barrier_contract project first o rows seq sha known = (required, produced, known') →
  match node_contract o with
  | Some c => known' = register_rows project o c (node_barrier c.1 seq sha) rows known ∧ node_barrier c.1 seq sha ∈ produced
  | None => known' = known
  end.
Proof.
  unfold _barrier_contract. destruct (node_contract o) as [c|], first; [destruct (bool_decide _)|..|destruct (bool_decide _)|];
    intros [= <- <- <-]; try done; (split; [done|]); first [by left | apply elem_of_sorted_set; by left].
Qed.

(** Each barrier the runtime remembers for a node is produced by a stored batch
    that carries the node. *)
Definition registered (s : runtime_session) : Prop := ∀ key bar, known_nodes s !! key = Some bar →
  ∃ job b, batches (ss_db s) !! job = Some b ∧ b_run_id b = self_run run ∧ bar ∈ b_produced_barriers_json b ∧
    carries job key bar.
Lemma registered_later s s' : inv (ss_db s) → calling s s' → known_nodes s' = known_nodes s → registered s → registered s'.
Proof.
  intros Hi Hc Hk Hr key bar Hbar. rewrite Hk in Hbar. destruct (Hr key bar Hbar) as (job & b & Hb & Hrun & Hp & Hcar).
  destruct (client_contract _ _ _ _ _ Hi Hc Hb) as (b' & Hb' & Hfix). unfold fixed_columns in Hfix. simplify_eq.
  exists job, b'. split_and!; congruence.
Qed.
Lemma history_registered s : history s → registered s.
Proof.
  induction 1 as [s _ Hk|s s' Hh IH Hc Hk|label rows seq op extra defer t s s' Hh IH Hp Hal].
  - intros key bar. by rewrite Hk, lookup_empty.
  - eapply registered_later; [|done..]. by eapply reachable_inv, history_reachable.
  - pose proof (history_reachable _ Hh) as Hre. pose proof (reachable_inv _ _ Hre) as Hi.
    pose proof (prepare_ok label rows seq op extra defer s Hi) as Hpost. unfold ok_post, sp in Hpost.
    pose proof (keeps_prepare label rows seq op extra defer s) as Hc. rewrite Hp in Hpost, Hc. cbn [fst snd] in Hpost, Hc.
    destruct Hpost as (o & Ho & art & fs' & fp & required & produced & row & row' & Hart & Hb & Hjob & Hrow & Hfix & Hold).
    assert (∀ key bar, known_nodes s !! key = Some bar → ∃ job b, batches (ss_db s') !! job = Some b ∧
      b_run_id b = self_run run ∧ bar ∈ b_produced_barriers_json b ∧ carries job key bar) as Hkeep.
    { intros key bar Hbar. exact (registered_later s (MkSession (ss_db s') (ss_graph s) (ss_tick s')) Hi Hc eq_refl IH key bar Hbar). }
    intros key bar Hbar. apply contract_known in Hb. destruct (node_contract o) as [c|] eqn:Ec; [|rewrite Hb in Hbar; by apply Hkeep].
    destruct Hb as [Hkn Hprod]. rewrite Hkn in Hbar. apply register_rows_spec in Hbar as [[-> (nrow & Hin & Hkey)]|Hbar]; [|by apply Hkeep].
    unfold fixed_columns in Hfix. simplify_eq.
    assert (b_run_id row = self_run run ∧ node_barrier c.1 seq (sha256 art) ∈ b_produced_barriers_json row) as [Hrun Hbar].
    { destruct Hold as [Hold|(_ & Hrun & _ & Hpr)].
      - destruct (Hal row Hold) as [Hrun Hsame]. split; [done|]. by eapply Hsame.
      - split; [done|]. rewrite Hpr. by apply elem_of_sorted_set. }
    exists (br_job_id (tk_batch t)), row'. split_and!; [done|congruence|congruence|].
    exists o, c, rows, nrow, seq, (pd_files (ss_graph s)), art, fs', fp. done.
Qed.
End ordering.
