(* ===== verification/Recovery.v ===== *)
(** What the autonomous consumer guarantees: it only ever acts through the
    journal, it terminates, and it acknowledges only what the graph confirms. *)
From S2P Require Import Prelude Json PyValue Models Identity Schema QueryContract Operation Retry Db Manifest ArtifactApi Store Executor Guard Replay Staging Transitions Boundary Admin Config Steps Invariant Refinement RefinementRuns Behaviour Journal Session Clients Consumer.

(** * The consumer is a client of the journal *)

Section client.
Context `{Sha256} {FS : Type} `{!ArtifactApi FS} {W : Type} `{!GraphDriver W}.
Context (config : JournalConfig) (fs : FS) (supply : nat → env) (jitter : nat → Z → Z) (elapsed : nat → Z).

Abbreviation journaled := (client (FS:=FS) (W:=W) (limits config)).
Ltac client_step := client_step_with fs || match goal with |- keeps _ (block _ _ _ _ _ _) => unfold block end.
Ltac client_steps := repeat client_step.

Lemma keeps_reconcile batch : keeps journaled (_reconcile_one config fs supply jitter batch).
Proof.
  unfold _reconcile_one. client_step; [client_step|]. client_step; [client_step; [client_step|]|].
  { unfold readback_handler in *. destruct e; simplify_eq; client_steps. }
  client_step. client_step; [client_step; [client_step|]|].
  { unfold query_handler, next_retry in *. destruct e; simplify_eq; client_steps. }
  client_step; [client_step; [client_step|]|].
  { unfold count_handler in *. destruct e; simplify_eq; client_steps. }
  unfold settle_reconciliation. client_steps.
Qed.
Lemma keeps_execute batch : keeps journaled (_execute_one config fs supply elapsed batch).
Proof.
  unfold _execute_one. client_step; [client_step|]. client_step; [client_step; [client_step|]|].
  { unfold mutation_handler in *. destruct e; simplify_eq; client_steps. }
  do 2 client_step. client_step.
  - unfold apply_mutation. client_steps.
  - unfold apply_handler in *. destruct e; simplify_eq; client_steps.
Qed.
Lemma keeps_audit batches n : keeps journaled (audit_batches fs batches n).
Proof.
  revert n. induction batches as [|b batches IH]; intros n; cbn [audit_batches]; client_steps; apply IH.
Qed.
Lemma keeps_seal : keeps journaled (_seal_endpoint_audit_if_ready config fs supply).
Proof.
  unfold _seal_endpoint_audit_if_ready, close_audit_barrier. client_steps. apply keeps_audit.
Qed.
Lemma keeps_claim_ambiguous : keeps journaled (claim_ambiguous config supply).
Proof. unfold claim_ambiguous. client_step. Qed.
Lemma keeps_claim_pending : keeps journaled (claim_pending config supply).
Proof. unfold claim_pending. client_step. Qed.
Lemma keeps_drain fuel : keeps journaled (drain config fs supply jitter elapsed fuel).
Proof.
  assert (∀ n, keeps journaled (drain_loop config fs supply jitter elapsed fuel n)) as Hl.
  { induction fuel as [|fuel IH]; intros n; cbn [drain_loop]; [client_step|].
    repeat first [apply keeps_claim_ambiguous | apply keeps_claim_pending | apply keeps_reconcile | apply keeps_execute | apply keeps_seal | apply IH | client_step]. }
  unfold drain. client_step; [apply keeps_seal|apply Hl].
Qed.
Lemma keeps_resume ensure exists_ fuel :
  keeps journaled (resume_journal config fs supply jitter elapsed ensure exists_ fuel).
Proof.
  unfold resume_journal, _ensure_recovery_schema, open_consumer.
  repeat first [apply keeps_drain | client_step].
  intros s. destruct (_ (ss_graph s)). by constructor.
Qed.
End client.
