(* ===== verification/Drain.v ===== *)
(** The drain loop of the consumer terminates: every batch it finishes takes
    work out of the journal, and it only stops by itself when none is left. *)
From S2P Require Import Prelude Json PyValue Models Identity Schema QueryContract Operation Retry Db Manifest ArtifactApi Store Executor Guard Replay Staging Transitions Boundary Admin Config Steps Invariant Refinement RefinementRuns Behaviour Effects Journal Session Clients Consumer Recovery.

(** * The work left in a journal *)

(** How many times a row can still be finished by a claim and its transition. *)
Definition rank (b : batch_row) : Z :=
  match b_status b with
  | BatchStatus.LEASED | BatchStatus.RECONCILING => 2
  | BatchStatus.PENDING | BatchStatus.RETRY_WAIT => 1
  | _ => 0
  end.
Definition pending_work (d : db) : Z := sumM rank (batches d).

Lemma rank_bounds b : (0 ≤ rank b ≤ 2)%Z.
Proof. unfold rank. destruct (b_status b); lia. Qed.
Lemma pending_work_nonneg d : (0 ≤ pending_work d)%Z.
Proof. apply sumM_nonneg. intros. apply rank_bounds. Qed.
Lemma pending_work_bound d : (pending_work d ≤ 2 * Z.of_nat (size (batches d)))%Z.
Proof.
  unfold pending_work. induction (batches d) as [|k v m Hk IH] using map_ind; [by rewrite sumM_empty|].
  rewrite sumM_insert_fresh, map_size_insert_None by done. pose proof (rank_bounds v). lia.
Qed.
Lemma rank_held b : held b → rank b = 2%Z.
Proof.
  unfold held, leased_or_reconciling, b_is, rank. intros Hh. destruct (b_status b); done.
Qed.
Lemma rank_executable b : executable b = true → rank b = 1%Z.
Proof. unfold executable, b_is, rank. intros Hh. destruct (b_status b); done. Qed.
Lemma rank_in_status b b' : b_status b = b_status b' → rank b = rank b'.
Proof. unfold rank. by intros ->. Qed.

Section work.
Context `{Sha256}.
Lemma work_recovered now d d1 : recovered_at now d d1 → pending_work d1 = pending_work d.
Proof.
  intros [_ Hl]. unfold pending_work.
  assert (batches d1 = recovered now (expired_lease now) (expired_owner now) <$> batches d) as ->.
  { apply map_eq. intros job. by rewrite Hl, lookup_fmap. }
  rewrite sumM_fmap. apply sumM_ext. intros k b _. unfold recovered, expired_lease, expired_owner.
  destruct (b_is BatchStatus.LEASED b) eqn:El; simpl.
  - destruct (expired now b); [|by destruct (b_is BatchStatus.RECONCILING b && owned b)].
    unfold b_is in El. apply bool_decide_eq_true in El. unfold rank. by rewrite El.
  - by destruct (b_is BatchStatus.RECONCILING b && owned b && expired now b).
Qed.
Lemma work_insert job b b' d d' : batches d !! job = Some b → batches d' = <[job := b']> (batches d) →
  pending_work d' = (pending_work d - rank b + rank b')%Z.
Proof. intros Hb Hd. unfold pending_work. by rewrite Hd, (sumM_insert _ _ _ _ b). Qed.
(** A transition of a held row that finishes it, or hands it back. *)
Lemma work_moved job sts d d' :
  (∀ b, b_status b ∈ sts → (rank b ≤ 1)%Z) → moved job held sts d d' → (pending_work d' < pending_work d)%Z.
Proof.
  intros Hs (b & b' & Hb & Hh & Hd & _ & Hst). rewrite (work_insert _ _ _ _ _ Hb Hd), (rank_held b Hh).
  specialize (Hs _ Hst). lia.
Qed.
End work.

Section drain.
Context `{Sha256} {FS : Type} `{!ArtifactApi FS} {W : Type} `{!GraphDriver W}.
Context (config : JournalConfig) (fs : FS) (supply : nat → env) (jitter : nat → Z → Z) (elapsed : nat → Z).

Abbreviation moved_in sts batch s s' := (moved (br_job_id batch) held sts (ss_db s) (ss_db s')).

(** ** What a returning piece of the loop did *)

Lemma moves_raise {A} (o : env → op A) job sts s (Q : A → session W → Prop) :
  (∀ ε, moves job held sts (o ε)) → (∀ a s', moved job held sts (ss_db s) (ss_db s') → Q a s') →
  ok_post (journal_call supply o) Q s.
Proof. intros Ho HQ. apply ok_call. intros a d E. apply HQ. exact (Ho _ _ _ _ E). Qed.

Lemma readback_raises batch token e (h : prog W _) : readback_handler config supply batch token e = Some h → raises h.
Proof. unfold readback_handler. destruct e; intros; simplify_eq; solve_raises. Qed.
Lemma query_raises batch token e (h : prog W _) : query_handler config supply jitter batch token e = Some h → raises h.
Proof. unfold query_handler. destruct e; intros; simplify_eq; solve_raises. Qed.
Lemma count_raises batch token e (h : prog W _) : count_handler config supply batch token e = Some h → raises h.
Proof. unfold count_handler. destruct e; intros; simplify_eq; solve_raises. Qed.
Lemma mutation_raises batch token e (h : prog W _) : mutation_handler config supply batch token e = Some h → raises h.
Proof. unfold mutation_handler. destruct e; intros; simplify_eq; solve_raises. Qed.
Lemma apply_raises batch token e (h : prog W _) : apply_handler supply batch token e = Some h → raises h.
Proof. unfold apply_handler. destruct e; intros; simplify_eq; solve_raises. Qed.

(** A reconciliation that returns acknowledged its batch or gave it back. *)
Definition settled : list BatchStatus := [BatchStatus.DONE; BatchStatus.RETRY_WAIT; BatchStatus.DEAD_LETTER].
Lemma reconcile_moves batch s :
  ok_post (_reconcile_one config fs supply jitter batch) (λ _ s', moved_in settled batch s s') s.
Proof.
  unfold _reconcile_one. apply ok_bind, ok_lift. intros token _. apply ok_bind.
  apply ok_try; [|apply readback_raises]. apply ok_lift. intros [text parameters] _. apply ok_bind.
  apply ok_try; [|apply query_raises]. apply ok_query. intros records w _. apply ok_bind.
  apply ok_try; [|apply count_raises]. apply ok_lift. intros n _. unfold settle_reconciliation.
  destruct (n =? 1)%Z; [|destruct (negb (n =? 0)%Z)].
  - apply ok_bind. eapply moves_raise; [intros; apply ack_moves|]. intros [] s' (b & b' & Hm). apply ok_ret.
    destruct Hm as (? & ? & ? & ? & Hst). exists b, b'. split_and!; try done. by apply list_elem_of_singleton in Hst as ->; left.
  - eapply ok_mono; [apply (raises_after _ _ (λ _, raises_raise _))|done].
  - apply ok_bind. unfold read_clock. red. unfold sp. cbn [fst snd]. apply ok_bind.
    eapply moves_raise; [intros; apply schedule_retry_moves|]. intros [] s' (b & b' & Hm). apply ok_ret.
    destruct Hm as (? & ? & ? & ? & Hst). exists b, b'. split_and!; try done. by right.
Qed.
(** An execution that returns acknowledged its batch. *)
Lemma execute_moves batch s :
  ok_post (_execute_one config fs supply elapsed batch) (λ _ s', moved_in [BatchStatus.DONE] batch s s') s.
Proof.
  unfold _execute_one. apply ok_bind, ok_lift. intros token _. apply ok_bind.
  apply ok_try; [|apply mutation_raises]. apply ok_lift. intros [[o text] parameters] _. cbv zeta.
  apply ok_try; [|apply apply_raises]. unfold apply_mutation. apply ok_bind, ok_query. intros records w _.
  apply ok_bind, ok_lift. intros n _. destruct (negb _).
  - eapply ok_mono; [apply (raises_after _ _ (λ _, raises_raise _))|done].
  - apply ok_bind. red. unfold sp. cbn [fst snd]. apply ok_bind.
    eapply moves_raise; [intros; apply ack_moves|]. intros _ s' Hm. by apply ok_ret.
Qed.

(** Sealing the endpoint audit leaves the batches alone. *)
Definition same_batches (s s' : session W) : Prop := batches (ss_db s') = batches (ss_db s).
#[local] Instance same_batches_preorder : PreOrder same_batches.
Proof. split; unfold same_batches; [done|]. intros x y z H1 H2. congruence. Qed.
Lemma still_call {A} (o : env → op A) : (∀ ε, still (o ε)) → keeps same_batches (journal_call supply o).
Proof.
  intros Ho s. unfold same_batches, journal_call. specialize (Ho (supply (ss_tick s)) (ss_db s)).
  by destruct (o _ _).
Qed.
Lemma still_query context text parameters : keeps same_batches (query (W:=W) context text parameters).
Proof. intros s. unfold same_batches, query. by destruct (guarded _ _ _ _). Qed.
Lemma seal_same_batches : keeps same_batches (_seal_endpoint_audit_if_ready config fs supply).
Proof.
  assert (∀ bs n, keeps same_batches (audit_batches (W:=W) fs bs n)) as Ha.
  { induction bs as [|b bs IH]; intros n; cbn [audit_batches]; repeat first [apply IH | apply still_query | keeps_step]. }
  unfold _seal_endpoint_audit_if_ready, close_audit_barrier.
  repeat first [apply Ha | apply still_call; intros; apply seal_still || apply close_barrier_still | keeps_step].
Qed.

(** ** Termination *)

(** The loop has handed out its last batch: at the clock of its last claim
    nothing of the run is claimable. *)
Definition idle (s : session W) : Prop := ∀ job b, batches (ss_db s) !! job = Some b →
  b_run_id b = consumer_run config → claimable (clock (supply (pred (ss_tick s)))) (ss_db s) b = false.
(** [pending_work] of the session's journal, as fuel. *)
Abbreviation work := (λ s : session W, pending_work (ss_db s)).

Lemma claim_pending_ok (s : session W) : inv (ss_db s) →
  ok_post (claim_pending config supply) (λ r s', match r with
    | Some _ => (work s' = work s + 1)%Z
    | None => work s' = work s ∧ idle s'
    end) s.
Proof.
  intros Hi. apply ok_call. intros r d' E.
  destruct (claim_batch_effect _ _ _ _ _ _ Hi E) as [[? _]|(d1 & Hrec & Hout)]; [done|].
  pose proof (work_recovered _ _ _ Hrec) as Hw. destruct r as [rec|]; simpl.
  - destruct Hout as (b & _ & Hb & He & _ & Hd). rewrite (work_insert _ _ _ _ _ Hb Hd), Hw.
    rewrite (rank_executable b) by (by eapply claimable_executable).
    change (rank (lease_batch _ _ b)) with 2%Z. lia.
  - destruct Hout as [-> Hn]. split; [done|]. intros job b Hb Hrun.
    pose proof (next_row_none _ _ _ Hn job b Hb) as Hf. apply andb_false_iff in Hf as [Hf|Hf]; [done|].
    unfold in_scope, b_in_run in Hf. rewrite Hrun, String.eqb_refl in Hf. done.
Qed.
Lemma claim_ambiguous_ok (s : session W) : inv (ss_db s) →
  ok_post (claim_ambiguous config supply) (λ _ s', work s' = work s) s.
Proof.
  intros Hi. apply ok_call. intros r d' E.
  destruct (claim_reconciling_effect _ _ _ _ _ _ Hi E) as [[? _]|(d1 & Hrec & Hout)]; [done|].
  pose proof (work_recovered _ _ _ Hrec) as Hw. destruct r as [rec|]; simpl.
  - destruct Hout as (b & _ & Hb & He & _ & Hd). rewrite (work_insert _ _ _ _ _ Hb Hd), Hw.
    change (rank (fence_batch _ _ b)) with (rank b). lia.
  - by destruct Hout as [-> _].
Qed.
Lemma reconcile_ok batch s : ok_post (_reconcile_one config fs supply jitter batch) (λ _ s', (work s' < work s)%Z) s.
Proof.
  eapply ok_mono; [apply reconcile_moves|]. intros [] s'. apply work_moved. intros b Hb. unfold settled in Hb.
  unfold rank. set_unfold in Hb. destruct Hb as [Hb|[Hb|[Hb|[]]]]; rewrite Hb; lia.
Qed.
Lemma execute_ok batch s : ok_post (_execute_one config fs supply elapsed batch) (λ _ s', (work s' ≤ work s - 2)%Z) s.
Proof.
  eapply ok_mono; [apply execute_moves|]. intros [] s' (b & b' & Hb & Hh & Hd & _ & Hst%list_elem_of_singleton).
  rewrite (work_insert _ _ _ _ _ Hb Hd), (rank_held b Hh). unfold rank. rewrite Hst. lia.
Qed.

Lemma seal_ok s : ok_post (_seal_endpoint_audit_if_ready config fs supply) (λ _ s', work s' = work s) s.
Proof.
  pose proof (seal_same_batches s) as Hs. unfold ok_post, sp. destruct (_seal_endpoint_audit_if_ready _ _ _ s) as [[a|e] s'];
    [|done]. unfold pending_work. by rewrite Hs.
Qed.
(** A piece of the loop keeps the invariant of the journal. *)
Lemma ok_inv {A} (m : prog W A) (Q : A → session W → Prop) s :
  inv (ss_db s) → keeps (client (FS:=FS) (limits config)) m → ok_post m Q s →
  ok_post m (λ a s', Q a s' ∧ inv (ss_db s')) s.
Proof.
  intros Hi Hk Hm. eapply ok_mono; [exact (ok_keeps _ _ _ _ Hk Hm)|]. intros a s' [HQ Hj]. split; [done|].
  by eapply client_inv.
Qed.
Lemma drain_loop_spec fuel n s : inv (ss_db s) → (work s < Z.of_nat fuel)%Z →
  ok_post (drain_loop config fs supply jitter elapsed fuel n)
    (λ r s', ∃ m, r = Some m ∧ (n ≤ m ≤ n + work s)%Z ∧ idle s') s.
Proof.
  revert n s. induction fuel as [|fuel IH]; intros n s Hi Hf.
  { pose proof (pending_work_nonneg (ss_db s)). lia. }
  assert (∀ s' : session W, inv (ss_db s') → (work s' ≤ work s - 1)%Z →
    ok_post (drain_loop config fs supply jitter elapsed fuel (n + 1))
      (λ r s', ∃ m, r = Some m ∧ (n ≤ m ≤ n + work s)%Z ∧ idle s') s') as Hnext.
  { intros s' Hi' Hw. eapply ok_mono; [apply IH; [done|lia]|]. intros r s'' (m & -> & Hm & Hidle).
    exists m. split_and!; try done; lia. }
  assert (∀ batch (s' : session W), inv (ss_db s') → (work s' ≤ work s + 1)%Z →
    ok_post (_ ← _execute_one config fs supply elapsed batch; drain_loop config fs supply jitter elapsed fuel (n + 1))
      (λ r s', ∃ m, r = Some m ∧ (n ≤ m ≤ n + work s)%Z ∧ idle s') s') as Hexec.
  { intros batch s' Hi' Hw. apply ok_bind. eapply ok_mono; [apply ok_inv; [done|apply keeps_execute|apply execute_ok]|].
    intros [] s2 [Hw2 Hi2]. apply Hnext; [done|]. lia. }
  cbn [drain_loop]. apply ok_bind.
  eapply ok_mono; [apply ok_inv; [done|apply (keeps_claim_ambiguous config fs supply)|by apply claim_ambiguous_ok]|].
  intros r s1 [Hw1 Hi1]; destruct r as [batch|].
  - apply ok_bind. eapply ok_mono; [apply ok_inv; [done|apply keeps_reconcile|apply reconcile_ok]|].
    intros [] s2 [Hw2 Hi2]. apply Hnext; [done|]. lia.
  - apply ok_bind. eapply ok_mono; [apply ok_inv; [done|apply (keeps_claim_pending config fs supply)|by apply claim_pending_ok]|].
    intros r s2 [Hw2 Hi2]; destruct r as [batch|]; [(apply Hexec; [done|lia])|]. destruct Hw2 as [Hw2 _].
    apply ok_bind. eapply ok_mono; [apply ok_inv; [done|apply keeps_seal|apply seal_ok]|]. intros [] s3 [Hw3 Hi3].
    apply ok_bind. eapply ok_mono; [apply ok_inv; [done|apply (keeps_claim_pending config fs supply)|by apply claim_pending_ok]|].
    intros r s4 [Hw4 Hi4]; destruct r as [batch|]; [(apply Hexec; [done|lia])|]. destruct Hw4 as [Hw4 Hidle].
    apply ok_ret. exists n. pose proof (pending_work_nonneg (ss_db s)). split_and!; try done; lia.
Qed.
End drain.
