(* ===== verification/Receipts.v ===== *)
(** What an acknowledgement of the consumer means for the graph: the receipt
    that the guarded mutation left there.  The driver is known by the documented
    effect of its queries on [GraphWriteReceipt] nodes alone. *)
From S2P Require Import Prelude Json Text PyValue Models Identity Schema QueryContract Operation Retry Db Manifest ArtifactApi Store Executor Guard Replay Staging Transitions Boundary Admin Config Steps Invariant Refinement RefinementRuns Behaviour Effects Journal Session Clients Consumer Recovery Drain.

(** * The graph, as far as receipts go *)

Record receipt := MkReceipt {
  rc_operation_key : string; rc_row_count : Z; rc_artifact_sha256 : string; rc_run_id : string; rc_generation : string;
}.
#[export] Instance receipt_eq_dec : EqDecision receipt.
Proof. solve_decision. Defined.
Definition receipt_of_fence (f : fence) (n : Z) : receipt :=
  MkReceipt (f_operation_key f) n (f_artifact_sha256 f) (f_run_id f) (f_generation f).
Definition count_record (n : Z) : list dict := [[("count", JInt n)]].
(** The text names the label of the receipts. *)
Definition mentions_receipts (text : string) : bool := has_word ["graphwritereceipt"] text.
(** The query the guard sends for a mutation that ends by counting [value]. *)
Definition receipted_query (source value : string) : string :=
  source +:+ "WITH count(" +:+ value +:+ ") AS __journal_count" +:+ receipt_suffix.

(** The laws: MERGE and SET write the receipt of the job with the count the
    mutation matched, a failed query wrote it or not, reads write nothing, and
    the readback counts the matching receipt. *)
Class ReceiptDriver (W : Type) `{!GraphDriver W} := {
  receipts : W → gmap string receipt;
  receipt_written w f p p' source value r w' : mentions_receipts source = false →
    fenced_parameters f p = Ok p' → execute_query w (receipted_query source value) p' = (r, w') →
    match r with
    | Ok records => ∃ n, records = count_record n ∧ receipts w' = <[f_job_id f := receipt_of_fence f n]> (receipts w)
    | Err _ => receipts w' = receipts w ∨ ∃ n, receipts w' = <[f_job_id f := receipt_of_fence f n]> (receipts w)
    end;
  read_keeps_receipts w q p r w' : is_mutation q = false → execute_query w q p = (r, w') → receipts w' = receipts w;
  readback_counts w o rows job sha run gen records w' :
    execute_query w receipt_readback (receipt_params o rows job sha run gen) = (Ok records, w') →
    records = count_record (Z.b2z (bool_decide (receipts w !! job =
      Some (MkReceipt (operation_key o) (Z.of_nat (length rows)) sha run gen))));
}.

(** * Compiled mutations under the guard *)

Section guarded.
Context {W : Type} `{!GraphDriver W} `{!ReceiptDriver W}.

(** A compiled mutation in the context of a job writes at most its receipt. *)
Lemma guarded_mutation o rows ps params f w p r w' :
  compile_persisted_mutation o rows = Ok (ps, params) → mentions_receipts (render ps) = false →
  f_job_id f ≠ "schema" → guarded (Some f) w (render ps) p = (r, w') →
  match r with
  | Ok records => ∃ n, records = count_record n ∧ receipts w' = <[f_job_id f := receipt_of_fence f n]> (receipts w)
  | Err _ => receipts w' = receipts w ∨ ∃ n, receipts w' = <[f_job_id f := receipt_of_fence f n]> (receipts w)
  end.
Proof.
  intros Hc%compiled_mutation_safe Hm Hj. unfold guarded. rewrite safe_mutation by done.
  apply String.eqb_neq in Hj as ->. destruct (fenced_parameters f p) as [p'|e] eqn:Hp; cbn [mbind result_bind].
  2: { intros [= <- <-]. by left. }
  destruct (safe_mutation_text ps Hc) as (x & v & Hr & Hv & Hx). rewrite Hr in *.
  rewrite returns_count_clause by done. unfold _receipt_query. rewrite receipt_of_clause by done.
  intros Hq. eapply (receipt_written w f p p' (x +:+ String " " EmptyString) v); [|done|exact Hq].
  unfold mentions_receipts, has_word in *. rewrite boundary_words in * by done.
  rewrite existsb_app in *. apply orb_false_iff in Hm as [-> _]. done.
Qed.
Lemma unfenced_read w q p r w' : is_mutation q = false → guarded None w q p = (r, w') → receipts w' = receipts w.
Proof. intros Hq. unfold guarded. rewrite Hq. by apply read_keeps_receipts. Qed.
End guarded.

(** * The promise *)

Section receipts.
Context `{Sha256} {FS : Type} `{!ArtifactApi FS} {W : Type} `{!GraphDriver W} `{!ReceiptDriver W}.
Context (config : JournalConfig) (fs : FS) (supply : nat → env) (jitter : nat → Z → Z) (elapsed : nat → Z).
(** The jobs the promise leaves out: those another client had acknowledged
    without a receipt. *)
Context (exempt : string → Prop).

(** The receipt that an acknowledged batch has in the graph. *)
Definition receipt_of_row (b : batch_row) : receipt :=
  MkReceipt (b_operation_key b) (b_expected_count b) (b_artifact_sha256 b) (b_run_id b) (generation (jc_metadata config)).
Definition confirmed (s : session W) : Prop := ∀ job b,
  batches (ss_db s) !! job = Some b → b_run_id b = consumer_run config → b_status b = BatchStatus.DONE →
  ¬ exempt job → receipts (ss_graph s) !! job = Some (receipt_of_row b).
(** A batch of the run that can be replayed leaves the receipts to the guard. *)
Definition keeps_to_itself (job : string) (b : batch_row) : Prop :=
  job ≠ "" ∧ job ≠ "schema" ∧ ∀ o text params,
    mutation_of fs (_batch_from_row b) = Ok (o, text, params) → mentions_receipts text = false.
Definition contracts_kept (s : session W) : Prop := ∀ job b,
  batches (ss_db s) !! job = Some b → b_run_id b = consumer_run config → keeps_to_itself job b.

Lemma mutation_of_contract b b' : same_contract b b' →
  mutation_of fs (_batch_from_row b') = mutation_of fs (_batch_from_row b).
Proof.
  unfold same_contract, batch_contract. intros [=]. unfold mutation_of, _load, load_batch, _batch_from_row.
  cbn [br_operation br_operation_key br_artifact br_expected_count].
  repeat match goal with Hx : _ b' = _ b |- _ => rewrite Hx; clear Hx end. reflexivity.
Qed.
Lemma receipt_of_contract b b' : same_contract b b' → receipt_of_row b' = receipt_of_row b.
Proof. unfold same_contract, batch_contract. intros [=]. unfold receipt_of_row. congruence. Qed.

(** What every piece of the consumer maintains. *)
Record promise (s : session W) : Prop := {
  pr_inv : inv (ss_db s); pr_kept : contracts_kept s; pr_confirmed : confirmed s;
}.
(** Pieces that acknowledge nothing and leave the receipts alone. *)
Definition quiet (s s' : session W) : Prop := inv (ss_db s) →
  inv (ss_db s') ∧ carried (ss_db s) (ss_db s') ∧ receipts (ss_graph s') = receipts (ss_graph s).
#[local] Instance quiet_preorder : PreOrder quiet.
Proof.
  split; [by intros s|]. intros s1 s2 s3 H12 H23 Hi. destruct (H12 Hi) as (Hi2 & Hc2 & Hg2).
  destruct (H23 Hi2) as (Hi3 & Hc3 & Hg3). split_and!; [done|by etrans|congruence].
Qed.
Lemma contracts_carried (s s' : session W) : carried (ss_db s) (ss_db s') → contracts_kept s → contracts_kept s'.
Proof.
  intros Hc Hk job b' Hb' Hrun. destruct (Hc _ _ Hb') as (b & Hb & Hcon & _).
  rewrite (same_contract_run _ _ Hcon) in Hrun. destruct (Hk _ _ Hb Hrun) as (H1 & H2 & H3).
  split_and!; try done. intros o text params. rewrite (mutation_of_contract _ _ Hcon). apply H3.
Qed.
Lemma promise_quiet s s' : quiet s s' → promise s → promise s'.
Proof.
  intros Hq [Hi Hk Hd]. destruct (Hq Hi) as (Hi' & Hc & Hg). split; [done|by eapply contracts_carried|].
  intros job b' Hb' Hrun Hst Hex. destruct (Hc _ _ Hb') as (b & Hb & Hcon & Hs). rewrite Hg, (receipt_of_contract _ _ Hcon).
  apply Hd; [done| |by apply Hs|done]. by rewrite <- (same_contract_run _ _ Hcon).
Qed.

(** ** The quiet pieces *)

Lemma quiet_call {A} (o : env → op A) : (∀ ε, refines (o ε)) →
  (∀ ε d r d', inv d → o ε d = (r, d') → carried d d') → keeps quiet (journal_call supply o).
Proof.
  intros Hr Hc s Hi. unfold journal_call. destruct (o _ _) as [r d] eqn:E. simpl.
  split_and!; [|by eapply Hc|done]. eapply steps_inv; [exact Hi|]. by eapply Hr.
Qed.
Lemma quiet_moves {A} (o : env → op A) job P sts : (∀ ε, refines (o ε)) → (∀ ε, moves job P sts (o ε)) →
  bool_decide (BatchStatus.DONE ∈ sts) = false → keeps quiet (journal_call supply o).
Proof.
  intros Hr Hm Hs%bool_decide_eq_false. apply quiet_call; [done|]. intros ε d r d' _ E. specialize (Hm _ _ _ _ E).
  destruct r; [by eapply carried_moved|by subst].
Qed.
Lemma quiet_still {A} (o : env → op A) : (∀ ε, refines (o ε)) → (∀ ε, still (o ε)) → keeps quiet (journal_call supply o).
Proof.
  intros Hr Hs. apply quiet_call; [done|]. intros ε d r d' _ E. apply carried_same. specialize (Hs ε d). by rewrite E in Hs.
Qed.
Lemma quiet_read text parameters : is_mutation text = false → keeps quiet (query (W:=W) None text parameters).
Proof.
  intros Ht s Hi. unfold query. destruct (guarded _ _ _ _) as [r w] eqn:E. simpl.
  split_and!; [done|done|]. by eapply unfenced_read.
Qed.
Lemma quiet_clock : keeps quiet (read_clock supply).
Proof. by intros s Hi. Qed.
Lemma quiet_tick : keeps quiet ((λ s, (Ok (ss_tick s), s)) : prog W nat).
Proof. by intros s Hi. Qed.

Lemma quiet_block batch token class code : keeps quiet (block config supply batch token class code).
Proof.
  unfold block. keeps_step; [|keeps_step].
  eapply quiet_moves; [intros; apply block_batch_refines|intros; apply block_moves|reflexivity].
Qed.
Lemma quiet_close run name : keeps quiet (journal_call supply (λ ε, close_barrier ε run name)).
Proof. apply quiet_still; intros; [apply close_barrier_refines|apply close_barrier_still]. Qed.
Lemma quiet_backoff job token at_ code : keeps quiet (journal_call supply (λ ε, schedule_reconciliation_retry (limits config) ε job token at_ code)).
Proof.
  eapply quiet_moves; [intros; apply schedule_reconciliation_retry_refines|intros; apply backoff_moves|reflexivity].
Qed.
Lemma quiet_mark job token code : keeps quiet (journal_call supply (λ ε, mark_reconciling ε job token code)).
Proof. eapply quiet_moves; [intros; apply mark_reconciling_refines|intros; apply mark_moves|reflexivity]. Qed.
Lemma quiet_retry job token at_ class code :
  keeps quiet (journal_call supply (λ ε, schedule_retry (limits config) ε job token at_ class code)).
Proof. eapply quiet_moves; [intros; apply schedule_retry_refines|intros; apply schedule_retry_moves|reflexivity]. Qed.
Lemma quiet_claim_pending : keeps quiet (claim_pending config supply).
Proof.
  apply quiet_call; [intros; apply claim_batch_refines|]. intros ε d r d' Hi E.
  eapply claim_carried; [apply lease_carries|]. by eapply claim_batch_effect.
Qed.
Lemma quiet_claim_ambiguous : keeps quiet (claim_ambiguous config supply).
Proof.
  apply quiet_call; [intros; apply claim_reconciling_refines|]. intros ε d r d' Hi E.
  eapply claim_carried; [apply fence_carries|]. by eapply claim_reconciling_effect.
Qed.
Lemma quiet_recover run : keeps quiet (journal_call supply (λ ε, recover_run_leases_as_ambiguous ε run)).
Proof.
  apply quiet_call; [intros; apply recover_run_leases_refines|]. intros ε d r d' Hi E.
  destruct (recover_run_effect ε run d Hi) as (P & Q & n & d2 & E2 & Hl). rewrite E in E2. injection E2 as -> ->.
  by eapply carried_recovered.
Qed.
Lemma quiet_reopen : keeps quiet (journal_call supply (recover_and_verify fs)).
Proof.
  intros s Hi. unfold journal_call. pose proof (recover_and_verify_db fs (supply (ss_tick s)) (ss_db s)) as Hd.
  destruct (recover_and_verify _ _ _) as [r d]. simpl in *. subst d.
  destruct (recover_expired_spec (ss_db s) (supply (ss_tick s)) Hi) as (n & d1 & Hrec & Hi1 & Hl).
  assert ((recover_expired_leases (supply (ss_tick s)) (ss_db s)).2 = d1) as ->
    by (unfold recover_expired_leases, transaction; by rewrite Hrec).
  split_and!; [done|by eapply carried_recovered|done].
Qed.

Ltac quiet_step :=
  match goal with
  | |- keeps _ (read_clock _) => apply quiet_clock
  | |- keeps _ (block _ _ _ _ _ _) => apply quiet_block
  | |- keeps _ (journal_call _ (recover_and_verify _)) => apply quiet_reopen
  | |- keeps _ (claim_pending _ _) => apply quiet_claim_pending
  | |- keeps _ (claim_ambiguous _ _) => apply quiet_claim_ambiguous
  | |- keeps _ (journal_call _ (λ ε, close_barrier _ _ _)) => apply quiet_close
  | |- keeps _ (journal_call _ (λ ε, schedule_reconciliation_retry _ _ _ _ _ _)) => apply quiet_backoff
  | |- keeps _ (journal_call _ (λ ε, schedule_retry _ _ _ _ _ _ _)) => apply quiet_retry
  | |- keeps _ (journal_call _ (λ ε, mark_reconciling _ _ _ _)) => apply quiet_mark
  | |- keeps _ (journal_call _ (λ ε, recover_run_leases_as_ambiguous _ _)) => apply quiet_recover
  | |- keeps _ (λ s, (Ok (ss_tick s), s)) => apply quiet_tick
  | |- _ => keeps_step
  end.
Lemma quiet_audit batches n : keeps quiet (audit_batches (W:=W) fs batches n).
Proof.
  revert n. induction batches as [|b bs IH]; intros n; cbn [audit_batches]; [quiet_step|].
  quiet_step; [apply IH|]. quiet_step; [quiet_step|]. quiet_step. apply keeps_lift_bind; [apply _|]. intros [[text parameters]|] Hc; [|apply IH].
  quiet_step; [apply quiet_read; by eapply compiled_audit_read|]. quiet_step; [apply IH|quiet_step].
Qed.
Lemma quiet_seal : keeps quiet (_seal_endpoint_audit_if_ready config fs supply).
Proof.
  unfold _seal_endpoint_audit_if_ready, close_audit_barrier.
  repeat first [apply quiet_audit | quiet_step
    | apply quiet_still; intros; [apply seal_endpoint_audit_refines|apply seal_still]].
Qed.
Lemma quiet_handlers batch token e :
  (∀ h, readback_handler config supply batch token e = Some h → keeps quiet h) ∧
  (∀ h, query_handler config supply jitter batch token e = Some h → keeps quiet h) ∧
  (∀ h, count_handler config supply batch token e = Some h → keeps quiet h) ∧
  (∀ h, mutation_handler config supply batch token e = Some h → keeps quiet h) ∧
  (∀ h, apply_handler supply batch token e = Some h → keeps quiet h).
Proof.
  unfold readback_handler, query_handler, count_handler, mutation_handler, apply_handler, next_retry.
  split_and!; intros h Hh; destruct e; simplify_eq; repeat quiet_step.
Qed.

(** ** The two loud ones *)

(** [m] keeps the promise when it raises, and gives [Q] when it returns. *)
Definition kept {A} (m : prog W A) (Q : A → session W → Prop) (s : session W) : Prop :=
  sp m (λ r s', match r with Ok a => Q a s' | Err _ => promise s' end) s.
Lemma kept_bind {A B} (m : prog W A) (f : A → prog W B) (Q : B → session W → Prop) s :
  kept m (λ a s', kept (f a) Q s') s → kept (mbind f m) Q s.
Proof. unfold kept, sp, mbind, prog_bind. by destruct (m s) as [[a|e] s']. Qed.
Lemma kept_lift {A} (r : res A) (Q : A → session W → Prop) s :
  promise s → (∀ a, r = Ok a → Q a s) → kept (lift r) Q s.
Proof. unfold kept, sp, lift. simpl. destruct r; auto. Qed.
Lemma kept_quiet {A} (m : prog W A) s : keeps quiet m → promise s → kept m (λ _, promise) s.
Proof.
  intros Hk Hp. unfold kept, sp. pose proof (promise_quiet _ _ (Hk s) Hp). by destruct (m s).1.
Qed.
Lemma kept_mono {A} (m : prog W A) (Q Q' : A → session W → Prop) s :
  kept m Q s → (∀ a s', Q a s' → Q' a s') → kept m Q' s.
Proof. unfold kept, sp. intros Hm HQ. destruct (m s) as [[a|e] s']; [by apply HQ|done]. Qed.
Lemma kept_try {A} (m : prog W A) handle (Q : A → session W → Prop) s :
  kept m Q s → (∀ e h, handle e = Some h → keeps quiet h ∧ raises h) → kept (try_except m handle) Q s.
Proof.
  unfold kept, sp, try_except. intros Hm Hh. destruct (m s) as [[a|e] s'] eqn:E; [done|].
  destruct (handle e) as [h|] eqn:Eh; [|done]. destruct (Hh e h Eh) as [Hq Hr]. simpl in Hm.
  pose proof (promise_quiet _ _ (Hq s') Hm). specialize (Hr s'). unfold ok_post, sp in Hr. by destruct (h s').1.
Qed.

Abbreviation at_hand batch := (λ s : session W, claimed_row (consumer_run config) batch (ss_db s)).
(** The acknowledgement of a batch whose receipt is in the graph. *)
Lemma kept_ack batch token el s : promise s → at_hand batch s →
  (∀ b, batches (ss_db s) !! br_job_id batch = Some b → receipts (ss_graph s) !! br_job_id batch = Some (receipt_of_row b)) →
  kept (journal_call supply (λ ε, ack_batch (limits config) ε (br_job_id batch) token el)) (λ _, promise) s.
Proof.
  intros [Hi Hk Hd] _ Hrc. unfold kept. apply sp_call. intros r d E.
  set (s' := MkSession d (ss_graph s) (S (ss_tick s))).
  assert (inv d) as Hi'. { eapply steps_inv; [exact Hi|]. by eapply ack_batch_refines. }
  pose proof (ack_moves _ _ _ _ _ _ _ _ E) as Hm. destruct r as [rec|e]; [|subst d; by split].
  destruct Hm as (b & b' & Hb & _ & Hbs & Hcon & _). specialize (Hrc b Hb).
  assert (∀ job x, batches d !! job = Some x → job = br_job_id batch ∧ x = b' ∨ batches (ss_db s) !! job = Some x) as Hrow.
  { intros job x. rewrite Hbs, lookup_insert. case_decide; [intros [= <-]; by left|by right]. }
  split; [done| |].
  - intros job x Hx Hrun. destruct (Hrow _ _ Hx) as [[-> ->]|Hx']; [|by apply Hk].
    rewrite (same_contract_run _ _ Hcon) in Hrun. destruct (Hk _ _ Hb Hrun) as (H1 & H2 & H3).
    split_and!; try done. intros o text params. rewrite (mutation_of_contract _ _ Hcon). apply H3.
  - intros job x Hx Hrun Hst Hex. destruct (Hrow _ _ Hx) as [[-> ->]|Hx']; [|by apply Hd].
    by rewrite (receipt_of_contract _ _ Hcon).
Qed.
(** The receipt of a batch that is not done may come to the graph at any time. *)
Lemma promise_graph batch s w tick : promise s → at_hand batch s →
  receipts w = receipts (ss_graph s) ∨ (∃ rc, receipts w = <[br_job_id batch := rc]> (receipts (ss_graph s))) →
  promise (MkSession (ss_db s) w tick).
Proof.
  intros [Hi Hk Hd] (b & Hb & _ & _ & Hst) Hw. split; [done|done|]. intros job x Hx Hrun Hdone Hex. simpl in *.
  specialize (Hd _ _ Hx Hrun Hdone Hex). destruct Hw as [->|[rc ->]]; [done|].
  rewrite lookup_insert_ne; [done|]. intros <-. congruence.
Qed.

Lemma load_batch_ok batch o rows : load_batch fs batch = Ok (o, rows) → operation_key o = br_operation_key batch.
Proof.
  unfold load_batch. destruct (from_dict _) as [o'|]; cbn [mbind result_bind]; [|done].
  destruct (String.eqb _ _) eqn:E; simpl; [|done]. destruct (art_read_jsonl _ _) as [raw|]; simpl; [|done].
  destruct (row_objects raw); simpl; [|done]. intros [= <- <-]. by apply String.eqb_eq.
Qed.
Lemma load_ok batch o rows : _load fs batch = Ok (o, rows) →
  operation_key o = br_operation_key batch ∧ Z.of_nat (length rows) = br_expected_count batch.
Proof.
  unfold _load. destruct (load_batch fs batch) as [[o' rows']|e] eqn:E; [|by destruct (contract_error e)].
  destruct (negb _) eqn:En; [done|]. intros [= <- <-]. split; [by eapply load_batch_ok|]. bool_hyps. done.
Qed.

Lemma kept_raise {A} e (Q : A → session W → Prop) s : promise s → kept (raise e) Q s.
Proof. done. Qed.
Lemma kept_tick (Q : nat → session W → Prop) s : Q (ss_tick s) s → kept (λ s, (Ok (ss_tick s), s)) Q s.
Proof. done. Qed.
(** A quiet step, then a raise. *)
Lemma kept_then_raise {A B} (m : prog W A) e (Q : B → session W → Prop) s :
  keeps quiet m → promise s → kept (_ ← m; raise e) Q s.
Proof. intros Hm Hp. apply kept_bind. eapply kept_mono; [by apply kept_quiet|]. intros a s'. apply kept_raise. Qed.

(** The one query of an execution: nothing but the receipt of the batch changes. *)
Lemma fenced_query batch o text params p s : promise s → at_hand batch s →
  mutation_of fs batch = Ok (o, text, params) →
  kept (query (Some (batch_fence config batch o)) text p) (λ records s', ss_db s' = ss_db s ∧ promise s' ∧
    ∃ n, records = count_record n ∧ receipts (ss_graph s') = <[br_job_id batch :=
      receipt_of_fence (batch_fence config batch o) n]> (receipts (ss_graph s))) s.
Proof.
  intros Hp Hat Hmut. pose proof Hat as (b & Hb & -> & Hrun & Hst).
  destruct (pr_kept _ Hp _ _ Hb Hrun) as (Hne & Hns & Hm). specialize (Hm _ _ _ Hmut).
  unfold mutation_of in Hmut. destruct (_load fs _) as [[o' rows]|] eqn:El; cbn [mbind result_bind] in Hmut; [|done].
  destruct (compile_persisted_mutation o' rows) as [[ps params']|] eqn:Ec; cbn [mbind result_bind] in Hmut; [|done].
  injection Hmut as -> <- ->. unfold kept. apply sp_query. intros r w E.
  assert (f_job_id (batch_fence config (_batch_from_row b) o) = b_job_id b) as Hjob.
  { unfold batch_fence, journaled_mutation, is_empty. simpl in *. by apply String.eqb_neq in Hne as ->. }
  pose proof (guarded_mutation o rows ps params (batch_fence config (_batch_from_row b) o) (ss_graph s) p r w Ec Hm) as Hg.
  rewrite Hjob in Hg. specialize (Hg Hns E). destruct r as [records|e].
  - destruct Hg as (n & -> & Hw). split_and!; [done| |by exists n].
    apply (promise_graph (_batch_from_row b) s); [done|exact Hat|]. right. by eexists.
  - apply (promise_graph (_batch_from_row b) s); [done|exact Hat|]. destruct Hg as [Hw|[n Hw]]; [by left|right; by eexists].
Qed.
Lemma fence_receipt batch o b n : batch = _batch_from_row b → operation_key o = br_operation_key batch →
  n = br_expected_count batch → receipt_of_fence (batch_fence config batch o) n = receipt_of_row b.
Proof. by intros -> Ho ->; unfold receipt_of_fence, batch_fence, receipt_of_row; simpl in *; rewrite Ho. Qed.

Lemma kept_execute batch s : promise s → at_hand batch s → kept (_execute_one config fs supply elapsed batch) (λ _, promise) s.
Proof.
  intros Hp Hat. unfold _execute_one. apply kept_bind, kept_lift; [done|]. intros token _. apply kept_bind.
  apply (kept_mono _ (λ a s', s' = s ∧ mutation_of fs batch = Ok a)).
  { apply kept_try; [by apply kept_lift|]. intros e h Hh. split; [by eapply quiet_handlers|by eapply mutation_raises]. }
  intros [[o text] params] s' [-> Hmut]. cbv zeta beta.
  apply kept_try; [|intros e h Hh; split; [by eapply quiet_handlers|by eapply apply_raises]].
  unfold apply_mutation. apply kept_bind. eapply kept_mono; [by eapply fenced_query|].
  intros records s1 (Hdb & Hp1 & n & -> & Hw). apply kept_bind, kept_lift; [done|]. intros count Hcount.
  assert (count = n) as -> by (unfold count_record, result_count in Hcount; by injection Hcount).
  destruct (negb (n =? br_expected_count batch)%Z) eqn:En; [apply kept_then_raise; [apply quiet_block|done]|].
  bool_hyps. apply kept_bind, kept_tick, kept_bind. destruct Hat as (b & Hb & Hrow & Hrun & Hst).
  eapply kept_mono; [apply (kept_ack batch); [done|by exists b; rewrite Hdb|]|].
  - intros b' Hb'. rewrite Hdb in Hb'. rewrite Hw, lookup_insert_eq. f_equal. simplify_eq.
    apply fence_receipt; [done| |done]. unfold mutation_of in Hmut.
    destruct (_load fs _) as [[o' rows]|] eqn:El; cbn [mbind result_bind] in Hmut; [|done].
    destruct (compile_persisted_mutation o' rows) as [[ps params']|]; cbn [mbind result_bind] in Hmut; [|done].
    injection Hmut as -> _ _. by apply load_ok in El as [].
  - intros rec s2 Hp2. done.
Qed.
(** The readback of a batch counts its receipt. *)
Lemma readback_query batch text params s : promise s → at_hand batch s → readback_of config fs batch = Ok (text, params) →
  kept (query None text params) (λ records s', promise s' ∧ at_hand batch s' ∧
    ∃ matched : bool, records = count_record (Z.b2z matched) ∧
    (matched = true → ∀ b, batches (ss_db s') !! br_job_id batch = Some b →
       receipts (ss_graph s') !! br_job_id batch = Some (receipt_of_row b))) s.
Proof.
  intros Hp Hat Hread. pose proof Hat as (b & Hb & Hrow & Hrun & Hst).
  destruct (pr_kept _ Hp _ _ Hb Hrun) as (Hne & _). unfold readback_of in Hread.
  destruct (_load fs batch) as [[o rows]|] eqn:El; cbn [mbind result_bind] in Hread; [|done].
  destruct (compile_reconciliation_readback _ _ _ _ _ _) as [[[ps params']|]|] eqn:Ec; cbn [mbind result_bind] in Hread; [|done..].
  injection Hread as <- <-. destruct (receipt_read _ _ _ _ _ _ _ _ Ec Hne) as [-> ->].
  destruct (load_ok _ _ _ El) as [Hkey Hlen]. unfold kept. apply sp_query. intros r w E.
  pose proof (unfenced_read _ _ _ _ _ receipt_readback_read E) as Hw.
  assert (promise (MkSession (ss_db s) w (ss_tick s))) as Hp'.
  { apply (promise_graph batch s); [done|done|by left]. }
  destruct r as [records|e]; [|done]. split_and!; [done|done|]. unfold guarded in E. rewrite receipt_readback_read in E.
  apply readback_counts in E as ->. eexists. split; [reflexivity|]. intros Hm%bool_decide_eq_true b' Hb'.
  rewrite Hkey, Hlen in Hm. simpl in *. simplify_eq. rewrite Hw. exact Hm.
Qed.
Lemma kept_reconcile batch s : promise s → at_hand batch s → kept (_reconcile_one config fs supply jitter batch) (λ _, promise) s.
Proof.
  intros Hp Hat. unfold _reconcile_one. apply kept_bind, kept_lift; [done|]. intros token _. apply kept_bind.
  apply (kept_mono _ (λ a s', s' = s ∧ readback_of config fs batch = Ok a)).
  { apply kept_try; [by apply kept_lift|]. intros e h Hh. split; [by eapply quiet_handlers|by eapply readback_raises]. }
  intros [text params] s' [-> Hread]. apply kept_bind.
  apply (kept_mono _ (λ records s', promise s' ∧ at_hand batch s' ∧ ∃ matched : bool, records = count_record (Z.b2z matched) ∧
    (matched = true → ∀ b, batches (ss_db s') !! br_job_id batch = Some b →
       receipts (ss_graph s') !! br_job_id batch = Some (receipt_of_row b)))).
  { apply kept_try; [|intros e h Hh; split; [by eapply quiet_handlers|by eapply query_raises]].
    by apply readback_query. }
  intros records s1 (Hp1 & Hat1 & matched & -> & Hrc). apply kept_bind.
  apply (kept_mono _ (λ a s', s' = s1 ∧ a = Z.b2z matched)).
  { apply kept_try; [|intros e h Hh; split; [by eapply quiet_handlers|by eapply count_raises]].
    apply kept_lift; [done|]. intros a Ha. split; [done|]. by injection Ha. }
  intros n s2 [-> ->]. unfold settle_reconciliation. destruct matched; simpl.
  - apply kept_bind. eapply kept_mono; [apply (kept_ack batch); [done|done|by apply Hrc]|]. done.
  - apply kept_quiet; [|done]. repeat quiet_step.
Qed.

(** ** The whole run *)

Lemma kept_claim_ambiguous s : promise s →
  kept (claim_ambiguous config supply) (λ r s', promise s' ∧ ∀ batch, r = Some batch → at_hand batch s') s.
Proof.
  intros Hp. pose proof (promise_quiet _ _ (quiet_claim_ambiguous s) Hp) as Hq.
  unfold kept, sp, claim_ambiguous, journal_call in *. destruct (claim_reconciling _ _ _ (ss_db s)) as [[r|e] d] eqn:E; [|done]. split; [done|]. intros batch ->.
  eapply claim_carried; [apply fence_carries|eapply claim_reconciling_effect; [apply Hp|exact E]|done].
Qed.
Lemma kept_claim_pending s : promise s →
  kept (claim_pending config supply) (λ r s', promise s' ∧ ∀ batch, r = Some batch → at_hand batch s') s.
Proof.
  intros Hp. pose proof (promise_quiet _ _ (quiet_claim_pending s) Hp) as Hq.
  unfold kept, sp, claim_pending, journal_call in *. destruct (claim_batch _ _ _ (ss_db s)) as [[r|e] d] eqn:E; [|done]. split; [done|]. intros batch ->.
  eapply claim_carried; [apply lease_carries|eapply claim_batch_effect; [apply Hp|exact E]|done].
Qed.
Lemma kept_drain_loop fuel n s : promise s →
  kept (drain_loop config fs supply jitter elapsed fuel n) (λ _, promise) s.
Proof.
  revert n s. induction fuel as [|fuel IH]; intros n s Hp; [done|]. cbn [drain_loop].
  assert (∀ batch s', promise s' → at_hand batch s' → kept (_ ← _execute_one config fs supply elapsed batch;
    drain_loop config fs supply jitter elapsed fuel (n + 1)) (λ _, promise) s') as Hexec.
  { intros batch s' Hp' Hat. apply kept_bind. eapply kept_mono; [by apply kept_execute|]. intros [] s2. apply IH. }
  apply kept_bind. eapply kept_mono; [by apply kept_claim_ambiguous|]. intros [batch|] s1 [Hp1 Hat1].
  { apply kept_bind. eapply kept_mono; [apply kept_reconcile; [done|by apply Hat1]|]. intros [] s2. apply IH. }
  apply kept_bind. eapply kept_mono; [by apply kept_claim_pending|]. intros [batch|] s2 [Hp2 Hat2].
  { apply Hexec; [done|by apply Hat2]. }
  apply kept_bind. eapply kept_mono; [apply kept_quiet; [apply quiet_seal|done]|]. intros [] s3 Hp3.
  apply kept_bind. eapply kept_mono; [by apply kept_claim_pending|]. intros [batch|] s4 [Hp4 Hat4]; [|done].
  apply Hexec; [done|by apply Hat4].
Qed.
Lemma kept_resume ensure exists_ fuel s :
  (∀ w f r w', ensure = Some f → f w = (r, w') → receipts w' = receipts w) → promise s →
  kept (resume_journal config fs supply jitter elapsed ensure exists_ fuel) (λ _, promise) s.
Proof.
  intros He Hp. unfold resume_journal. destruct (_ || _); [done|]. apply kept_bind.
  eapply kept_mono; [apply kept_quiet; [apply quiet_reopen|done]|]. intros [] s0 Hp0. apply kept_bind.
  eapply kept_mono; [apply kept_quiet; [apply keeps_read; apply _|done]|]. intros [run|] s1 Hp1; [|done].
  apply kept_bind. eapply kept_mono; [apply kept_quiet; [|done]|].
  { unfold _ensure_recovery_schema. destruct ensure as [f|]; repeat quiet_step.
    intros s' Hi. destruct (f (ss_graph s')) as [r w] eqn:Ef. split_and!; [done|done|]. by eapply He. }
  intros [] s2 Hp2. apply kept_bind. eapply kept_mono; [apply kept_quiet; [|done]|].
  { unfold open_consumer. repeat quiet_step. }
  intros [] s3 Hp3. unfold drain. apply kept_bind. eapply kept_mono; [apply kept_quiet; [apply quiet_seal|done]|].
  intros [] s4. apply kept_drain_loop.
Qed.
End receipts.
