(* ===== verification/Barriers.v ===== *)
(** The accounting of barriers: a barrier counts the batches that produce it and
    those of them that are acknowledged, and its status follows the counts.  It
    is what makes "nodes before relationships" hold: a batch is leased only when
    every batch that produces a barrier it requires is done, for good. *)
From S2P Require Import Prelude Json Models Identity Retry Db Manifest ArtifactApi Store Staging Transitions Boundary Admin Steps Invariant.

(** The batches a barrier counts; a batch with rejected manifests never joins one. *)
Definition producer_of (run name : string) (b : batch_row) : bool :=
  b_in_run run b && in_list name (b_produced_barriers_json b) && negb (rejected b).
Definition done_producer (run name : string) (b : batch_row) : bool :=
  producer_of run name b && b_is BatchStatus.DONE b.

Definition barrier_ok (run name : string) (d : db) : Prop :=
  match barriers d !! (run, name) with
  | None => countM (producer_of run name) (batches d) = 0%Z
  | Some bar =>
      br_produced bar = countM (producer_of run name) (batches d) ∧
      br_drained bar = countM (done_producer run name) (batches d) ∧
      br_stat bar = match br_closed bar with
                    | None => BarrierStatus.OPEN
                    | Some _ => if (br_drained bar =? br_produced bar)%Z
                                then BarrierStatus.DRAINED else BarrierStatus.PRODUCED
                    end
  end.
Definition accounted (d : db) : Prop := ∀ run name, barrier_ok run name d.

Lemma done_zero run name (m : gmap string batch_row) :
  countM (producer_of run name) m = 0%Z → countM (done_producer run name) m = 0%Z.
Proof.
  intros Hz. apply countM_false. intros k b Hk. unfold done_producer. by rewrite (countM_zero _ _ _ _ Hz Hk).
Qed.
Lemma done_le run name (m : gmap string batch_row) :
  (countM (done_producer run name) m ≤ countM (producer_of run name) m)%Z.
Proof.
  unfold countM. apply sumM_le. intros k b _. unfold done_producer.
  destruct (producer_of run name b), (b_is _ b); simpl; lia.
Qed.

(** Equal counts: nothing a barrier sees has changed. *)
Definition same_counts (d d' : db) : Prop := ∀ run name,
  countM (producer_of run name) (batches d') = countM (producer_of run name) (batches d) ∧
  countM (done_producer run name) (batches d') = countM (done_producer run name) (batches d).
Lemma accounted_same d d' : same_counts d d' → barriers d' = barriers d → accounted d → accounted d'.
Proof.
  intros Hs Hb Ha run name. specialize (Ha run name). unfold barrier_ok in *. rewrite Hb.
  destruct (Hs run name) as [-> ->]. done.
Qed.
Lemma same_counts_refl d d' : batches d' = batches d → same_counts d d'.
Proof. intros Heq run name. by rewrite Heq. Qed.

(** A row that moves without being acknowledged or rejected. *)
Definition quiet (b b' : batch_row) : Prop :=
  fixed_columns b' = fixed_columns b ∧ rejected b' = rejected b ∧
  b_is BatchStatus.DONE b' = b_is BatchStatus.DONE b.
Lemma quiet_producer run name b b' : quiet b b' →
  producer_of run name b' = producer_of run name b ∧ done_producer run name b' = done_producer run name b.
Proof.
  intros (Hf & Hr & Hd). unfold fixed_columns in Hf. unfold done_producer, producer_of, b_in_run.
  rewrite Hr, Hd. simplify_eq. by split; congruence.
Qed.
Lemma same_counts_insert d d' job b b' :
  batches d !! job = Some b → batches d' = <[job := b']> (batches d) → quiet b b' → same_counts d d'.
Proof.
  intros Hb Hb' Hq run name. destruct (quiet_producer run name _ _ Hq) as [H1 H2]. rewrite Hb'.
  rewrite !(countM_insert _ _ _ _ b) by done. rewrite H1, H2. lia.
Qed.
Lemma same_counts_where d d' P f :
  batches d' = update_where P f (batches d) → (∀ b, P b = true → quiet b (f b)) → same_counts d d'.
Proof.
  intros Hb' Hq run name. rewrite Hb'. split; apply countM_update_where;
    intros k b _ HP; destruct (quiet_producer run name _ _ (Hq b HP)); done.
Qed.

Lemma batch_step_quiet b b' : batch_step b b' → quiet b b'.
Proof.
  intros Hs. split; [by destruct Hs|split; [by destruct Hs|]].
  pose proof (batch_step_from _ _ Hs) as Hl%leased_or_reconciling_spec. pose proof (batch_step_live _ _ Hs) as Ht.
  unfold b_is. rewrite !bool_decide_eq_false_2; [done|by destruct Hl as [-> | ->]|by intros Hx; rewrite Hx in Ht].
Qed.
Lemma batch_failure_quiet b b' status : batch_failure b b' status → quiet b b'.
Proof.
  intros Hs. split; [by destruct Hs|split; [by destruct Hs|]].
  destruct (batch_failure_from _ _ _ Hs) as [Hl%leased_or_reconciling_spec _].
  pose proof (batch_failure_failed _ _ _ Hs) as Ht.
  unfold b_is. rewrite !bool_decide_eq_false_2; [done|by destruct Hl as [-> | ->]|by intros Hx; rewrite Hx in Ht].
Qed.
Lemma lease_quiet now d ε secs b : claimable now d b = true → quiet b (lease_batch ε secs b).
Proof.
  intros Hc. split; [done|split; [done|]]. unfold claimable, executable in Hc. bool_hyps.
  match goal with Hx : _ || _ = true |- _ => rewrite orb_true_iff, !b_is_spec in Hx; rename Hx into Hs end.
  unfold b_is. rewrite !bool_decide_eq_false_2; [done|by destruct Hs as [-> | ->]|done].
Qed.
Lemma quarantine_quiet now b : b_is BatchStatus.DONE b = false → quiet b (quarantine_batch now b).
Proof. intros Hd. split; [done|split; [done|]]. rewrite Hd. done. Qed.

(** * Acknowledgement: one more drained producer *)

Lemma accounted_ack `{Sha256} d d' now job b :
  accounted d → batches d !! job = Some b → leased_or_reconciling b = true → row_ok job b →
  batches d' = <[job := ack_row now b]> (batches d) →
  (∀ run name, barriers d' !! (run, name) =
     if String.eqb run (b_run_id b) && in_list name (b_produced_barriers_json b)
     then drained_once now <$> barriers d !! (run, name) else barriers d !! (run, name)) →
  accounted d'.
Proof.
  intros Ha Hb Hl Hok Hb' Hbars run name. specialize (Ha run name). unfold barrier_ok in *. rewrite Hbars, Hb'.
  destruct (live_row job _ Hok Hl) as [Herr _].
  assert (rejected b = false) as Hrej by (unfold rejected; by rewrite Herr).
  rewrite leased_or_reconciling_spec in Hl.
  assert (b_is BatchStatus.DONE b = false) as Hnd by (unfold b_is; by destruct Hl as [-> | ->]).
  set (hit := String.eqb run (b_run_id b) && in_list name (b_produced_barriers_json b)).
  assert (producer_of run name b = hit) as Hp.
  { unfold producer_of, b_in_run. rewrite Hrej, String.eqb_sym, andb_true_r. done. }
  assert (producer_of run name (ack_row now b) = hit) as Hp'.
  { unfold producer_of, b_in_run. cbn. rewrite String.eqb_sym, andb_true_r. done. }
  assert (done_producer run name b = false) as Hd by (unfold done_producer; by rewrite Hnd, andb_false_r).
  assert (done_producer run name (ack_row now b) = hit) as Hd'.
  { unfold done_producer. rewrite Hp'. change (b_is BatchStatus.DONE (ack_row now b)) with true. apply andb_true_r. }
  pose proof (done_le run name (<[job:=ack_row now b]> (batches d))) as Hle.
  rewrite !(countM_insert _ _ _ _ b) in Hle |- * by done. rewrite Hp, Hp', Hd, Hd' in *.
  destruct hit; cbn [Z.b2z] in *.
  - destruct (barriers d !! (run, name)) as [bar|]; cbn [fmap option_fmap option_map]; [|lia].
    destruct Ha as (H1 & H2 & H3). unfold drained_once. cbn. split; [lia|split; [lia|]]. rewrite H3.
    destruct (br_closed bar); simpl; [|done].
    destruct (br_drained bar + 1 =? br_produced bar)%Z eqn:E; [done|].
    destruct (br_drained bar =? br_produced bar)%Z eqn:E2; [|done]. exfalso. bool_hyps. lia.
  - destruct (barriers d !! (run, name)) as [bar|]; [|lia]. destruct Ha as (H1 & H2 & H3).
    split; [lia|split; [lia|done]].
Qed.

(** * Every step keeps the accounts *)

Section preserved.
Context `{Sha256}.

Lemma jstep_accounted d d' : inv d → accounted d → jstep d d' → accounted d'.
Proof.
  intros Hi Hacc Hj. jstep_cases Hj.
  - apply (accounted_same d); [|done|done]. eapply same_counts_insert; [done..|]. by apply batch_step_quiet.
  - apply (accounted_same d); [|done|done]. eapply same_counts_insert; [done..|]. by eapply lease_quiet.
  - apply (accounted_same d); [|done|done]. eapply same_counts_insert; [done..|]. by eapply batch_failure_quiet.
  - eapply accounted_ack; try done. by eapply inv_row.
  - apply (accounted_same d); [|done|done]. by apply same_counts_refl.
  - apply (accounted_same d); [|done|done]. by apply same_counts_refl.
  - apply (accounted_same d); [|done|done]. eapply same_counts_where; [done|]. intros b Hb. cbv beta in Hb. bool_hyps.
    by apply quarantine_quiet.
  - apply (accounted_same d); [|done|done]. by apply same_counts_refl.
  - intros run name. pose proof (Hacc run name) as Ha. unfold barrier_ok in *. cbn. rewrite lookup_insert.
    case_decide as Heq; [|done]. simplify_eq. rewrite Hbar0 in Ha. cbn. by rewrite Ha, (done_zero _ _ _ Ha).
  - intros run name. pose proof (Hacc run name) as Ha. unfold barrier_ok in *. cbn. rewrite lookup_insert.
    case_decide as Heq; [|done]. simplify_eq. rewrite Hbar0 in Ha. cbn. tauto.
  - intros run name. pose proof (Hacc run name) as Ha. unfold barrier_ok in *. cbn. rewrite Hbars.
    apply maybe_staged_frame in Hst as (_ & _ & Hb & _). rewrite Hb, Hd1. cbn.
    rewrite !countM_insert_fresh by done.
    assert (producer_of run name (new_batch run0 job0 spec now)
      = String.eqb run run0 && in_list name (sorted_set (bs_produced_barriers spec))) as ->.
    { unfold producer_of, b_in_run. cbn. by rewrite String.eqb_sym, andb_true_r. }
    assert (done_producer run name (new_batch run0 job0 spec now) = false) as ->.
    { unfold done_producer. by rewrite andb_false_r. }
    destruct (String.eqb run run0 && _) eqn:Hhit; [|destruct (barriers d !! (run, name)); cbn [Z.b2z]; done].
    apply andb_true_iff in Hhit as [->%String.eqb_eq Hin%in_list_elem]. cbn [Z.b2z].
    destruct (barriers d !! (run0, name)) as [bar|] eqn:Hbar; cbn.
    + specialize (Hop _ _ Hin Hbar). destruct Ha as (H1 & H2 & H3). split; [lia|split; [lia|]].
      rewrite H3 in Hop |- *. destruct (br_closed bar); [|done]. by destruct (_ =? _)%Z.
    + rewrite Ha, (done_zero _ _ _ Ha). done.
  - intros run name. pose proof (Hacc run name) as Ha. unfold barrier_ok in *. cbn.
    rewrite (staged_barriers _ _ _ _ _ _ Hst), (staged_batches _ _ _ _ _ _ Hst), Hd1. cbn.
    erewrite update_key_some; [|by rewrite lookup_insert_eq|done]. rewrite insert_insert_eq.
    rewrite !countM_insert_fresh by done.
    assert (producer_of run name (reject_batch failure now (new_batch run0 job0 spec now)) = false) as Hp.
    { unfold producer_of. by rewrite andb_false_r. }
    unfold done_producer at 1. rewrite Hp. done.
  - apply (accounted_same d); [|done|done]. by apply same_counts_refl.
  - apply (accounted_same d); [|done|done]. by apply same_counts_refl.
Qed.
Lemma purge_accounted d d' : inv d → accounted d → purge_step d d' → accounted d'.
Proof.
  intros Hi Hacc [run r Hr Ht Hown] run' name. specialize (Hacc run' name). unfold barrier_ok in *. cbn.
  destruct (decide (run' = run)) as [->|Hne].
  - destruct (delete_where (λ b, String.eqb (br_run b) run) (barriers d) !! (run, name)) as [bar|] eqn:Hb.
    + apply lookup_delete_where in Hb as [Hb Hk]. destruct (inv_barrier _ Hi _ _ _ Hb) as (Hrun & _). bool_hyps. congruence.
    + apply countM_false. intros k b [_ Hk]%lookup_delete_where. unfold producer_of. by rewrite Hk.
  - assert (∀ b, b_in_run run b = true → producer_of run' name b = false) as Hp.
    { unfold producer_of, b_in_run. intros b ->%String.eqb_eq. apply String.eqb_neq in Hne.
      by rewrite String.eqb_sym, Hne. }
    rewrite !countM_delete_where; [|intros k b _ Hb; unfold done_producer; by rewrite (Hp b Hb)|intros k b _; apply Hp].
    destruct (barriers d !! (run', name)) as [bar|] eqn:Hb.
    + assert (delete_where (λ b, String.eqb (br_run b) run) (barriers d) !! (run', name) = Some bar) as ->; [|done].
      apply lookup_delete_where. split; [done|]. destruct (inv_barrier _ Hi _ _ _ Hb) as (-> & _). by apply String.eqb_neq.
    + destruct (delete_where (λ b, String.eqb (br_run b) run) (barriers d) !! (run', name)) as [bar|] eqn:Hb'; [|done]. apply lookup_delete_where in Hb' as [? _]. congruence.
Qed.

(** * A batch that has been leased finds its barriers drained, from then on *)

Definition started_ok (d : db) : Prop := ∀ job b,
  batches d !! job = Some b → (1 ≤ b_attempt b)%Z → barriers_drained d b = true.

Lemma barriers_drained_spec d b : barriers_drained d b = true ↔ ∀ name, name ∈ b_required_barriers_json b →
  ∃ bar, barriers d !! (b_run_id b, name) = Some bar ∧ br_stat bar = BarrierStatus.DRAINED.
Proof.
  unfold barriers_drained. rewrite forallb_forall. split.
  - intros Hf name Hn%list_elem_of_In. specialize (Hf _ Hn). destruct (barriers d !! _) as [bar|]; [|done].
    exists bar. split; [done|]. by bool_hyps.
  - intros Hf name Hn%list_elem_of_In. destruct (Hf _ Hn) as (bar & -> & Hs). by apply bool_decide_eq_true.
Qed.
Lemma row_move_started d job b b' :
  started_ok d → batches d !! job = Some b → row_ok job b → row_move d b b' → (1 ≤ b_attempt b')%Z →
  barriers_drained d b = true.
Proof.
  intros Hs Hb Hok Hm Hatt.
  assert (leased_or_reconciling b = true → barriers_drained d b = true) as Hlive.
  { intros Hl. apply (Hs job); [done|]. by destruct (live_row job _ Hok Hl) as [_ [? _]]. }
  destruct Hm as [|b' Hst|ε secs Hc|b' st Hf|now Hl|now Hnd Ha].
  - by apply (Hs job).
  - apply Hlive. by eapply batch_step_from.
  - unfold claimable in Hc. by bool_hyps.
  - apply Hlive. by eapply batch_failure_from.
  - by apply Hlive.
  - by apply (Hs job).
Qed.
Lemma jstep_started d d' : inv d → started_ok d → jstep d d' → started_ok d'.
Proof.
  intros Hi Hs Hj job b' Hb' Hatt. destruct (batches d !! job) as [b|] eqn:Hb.
  - destruct (jstep_row _ _ _ _ Hj Hb) as (b'' & Hb'' & Hm). simplify_eq.
    pose proof (row_move_started _ _ _ _ Hs Hb (inv_row _ Hi _ _ Hb) Hm Hatt) as Hd.
    rewrite barriers_drained_spec in Hd |- *. pose proof (row_move_fixed _ _ _ Hm) as Hf.
    unfold fixed_columns in Hf.
    assert (b_run_id b' = b_run_id b ∧ b_required_barriers_json b' = b_required_barriers_json b) as [Hr1 Hr2] by (split; congruence).
    clear Hf. intros nm Hn.
    destruct (Hd nm) as (bar & Hbar & Hst); [congruence|].
    destruct (jstep_barrier _ _ _ _ _ Hj Hbar) as (bar' & Hbar' & Hbm).
    exists bar'. split; [congruence|]. by eapply bar_move_drained.
  - destruct (jstep_new _ _ _ _ Hj Hb Hb') as (run & r & _ & _ & Hnew).
    exfalso. by destruct Hnew.
Qed.
Lemma purge_started_ok d d' : inv d → started_ok d → purge_step d d' → started_ok d'.
Proof.
  intros Hi Hs [run r Hr Ht Hown] job b. cbn. intros [Hb Hnr]%lookup_delete_where Hatt.
  specialize (Hs job b Hb Hatt). rewrite barriers_drained_spec in Hs |- *. intros name Hn.
  destruct (Hs name Hn) as (bar & Hbar & Hst). exists bar. split; [|done]. cbn.
  apply lookup_delete_where. split; [done|]. by destruct (inv_barrier _ Hi _ _ _ Hbar) as (-> & _).
Qed.

Lemma accounted_equiv d d' : d ≈ d' → accounted d → accounted d'.
Proof.
  intros He Ha run name. specialize (Ha run name). unfold barrier_ok in *.
  by rewrite <- (batches_proper _ _ He), <- (barriers_proper _ _ He).
Qed.
Lemma started_equiv d d' : d ≈ d' → started_ok d → started_ok d'.
Proof.
  intros He Hs job b. unfold started_ok, barriers_drained in *.
  rewrite <- (batches_proper _ _ He), <- (barriers_proper _ _ He). apply Hs.
Qed.

(** A drained barrier has no unfinished producer. *)
Lemma drained_producers d run name bar job b :
  accounted d → barriers d !! (run, name) = Some bar → br_stat bar = BarrierStatus.DRAINED →
  batches d !! job = Some b → producer_of run name b = true → b_status b = BatchStatus.DONE.
Proof.
  intros Ha Hbar Hst Hb Hp. specialize (Ha run name). unfold barrier_ok in Ha. rewrite Hbar in Ha.
  destruct Ha as (H1 & H2 & H3). rewrite H3 in Hst. destruct (br_closed bar); [|done].
  destruct (_ =? _)%Z eqn:E; [|done]. bool_hyps. rewrite H1, H2 in E.
  assert (done_producer run name b = true) as Hdn.
  { eapply (countM_eq_sub (done_producer run name) (producer_of run name)); [|exact E|exact Hb|exact Hp].
    intros v. unfold done_producer. intros. by bool_hyps. }
  unfold done_producer in Hdn. bool_hyps. by apply b_is_spec.
Qed.
End preserved.
