(* ===== verification/Conservation.v ===== *)
(** The manifest tables: every row belongs to a batch of its run and is
    acknowledged with it, the producers' counters count the rows, an identity
    has one payload, an active run holds no invalid row, and a sealed endpoint
    audit keeps describing its run. *)
From S2P Require Import Prelude Json Models Identity Retry Db Manifest ArtifactApi Store Staging Transitions Boundary Admin Steps Invariant Barriers.

(** * Counting by keys *)

Section count_keys.
Context `{Countable K} {V : Type}.
Lemma countM_size (P : V → bool) (m : gmap K V) :
  countM P m = Z.of_nat (size (filter (λ kv, P kv.2 = true) m)).
Proof.
  induction m as [|k v m Hk IH] using map_ind.
  - by rewrite map_filter_empty, map_size_empty.
  - rewrite countM_insert_fresh, map_filter_insert by done. simpl. case_decide as HP.
    + rewrite HP, map_size_insert_None, IH; [simpl; lia|]. apply map_lookup_filter_None_2. by left.
    + destruct (P v); [done|]. rewrite delete_id by done. rewrite IH. done.
Qed.
(** Two tables whose rows satisfy [P] and [P'] under the same keys. *)
Lemma countM_keys {V'} (P : V → bool) (P' : V' → bool) (m : gmap K V) (m' : gmap K V') :
  (∀ k, from_option P false (m !! k) = from_option P' false (m' !! k)) → 
  Z.of_nat (size (filter (λ kv, P kv.2 = true) m)) = Z.of_nat (size (filter (λ kv, P' kv.2 = true) m')).
Proof.
  intros Hk. f_equal. rewrite <- !size_dom. f_equal. apply set_eq. intros k.
  rewrite !elem_of_dom. unfold is_Some. setoid_rewrite map_lookup_filter_Some. specialize (Hk k).
  destruct (m !! k) as [v|], (m' !! k) as [v'|]; simpl in Hk;
    (split; intros (x & Hx & HP); simplify_eq; simpl in *; try congruence; (eexists; split; [reflexivity|simpl; congruence])).
Qed.
End count_keys.
Lemma countM_ext_keys `{Countable K} {V} (P : V → bool) (m m' : gmap K V) :
  (∀ k, from_option P false (m !! k) = from_option P false (m' !! k)) → countM P m = countM P m'.
Proof. intros. rewrite !countM_size. by apply countM_keys. Qed.

(** * The invariant of the manifests *)

Definition clean_status (s : RunStatus) : bool :=
  match s with RunStatus.OPEN | RunStatus.DRAINING | RunStatus.DRAINED => true | _ => false end.
Definition is_unique (m : manifest_row) : bool := bool_decide (m_disposition m = ManifestDisposition.STAGED_UNIQUE).

Definition rows_ok (d : db) : Prop := ∀ k key m, manifest_table k d !! key = Some m →
  key = (m_run_id m, m_manifest_id m) ∧ m_graph_verified m = m_acked m ∧
  ∃ b, batches d !! m_job_id m = Some b ∧ b_run_id b = m_run_id m ∧
       m_acked m = is_unique m && b_is BatchStatus.DONE b.
Definition clean_ok (d : db) : Prop := ∀ run r,
  runs d !! run = Some r → clean_status (r_status r) = true → clean run d.

Record manifests_ok (d : db) : Prop := {
  mo_rows : rows_ok d;
  mo_coherent : coherent d;
  mo_counters : counters_ok d;
  mo_clean : clean_ok d;
}.

(** The rows of every batch stay, and no batch becomes or ceases to be done. *)
Definition quiet_rows (d d' : db) : Prop := ∀ job b, batches d !! job = Some b →
  ∃ b', batches d' !! job = Some b' ∧ quiet b b'.
Definition same_manifests (d d' : db) : Prop :=
  (∀ k, manifest_table k d' = manifest_table k d) ∧ producer_completion d' = producer_completion d.

Lemma quiet_refl b : quiet b b.
Proof. done. Qed.
Lemma quiet_run b b' : quiet b b' → b_run_id b' = b_run_id b.
Proof. intros [Hf _]. unfold fixed_columns in Hf. congruence. Qed.
Lemma rows_ok_quiet d d' : quiet_rows d d' → (∀ k, manifest_table k d' = manifest_table k d) → rows_ok d → rows_ok d'.
Proof.
  intros Hq Ht Hok k key m Hm. rewrite Ht in Hm. destruct (Hok _ _ _ Hm) as (Hk & Hg & b & Hb & Hr & Ha).
  split; [done|split; [done|]]. destruct (Hq _ _ Hb) as (b' & Hb' & Hqb). exists b'.
  split; [done|split; [by rewrite (quiet_run _ _ Hqb)|]]. destruct Hqb as (_ & _ & ->). done.
Qed.
Lemma coherent_same d d' : (∀ k, manifest_table k d' = manifest_table k d) → coherent d → coherent d'.
Proof. intros Ht Hc k. rewrite Ht. apply Hc. Qed.
Lemma tally_same d d' k disp run p : (∀ k, manifest_table k d' = manifest_table k d) →
  tally k disp run p d' = tally k disp run p d.
Proof. intros Ht. unfold tally. by rewrite Ht. Qed.
Lemma counters_same d d' : same_manifests d d' → counters_ok d → counters_ok d'.
Proof.
  intros [Ht Hp] Hc run p. specialize (Hc run p). rewrite Hp.
  destruct (producer_completion d !! (run, p)) as [row|].
  - destruct Hc as (H1 & H2 & H3 & H4). split_and!; try done. intros k disp. by rewrite (tally_same d).
  - intros k disp. by rewrite (tally_same d).
Qed.
Lemma clean_same d d' run : (∀ k, manifest_table k d' = manifest_table k d) → clean run d → clean run d'.
Proof. intros Ht Hc k p. by rewrite !(tally_same d d' k _ run p Ht). Qed.
Lemma clean_no_rows d run : (∀ k key m, manifest_table k d !! key = Some m → m_run_id m ≠ run) → clean run d.
Proof.
  intros Hno k p. assert (∀ disp, tally k disp run p d = 0%Z) as Ht.
  { intros disp. apply countM_false. intros key m Hm. by rewrite (proj2 (String.eqb_neq _ _) (Hno _ _ _ Hm)). }
  by split.
Qed.

Section preserved.
Context `{Sha256}.

Lemma run_move_clean d run r r' :
  run_move d run r r' → clean_status (r_status r') = true → clean_status (r_status r) = true.
Proof.
  destruct 1 as [|???? ?? Hst| |?? Hd|? Ho|]; try done; cbn;
    [by destruct Hst as [-> | ->]|by rewrite Hd|by rewrite Ho].
Qed.

(** A step that leaves the manifest tables as they are. *)
Lemma jstep_same_manifests d d' :
  inv d → manifests_ok d → jstep d d' → quiet_rows d d' → same_manifests d d' → manifests_ok d'.
Proof.
  intros Hi [Hr Hc Hct Hcl] Hj Hq [Ht Hp]. split.
  - by eapply rows_ok_quiet.
  - by eapply coherent_same.
  - by eapply counters_same.
  - intros run r' Hr' Hcs. eapply clean_same; [exact Ht|]. destruct (runs d !! run) as [r|] eqn:Hrun.
    + destruct (jstep_run _ _ _ _ Hj Hrun) as (r'' & Hr'' & Hm). simplify_eq.
      eapply Hcl; [exact Hrun|]. by eapply run_move_clean.
    + apply clean_no_rows. intros k key m Hm Heq. destruct (Hr _ _ _ Hm) as (_ & _ & b & Hb & Hbr & _).
      destruct (inv_batch _ Hi _ _ Hb) as (r & Hr1 & _). congruence.
Qed.

(** ** Acknowledgement *)

Definition ack_m (now : Z) (m : manifest_row) : manifest_row :=
  m <| m_acked := true |> <| m_graph_verified := true |> <| m_updated_at := now |>.
Lemma ack_lookup job now t key m' :
  ack_manifest job now t !! key = Some m' ↔ ∃ m, t !! key = Some m ∧
    m' = if String.eqb (m_job_id m) job && is_unique m then ack_m now m else m.
Proof.
  unfold ack_manifest. rewrite lookup_update_where. destruct (t !! key) as [m|]; simpl; [|by split; [|intros (? & ? & _)]].
  split; [intros [= <-]; by eexists|by intros (? & [= <-] & ->)].
Qed.
Lemma ack_count job now P t : (∀ m, P (ack_m now m) = P m) → countM P (ack_manifest job now t) = countM P t.
Proof. intros HP. unfold ack_manifest. apply countM_update_where. intros k m _ _. apply HP. Qed.
Lemma manifest_table_ack job now k d f bars :
  manifest_table k (d <| batches ::= f |> <| node_manifest ::= ack_manifest job now |>
    <| edge_manifest ::= ack_manifest job now |> <| barriers := bars |>) = ack_manifest job now (manifest_table k d).
Proof. by destruct k. Qed.

Lemma rows_ok_ack d d' now job b :
  rows_ok d → batches d !! job = Some b → batches d' = <[job := ack_row now b]> (batches d) →
  b_is BatchStatus.DONE b = false →
  (∀ k, manifest_table k d' = ack_manifest job now (manifest_table k d)) → rows_ok d'.
Proof.
  intros Hok Hb Hb' Hnd Ht k key m'. rewrite Ht. intros (m & Hm & ->)%ack_lookup.
  destruct (Hok _ _ _ Hm) as (Hk & Hg & b0 & Hb0 & Hr & Ha). rewrite Hb'.
  destruct (String.eqb_spec (m_job_id m) job) as [Hjob|Hjob]; simpl.
  - rewrite Hjob in Hb0. simplify_eq. rewrite Hnd, andb_false_r in Ha.
    destruct (is_unique m) eqn:Hu; simpl.
    + split; [done|split; [done|]]. exists (ack_row now b). unfold ack_m; cbn. rewrite lookup_insert_eq.
      split; [done|split; [done|]]. unfold is_unique in *. cbn. by rewrite Hu.
    + split; [done|split; [done|]]. exists (ack_row now b). rewrite lookup_insert_eq.
      split; [done|split; [done|]]. by rewrite Hu.
  - split; [done|split; [done|]]. exists b0. by rewrite lookup_insert_ne.
Qed.
Lemma coherent_ack d d' now job :
  (∀ k, manifest_table k d' = ack_manifest job now (manifest_table k d)) → coherent d → coherent d'.
Proof.
  intros Ht Hc k key1 key2 m1 m2. rewrite Ht. intros (n1 & H1 & ->)%ack_lookup (n2 & H2 & ->)%ack_lookup Ha1 Ha2 Hid.
  assert (∀ n, let n' := if String.eqb (m_job_id n) job && is_unique n then ack_m now n else n in
    m_disposition n' = m_disposition n ∧ identity_of k n' = identity_of k n ∧ m_payload_digest n' = m_payload_digest n) as Hsame.
  { intros n. destruct (String.eqb (m_job_id n) job && is_unique n); cbv zeta; (split; [done|split; [by destruct k|done]]). }
  destruct (Hsame n1) as (D1 & I1 & P1), (Hsame n2) as (D2 & I2 & P2).
  rewrite D1, D2, P1, P2 in *. rewrite I1, I2 in Hid. by eapply Hc.
Qed.
Lemma tally_ack d d' now job k disp run p :
  (∀ k, manifest_table k d' = ack_manifest job now (manifest_table k d)) →
  tally k disp run p d' = tally k disp run p d.
Proof. intros Ht. unfold tally. rewrite Ht. by apply ack_count. Qed.

(** ** Staging *)

Lemma rows_ok_grows run job producer d d1 d2 d' b :
  rows_ok d → batches d !! job = None → (∀ k, manifest_table k d1 = manifest_table k d) →
  grows run job producer d1 d2 → (∀ k, manifest_table k d' = manifest_table k d2) →
  batches d' = <[job := b]> (batches d) → b_run_id b = run → b_is BatchStatus.DONE b = false → rows_ok d'.
Proof.
  intros Hok Hn H1 (_ & Hg & _) H2 Hb' Hrun Hnd k key m. rewrite H2. intros Hm.
  specialize (Hg k key). rewrite H1 in Hg. rewrite Hb'. destruct (manifest_table k d !! key) as [m0|] eqn:Hm0.
  - rewrite Hg in Hm. simplify_eq. destruct (Hok _ _ _ Hm0) as (Hk & Hgv & b0 & Hb0 & Hr & Ha).
    split; [done|split; [done|]]. exists b0. rewrite lookup_insert_ne; [done|]. intros ->. congruence.
  - destruct (Hg _ Hm) as [(Hr & Hj & _ & Ha & Hgv) ->]. rewrite Hr, Hj, Ha, Hgv.
    split; [done|split; [done|]]. exists b. rewrite lookup_insert_eq, Hnd, andb_false_r. done.
Qed.
Lemma staged_manifests run job producer failure d d1 d2 d' b :
  manifests_ok d → batches d !! job = None →
  (∀ k, manifest_table k d1 = manifest_table k d) → producer_completion d1 = producer_completion d →
  staged run job producer failure d1 d2 →
  (∀ k, manifest_table k d' = manifest_table k d2) → producer_completion d' = producer_completion d2 →
  batches d' = <[job := b]> (batches d) → b_run_id b = run → b_is BatchStatus.DONE b = false →
  (∀ run' r', runs d' !! run' = Some r' → clean_status (r_status r') = true →
     (run' ≠ run ∨ failure = []) ∧ ∃ r, runs d !! run' = Some r ∧ clean_status (r_status r) = true) →
  manifests_ok d'.
Proof.
  intros [Hr Hco Hct Hcl] Hn Ht1 Hp1 (Hg & Hco' & Hct' & Hcl1 & Hcl2 & _) Ht2 Hp2 Hb' Hrun Hnd Hruns. split.
  - by eapply rows_ok_grows.
  - eapply coherent_same; [exact Ht2|]. apply Hco'. by eapply coherent_same.
  - eapply (counters_same d2); [done|]. apply Hct'. by eapply (counters_same d).
  - intros run' r' Hr' Hcs. destruct (Hruns _ _ Hr' Hcs) as (Hwhich & r & Hr0 & Hcs0).
    eapply clean_same; [exact Ht2|]. pose proof (clean_same _ d1 _ Ht1 (Hcl _ _ Hr0 Hcs0)) as Hc1.
    destruct (decide (run' = run)) as [->|Hne]; [|by apply Hcl2].
    destruct Hwhich as [|Hf]; [done|]. by apply Hcl1.
Qed.

(** ** The production boundary *)

Lemma counters_complete d now run :
  counters_ok d → producer_completion d !! (run, _PRODUCERS_COMPLETE_ID) = None →
  counters_ok (d <| producer_completion ::= (λ t,
      <[(run, _PRODUCERS_COMPLETE_ID) :=
          MkProducer run _PRODUCERS_COMPLETE_ID ProducerStatus.COMPLETE counters_zero (Some now) now]>
      (update_where (open_in_run run) (complete_row now) t)) |>).
Proof.
  intros Hc Hn run' p. specialize (Hc run' p). cbn.
  assert (∀ f k disp, tally k disp run' p (d <| producer_completion ::= f |>) = tally k disp run' p d) as Ht
    by (intros f []; done).
  rewrite lookup_insert. case_decide as Heq.
  - simplify_eq. rewrite Hn in Hc. split; [done|split; [done|split; [apply emitted_ok_zero|]]]. intros k disp. cbn. by rewrite counted_zero, Ht, Hc.
  - rewrite lookup_update_where. destruct (producer_completion d !! (run', p)) as [row|]; simpl.
    + destruct Hc as (H1 & H2 & H3 & H4). destruct (open_in_run run row); cbn; split_and!; try done;
        intros k disp; by rewrite Ht.
    + intros k disp. by rewrite Ht.
Qed.

Lemma quiet_rows_insert d d' job b b' :
  batches d !! job = Some b → batches d' = <[job := b']> (batches d) → quiet b b' → quiet_rows d d'.
Proof.
  intros Hb Hb' Hq job1 b1 Hb1. rewrite Hb', lookup_insert. case_decide; [simplify_eq; eauto|by exists b1].
Qed.
Lemma quiet_rows_where d d' P f :
  batches d' = update_where P f (batches d) → (∀ b, P b = true → quiet b (f b)) → quiet_rows d d'.
Proof.
  intros Hb' Hq job b Hb. rewrite Hb', lookup_update_where, Hb. simpl. eexists; split; [done|].
  destruct (P b) eqn:E; [by apply Hq|done].
Qed.
Lemma quiet_rows_same d d' : batches d' = batches d → quiet_rows d d'.
Proof. intros Heq job b Hb. rewrite Heq. by exists b. Qed.

Lemma jstep_manifests d d' : inv d → manifests_ok d → jstep d d' → manifests_ok d'.
Proof.
  intros Hi Hmo Hj. pose proof Hj as Hj'. jstep_cases Hj'.
  - eapply jstep_same_manifests; [done..| |done]. eapply quiet_rows_insert; [done..|]. by apply batch_step_quiet.
  - eapply jstep_same_manifests; [done..| |done]. eapply quiet_rows_insert; [done..|]. by eapply lease_quiet.
  - eapply jstep_same_manifests; [done..| |done]. eapply quiet_rows_insert; [done..|]. by eapply batch_failure_quiet.
  - destruct Hmo as [Hr Hco Hct Hcl].
    assert (b_is BatchStatus.DONE b0 = false) as Hnd.
    { apply leased_or_reconciling_spec in Hl. unfold b_is. by destruct Hl as [-> | ->]. }
    match type of Hj with jstep _ ?x => assert (∀ k, manifest_table k x = ack_manifest job0 now (manifest_table k d)) as Ht
      by (intros []; done) end.
    split.
    + by eapply rows_ok_ack.
    + by eapply coherent_ack.
    + intros run p. specialize (Hct run p). cbn. destruct (producer_completion d !! (run, p)) as [row|].
      * destruct Hct as (H1 & H2 & H3 & H4). split_and!; try done. intros k disp. by rewrite (tally_ack d _ now job0).
      * intros k disp. by rewrite (tally_ack d _ now job0).
    + intros run r Hr' Hcs k p. destruct (Hcl run r Hr' Hcs k p) as [H1 H2].
      by rewrite (tally_ack d _ now job0 k _ run p Ht), (tally_ack d _ now job0 k _ run p Ht).
  - eapply jstep_same_manifests; [done..| |done]. by apply quiet_rows_same.
  - eapply jstep_same_manifests; [done..| |done]. by apply quiet_rows_same.
  - eapply jstep_same_manifests; [done..| |done]. eapply quiet_rows_where; [done|]. intros b Hb.
    cbv beta in Hb. bool_hyps. by apply quarantine_quiet.
  - eapply jstep_same_manifests; [done..| |done]. by apply quiet_rows_same.
  - eapply jstep_same_manifests; [done..| |done]. by apply quiet_rows_same.
  - eapply jstep_same_manifests; [done..| |done]. by apply quiet_rows_same.
  - assert (∀ k, manifest_table k d1 = manifest_table k d) as Ht1 by (intros []; by rewrite Hd1).
    assert (producer_completion d1 = producer_completion d) as Hp1 by (by rewrite Hd1).
    pose proof (maybe_staged_frame _ _ _ _ Hst) as (Hrs & _ & Hbs & _).
    assert (∃ p, staged run0 job0 p [] d1 d2 ∨ d2 = d1) as [p Hst'] by (destruct Hst as [->|[p ?]]; [by exists ""; right|by exists p; left]).
    destruct Hst' as [Hst'|Heq].
    + eapply (staged_manifests run0 job0 p [] d d1 d2); try done; [by cbn; rewrite Hbs, Hd1|done|done|].
      intros run' r'. cbn. rewrite Hrs, Hd1. cbn. intros Hr' Hcs. split; [by right|eauto].
    + subst d2. split.
      * destruct Hmo as [Hr _ _ _]. intros k key m Hm.
        assert (manifest_table k d !! key = Some m) as Hm' by (rewrite <- Ht1; by destruct k).
        destruct (Hr _ _ _ Hm') as (Hk & Hg & b & Hb & Hbr & Ha). split; [done|split; [done|]]. exists b. cbn.
        rewrite Hd1. cbn. rewrite lookup_insert_ne; [done|]. intros ->. congruence.
      * eapply coherent_same; [|apply mo_coherent, Hmo]. intros k. rewrite <- Ht1. by destruct k.
      * eapply (counters_same d); [|apply mo_counters, Hmo]. split; [|done]. intros k. rewrite <- Ht1. by destruct k.
      * intros run' r'. cbn. rewrite Hd1. cbn. intros Hr' Hcs. eapply (clean_same d); [|by eapply mo_clean].
        intros k. by destruct k.
  - eapply (staged_manifests run0 job0 p failure d d1 d2); try done.
    + intros []; by rewrite Hd1.
    + by rewrite Hd1.
    + cbn. rewrite (staged_batches _ _ _ _ _ _ Hst), Hd1. cbn.
      erewrite update_key_some; [|by rewrite lookup_insert_eq|done]. by rewrite insert_insert_eq.
    + done.
    + done.
    + intros run' r'. cbn. rewrite (staged_runs _ _ _ _ _ _ Hst), Hd1. cbn. rewrite lookup_update_key.
      case_decide as Hrun; [subst run'; rewrite Hr0; by intros [= <-]|]. intros Hr' Hcs.
      split; [left; congruence|eauto].
  - destruct Hmo as [Hr Hco Hct Hcl]. split.
    + eapply rows_ok_quiet; [by apply quiet_rows_same| |exact Hr]. by intros [].
    + eapply coherent_same; [|exact Hco]. by intros [].
    + by apply counters_complete.
    + intros run r. cbn. intros Hrr Hcs. eapply (clean_same d); [by intros []|]. by eapply Hcl.
  - eapply jstep_same_manifests; [done..| |done]. by apply quiet_rows_same.
Qed.

(** ** Purge, events, the empty journal *)

Lemma tables_delete k run d :
  manifest_table k (delete_run run d) = delete_where (in_run run) (manifest_table k d).
Proof. by destruct k. Qed.
Lemma tally_delete k disp run run' p d :
  tally k disp run' p (delete_run run d) = if String.eqb run' run then 0%Z else tally k disp run' p d.
Proof.
  unfold tally. rewrite tables_delete. destruct (String.eqb_spec run' run) as [Heq|Hne].
  - apply countM_false. intros key m [_ Hm]%lookup_delete_where. unfold in_run in Hm. by rewrite Heq, Hm.
  - apply countM_delete_where. intros key m _ Hm. unfold in_run in Hm. bool_hyps.
    by rewrite Hm, (proj2 (String.eqb_neq _ _)) by done.
Qed.
Lemma purge_manifests d d' : inv d → manifests_ok d → purge_step d d' → manifests_ok d'.
Proof.
  intros Hi [Hr Hco Hct Hcl] [run r Hrun Ht Hown]. split.
  - intros k key m. rewrite tables_delete. intros [Hm Hnr]%lookup_delete_where.
    destruct (Hr _ _ _ Hm) as (Hk & Hg & b & Hb & Hbr & Ha). split; [done|split; [done|]]. exists b.
    split; [|done]. cbn. apply lookup_delete_where. split; [done|]. unfold b_in_run. by rewrite Hbr.
  - intros k key1 key2 m1 m2. rewrite tables_delete.
    intros [H1 _]%lookup_delete_where [H2 _]%lookup_delete_where. by eapply Hco.
  - intros run' p. specialize (Hct run' p).
    destruct (producer_completion (delete_run run d) !! (run', p)) as [row|] eqn:Hrow.
    + cbn in Hrow. apply lookup_delete_where in Hrow as [Hrow Hne]. rewrite Hrow in Hct.
      destruct Hct as (H1 & H2 & H3 & H4). split; [done|split; [done|split; [done|]]].
      intros k disp. rewrite tally_delete, <- H1, Hne. rewrite <- H1 in H4. apply H4.
    + intros k disp. rewrite tally_delete. destruct (String.eqb_spec run' run) as [|Hne]; [done|].
      destruct (producer_completion d !! (run', p)) as [row|] eqn:Hrow'; [exfalso|apply Hct].
      assert (producer_completion (delete_run run d) !! (run', p) = Some row); [|congruence].
      cbn. apply lookup_delete_where. split; [done|]. destruct Hct as (-> & _). by apply String.eqb_neq.
  - intros run' r'. cbn. intros [Hne Hr']%lookup_delete_Some Hcs k p.
    rewrite !tally_delete, (proj2 (String.eqb_neq _ _)) by done. by eapply Hcl.
Qed.
Lemma tables_equiv k d d' : d ≈ d' → manifest_table k d' = manifest_table k d.
Proof. intros He. destruct k; simpl; by rewrite He. Qed.
Lemma manifests_equiv d d' : d ≈ d' → manifests_ok d → manifests_ok d'.
Proof.
  intros He [Hr Hco Hct Hcl].
  assert (∀ k, manifest_table k d' = manifest_table k d) as Ht by (intros k; by apply tables_equiv).
  split.
  - eapply rows_ok_quiet; [|exact Ht|exact Hr]. apply quiet_rows_same. symmetry. by apply batches_proper.
  - by eapply coherent_same.
  - eapply counters_same; [|exact Hct]. split; [exact Ht|]. symmetry. by apply producers_proper.
  - intros run r. rewrite <- (runs_proper _ _ He). intros Hrr Hcs. eapply clean_same; [exact Ht|]. by eapply Hcl.
Qed.
Lemma initial_manifests d : (∀ k, manifest_table k d = ∅) → producer_completion d = ∅ → manifests_ok d.
Proof.
  intros Ht Hp.
  assert (∀ k disp run p, tally k disp run p d = 0%Z) as Htl.
  { intros. apply countM_false. intros key m. by rewrite Ht, lookup_empty. }
  split.
  - intros k key m. by rewrite Ht, lookup_empty.
  - intros k key1 key2 m1 m2. by rewrite Ht, lookup_empty.
  - intros run p. rewrite Hp, lookup_empty. intros. apply Htl.
  - intros run r _ _ k p. by rewrite !Htl.
Qed.

(** * The conservation of a drained run *)

Lemma count_in_run_split (run : string) (t : gmap (string * string) manifest_row) :
  countM (in_run run) t =
    (countM (with_disposition run ManifestDisposition.STAGED_UNIQUE) t
     + countM (with_disposition run ManifestDisposition.DECLARED_DUPLICATE) t
     + countM (with_disposition run ManifestDisposition.CONFLICT) t
     + countM (with_disposition run ManifestDisposition.REJECTED) t)%Z.
Proof.
  unfold countM. rewrite <- !sumM_add. apply sumM_ext. intros k m _. unfold with_disposition.
  destruct (in_run run m); simpl; [|done]. by destruct (m_disposition m).
Qed.
Lemma classified_always (run : string) t : classified (table_totals run t) = true.
Proof. unfold classified. simpl. apply Z.eqb_eq, count_in_run_split. Qed.
Lemma conserved_when_done d run k :
  rows_ok d → (∀ job b, batches d !! job = Some b → b_run_id b = run → b_status b = BatchStatus.DONE) →
  conserved (table_totals run (manifest_table k d)) = true.
Proof.
  intros Hr Hdone. unfold conserved. rewrite classified_always. simpl. apply andb_true_iff.
  assert (∀ key m, manifest_table k d !! key = Some m → in_run run m = true →
    m_graph_verified m = m_acked m ∧ m_acked m = is_unique m) as Hm.
  { intros key m Hk Hrun. destruct (Hr _ _ _ Hk) as (_ & Hg & b & Hb & Hbr & Ha). split; [done|].
    unfold in_run in Hrun. bool_hyps. rewrite Ha, (proj2 (b_is_spec _ _)); [apply andb_true_r|].
    eapply Hdone; [done|]. congruence. }
  split; apply Z.eqb_eq, countM_ext; intros key m Hk; unfold with_disposition;
    destruct (in_run run m) eqn:Hin; simpl; try done; destruct (Hm _ _ Hk Hin) as [H1 H2]; unfold is_unique in H2; congruence.
Qed.
Lemma clean_invalid run d k : clean run d → countM (invalid_row run) (manifest_table k d) = 0%Z.
Proof.
  intros Hcl. apply countM_false. intros key m Hm. unfold invalid_row.
  destruct (String.eqb (m_run_id m) run) eqn:Hr; simpl; [|done].
  destruct (Hcl k (m_producer_id m)) as [H1 H2]. unfold tally in H1, H2.
  pose proof (countM_zero _ _ _ _ H1 Hm) as C1. pose proof (countM_zero _ _ _ _ H2 Hm) as C2. simpl in C1, C2.
  rewrite Hr, String.eqb_refl in C1, C2. simpl in C1, C2. by destruct (m_disposition m).
Qed.
End preserved.
