(* ===== verification/Reachable.v ===== *)
(** What holds in every database the calls of the journal can reach, purges
    included: the invariants of [Barriers.v] and [Conservation.v], and what a
    leased batch may rely on. *)
From S2P Require Import Prelude Json PyValue Models Identity Retry Db Manifest ArtifactApi Store Staging Transitions Boundary Admin Steps Invariant Barriers Conservation Refinement RefinementRuns Behaviour Journal.

Section reachable.
Context `{Sha256} {FS : Type} `{!ArtifactApi FS} (limits : JournalLimits).

Lemma reachable_accounted d : reachable limits d → accounted d.
Proof.
  intros Hr. eapply calls_preserve; [..|exact Hr].
  - intros d1 d2. apply jstep_accounted.
  - intros d1 d2. apply purge_accounted.
  - apply accounted_equiv.
  - apply initial_inv.
  - intros run name. unfold barrier_ok. cbn. by rewrite lookup_empty.
Qed.
Lemma reachable_started d : reachable limits d → started_ok d.
Proof.
  intros Hr. eapply calls_preserve; [..|exact Hr].
  - intros d1 d2. apply jstep_started.
  - intros d1 d2. apply purge_started_ok.
  - apply started_equiv.
  - apply initial_inv.
  - intros job b. cbn. by rewrite lookup_empty.
Qed.
Lemma reachable_manifests d : reachable limits d → manifests_ok d.
Proof.
  intros Hr. eapply calls_preserve; [..|exact Hr].
  - intros d1 d2. apply jstep_manifests.
  - intros d1 d2. apply purge_manifests.
  - apply manifests_equiv.
  - apply initial_inv.
  - apply initial_manifests; [by intros []|done].
Qed.

(** A leased batch finds the barriers it requires drained. *)
Lemma required_drained d job b name :
  reachable limits d → batches d !! job = Some b → (1 ≤ b_attempt b)%Z → name ∈ b_required_barriers_json b →
  ∃ bar, barriers d !! (b_run_id b, name) = Some bar ∧ br_stat bar = BarrierStatus.DRAINED.
Proof.
  intros Hr Hb Hatt. pose proof (reachable_started _ Hr _ _ Hb Hatt) as Hd. rewrite barriers_drained_spec in Hd. auto.
Qed.
(** And the batches that produce them acknowledged. *)
Lemma required_producers_done d job b name job' b' :
  reachable limits d → batches d !! job = Some b → (1 ≤ b_attempt b)%Z →
  name ∈ b_required_barriers_json b →
  batches d !! job' = Some b' → b_run_id b' = b_run_id b → name ∈ b_produced_barriers_json b' →
  b_status b' = BatchStatus.DONE ∨ (rejected b' = true ∧ run_active d b = false).
Proof.
  intros Hr Hb Hatt Hreq Hb' Hrun Hprod.
  pose proof (reachable_inv _ _ Hr) as Hi.
  destruct (required_drained _ _ _ _ Hr Hb Hatt Hreq) as (bar & Hbar & Hst). destruct (rejected b') eqn:Hrej.
  - right. split; [done|]. destruct (run_active d b) eqn:Ha; [exfalso|done].
    pose proof (row_rejected _ _ (inv_row _ Hi _ _ Hb') Hrej) as Hbl.
    unfold run_active in Ha. rewrite <- Hrun in Ha. pose proof (inv_not_dead _ _ _ Hi Hb' Ha) as Hnd.
    by rewrite Hbl in Hnd.
  - left. eapply (drained_producers d (b_run_id b) name bar job' b'); [by apply reachable_accounted|done..|].
    unfold producer_of, b_in_run. rewrite Hrun, String.eqb_refl, Hrej. simpl.
    rewrite andb_true_r. by apply in_list_elem.
Qed.
End reachable.
