(* ===== verification/Demo.v ===== *)
(** A small concrete journal, evaluated by the kernel: two batches of one run,
    where the relationship batch waits for the barrier of the node batch.  The
    databases it goes through instantiate the theorems of the development. *)
From S2P Require Import Prelude Json PyValue Models Identity Retry Db Manifest ArtifactApi Store Staging Transitions Boundary Admin Steps Invariant Refinement RefinementRuns Journal.

(** Instances for the parameters: a small checksum as digest, and an artifact
    store that maps a payload's path to its rows. *)
Fixpoint checksum (acc : Z) (s : string) : Z :=
  match s with
  | EmptyString => acc
  | String c s => checksum ((acc * 257 + Z.of_nat (Ascii.nat_of_ascii c)) mod 1000003) s
  end.
#[local] Instance demo_sha : Sha256 := λ s, print_int (checksum 7 s).
Definition demo_files : Type := list (string * list json).
#[local] Instance demo_artifacts : ArtifactApi demo_files := {
  art_verify fs ref := match Json.assoc (relative_path ref) fs with Some _ => Ok tt | None => Err OSError end;
  art_read_jsonl fs ref := match Json.assoc (relative_path ref) fs with Some rows => Ok rows | None => Err OSError end;
  art_remove fs ref := (Ok tt, List.filter (λ kv, negb (String.eqb kv.1 (relative_path ref))) fs);
}.

Definition demo_meta : RunMetadata :=
  MkRunMetadata "p" "s" "rev" "snap" "db" "g1" "java" "1" "schema" "q1" [("node", 1%Z)] 1.
Definition demo_run : string := run_id demo_meta.
Definition demo_ref (sha : string) (n : Z) : ArtifactRef :=
  MkArtifactRef sha (demo_run +:+ "/" +:+ sha +:+ ".jsonl") 10 n.
Definition node_op : list (string * json) :=
  [("label", JStr "java-nodes"); ("reconciliation", JStr "node_identity"); ("node_label", JStr "Class");
   ("identity_property", JStr "id"); ("row_identity_property", JStr "id")].
Definition node_spec : BatchSpec :=
  MkBatchSpec OperationPhase.NODES "node" 0 (demo_ref "aa" 3) 3 [] ["nodes"] 2 node_op.
Definition edge_spec : BatchSpec :=
  MkBatchSpec OperationPhase.RELATIONSHIPS "edge" 1 (demo_ref "bb" 1) 1 ["nodes"] [] 2 [].
Definition node_rows : list json :=
  [JObj [("id", JStr "A")]; JObj [("id", JStr "B")]; JObj [("id", JStr "A")]].
Definition demo_fs : demo_files :=
  [(relative_path (demo_ref "aa" 3), node_rows); (relative_path (demo_ref "bb" 1), [JObj [("id", JStr "E")]])].
Definition job_of (spec : BatchSpec) : string :=
  deterministic_job_id (run_fingerprint demo_meta) (bs_phase spec) (bs_operation_key spec)
    (bs_sequence spec) (sha256 (bs_artifact spec)).
Definition at_time (t : Z) (token : string) : env := MkEnv (t * second) (2 ^ 40) token.

Definition run_calls (cs : list (Z * string * call)) (d : db) : db :=
  fold_left (λ d tc, exec default_limits (at_time tc.1.1 tc.1.2) demo_fs tc.2 d) cs d.
(** Up to the lease of the node batch. *)
Definition demo_enqueued : list (Z * string * call) := [
  (1, "", COpenRun demo_meta 10 1000); (2, "", COpenBarrier demo_run "nodes");
  (3, "", CEnqueue demo_run node_spec); (4, "", CEnqueue demo_run edge_spec);
  (5, "", CCloseBarrier demo_run "nodes")]%Z.
Definition demo_leased := demo_enqueued ++ [(6, "t1", CClaim (Some demo_run) 60)]%Z.
Definition demo_acked := demo_leased ++ [(7, "", CAck (job_of node_spec) "t1" None)]%Z.
Definition demo_released := demo_acked ++ [(8, "t2", CClaim (Some demo_run) 60)]%Z.
Definition demo_drained := demo_released ++ [(9, "", CAck (job_of edge_spec) "t2" None);
  (10, "", CCompleteProducers demo_run); (11, "", CSealEndpointAudit demo_run None None None);
  (12, "", CCloseRunProduction demo_run)]%Z.

Lemma run_calls_reachable cs : reachable default_limits (run_calls cs initial).
Proof.
  assert (∀ d, reachable default_limits d → reachable default_limits (run_calls cs d)) as Hr.
  { induction cs as [|tc cs IH]; intros d Hd; [done|]. simpl. apply IH. by apply calls_snoc. }
  apply Hr. constructor.
Qed.

Definition statuses (d : db) : list BatchStatus := map b_status (order_by claim_key (rows (batches d))).
Example demo_1 : statuses (run_calls demo_leased initial) = [BatchStatus.LEASED; BatchStatus.PENDING].
Proof. vm_compute. reflexivity. Qed.
Example demo_2 : statuses (run_calls demo_released initial) = [BatchStatus.DONE; BatchStatus.LEASED].
Proof. vm_compute. reflexivity. Qed.
Example demo_3 : r_status <$> runs (run_calls demo_drained initial) !! demo_run = Some RunStatus.DRAINED.
Proof. vm_compute. reflexivity. Qed.
