(* ===== verification/Payloads.v ===== *)
(** The payload files as the journal store sees them: the implementation of
    the [ArtifactApi] interface, the law it promises, and the guarantees of
    writing, reading back and refusing payloads. *)
From S2P Require Import Prelude Json Text PyValue Models Identity Db Manifest ArtifactApi Store Artifacts ArtifactSafety Jsonl Demo.

(** A host on which no system call fails. *)
Definition faultless (h : host) : Prop := ∀ n, h_fault h n = None.

Section io.
Context `{Sha256} (h : host).
Lemma touch_faultless v : faultless h → (touch_host h v).1 = Ok () ∧ vol_files (touch_host h v).2 = vol_files v.
Proof. intros Hh. unfold touch_host, syscall. by rewrite Hh. Qed.
Lemma read_file_faultless p v : faultless h →
  (read_file h p v).1 = match vol_files v !! p with Some s => Ok s | None => Err (Os EOTHER) end
  ∧ vol_files (read_file h p v).2 = vol_files v.
Proof.
  intros Hh. unfold read_file, mbind, io_bind, touch_host, syscall, io_get. rewrite Hh. simpl.
  by destruct (vol_files v !! p).
Qed.

Context (root : path).
(** What [verify] decides, when no call fails. *)
Lemma verify_faultless ref p v : faultless h → path_for root ref = Ok p →
  (verify h root ref v).1 = match vol_files v !! p with
    | None => Err (Raised (_translate_os_error EOTHER))
    | Some s => match verify_content ref s with Ok _ => Ok p | Err e => Err (Raised e) end
    end ∧ vol_files (verify h root ref v).2 = vol_files v.
Proof.
  intros Hh Hp. unfold verify. rewrite Hp. unfold mbind, io_bind, io_lift, translating.
  destruct (read_file_faultless p v Hh) as [Hr Hf]. destruct (read_file h p v) as [r v']. simpl in Hr, Hf. subst r.
  destruct (vol_files v !! p) as [s|]; [|done]. by destruct (verify_content ref s).
Qed.
(** What [read_jsonl] returns, when no call fails. *)
Definition read_result (ref : ArtifactRef) (content : option string) : result failure (list json) :=
  match content with
  | None => Err (Raised (_translate_os_error EOTHER))
  | Some s =>
      match verify_content ref s ≫= λ _, decode_rows s with
      | Err e => Err (Raised e)
      | Ok rows => if negb (Z.of_nat (length rows) =? row_count ref)%Z then Err (Raised hash_mismatch) else Ok rows
      end
  end.
Lemma read_jsonl_faultless ref p v : faultless h → path_for root ref = Ok p →
  (read_jsonl h root ref v).1 = read_result ref (vol_files v !! p) ∧ vol_files (read_jsonl h root ref v).2 = vol_files v.
Proof.
  intros Hh Hp. unfold read_jsonl, read_result, mbind, io_bind.
  destruct (verify_faultless ref p v Hh Hp) as [Hr Hf]. destruct (verify h root ref v) as [r v1]. simpl in Hr, Hf. subst r.
  destruct (vol_files v !! p) as [s|] eqn:Es; [|done]. cbn [result_bind].
  destruct (verify_content ref s) as [[]|e]; [|done]. unfold translating, io_lift, io_raise, mret, io_ret.
  destruct (read_file_faultless p v1 Hh) as [Hr Hf']. destruct (read_file h p v1) as [r v2]. simpl in Hr, Hf'.
  rewrite Hf, Es in Hr. subst r. rewrite Hf in Hf'.
  destruct (decode_rows s) as [rows|e]; [|done]. cbn [mbind result_bind]. by destruct (negb _).
Qed.
Lemma read_jsonl_verified ref v rows : (read_jsonl h root ref v).1 = Ok rows →
  is_ok (verify h root ref v).1 = true ∧ Z.of_nat (length rows) = row_count ref.
Proof.
  unfold read_jsonl, mbind, io_bind. destruct (verify h root ref v) as [[p|e] v1]; [|done].
  unfold translating, io_lift, io_raise, mret, io_ret. destruct (read_file h p v1) as [[s|[e|e]] v2]; try done.
  destruct (decode_rows s) as [rows'|e]; [|done]. destruct (_ =? _)%Z eqn:E; [|done]. simpl. intros [= <-].
  split; [done|]. by apply Z.eqb_eq.
Qed.
End io.

(** * The interface *)

(** An [ArtifactStore] object over a volume, and the host it runs on. *)
Record artifact_files := MkArtifactFiles {
  af_host : host; af_root : path; af_max_bytes : Z; af_min_free : Z; af_volume : volume;
}.
(** A failure as the caller sees it: every system call is under a handler, so
    none escapes as [OSError]. *)
Definition seen_failure {A} (r : result failure A) : res A :=
  match r with Ok a => Ok a | Err (Raised e) => Err e | Err (Os _) => Err OSError end.
#[export] Instance artifact_files_api `{Sha256} : ArtifactApi artifact_files := {
  art_verify fs ref := _ ← seen_failure (verify (af_host fs) (af_root fs) ref (af_volume fs)).1; Ok ();
  art_read_jsonl fs ref := seen_failure (read_jsonl (af_host fs) (af_root fs) ref (af_volume fs)).1;
  art_remove fs ref :=
    let '(r, v) := remove (af_host fs) (af_root fs) ref (af_volume fs) in
    (seen_failure r, MkArtifactFiles (af_host fs) (af_root fs) (af_max_bytes fs) (af_min_free fs) v);
}.
#[export] Instance artifact_files_writer `{Sha256} : ArtifactWriter artifact_files := λ fs run rows,
  let '(r, v) := write_jsonl (af_host fs) (af_root fs) (af_max_bytes fs) (af_min_free fs) run rows (af_volume fs) in
  (seen_failure r, MkArtifactFiles (af_host fs) (af_root fs) (af_max_bytes fs) (af_min_free fs) v).
#[export] Instance artifact_files_laws `{Sha256} : ArtifactLaws artifact_files.
Proof.
  constructor. intros fs ref rows. unfold art_read_jsonl, art_verify, artifact_files_api.
  destruct (read_jsonl _ _ _ _).1 as [rows'|[e|e]] eqn:E; try done. intros [= ->].
  apply read_jsonl_verified in E as [Hv Hn]. split; [|done]. by destruct (verify _ _ _ _).1.
Qed.

(** * Guarantees *)

Section guarantees.
Context `{Sha256} (h : host) (root : path) (max_bytes min_free : Z).
Context (Hhex : ∀ s, no_slash (sha256_hex s) = true).

(** C13: While write_jsonl or write_bytes runs, and wherever a crash or a failing
    system call cuts it, every file but the temporary one is as it was, except
    that the target, absent before, may have appeared with the whole payload:
    no reader ever sees part of a payload, and no payload is overwritten. *)
Theorem write_is_atomic (run payload : string) (rows : list json) (count : Z) (files seen : tree) (calls : nat) :
  (let v := (write_jsonl h root max_bytes min_free run rows (MkVolume files calls [])).2 in
   seen ∈ vol_files v :: vol_seen v →
   only_adds (temp_of h run) (target_of run (payload_of rows)) (payload_of rows) files seen) ∧
  (let v := (write_bytes h root max_bytes min_free run payload count (MkVolume files calls [])).2 in
   seen ∈ vol_files v :: vol_seen v →
   only_adds (bytes_temp h run payload) (target_of run payload) payload files seen).
Proof.
  split.
  - destruct (runs_write_jsonl h root max_bytes min_free Hhex run rows (MkVolume files calls [])) as (Hf & Hs & _);
      [apply only_adds_refl|constructor|]. cbv zeta.
    intros [->|Hin]%elem_of_cons; [exact Hf|]. by eapply Forall_forall in Hs.
  - destruct (runs_write_bytes h root max_bytes min_free Hhex run payload count (MkVolume files calls [])) as (Hf & Hs & _);
      [apply only_adds_refl|constructor|]. cbv zeta.
    intros [->|Hin]%elem_of_cons; [exact Hf|]. by eapply Forall_forall in Hs.
Qed.

(** The rows that write_jsonl accepted, whatever failed on the way, are what
    read_jsonl returns for its reference, with the keys of their objects
    sorted, and the reference has the form enqueue_batch demands; the digest
    is assumed not to collide with the one file the target may already hold. *)
Theorem written_rows_read_back (run : string) (rows : list json) (files : tree) (calls : nat) (ref : ArtifactRef)
    (v : volume) (reader : host) :
  write_jsonl h root max_bytes min_free run rows (MkVolume files calls []) = (Ok ref, v) →
  forallb json_wf rows = true →
  (∀ s, files !! target_of run (payload_of rows) = Some s →
    sha256_hex s = sha256_hex (payload_of rows) → s = payload_of rows) →
  faultless reader →
  (read_jsonl reader root ref v).1 = Ok (map sort_keys rows)
  ∧ posix_parts (relative_path ref) = [run; sha256 ref +:+ ".jsonl"]
  ∧ row_count ref = Z.of_nat (length rows).
Proof.
  intros Hw Hwf Hfree Hq.
  destruct (runs_write_jsonl h root max_bytes min_free Hhex run rows (MkVolume files calls [])) as (Hf & _ & HQ);
    [apply only_adds_refl|constructor|]. rewrite Hw in Hf, HQ. cbn [fst snd] in Hf, HQ.
  destruct HQ as [-> [Hrun (s & Hs & Hver)]].
  assert (s = payload_of rows) as ->.
  { assert (target_of run (payload_of rows) ≠ temp_of h run) as Hne by (by apply not_eq_sym, temp_target).
    cbn [vol_files] in Hf. destruct (Hf _ Hne) as [Heq|(_ & _ & Heq)]; rewrite Hs in Heq.
    - apply Hfree; [done|]. revert Hver. unfold verify_content, ref_of. cbn [byte_count sha256].
      destruct (_ || _) eqn:E; [done|]. intros _. apply orb_false_iff in E as [_ E]. apply negb_false_iff in E.
      by apply String.eqb_eq in E.
    - congruence. }
  split; [|split; [by apply relative_parts|done]].
  destruct (read_jsonl_faultless reader root (ref_of run (payload_of rows) (Z.of_nat (length rows)))
    (target_of run (payload_of rows)) v Hq) as [-> _]; [by apply path_for_relative|].
  unfold read_result. rewrite Hs, Hver. cbn [mbind result_bind]. rewrite decode_payload by done.
  rewrite length_map. unfold ref_of. cbn [row_count]. by rewrite Z.eqb_refl.
Qed.

(** A payload that is not the one its reference names is never returned: a
    reference out of the root is refused as unsafe, a missing file as an
    invalid contract, a file of another size or digest as a hash mismatch; the
    files are left as they are. *)
Theorem tampered_payload_refused (ref : ArtifactRef) (v : volume) :
  faultless h →
  match path_for root ref with
  | Err e => e = unsafe_placement ∧ read_jsonl h root ref v = (Err (Raised e), v)
  | Ok p =>
      vol_files (read_jsonl h root ref v).2 = vol_files v ∧
      match vol_files v !! p with
      | None => (read_jsonl h root ref v).1 = Err (Raised (JournalError TerminalErrorCode.INVALID_CONTRACT))
      | Some s =>
          (Z.of_nat (String.length s) ≠ byte_count ref ∨ sha256_hex s ≠ sha256 ref →
            (read_jsonl h root ref v).1 = Err (Raised (JournalError TerminalErrorCode.ARTIFACT_HASH_MISMATCH)))
          ∧ ∀ rows, (read_jsonl h root ref v).1 = Ok rows →
              sha256_hex s = sha256 ref ∧ decode_rows s = Ok rows ∧ Z.of_nat (length rows) = row_count ref
      end
  end.
Proof.
  intros Hq. destruct (path_for root ref) as [p|e] eqn:Ep.
  2: { split; [|by unfold read_jsonl, verify, mbind, io_bind, io_lift; rewrite Ep].
       revert Ep. unfold path_for. destruct (below _ _); by intros [=]. }
  destruct (read_jsonl_faultless h root ref p v Hq Ep) as [-> ->]. split; [done|].
  destruct (vol_files v !! p) as [s|]; [|done]. unfold read_result, verify_content.
  destruct (Z.of_nat (String.length s) =? byte_count ref)%Z eqn:Eb, (String.eqb (sha256_hex s) (sha256 ref)) eqn:Es;
    cbn [negb orb mbind result_bind].
  2-4: split; [done|by intros].
  apply Z.eqb_eq in Eb. apply String.eqb_eq in Es. split; [by intros [?|?]|].
  destruct (decode_rows s) as [rows'|e]; [|done]. destruct (_ =? _)%Z eqn:En; [|done]. cbn [negb].
  intros rows [= <-]. split_and!; [done..|by apply Z.eqb_eq].
Qed.
End guarantees.

(** * Witnesses: a small volume, evaluated *)

#[local] Existing Instance demo_sha.
Definition full_disk : host := MkHost (λ n, if (n =? 5)%nat then Some ENOSPC else None) (λ _, 3%nat) (2 ^ 40) "7.a1".
Definition plain_host : host := MkHost (λ _, None) (λ _, 0%nat) (2 ^ 40) "7.a1".
Definition sample_rows : list json := [JObj [("id", JStr "B"); ("a", JInt 1)]; JObj [("id", JStr "A")]].
Lemma demo_sha_plain s : no_slash (sha256_hex s) = true.
Proof.
  unfold sha256_hex, demo_sha. apply (all_chars_impl is_int_char); [|apply print_int_chars].
  intros [[] [] [] [] [] [] [] []] Hc; first [discriminate Hc|reflexivity].
Qed.
Definition torn_write : volume := (write_jsonl full_disk [] (2 ^ 20) 0 "r1" sample_rows (MkVolume ∅ 0 [])).2.
(** The second row does not fit: three bytes of it are seen in the temporary
    file, which is then removed. *)
Example torn_write_seen :
  (λ f, f !! temp_of full_disk "r1") <$> vol_seen torn_write =
  [None; Some (encode_row (JObj [("a", JInt 1); ("id", JStr "B")]) +:+ take 3 (encode_row (JObj [("id", JStr "A")])));
   Some (encode_row (JObj [("a", JInt 1); ("id", JStr "B")])); Some ""; None; None; None].
Proof. vm_compute. reflexivity. Qed.

Lemma torn_write_partial : ∃ seen, seen ∈ vol_seen torn_write ∧
  seen !! temp_of full_disk "r1" = Some (encode_row (JObj [("a", JInt 1); ("id", JStr "B")])).
Proof.
  assert (Some (encode_row (JObj [("a", JInt 1); ("id", JStr "B")])) ∈
    (λ f : tree, f !! temp_of full_disk "r1") <$> vol_seen torn_write) as Hin by (rewrite torn_write_seen; do 2 right; left).
  apply list_elem_of_fmap in Hin as (f & Hf & Hin). by exists f.
Qed.
Lemma write_is_atomic_witness :
  ∃ seen, seen ∈ vol_seen torn_write ∧ seen !! temp_of full_disk "r1" ≠ None ∧
    only_adds (temp_of full_disk "r1") (target_of "r1" (payload_of sample_rows)) (payload_of sample_rows) ∅ seen.
Proof.
  destruct torn_write_partial as (seen & Hin & Hseen). exists seen. split; [exact Hin|]. split; [by rewrite Hseen|].
  apply (write_is_atomic full_disk [] (2 ^ 20) 0 demo_sha_plain "r1" "" sample_rows 0 ∅ seen 0).
  fold torn_write. right. exact Hin.
Defined.

Definition written : result failure ArtifactRef * volume :=
  write_jsonl plain_host [] (2 ^ 20) 0 "r1" sample_rows (MkVolume ∅ 0 []).
Definition sample_ref : ArtifactRef := ref_of "r1" (payload_of sample_rows) 2.
Lemma written_sample : written.1 = Ok sample_ref.
Proof. vm_compute. reflexivity. Qed.
Lemma written_rows_read_back_witness :
  written.1 = Ok sample_ref ∧ (read_jsonl plain_host [] sample_ref written.2).1 = Ok (map sort_keys sample_rows).
Proof.
  split; [exact written_sample|]. pose proof written_sample as Hw.
  refine (proj1 (written_rows_read_back plain_host [] (2 ^ 20) 0 demo_sha_plain "r1" sample_rows ∅ 0 sample_ref written.2
    plain_host _ _ _ _)).
  - fold written. destruct written as [r v]. simpl in Hw. by subst r.
  - vm_compute. reflexivity.
  - intros s. rewrite lookup_empty. discriminate.
  - intros n. reflexivity.
Defined.
Lemma tampered_payload_refused_witness :
  (read_jsonl plain_host [] sample_ref (MkVolume {[target_of "r1" (payload_of sample_rows) := "tampered"]} 0 [])).1
  = Err (Raised (JournalError TerminalErrorCode.ARTIFACT_HASH_MISMATCH)).
Proof.
  pose proof (tampered_payload_refused plain_host [] sample_ref
    (MkVolume {[target_of "r1" (payload_of sample_rows) := "tampered"]} 0 []) (λ n, eq_refl)) as Ht.
  assert (path_for [] sample_ref = Ok (target_of "r1" (payload_of sample_rows))) as Hp by (vm_compute; reflexivity).
  rewrite Hp in Ht. destruct Ht as [_ Ht]. cbn [vol_files] in Ht. rewrite lookup_singleton_eq in Ht.
  apply Ht. left. vm_compute. discriminate.
Defined.
