(* ===== verification/Producers.v ===== *)
(** What a producer of the journal can rely on: it changes the journal only by
    its calls, its relationships are executed after the nodes they join, and in
    a node-first run after every node batch and the endpoint audit.  A small
    producer is evaluated at the end. *)
From S2P Require Import Prelude Json Text PyValue Models Identity Schema Operation Retry Db Manifest ArtifactApi Store Artifacts Executor Guard Staging Transitions Boundary Admin Config Steps Invariant Barriers Conservation Refinement RefinementRuns Behaviour Effects Journal Session Clients Consumer Runtime Ordering Reachable Demo Payloads.

Section producers.
Context `{Sha256} {FS : Type} `{!ArtifactApi FS} `{!ArtifactWriter FS}.
Context (config : JournalConfig) (supply : nat → env) (jitter : Z → Z) (run : RunRecord).
Abbreviation runtime_session := (session (producer FS)).
Abbreviation calling := (client (FS:=FS) (W:=producer FS) (runtime_limits config)).
Abbreviation known_nodes s := (pd_barriers (ss_graph s)).
Abbreviation project := (project_id (rr_metadata run)).

Lemma endpoint_keys_no_node o row key : key ∈ endpoint_keys project o row → node_contract o = None.
Proof.
  unfold endpoint_keys, node_contract. cbv zeta. intros Hin.
  destruct (go_node_label o), (go_identity_property o); try done.
  destruct (String.eqb (go_reconciliation o) "node_identity") eqn:E; [|done]. apply String.eqb_eq in E.
  rewrite E in Hin. by apply not_elem_of_nil in Hin.
Qed.
Lemma node_barrier_visible label seq sha : is_empty (node_barrier label seq sha) = false.
Proof. done. Qed.
Lemma dependency_required first o rows seq sha known required produced known' row key bar :
  _barrier_contract project first o rows seq sha known = (required, produced, known') →
  row ∈ rows → key ∈ endpoint_keys project o row → known !! key = Some bar → is_empty bar = false →
  bar ∈ required.
Proof.
  intros Hc Hrow Hkey Hk Hne. unfold _barrier_contract in Hc. rewrite (endpoint_keys_no_node _ _ _ Hkey) in Hc.
  assert (bar ∈ dependencies known (List.concat (map (endpoint_keys project o) rows))) as Hin.
  { apply list_elem_of_omap. exists key. split; [|by rewrite Hk; simpl; rewrite Hne].
    apply list_elem_of_In, in_concat. exists (endpoint_keys project o row).
    split; [apply in_map|]; by apply list_elem_of_In. }
  destruct first; [destruct (bool_decide _)|]; injection Hc as <- <- <-; apply elem_of_sorted_set; try done.
  apply elem_of_app. by left.
Qed.

(** The row of a batch that [prepare] stored anew, in any later database. *)
Lemma prepared_row label rows seq op extra defer t s s' d' b : inv (ss_db s) →
  prepare config supply run label rows seq op extra defer s = (Ok t, s') →
  batches (ss_db s) !! br_job_id (tk_batch t) = None →
  calls (FS:=FS) (runtime_limits config) (λ c, is_purge c = false) (ss_db s') d' →
  batches d' !! br_job_id (tk_batch t) = Some b →
  ∃ o sha required produced known, match op with Some o => Ok o | None => for_label label end = Ok o ∧
    _barrier_contract project (runtime_node_first config) o rows seq sha (known_nodes s) = (required, produced, known) ∧
    b_run_id b = self_run run ∧ b_required_barriers_json b = sorted_set (required ++ extra).
Proof.
  intros Hi Hp Hnew Hc Hb. pose proof (prepare_ok config supply run label rows seq op extra defer s Hi) as Hpost.
  pose proof (keeps_prepare config supply run label rows seq op extra defer s) as Hk.
  unfold ok_post, sp in Hpost. rewrite Hp in Hpost, Hk. cbn [fst snd] in Hpost, Hk.
  destruct Hpost as (o & Ho & art & fs' & fp & required & produced & row & row' & Hart & Hcon & Hjob & Hrow & Hfix & Hold).
  destruct Hold as [Hold|(_ & Hrun & Hreq & _)]; [congruence|].
  destruct (client_contract _ _ _ _ _ (client_inv _ _ _ Hi Hk) Hc Hrow) as (b' & Hb' & Hfix').
  rewrite Hb in Hb'. injection Hb' as <-. unfold fixed_columns in *. simplify_eq.
  exists o, (sha256 art), required, produced, (known_nodes s'). split_and!; congruence.
Qed.

(** C14: Relationships wait for the nodes they join. Take a runtime whose prepares
    so far all returned and, where they found the job of a node batch already
    stored, found it in the run and producing the same node barrier ([history]).
    When it then prepares relationship, call, file or evidence rows whose batch
    was not in the journal before, and knows the node of an endpoint of one of
    them, then in every database that calls other than a purge reach from there,
    once that batch has been leased, a batch that carries that node is
    acknowledged, or had its rows rejected and the run is no longer active. *)
Theorem relationships_wait_for_nodes label rows seq op extra defer t s s' o row key bar d' b :
  history config supply run s →
  prepare config supply run label rows seq op extra defer s = (Ok t, s') →
  batches (ss_db s) !! br_job_id (tk_batch t) = None →
  match op with Some o => Ok o | None => for_label label end = Ok o →
  row ∈ rows → key ∈ endpoint_keys project o row → known_nodes s !! key = Some bar →
  calls (FS:=FS) (runtime_limits config) (λ c, is_purge c = false) (ss_db s') d' →
  batches d' !! br_job_id (tk_batch t) = Some b → (1 ≤ b_attempt b)%Z →
  ∃ job bn, batches d' !! job = Some bn ∧ carries run job key bar ∧
    (b_status bn = BatchStatus.DONE ∨ (rejected bn = true ∧ run_active d' b = false)).
Proof.
  intros Hh Hp Hnew Ho Hrow Hkey Hbar Hc Hb Hatt. pose proof (history_reachable _ _ _ _ Hh) as Hre.
  pose proof (reachable_inv _ _ Hre) as Hi.
  pose proof (keeps_prepare config supply run label rows seq op extra defer s) as Hk. rewrite Hp in Hk. cbn [snd] in Hk.
  assert (calls (FS:=FS) (runtime_limits config) (λ c, is_purge c = false) (ss_db s) d') as Hall by (by eapply client_calls_trans).
  destruct (prepared_row _ _ _ _ _ _ _ _ _ _ _ Hi Hp Hnew Hc Hb) as (o' & sha & required & produced & known & Ho' & Hcon & Hrun & Hreq).
  rewrite Ho in Ho'. injection Ho' as <-.
  destruct (history_registered _ _ _ _ Hh key bar Hbar) as (job & b1 & Hb1 & Hrun1 & Hprod & Hcar).
  destruct (client_contract _ _ _ _ _ Hi Hall Hb1) as (bn & Hbn & Hfix). unfold fixed_columns in Hfix. simplify_eq.
  exists job, bn. split; [done|split; [done|]]. eapply (required_producers_done _ d'); [by eapply client_reachable|done..| |done| |].
  - rewrite Hreq. apply elem_of_sorted_set, elem_of_app. left. eapply dependency_required; try done.
    destruct Hcar as (? & ? & ? & ? & ? & ? & ? & ? & ? & _ & _ & _ & _ & _ & ->). apply node_barrier_visible.
  - congruence.
  - congruence.
Qed.

(** Node-first runs. In a run whose query shape is node-first, a batch that
    prepare stored for anything but nodes is leased, in any later database,
    only once the endpoint audit barrier is drained and every batch that
    produces the node-phase barrier is acknowledged (or its rows were rejected
    and the run is no longer active); and every node batch produces it. *)
Theorem node_first_waits label rows seq op extra defer t s s' o d' b :
  runtime_node_first config = true → reachable (FS:=FS) (runtime_limits config) (ss_db s) →
  prepare config supply run label rows seq op extra defer s = (Ok t, s') →
  batches (ss_db s) !! br_job_id (tk_batch t) = None →
  match op with Some o => Ok o | None => for_label label end = Ok o → go_phase o ≠ OperationPhase.NODES →
  calls (FS:=FS) (runtime_limits config) (λ c, is_purge c = false) (ss_db s') d' →
  batches d' !! br_job_id (tk_batch t) = Some b → (1 ≤ b_attempt b)%Z →
  (∃ bar, barriers d' !! (self_run run, ENDPOINT_AUDIT_BARRIER) = Some bar ∧ br_stat bar = BarrierStatus.DRAINED) ∧
  (∀ job bn, batches d' !! job = Some bn → b_run_id bn = self_run run → NODE_PHASE_BARRIER ∈ b_produced_barriers_json bn →
    b_status bn = BatchStatus.DONE ∨ (rejected bn = true ∧ run_active d' b = false)) ∧
  (∀ on rowsn seqn sha known required produced known', go_phase on = OperationPhase.NODES →
    _barrier_contract project (runtime_node_first config) on rowsn seqn sha known = (required, produced, known') →
    NODE_PHASE_BARRIER ∈ produced).
Proof.
  intros Hfirst Hre Hp Hnew Ho Hphase Hc Hb Hatt. pose proof (reachable_inv _ _ Hre) as Hi.
  pose proof (keeps_prepare config supply run label rows seq op extra defer s) as Hk. rewrite Hp in Hk. cbn [snd] in Hk.
  assert (reachable (FS:=FS) (runtime_limits config) d') as Hre'
    by (eapply client_reachable; [exact Hre|]; by eapply client_calls_trans).
  destruct (prepared_row _ _ _ _ _ _ _ _ _ _ _ Hi Hp Hnew Hc Hb) as (o' & sha & required & produced & known & Ho' & Hcon & Hrun & Hreq).
  rewrite Ho in Ho'. injection Ho' as <-.
  assert (∀ name, name ∈ [NODE_PHASE_BARRIER; ENDPOINT_AUDIT_BARRIER] → name ∈ b_required_barriers_json b) as Hboth.
  { intros name Hin. rewrite Hreq. apply elem_of_sorted_set, elem_of_app. left. unfold _barrier_contract in Hcon.
    rewrite Hfirst, (bool_decide_eq_false_2 _ Hphase) in Hcon.
    destruct (node_contract o); injection Hcon as <- _ _; apply elem_of_sorted_set; [done|]. apply elem_of_app. by right. }
  split_and!.
  - rewrite <- Hrun. eapply required_drained; [done..|]. apply Hboth. right. left.
  - intros job bn Hbn Hrn Hpn. eapply (required_producers_done _ d'); [done..| |done|congruence|done]. apply Hboth. left.
  - intros on rowsn seqn shan knownn reqn prodn known' Hph. unfold _barrier_contract. rewrite Hfirst, (bool_decide_eq_true_2 _ Hph).
    destruct (node_contract on); intros [= _ <- _]; apply elem_of_sorted_set; [right|]; left.
Qed.

(** The runtime is a client of the journal: whatever its methods return or
    raise, they change the journal only through its public calls, and never
    purge, so everything proved of reachable journals holds after them. *)
Theorem runtime_is_client (s : runtime_session) :
  (∀ label rows seq op extra defer, calling s (prepare config supply run label rows seq op extra defer s).2) ∧
  (∀ t, calling s (claim_deferred config supply t s).2) ∧
  (∀ t applied, calling s (resolve_reconciliation config supply t applied s).2) ∧
  (∀ t e, calling s (defer_reconciliation_error config supply jitter t e s).2) ∧
  (∀ t n el, calling s (acknowledge config supply t n el s).2) ∧
  (∀ t, calling s (block_integrity config supply t s).2) ∧
  (∀ t, calling s (renew config supply t s).2) ∧
  (∀ t, calling s (mark_ambiguous supply t s).2) ∧
  calling s (close_node_production config supply run s).2 ∧
  calling s (open_runtime config supply s).2.
Proof.
  split_and!; intros; [apply keeps_prepare|apply keeps_claim_deferred|apply keeps_resolve|apply keeps_defer_error|
    apply keeps_acknowledge|apply keeps_block_integrity|apply keeps_renew|apply keeps_mark_ambiguous|
    apply keeps_close_nodes|apply keeps_open_runtime].
Qed.
End producers.

(** * A small producer, over payload files *)

#[local] Existing Instance demo_sha.
Definition producer_meta : RunMetadata :=
  MkRunMetadata "P" "s" "rev" "snap" "db" "g1" "java" "1" "schema" "language-writer-v1" [("graph-write", 1%Z)] 1.
Definition producer_config : JournalConfig :=
  MkJournalConfig "required" "/journal" producer_meta default_limits true 60 5 1 60.
Definition producer_supply (tick : nat) : env := at_time (10 + Z.of_nat tick) ("token" +:+ print_int (Z.of_nat tick)).
Definition producer_start : session (producer artifact_files) :=
  MkSession initial (MkProducerState (MkArtifactFiles plain_host [] (2 ^ 20) 0 (MkVolume ∅ 0 [])) ∅) 0.
Definition opened := open_runtime producer_config producer_supply producer_start.
Definition no_run : RunRecord := MkRunRecord "" "" producer_meta RunStatus.FAILED 0 0 0 None.
Definition producer_run : RunRecord := match opened.1 with Ok r => r | Err _ => no_run end.
Definition node_rows_of : list dict := [[("id", JStr "A")]; [("id", JStr "B")]].
Definition relation_row : dict :=
  [("source_label", JStr "Function"); ("source_id", JStr "A"); ("target_label", JStr "Function");
   ("target_id", JStr "B"); ("rel_type", JStr "CALLS")].
Definition nodes_prepared :=
  prepare producer_config producer_supply producer_run "functions" node_rows_of 0 None [] false opened.2.
Definition no_ticket : JournalTicket :=
  MkTicket (_batch_from_row (new_batch "" "" node_spec 0)) false (operation "" OperationPhase.NODES) [] false.
Definition ticket_of (r : res JournalTicket) : JournalTicket := match r with Ok t => t | Err _ => no_ticket end.
Definition nodes_ticket : JournalTicket := ticket_of nodes_prepared.1.
Definition acknowledged := acknowledge producer_config producer_supply nodes_ticket 2 5 nodes_prepared.2.
Definition relations_prepared :=
  prepare producer_config producer_supply producer_run "relations:calls" [relation_row] 1 None [] false acknowledged.2.
Definition relations_ticket : JournalTicket := ticket_of relations_prepared.1.
Example producer_runs : opened.1 = Ok producer_run ∧ tk_execute nodes_ticket = true ∧ acknowledged.1 = Ok () ∧
  tk_execute relations_ticket = true ∧ statuses (ss_db relations_prepared.2) = [BatchStatus.DONE; BatchStatus.LEASED].
Proof. vm_compute. done. Qed.

(** * Witnesses *)

(** The steps of the example are compared by their names. *)
#[local] Strategy expand [opened nodes_prepared acknowledged relations_prepared].

Lemma ticket_pair {W : Type} (p : res JournalTicket * session W) : is_ok p.1 = true → p = (Ok (ticket_of p.1), p.2).
Proof. by destruct p as [[t|e] s]. Qed.
Lemma nodes_prepared_ok :
  prepare producer_config producer_supply producer_run "functions" node_rows_of 0 None [] false opened.2
  = (Ok nodes_ticket, nodes_prepared.2).
Proof. apply (ticket_pair nodes_prepared). vm_compute. reflexivity. Qed.
Lemma relations_prepared_ok :
  prepare producer_config producer_supply producer_run "relations:calls" [relation_row] 1 None [] false acknowledged.2
  = (Ok relations_ticket, relations_prepared.2).
Proof. apply (ticket_pair relations_prepared). vm_compute. reflexivity. Qed.
Lemma opened_empty : batches (ss_db opened.2) = ∅.
Proof. vm_compute. reflexivity. Qed.
Lemma opened_reachable : reachable (FS:=artifact_files) default_limits (ss_db opened.2).
Proof.
  eapply client_reachable; [|exact (keeps_open_runtime producer_config producer_supply producer_start)]. constructor.
Qed.
Lemma acknowledged_history : history producer_config producer_supply producer_run acknowledged.2.
Proof.
  assert (history producer_config producer_supply producer_run nodes_prepared.2) as Hn.
  { refine (hist_prepare _ _ _ "functions" node_rows_of 0 None [] false nodes_ticket opened.2 _ _ nodes_prepared_ok _).
    - apply hist_start; [exact opened_reachable|vm_compute; reflexivity].
    - rewrite opened_empty. intros row. by rewrite lookup_empty. }
  refine (hist_clients _ _ _ nodes_prepared.2 acknowledged.2 Hn _ _).
  - exact (keeps_acknowledge producer_config producer_supply nodes_ticket 2 5 nodes_prepared.2).
  - exact (same_graph_known _ _ (acknowledge_same_graph producer_config producer_supply nodes_ticket 2 5 nodes_prepared.2)).
Qed.
Definition relation_op : GraphWriteOperation :=
  match for_label "relations:calls" with Ok o => o | Err _ => operation "" OperationPhase.NODES end.
Definition source_key : node_key :=
  described_endpoint (row_scope "P" relation_row) relation_row "source_label" "source_property" "source_id".
Definition source_barrier : string := default "" (pd_barriers (ss_graph acknowledged.2) !! source_key).
Definition relations_batch : batch_row :=
  default (new_batch "" "" node_spec 0) (batches (ss_db relations_prepared.2) !! br_job_id (tk_batch relations_ticket)).
Lemma relations_new : batches (ss_db acknowledged.2) !! br_job_id (tk_batch relations_ticket) = None.
Proof. vm_compute. reflexivity. Qed.
Lemma relations_stored :
  batches (ss_db relations_prepared.2) !! br_job_id (tk_batch relations_ticket) = Some relations_batch.
Proof. vm_compute. reflexivity. Qed.
Lemma relations_leased : (1 ≤ b_attempt relations_batch)%Z.
Proof. vm_compute. discriminate. Qed.
Lemma source_known : pd_barriers (ss_graph acknowledged.2) !! source_key = Some source_barrier.
Proof. vm_compute. reflexivity. Qed.
Lemma relationships_wait_for_nodes_witness :
  ∃ job bn, batches (ss_db relations_prepared.2) !! job = Some bn ∧ carries producer_run job source_key source_barrier ∧
    (b_status bn = BatchStatus.DONE ∨ (rejected bn = true ∧ run_active (ss_db relations_prepared.2) relations_batch = false)).
Proof.
  apply (relationships_wait_for_nodes producer_config producer_supply producer_run "relations:calls" [relation_row] 1 None [] false
    relations_ticket acknowledged.2 relations_prepared.2 relation_op relation_row source_key source_barrier
    (ss_db relations_prepared.2) relations_batch acknowledged_history relations_prepared_ok relations_new).
  - vm_compute. reflexivity.
  - left.
  - left.
  - exact source_known.
  - constructor.
  - exact relations_stored.
  - exact relations_leased.
Defined.

(** The same producer in a node-first run: the relationships are deferred until
    the nodes are done and the endpoint audit is sealed. *)
Definition first_meta : RunMetadata := producer_meta <| query_shape_version := "language-writer-node-first-v1" |>.
Definition first_config : JournalConfig := 
  MkJournalConfig "required" "/journal" first_meta default_limits true 60 5 1 60.
Definition first_opened := open_runtime first_config producer_supply producer_start.
Definition first_run : RunRecord := match first_opened.1 with Ok r => r | Err _ => no_run end.
Definition first_nodes :=
  prepare first_config producer_supply first_run "functions" node_rows_of 0 None [] false first_opened.2.
Definition first_acknowledged := acknowledge first_config producer_supply (ticket_of first_nodes.1) 2 5 first_nodes.2.
Definition first_relations :=
  prepare first_config producer_supply first_run "relations:calls" [relation_row] 1 None [] false first_acknowledged.2.
Definition first_ticket : JournalTicket := ticket_of first_relations.1.
Definition first_closed := close_node_production first_config producer_supply first_run first_relations.2.
Definition first_files : artifact_files := pd_files (ss_graph first_closed.2).
Definition first_sealed : session (producer artifact_files) :=
  let id := rr_run_id first_run in
  let d := exec default_limits (at_time 30 "") first_files (CSealEndpointAudit id None None (Some 1%Z)) (ss_db first_closed.2) in
  MkSession (exec default_limits (at_time 31 "") first_files (CCloseBarrier id ENDPOINT_AUDIT_BARRIER) d)
    (ss_graph first_closed.2) (ss_tick first_closed.2).
Definition first_claimed := claim_deferred first_config producer_supply first_ticket first_sealed.
Example first_runs : tk_execute first_ticket = false ∧ first_closed.1 = Ok () ∧
  tk_execute (ticket_of first_claimed.1) = true ∧ statuses (ss_db first_claimed.2) = [BatchStatus.DONE; BatchStatus.LEASED].
Proof. vm_compute. done. Qed.

#[local] Strategy expand [first_opened first_nodes first_acknowledged first_relations first_closed first_sealed first_claimed].
Lemma first_relations_ok :
  prepare first_config producer_supply first_run "relations:calls" [relation_row] 1 None [] false first_acknowledged.2
  = (Ok first_ticket, first_relations.2).
Proof. apply (ticket_pair first_relations). vm_compute. reflexivity. Qed.
Lemma first_reachable : reachable (FS:=artifact_files) default_limits (ss_db first_acknowledged.2).
Proof.
  eapply client_reachable; [|exact (keeps_acknowledge first_config producer_supply (ticket_of first_nodes.1) 2 5 first_nodes.2)].
  eapply client_reachable; [|exact (keeps_prepare first_config producer_supply first_run "functions" node_rows_of 0 None [] false first_opened.2)].
  eapply client_reachable; [|exact (keeps_open_runtime first_config producer_supply producer_start)]. constructor.
Qed.
Lemma first_calls : calls (FS:=artifact_files) default_limits (λ c, is_purge c = false) (ss_db first_relations.2) (ss_db first_claimed.2).
Proof.
  assert (calls (FS:=artifact_files) default_limits (λ c, is_purge c = false) (ss_db first_closed.2) (ss_db first_sealed)) as Hs.
  { unfold first_sealed. generalize first_closed. intros closed. cbn [ss_db].
    apply calls_snoc; [|reflexivity]. apply calls_snoc; [|reflexivity]. constructor. }
  pose proof (keeps_run _ _ first_relations.2 first_closed eq_refl (keeps_close_nodes first_config producer_supply first_run)) as Hc.
  pose proof (keeps_run _ _ first_sealed first_claimed eq_refl (keeps_claim_deferred first_config producer_supply first_ticket)) as Hd.
  unfold client in Hc, Hd. exact (client_calls_trans _ _ _ _ Hc (client_calls_trans _ _ _ _ Hs Hd)).
Qed.
Lemma first_new : batches (ss_db first_acknowledged.2) !! br_job_id (tk_batch first_ticket) = None.
Proof. vm_compute. reflexivity. Qed.
Definition first_batch : batch_row :=
  default (new_batch "" "" node_spec 0) (batches (ss_db first_claimed.2) !! br_job_id (tk_batch first_ticket)).
Lemma first_stored : batches (ss_db first_claimed.2) !! br_job_id (tk_batch first_ticket) = Some first_batch.
Proof. vm_compute. reflexivity. Qed.
Lemma first_leased : (1 ≤ b_attempt first_batch)%Z.
Proof. vm_compute. discriminate. Qed.
Lemma node_first_waits_witness :
  ∃ bar, barriers (ss_db first_claimed.2) !! (self_run first_run, ENDPOINT_AUDIT_BARRIER) = Some bar ∧
    br_stat bar = BarrierStatus.DRAINED.
Proof.
  refine (proj1 (node_first_waits first_config producer_supply first_run "relations:calls" [relation_row] 1 None [] false
    first_ticket first_acknowledged.2 first_relations.2 relation_op (ss_db first_claimed.2) first_batch
    _ first_reachable first_relations_ok first_new _ _ first_calls first_stored first_leased)).
  - vm_compute. reflexivity.
  - vm_compute. reflexivity.
  - vm_compute. discriminate.
Defined.
