(* ===== verification/Autonomy.v ===== *)
(** What holds of an autonomous recovery as a whole, and a small recovery the
    kernel evaluates: a batch enqueued by a writer that died, resumed over a
    graph that keeps receipts in memory. *)
From S2P Require Import Prelude Json Text PyValue Models Identity Schema QueryContract Operation Retry Db Manifest ArtifactApi Store Executor Guard Replay Staging Transitions Boundary Admin Config Steps Invariant Refinement RefinementRuns Behaviour Effects Journal Session Clients Consumer Recovery Drain Receipts Demo.

#[local] Existing Instance demo_sha.
#[local] Existing Instance demo_artifacts.

(** * A graph that keeps receipts *)

Definition text_param (k : string) (p : dict) : option string := match get k p with JStr s => Some s | _ => None end.
Definition row_total (p : dict) : Z := match get "rows" p with JArr l => Z.of_nat (length l) | _ => 0 end.
Definition fenced_receipt (p : dict) : option (string * receipt) :=
  job ← text_param "__journal_job_id" p; key ← text_param "__journal_operation_key" p;
  sha ← text_param "__journal_artifact_sha256" p; run ← text_param "__journal_run_id" p;
  gen ← text_param "__journal_generation" p; Some (job, MkReceipt key (row_total p) sha run gen).
Definition wanted_receipt (p : dict) : option (string * receipt) :=
  job ← text_param "job_id" p; key ← text_param "operation_key" p;
  sha ← text_param "artifact_sha256" p; run ← text_param "run_id" p; gen ← text_param "generation" p;
  match get "expected_count" p with JInt n => Some (job, MkReceipt key n sha run gen) | _ => None end.
Definition memory_graph : Type := gmap string receipt.
#[local] Instance memory_driver : GraphDriver memory_graph := λ w q p,
  if is_mutation q && endswith receipt_suffix q then
    match fenced_receipt p with
    | Some (job, rc) => (Ok (count_record (rc_row_count rc)), <[job := rc]> w)
    | None => (Err ValueError, w)
    end
  else if String.eqb q receipt_readback then
    match wanted_receipt p with
    | Some (job, rc) => (Ok (count_record (Z.b2z (bool_decide (w !! job = Some rc)))), w)
    | None => (Err ValueError, w)
    end
  else (Ok [], w).

Lemma fenced_parameters_receipt f p p' : fenced_parameters f p = Ok p' →
  ∃ n, fenced_receipt p' = Some (f_job_id f, receipt_of_fence f n).
Proof.
  unfold fenced_parameters. destruct (expected_rows p) as [c|]; cbn [mbind result_bind]; [|done].
  destruct (supplied_key _ _) as [[]|]; cbn [mbind result_bind]; [|done]. intros [= <-].
  unfold fenced_receipt, text_param, get.
  repeat first [rewrite assoc_setitem_eq | rewrite assoc_setitem_ne by done | rewrite assoc_pop_ne by done].
  by eexists.
Qed.
Lemma receipted_query_mutation source value : is_mutation (receipted_query source value) = true.
Proof.
  unfold receipted_query, is_mutation, has_word. rewrite <- !str_app_assoc.
  assert (∀ x, existsb (λ w, in_list (casefold w) mutation_keywords) (words (x +:+ receipt_suffix)) = true) as Hx; [|apply Hx].
  intros x. unfold receipt_suffix. rewrite boundary_words by done. rewrite existsb_app.
  apply orb_true_iff. right. vm_compute. reflexivity.
Qed.
#[local] Instance memory_receipts : ReceiptDriver memory_graph.
Proof.
  refine {| receipts := λ w, w |}.
  - intros w f p p' source value r w' _ (n & Hf)%fenced_parameters_receipt. unfold execute_query, memory_driver.
    rewrite receipted_query_mutation. unfold receipted_query. rewrite <- !str_app_assoc, endswith_app, Hf. simpl.
    intros [= <- <-]. by exists n.
  - intros w q p r w' Hq. unfold execute_query, memory_driver. rewrite Hq. simpl.
    destruct (String.eqb q receipt_readback); [destruct (wanted_receipt p) as [[job rc]|]|]; by intros [= <- <-].
  - intros w o rows job sha run gen records w'. unfold execute_query, memory_driver.
    rewrite receipt_readback_read. simpl. by intros [= <- _].
Defined.

(** * The recovery of a dead writer's batch *)

Definition recovered_meta : RunMetadata :=
  MkRunMetadata "p" "s" "rev" "snap" "db" "g1" "java" "1" (schema_fingerprint_of CODE_GRAPH_SCHEMA)
    "language-writer-v1" [("graph-write", 1%Z)] 1.
Definition recovery_config : JournalConfig :=
  MkJournalConfig "required" "/journal" recovered_meta default_limits true 60 5 1 60.
Definition function_op : GraphWriteOperation := match for_label "functions" with Ok o => o | Err _ => operation "" OperationPhase.NODES end.
Definition recovered_ref : ArtifactRef := MkArtifactRef "cc" (run_id recovered_meta +:+ "/cc.jsonl") 10 2.
Definition function_spec : BatchSpec :=
  MkBatchSpec OperationPhase.NODES (operation_key function_op) 0 recovered_ref 2 [] ["nodes"] 2
    (to_dict function_op).
Definition recovery_fs : demo_files :=
  [(relative_path recovered_ref, [JObj [("id", JStr "A")]; JObj [("id", JStr "B")]])].
Definition crashed_calls : list (Z * string * call) := [
  (1, "", COpenRun recovered_meta 10 1000); (2, "", COpenBarrier (run_id recovered_meta) "nodes");
  (3, "", CEnqueue (run_id recovered_meta) function_spec); (4, "t0", CClaim (Some (run_id recovered_meta)) 60)]%Z.
Definition crashed : session memory_graph :=
  MkSession (fold_left (λ d tc, exec default_limits (at_time tc.1.1 tc.1.2) recovery_fs tc.2 d) crashed_calls initial) ∅ 0.
Definition recovery_supply (tick : nat) : env := at_time (10 + Z.of_nat tick) "token".
Definition schema_ready (w : memory_graph) : res (option string) * memory_graph :=
  (Ok (Some (schema_fingerprint_of CODE_GRAPH_SCHEMA)), w).
Definition recovery : res (option Z) * session memory_graph :=
  resume_journal recovery_config recovery_fs recovery_supply (λ _ _, 0%Z) (λ _, 5%Z) (Some schema_ready) true 10 crashed.
(** The recovery takes over the dead writer's batch, finds no receipt, and
    runs and acknowledges it. *)
Example recovery_runs : recovery.1 = Ok (Some 2%Z) ∧ statuses (ss_db recovery.2) = [BatchStatus.DONE] ∧
  map_to_list (ss_graph recovery.2) =
    [(deterministic_job_id (run_fingerprint recovered_meta) OperationPhase.NODES (operation_key function_op) 0 "cc",
      MkReceipt (operation_key function_op) 2 "cc" (run_id recovered_meta) "g1")].
Proof. vm_compute. done. Qed.

Lemma crashed_reachable : reachable default_limits (ss_db crashed).
Proof.
  unfold crashed. cbn [ss_db]. generalize crashed_calls. intros cs.
  assert (∀ d, reachable default_limits d → reachable default_limits
    (fold_left (λ d tc, exec default_limits (at_time tc.1.1 tc.1.2) recovery_fs tc.2 d) cs d)) as Hr.
  { induction cs as [|tc cs IH]; intros d Hd; [done|]. simpl. apply IH. by apply calls_snoc. }
  apply Hr. constructor.
Qed.
(** The rows of a concrete journal, checked one by one. *)
Definition row_kept (job : string) (b : batch_row) : bool :=
  negb (String.eqb job "") && negb (String.eqb job "schema") &&
  match mutation_of recovery_fs (_batch_from_row b) with Ok (_, text, _) => negb (mentions_receipts text) | Err _ => true end.
Lemma rows_kept config (s : session memory_graph) :
  forallb (λ kv, row_kept kv.1 kv.2) (map_to_list (batches (ss_db s))) = true → contracts_kept config recovery_fs s.
Proof.
  intros Hc job b Hb _. rewrite forallb_forall in Hc. specialize (Hc (job, b)).
  apply elem_of_map_to_list, list_elem_of_In in Hb. specialize (Hc Hb). unfold row_kept in Hc. simpl in Hc.
  destruct (String.eqb job "") eqn:E1; [done|]. destruct (String.eqb job "schema") eqn:E2; [done|].
  apply String.eqb_neq in E1, E2. split_and!; try done. intros o text params Hm. rewrite Hm in Hc. simpl in Hc. by apply negb_true_iff in Hc.
Qed.

(** * Properties *)

Section autonomy.
Context `{Sha256} {FS : Type} `{!ArtifactApi FS} {W : Type} `{!GraphDriver W}.
Context (config : JournalConfig) (fs : FS) (supply : nat → env) (jitter : nat → Z → Z) (elapsed : nat → Z).

(** An autonomous recovery only ever changes the journal through its public
    calls, and never purges: whatever the graph answers and wherever the
    recovery is cut short by an exception, the journal it leaves is one that
    such calls reach. *)
Theorem recovery_is_client (ensure : option (W → res (option string) * W)) (journal_exists : bool) (fuel : nat)
    (s : session W) :
  calls (limits config) (λ c, is_purge c = false) (ss_db s)
    (ss_db (resume_journal config fs supply jitter elapsed ensure journal_exists fuel s).2).
Proof. exact (keeps_resume config fs supply jitter elapsed ensure journal_exists fuel s). Qed.

(** C5: The drain loop terminates: with twice the number of batches as fuel it
    never runs out of it, whatever the graph answers; when it returns, it has
    finished at most that many claims, and no batch of the run is claimable at
    the time of its last claim. *)
Theorem drain_terminates (fuel : nat) (s : session W) :
  reachable (limits config) (ss_db s) → (2 * Z.of_nat (size (batches (ss_db s))) < Z.of_nat fuel)%Z →
  let '(r, s') := drain config fs supply jitter elapsed fuel s in
  match r with
  | Ok None => False
  | Ok (Some n) => (0 ≤ n ≤ 2 * Z.of_nat (size (batches (ss_db s))))%Z ∧ idle config supply s'
  | Err _ => True
  end.
Proof.
  intros Hr Hf. pose proof (pending_work_bound (ss_db s)) as Hw. pose proof (reachable_inv _ _ Hr) as Hi.
  assert (ok_post (drain config fs supply jitter elapsed fuel) (λ r s', ∃ m, r = Some m ∧
    (0 ≤ m ≤ 0 + pending_work (ss_db s))%Z ∧ idle config supply s') s) as Hok.
  { unfold drain. apply ok_bind. eapply ok_mono; [apply (ok_inv config (FS:=FS)); [done|apply keeps_seal|apply seal_ok]|].
    intros [] s1 [Hw1 Hi1]. rewrite <- Hw1. apply drain_loop_spec; [done|lia]. }
  revert Hok. unfold ok_post, sp. destruct (drain _ _ _ _ _ _ _) as [[[m|]|e] s']; simpl; [|by intros (? & ? & _)|done].
  intros (? & [= <-] & Hm & Hidle). split; [lia|done].
Qed.

(** The jobs that were done in [s] without their receipt. *)
Definition done_unconfirmed `{!ReceiptDriver W} (s : session W) (job : string) : Prop := ∃ b,
  batches (ss_db s) !! job = Some b ∧ b_status b = BatchStatus.DONE ∧
  receipts (ss_graph s) !! job ≠ Some (receipt_of_row config b).
Lemma others_confirmed `{!ReceiptDriver W} (s : session W) : confirmed config (done_unconfirmed s) s.
Proof.
  intros job b Hb _ Hd Hex. destruct (decide (receipts (ss_graph s) !! job = Some (receipt_of_row config b))) as [Hr|Hr]; [done|].
  destruct Hex. by exists b.
Qed.

(** C4: Nothing is acknowledged that the graph does not confirm. The hypotheses:
    a driver that obeys the receipt laws of [ReceiptDriver], a call to
    [ensure_schema] that leaves the receipts alone, and batches of the run
    whose job is neither empty nor [schema] and whose compiled mutation does not
    name the label of the receipts.  Then, after an autonomous recovery of any
    length and outcome from any reachable journal, every batch of the run that is
    done has in the graph the receipt of its mutation, with the batch's
    operation, artifact, run and generation and with the count of rows the batch
    expected; a batch that was done before the recovery, if it had its receipt. *)
Theorem acknowledged_has_receipt `{!ReceiptDriver W} (ensure : option (W → res (option string) * W))
    (journal_exists : bool) (fuel : nat) (s : session W) :
  reachable (limits config) (ss_db s) →
  (∀ w f r w', ensure = Some f → f w = (r, w') → receipts w' = receipts w) →
  contracts_kept config fs s →
  let s' := (resume_journal config fs supply jitter elapsed ensure journal_exists fuel s).2 in
  ∀ job b, batches (ss_db s') !! job = Some b → b_run_id b = consumer_run config → b_status b = BatchStatus.DONE →
    (∀ b0, batches (ss_db s) !! job = Some b0 → b_status b0 = BatchStatus.DONE →
       receipts (ss_graph s) !! job = Some (receipt_of_row config b0)) →
    receipts (ss_graph s') !! job = Some (receipt_of_row config b).
Proof.
  intros Hr He Hk s' job b Hb Hrun Hd Hbefore.
  assert (promise config fs (done_unconfirmed s) s) as Hp.
  { split; [by eapply reachable_inv|done|apply others_confirmed]. }
  pose proof (kept_resume config fs supply jitter elapsed (done_unconfirmed s) ensure journal_exists fuel s He Hp) as Hkept.
  assert (confirmed config (done_unconfirmed s) s') as Hc.
  { unfold kept, sp in Hkept. subst s'. by destruct (resume_journal _ _ _ _ _ _ _ _ s) as [[a|e] s'']; apply Hkept. }
  apply Hc; [done..|]. intros (b0 & Hb0 & Hd0 & Hn). by apply Hn, Hbefore.
Qed.
End autonomy.

Lemma drain_terminates_witness :
  (drain recovery_config recovery_fs recovery_supply (λ _ _, 0%Z) (λ _, 5%Z) 3 crashed).1 ≠ Ok None.
Proof.
  assert (2 * Z.of_nat (size (batches (ss_db crashed))) < Z.of_nat 3)%Z as Hf by (vm_compute; reflexivity).
  pose proof (drain_terminates recovery_config recovery_fs recovery_supply (λ _ _, 0%Z) (λ _, 5%Z) 3 crashed
    crashed_reachable Hf) as Ht.
  destruct (drain _ _ _ _ _ _ _) as [[[n|]|e] s']; [done|destruct Ht|done].
Defined.
Definition recovered_job : string :=
  deterministic_job_id (run_fingerprint recovered_meta) OperationPhase.NODES (operation_key function_op) 0 "cc".
Lemma acknowledged_has_receipt_witness :
  receipts (ss_graph recovery.2) !! recovered_job =
    Some (MkReceipt (operation_key function_op) 2 "cc" (run_id recovered_meta) "g1").
Proof.
  destruct (batches (ss_db recovery.2) !! recovered_job) as [b|] eqn:Hb.
  2: { exfalso. revert Hb. vm_compute. discriminate. }
  assert (receipt_of_row recovery_config b = MkReceipt (operation_key function_op) 2 "cc" (run_id recovered_meta) "g1" ∧
    b_run_id b = run_id recovered_meta ∧ b_status b = BatchStatus.DONE) as (Hrow & Hrun & Hd).
  { revert Hb. vm_compute. intros [= <-]. done. }
  assert (∀ w f (r : res (option string)) w', Some schema_ready = Some f → f w = (r, w') → receipts w' = receipts w) as He
    by (intros w f r w' [= <-] [= <- <-]; reflexivity).
  assert (contracts_kept recovery_config recovery_fs crashed) as Hk by (apply rows_kept; vm_compute; reflexivity).
  assert (∀ b0, batches (ss_db crashed) !! recovered_job = Some b0 → b_status b0 = BatchStatus.DONE →
    receipts (ss_graph crashed) !! recovered_job = Some (receipt_of_row recovery_config b0)) as Hbefore
    by (intros b0; vm_compute; intros [= <-]; discriminate).
  pose proof (acknowledged_has_receipt recovery_config recovery_fs recovery_supply (λ _ _, 0%Z) (λ _, 5%Z)
    (Some schema_ready) true 10 crashed crashed_reachable He Hk recovered_job b) as Hc.
  fold recovery in Hc. rewrite Hrow in Hc. exact (Hc Hb Hrun Hd Hbefore).
Defined.
