(* ===== verification/Guarantees.v ===== *)
(** What the journal guarantees its clients, over every database its calls can
    reach: barrier order, fencing, one acknowledgement, bounded retries, stable
    terminal states, conservation of the manifests.  Each theorem is followed by
    its instance on the journal of [Demo.v]. *)
From S2P Require Import Prelude Json PyValue Models Identity Retry Db Manifest ArtifactApi Store Staging Transitions Boundary Admin Steps Invariant Barriers Conservation Refinement RefinementRuns Behaviour Journal Reachable Demo.

(** * Invariants of the reachable databases *)

Section reachable.
Context `{Sha256} {FS : Type} `{!ArtifactApi FS} (limits : JournalLimits).

(** C1: nodes before relationships. Once a batch has been leased, every batch of
    its run that produces a barrier it requires is acknowledged; the only
    exception is a batch whose manifests were rejected, and then the run is no
    longer active. *)
Theorem nodes_before_relationships d job b name job' b' :
  reachable limits d → batches d !! job = Some b → (1 ≤ b_attempt b)%Z →
  name ∈ b_required_barriers_json b →
  batches d !! job' = Some b' → b_run_id b' = b_run_id b → name ∈ b_produced_barriers_json b' →
  b_status b' = BatchStatus.DONE ∨ (rejected b' = true ∧ run_active d b = false).
Proof. apply required_producers_done. Qed.

(** C2: refinement. Every call of the store, in every environment, with every
    artifact files and whatever it returns, is a sequence of the atomic steps of
    the abstract journal up to the trail of events; the one exception is
    [purge_run], which leaves the tables alone or, with ownership confirmed,
    deletes one terminal run that no batch owner holds, past its retention, with
    every row that refers to it. *)
Theorem calls_refine_steps ε fs c d :
  reachable limits d →
  let d' := exec limits ε fs c d in
  match c with
  | CPurge run confirmed now => d ≈ d' ∨
      (confirmed = true ∧ purge_step d (delete_run run d) ∧ delete_run run d ≈ d' ∧
       ∃ r, runs d !! run = Some r ∧ is_terminal_run (r_status r) = true ∧
            (r_retention_until r ≤ default (clock ε) now)%Z)
  | _ => steps d d'
  end.
Proof.
  intros Hr%reachable_inv d'. destruct (is_purge c) eqn:Hp.
  - destruct c as [| | | | | | | | | | | | | | | | | | | |run conf now]; try done. apply exec_purge.
  - pose proof (exec_steps limits ε fs c d Hr Hp) as Hs. by destruct c.
Qed.

(** C3: the row discipline. In every reachable database a fencing token and a
    lease come and go together and only on leased or reconciling rows, the
    attempts of a batch stay within its budget in every status, and the batches
    of an active run have not failed. *)
Theorem reachable_rows d job b :
  reachable limits d → batches d !! job = Some b →
  fence_ok b ∧ attempts_ok b ∧
  ∃ r, runs d !! b_run_id b = Some r ∧ run_allows (r_status r) b.
Proof.
  intros Hr%reachable_inv Hb. destruct (inv_row _ Hr _ _ Hb).
  split; [done|split; [done|]]. by eapply inv_batch.
Qed.

(** C6: acknowledged once, for good. After a successful [ack_batch] the row stays
    done and unchanged through any calls but a purge, and every later
    acknowledgement of the job, under whatever token, is refused as stale. *)
Theorem acknowledged_once ε job token el d rec d1 P d2 :
  reachable limits d → ack_batch limits ε job token el d = (Ok rec, d1) →
  (∀ c, P c → is_purge c = false) → calls limits P d1 d2 →
  ∃ b, batches d2 !! job = Some b ∧ rec = _batch_from_row b ∧ b_status b = BatchStatus.DONE ∧
    ∀ ε' token' el', ack_batch limits ε' job token' el' d2 = (Err StaleFenceError, d2).
Proof.
  intros Hr Hack HP Hc. pose proof (reachable_inv _ _ Hr) as Hi.
  assert (inv d1) as Hi1 by (eapply (steps_inv d); [done|by eapply ack_batch_refines]).
  apply transaction_ok in Hack. pose proof (ack_result limits job token el (clock ε) d) as Hw.
  unfold wp in Hw. unfold ack_batch in Hack. rewrite Hack in Hw. destruct Hw as (b & Hb & _ & _ & Hb1 & ->).
  assert (batches d2 !! job = Some (ack_row (clock ε) b)) as Hb2.
  { apply (done_stays d1); [done| |done|by eapply calls_steps]. rewrite Hb1. apply lookup_insert_eq. }
  exists (ack_row (clock ε) b). split_and!; try done. intros ε' token' el'.
  apply owned_transition_stale. by apply (done_not_holder job token' (clock ε') d2 (ack_row (clock ε) b)).
Qed.

(** C7: fencing. A caller whose token or lease does not hold the batch gets
    [StaleFenceError] from every transition, and nothing is written. *)
Theorem stale_fence_rejected ε job token d :
  not_holder job token (clock ε) d →
  (∀ el, ack_batch limits ε job token el d = (Err StaleFenceError, d)) ∧
  (∀ code, mark_reconciling ε job token code d = (Err StaleFenceError, d)) ∧
  (∀ at_ class code, schedule_retry limits ε job token at_ class code d = (Err StaleFenceError, d)) ∧
  (∀ at_ code, schedule_reconciliation_retry limits ε job token at_ code d = (Err StaleFenceError, d)) ∧
  (∀ class code, block_batch limits ε job token class code d = (Err StaleFenceError, d)) ∧
  (∀ secs, (0 < secs)%Z → renew_lease ε job token secs d = (Err StaleFenceError, d)).
Proof.
  intros Hn. split_and!; intros.
  - by apply owned_transition_stale.
  - by apply owned_lease_stale.
  - by apply owned_transition_stale.
  - by apply owned_transition_stale.
  - by apply owned_transition_stale.
  - by apply renew_stale.
Qed.

(** C8: the queue order. [claim_batch] first recovers the expired leases; it then
    returns nothing exactly when no batch in scope is claimable, and otherwise
    leases the claimable batch that is least by (sequence, creation, job id). *)
Theorem claim_batch_takes_first ε run secs d :
  reachable limits d → (0 < secs)%Z →
  ∃ n d1, recover_expired_leases ε d = (Ok n, d1) ∧
  match claim_batch ε run secs d with
  | (Ok None, d2) => d2 = d1 ∧
      ∀ job b, batches d1 !! job = Some b → claimable (clock ε) d1 b && in_scope run b = false
  | (Ok (Some rec), d2) => ∃ b,
      batches d1 !! b_job_id b = Some b ∧ claimable (clock ε) d1 b = true ∧ in_scope run b = true ∧
      (∀ job b', batches d1 !! job = Some b' → claimable (clock ε) d1 b' = true → in_scope run b' = true →
         cmp_le (claim_key b) (claim_key b')) ∧
      rec = _batch_from_row (lease_batch ε secs b) ∧
      d2 ≈ d1 <| batches ::= <[b_job_id b := lease_batch ε secs b]> |>
  | (Err _, _) => False
  end.
Proof.
  intros Hr%reachable_inv Hs. unfold claim_batch, op_guard. apply Z.leb_gt in Hs as ->.
  destruct (claim_first_spec ε (claimable (clock ε)) run executable (lease_batch ε secs) "batch_leased" d Hr
    (claimable_executable (clock ε))) as (n & d1 & Hrec & Hi1 & Hcl).
  exists n, d1. split; [unfold recover_expired_leases, transaction; by rewrite Hrec|].
  destruct (next_row _ _ d1) as [b|] eqn:Hn.
  - destruct Hcl as (d2 & -> & He). destruct (next_row_spec _ _ _ _ Hi1 Hn) as (Hb & Hcb & Hsc & Hmin).
    exists b. by split_and!.
  - rewrite Hcl. split; [done|]. by apply next_row_none.
Qed.

(** crash recovery. It never fails; every expired lease becomes an unowned
    reconciling batch, every expired reconciliation owner is released, and no
    other row changes: an ambiguous batch is never executable again by recovery. *)
Theorem recovery_spec ε d :
  reachable limits d →
  ∃ n d1, recover_expired_leases ε d = (Ok n, d1) ∧
    ∀ job, batches d1 !! job =
      recovered (clock ε) (expired_lease (clock ε)) (expired_owner (clock ε)) <$> batches d !! job.
Proof.
  intros Hr%reachable_inv. destruct (recover_expired_spec d ε Hr) as (n & d1 & Hrec & _ & Hl).
  exists n, d1. split; [|done]. unfold recover_expired_leases, transaction. by rewrite Hrec.
Qed.

(** C9: conservation. A drained run has acknowledged and verified exactly its
    unique manifest rows, of nodes and of edges, and every row is classified. *)
Theorem drained_run_conserved d run r :
  reachable limits d → runs d !! run = Some r → r_status r = RunStatus.DRAINED →
  conserved (cs_node (conservation_summary run d)) = true ∧
  conserved (cs_edge (conservation_summary run d)) = true.
Proof.
  intros Hr Hrun Hd. pose proof (reachable_inv _ _ Hr) as Hi. pose proof (mo_rows _ (reachable_manifests _ _ Hr)) as Hm.
  assert (∀ job b, batches d !! job = Some b → b_run_id b = run → b_status b = BatchStatus.DONE) as Hdone.
  { intros job b Hb Hbr. destruct (inv_batch _ Hi _ _ Hb) as (r' & Hr' & _ & Hx). apply Hx. congruence. }
  split; [exact (conserved_when_done d run KNode Hm Hdone)|exact (conserved_when_done d run KEdge Hm Hdone)].
Qed.

(** one identity, one payload. Accepted manifest rows of one run with the
    same identity carry the same payload digest, and at most one of them is the
    unique row, whatever order the batches were enqueued in. *)
Theorem manifest_identity_unique d k key1 key2 m1 m2 :
  reachable limits d →
  manifest_table k d !! key1 = Some m1 → manifest_table k d !! key2 = Some m2 →
  accepted (m_disposition m1) = true → accepted (m_disposition m2) = true →
  identity_of k m1 = identity_of k m2 →
  m_payload_digest m1 = m_payload_digest m2 ∧
  (m_disposition m1 = ManifestDisposition.STAGED_UNIQUE →
   m_disposition m2 = ManifestDisposition.STAGED_UNIQUE → key1 = key2).
Proof. intros Hr. apply mo_coherent. by eapply reachable_manifests. Qed.

(** the producers' counters are the counts of their manifest rows, by kind
    and disposition, and the emitted counter is their total. *)
Theorem producer_counters_exact d run p row :
  reachable limits d → producer_completion d !! (run, p) = Some row →
  (∀ k disp, counted k disp (p_counters row) = tally k disp run p d) ∧ emitted_ok (p_counters row).
Proof.
  intros Hr Hrow. pose proof (mo_counters _ (reachable_manifests _ _ Hr) run p) as Hc. rewrite Hrow in Hc.
  by destruct Hc as (_ & _ & ? & ?).
Qed.

(** an active or drained run holds no conflicting or rejected row, so closing
    its producers never fails for one. *)
Theorem active_run_clean d run r k :
  reachable limits d → runs d !! run = Some r → clean_status (r_status r) = true →
  countM (invalid_row run) (manifest_table k d) = 0%Z.
Proof.
  intros Hr Hrun Hs. apply clean_invalid. by eapply mo_clean; [eapply reachable_manifests; exact Hr|..].
Qed.

(** terminal runs stay terminal and a drained run, with all its batches done,
    is never written again, through any calls but a purge. *)
Theorem terminal_runs_stay d run r P d' :
  reachable limits d → runs d !! run = Some r → is_terminal_run (r_status r) = true →
  (∀ c, P c → is_purge c = false) → calls limits P d d' →
  (∃ r', runs d' !! run = Some r' ∧ is_terminal_run (r_status r') = true) ∧
  (r_status r = RunStatus.DRAINED → runs d' !! run = Some r ∧
    ∀ job b, batches d' !! job = Some b → b_run_id b = run → b_status b = BatchStatus.DONE).
Proof.
  intros Hr%reachable_inv Hrun Ht HP Hc. pose proof (calls_steps _ _ _ _ HP Hr Hc) as Hs.
  split; [by eapply terminal_stays|]. intros Hd. pose proof (drained_stays _ _ _ _ Hr Hrun Hd Hs) as Hrun'.
  split; [done|]. intros job b Hb Hbr. pose proof (steps_inv _ _ Hr Hs) as Hi'.
  destruct (inv_batch _ Hi' _ _ Hb) as (r' & Hr' & _ & Hx). apply Hx. congruence.
Qed.

(** enqueue is idempotent. Repeating a successful [enqueue_batch], at any
    later time, returns the same batch and writes nothing. *)
Theorem enqueue_idempotent fs ε ε' run spec d rec d1 :
  enqueue_batch limits fs ε run spec d = (Ok rec, d1) → enqueue_batch limits fs ε' run spec d1 = (Ok rec, d1).
Proof. apply enqueue_again. Qed.

(** purge. A purge that succeeds removes every row of the run and keeps every
    other run's rows; a run that is active, retained or owned is refused. *)
Theorem purge_removes_run ε run conf now d fs :
  match purge_run ε run conf now (d, fs) with
  | (Ok n, (d', fs')) => (runs d !! run = None ∧ n = 0%Z ∧ d' = d) ∨
      (purged run d' ∧ others_kept run d d' ∧
       ∃ r, runs d !! run = Some r ∧ is_terminal_run (r_status r) = true ∧
            (r_retention_until r ≤ default (clock ε) now)%Z)
  | (Err _, (d', _)) => d ≈ d'
  end.
Proof.
  unfold purge_run. destruct conf; simpl; [|done].
  destruct (transaction (purge_begin (default (clock ε) now) run) d) as [r d1] eqn:Ht.
  destruct (transaction_wp _ _ _ _ _ (purge_begin_wp (default (clock ε) now) run d) Ht) as [(o & -> & He & Hp)|[[e ->] ->]]; [|done].
  destruct o as [refs|].
  - destruct (remove_all refs fs) as [[|e] fs']; [|done]. right. simpl.
    destruct Hp as [_ Hx]. split; [apply delete_run_purged|split; [|exact Hx]].
    destruct (delete_run_others run d1) as (O1 & O2 & O3 & O4 & O5).
    rewrite <- (runs_proper _ _ He) in O1. rewrite <- (batches_proper _ _ He) in O2.
    rewrite <- (artifacts_proper _ _ He) in O3. rewrite <- (barriers_proper _ _ He) in O4.
    split; [exact O1|split; [exact O2|split; [exact O3|split; [exact O4|]]]].
    intros k. rewrite <- (tables_equiv k d d1 He). apply O5.
  - left. destruct Hp as [Hn ->]. done.
Qed.
End reachable.

(** * The theorems at work on the demonstration journal *)

#[local] Existing Instance demo_sha.
#[local] Existing Instance demo_artifacts.

Definition no_row : batch_row := new_batch "" "" node_spec 0.
Definition row_at (spec : BatchSpec) (d : db) : batch_row := default no_row (batches d !! job_of spec).
Definition leased_db : db := run_calls demo_leased initial.
Definition acked_db : db := run_calls demo_acked initial.
Definition released_db : db := run_calls demo_released initial.
Definition drained_db : db := run_calls demo_drained initial.
Definition run_at (d : db) : run_row := default (new_run default_limits demo_meta 0) (runs d !! demo_run).

Lemma leased_reachable : reachable default_limits leased_db.
Proof. apply run_calls_reachable. Qed.
Lemma released_reachable : reachable default_limits released_db.
Proof. apply run_calls_reachable. Qed.
Lemma drained_reachable : reachable default_limits drained_db.
Proof. apply run_calls_reachable. Qed.

Ltac by_vm := vm_compute; (reflexivity || (by intros [=])).

Lemma nodes_before_relationships_witness :
  b_status (row_at node_spec released_db) = BatchStatus.DONE ∨
  (rejected (row_at node_spec released_db) = true ∧ run_active released_db (row_at edge_spec released_db) = false).
Proof.
  apply (nodes_before_relationships default_limits released_db (job_of edge_spec) (row_at edge_spec released_db)
    "nodes" (job_of node_spec)).
  - apply released_reachable.
  - by_vm.
  - by_vm.
  - apply in_list_elem. by_vm.
  - by_vm.
  - by_vm.
  - apply in_list_elem. by_vm.
Defined.
Lemma calls_refine_steps_witness :
  steps leased_db (exec default_limits (at_time 7 "") demo_fs (CAck (job_of node_spec) "t1" None) leased_db).
Proof.
  apply (calls_refine_steps default_limits (at_time 7 "") demo_fs (CAck (job_of node_spec) "t1" None) leased_db).
  apply leased_reachable.
Defined.
Lemma reachable_rows_witness :
  fence_ok (row_at node_spec leased_db) ∧ attempts_ok (row_at node_spec leased_db) ∧
  ∃ r, runs leased_db !! b_run_id (row_at node_spec leased_db) = Some r
       ∧ run_allows (r_status r) (row_at node_spec leased_db).
Proof. apply (reachable_rows default_limits leased_db (job_of node_spec)); [apply leased_reachable|by_vm]. Defined.
Lemma acknowledged_once_witness :
  ∃ b, batches released_db !! job_of node_spec = Some b ∧ _batch_from_row (row_at node_spec acked_db) = _batch_from_row b
    ∧ b_status b = BatchStatus.DONE ∧ ∀ ε' token' el',
    ack_batch default_limits ε' (job_of node_spec) token' el' released_db = (Err StaleFenceError, released_db).
Proof.
  apply (acknowledged_once default_limits (at_time 7 "") (job_of node_spec) "t1" None leased_db _ acked_db
    (λ c, is_purge c = false) released_db).
  - apply leased_reachable.
  - by_vm.
  - done.
  - apply (calls_snoc default_limits _ _ (at_time 8 "t2") demo_fs (CClaim (Some demo_run) 60)); [constructor|done].
Defined.
Lemma stale_fence_rejected_witness :
  ack_batch default_limits (at_time 7 "") (job_of node_spec) "forged" None leased_db = (Err StaleFenceError, leased_db).
Proof.
  refine (proj1 (stale_fence_rejected default_limits (at_time 7 "") (job_of node_spec) "forged" leased_db _) None).
  intros b Hb. assert (b = row_at node_spec leased_db) as -> by (unfold row_at; by rewrite Hb).
  vm_compute. reflexivity.
Defined.
Lemma claim_batch_takes_first_witness :
  ∃ n d1, recover_expired_leases (at_time 8 "t2") acked_db = (Ok n, d1) ∧
  match claim_batch (at_time 8 "t2") (Some demo_run) 60 acked_db with
  | (Ok None, d2) => d2 = d1 ∧ ∀ job b, batches d1 !! job = Some b →
      claimable (clock (at_time 8 "t2")) d1 b && in_scope (Some demo_run) b = false
  | (Ok (Some rec), d2) => ∃ b, batches d1 !! b_job_id b = Some b ∧
      claimable (clock (at_time 8 "t2")) d1 b = true ∧ in_scope (Some demo_run) b = true ∧
      (∀ job b', batches d1 !! job = Some b' → claimable (clock (at_time 8 "t2")) d1 b' = true →
         in_scope (Some demo_run) b' = true → cmp_le (claim_key b) (claim_key b')) ∧
      rec = _batch_from_row (lease_batch (at_time 8 "t2") 60 b) ∧
      d2 ≈ d1 <| batches ::= <[b_job_id b := lease_batch (at_time 8 "t2") 60 b]> |>
  | (Err _, _) => False
  end.
Proof.
  apply (claim_batch_takes_first default_limits (at_time 8 "t2") (Some demo_run) 60 acked_db);
    [apply run_calls_reachable|lia].
Defined.
Lemma recovery_spec_witness :
  ∃ n d1, recover_expired_leases (at_time 100 "") leased_db = (Ok n, d1) ∧
    ∀ job, batches d1 !! job = recovered (clock (at_time 100 "")) (expired_lease (clock (at_time 100 "")))
      (expired_owner (clock (at_time 100 ""))) <$> batches leased_db !! job.
Proof. apply (recovery_spec default_limits). apply leased_reachable. Defined.
Lemma drained_run_conserved_witness :
  conserved (cs_node (conservation_summary demo_run drained_db)) = true ∧
  conserved (cs_edge (conservation_summary demo_run drained_db)) = true.
Proof.
  apply (drained_run_conserved default_limits drained_db demo_run (run_at drained_db));
    [apply drained_reachable|by_vm|by_vm].
Defined.

(** The node rows of the demonstration, by ordinal: the third repeats the first. *)
Definition node_key (ordinal : Z) : string * string :=
  (demo_run, c_manifest_id (base (job_of node_spec) "" JNull ordinal KNode)).
Definition no_manifest : manifest_row :=
  MkManifest "" "" "" "" 0 "" "" "" "" "" "" ManifestDisposition.REJECTED false false 0 0.
Definition node_at (ordinal : Z) : manifest_row := default no_manifest (node_manifest drained_db !! node_key ordinal).
Definition producer_at : producer_row :=
  default (MkProducer "" "" ProducerStatus.OPEN counters_zero None 0)
    (producer_completion drained_db !! (demo_run, "java-nodes")).

Lemma manifest_identity_unique_witness :
  m_payload_digest (node_at 0) = m_payload_digest (node_at 2) ∧
  (m_disposition (node_at 0) = ManifestDisposition.STAGED_UNIQUE →
   m_disposition (node_at 2) = ManifestDisposition.STAGED_UNIQUE → node_key 0 = node_key 2).
Proof.
  apply (manifest_identity_unique default_limits drained_db KNode (node_key 0) (node_key 2) (node_at 0) (node_at 2));
    [apply drained_reachable|by_vm..].
Defined.
Lemma producer_counters_exact_witness :
  (∀ k disp, counted k disp (p_counters producer_at) = tally k disp demo_run "java-nodes" drained_db) ∧
  emitted_ok (p_counters producer_at).
Proof. apply (producer_counters_exact default_limits); [apply drained_reachable|by_vm]. Defined.
Lemma active_run_clean_witness : countM (invalid_row demo_run) (manifest_table KNode leased_db) = 0%Z.
Proof.
  apply (active_run_clean default_limits leased_db demo_run (run_at leased_db) KNode);
    [apply leased_reachable|by_vm..].
Defined.
Lemma terminal_runs_stay_witness :
  (∃ r', runs drained_db !! demo_run = Some r' ∧ is_terminal_run (r_status r') = true) ∧
  (r_status (run_at drained_db) = RunStatus.DRAINED → runs drained_db !! demo_run = Some (run_at drained_db) ∧
    ∀ job b, batches drained_db !! job = Some b → b_run_id b = demo_run → b_status b = BatchStatus.DONE).
Proof.
  apply (terminal_runs_stay default_limits drained_db demo_run (run_at drained_db) (λ c, is_purge c = false) drained_db);
    [apply drained_reachable|by_vm|by_vm|done|constructor].
Defined.
Definition enqueued_db : db := run_calls (take 3 demo_enqueued) initial.
Lemma enqueue_idempotent_witness :
  enqueue_batch default_limits demo_fs (at_time 50 "") demo_run node_spec enqueued_db
    = (Ok (_batch_from_row (row_at node_spec enqueued_db)), enqueued_db).
Proof.
  apply (enqueue_idempotent default_limits demo_fs (at_time 3 "") (at_time 50 "") demo_run node_spec
    (run_calls (take 2 demo_enqueued) initial)).
  by_vm.
Defined.
