(* ===== verification/Admission.v ===== *)
(** The bounded lane of [cortex_harness/storage/admission.py]: admission to a
    FIFO queue with item and byte budgets, execution under a semaphore.  The
    lane is an asyncio object: its internal lock is only held around sections
    that do not suspend, so each such section is one step, and a task can be
    interrupted only where it waits for the semaphore or in its operation. *)
From S2P Require Import Prelude Models.

(** * Limits and errors *)

Module GatewayErrorCode.
Inductive GatewayErrorCode : Type :=
  | OVERLOADED | INGESTION_ALREADY_RUNNING | STORE_MAINTENANCE | REQUEST_TOO_LARGE
  | STALE_GENERATION | DEADLINE_EXCEEDED | CANCELLED.
End GatewayErrorCode.
(** [ValueError], and [StoreGatewayError(code, retryable=..., retry_after_ms=...)]. *)
Inductive lane_error : Type :=
  | LaneValueError
  | StoreGatewayError (code : GatewayErrorCode.GatewayErrorCode) (retryable : bool) (retry_after_ms : option Z).
Definition overloaded : lane_error := StoreGatewayError GatewayErrorCode.OVERLOADED true (Some 100%Z).
Definition deadline_exceeded : lane_error := StoreGatewayError GatewayErrorCode.DEADLINE_EXCEEDED true None.

Record LaneLimits := MkLaneLimits { concurrency : Z; max_queue_items : Z; max_queue_bytes : Z }.
(** [__post_init__] *)
Definition make_lane_limits (l : LaneLimits) : result lane_error LaneLimits :=
  if (concurrency l <? 1)%Z then Err LaneValueError
  else if (max_queue_items l <? 0)%Z || (max_queue_bytes l <? 0)%Z then Err LaneValueError
  else Ok l.
Definition default_lane_limits : LaneLimits := MkLaneLimits 1 32 (4 * 1024 * 1024).

(** * The lane *)

(** A task waiting for the semaphore: its [estimated_bytes], and whether it
    has a deadline. *)
Record waiter := MkWaiter { w_task : nat; w_bytes : Z; w_deadline : bool }.
(** The counters of [BoundedLane], its semaphore (free slots, and the waiters in
    the order they came), its idle event, and the tasks inside [operation()]. *)
Record lane := MkLane {
  l_queued_items : Z; l_queued_bytes : Z; l_active : Z;
  l_accepted : Z; l_completed : Z; l_rejected : Z; l_timed_out : Z; l_cancelled : Z;
  l_queue_wait : Z; l_max_queue_wait : Z;
  l_idle : bool; l_slots : Z; l_waiting : list waiter; l_running : list nat; l_next : nat;
}.
#[export] Instance lane_eta : Eta lane := λ l,
  MkLane (l_queued_items l) (l_queued_bytes l) (l_active l) (l_accepted l) (l_completed l) (l_rejected l)
    (l_timed_out l) (l_cancelled l) (l_queue_wait l) (l_max_queue_wait l) (l_idle l) (l_slots l) (l_waiting l)
    (l_running l) (l_next l).
(** [BoundedLane(name, limits)] *)
Definition new_lane (limits : LaneLimits) : lane :=
  MkLane 0 0 0 0 0 0 0 0 0 0 true (concurrency limits) [] [] 0.

(** [run] up to [await self._semaphore.acquire()]; the new task waits for the
    semaphore, as the last in line. *)
Definition enter (limits : LaneLimits) (estimated_bytes : Z) (deadline : bool) (l : lane) : result lane_error nat * lane :=
  if (estimated_bytes <? 0)%Z then (Err LaneValueError, l)
  else if (max_queue_items limits <=? l_queued_items l)%Z
          || (max_queue_bytes limits <? l_queued_bytes l + estimated_bytes)%Z
  then (Err overloaded, l <| l_rejected ::= Z.succ |>)
  else (Ok (l_next l),
        l <| l_queued_items ::= Z.succ |> <| l_queued_bytes ::= Z.add estimated_bytes |>
          <| l_accepted ::= Z.succ |> <| l_idle := false |>
          <| l_waiting ::= (λ ws, ws ++ [MkWaiter (l_next l) estimated_bytes deadline]) |> <| l_next ::= S |>).
(** [self._idle.set()] under its guard *)
Definition set_idle (l : lane) : lane :=
  if (l_active l =? 0)%Z && (l_queued_items l =? 0)%Z then l <| l_idle := true |> else l.
Definition drop_waiter (task : nat) (l : lane) : lane :=
  l <| l_waiting ::= List.filter (λ w, negb (w_task w =? task)%nat) |>.
(** The section after the semaphore was acquired, up to [operation()]. *)
Definition start (w : waiter) (waited : Z) (l : lane) : lane :=
  drop_waiter (w_task w) l <| l_slots ::= Z.pred |>
    <| l_queued_items ::= Z.pred |> <| l_queued_bytes ::= (λ b, b - w_bytes w)%Z |> <| l_active ::= Z.succ |>
    <| l_queue_wait ::= Z.add waited |> <| l_max_queue_wait ::= Z.max waited |>
    <| l_running ::= cons (w_task w) |>.
(** The [finally] block of a task that did not acquire the semaphore. *)
Definition leave (w : waiter) (l : lane) : lane :=
  set_idle (drop_waiter (w_task w) l <| l_queued_items ::= Z.pred |> <| l_queued_bytes ::= (λ b, b - w_bytes w)%Z |>).
(** [except TimeoutError], then [finally] *)
Definition time_out (w : waiter) (l : lane) : result lane_error unit * lane :=
  (Err deadline_exceeded, leave w (l <| l_timed_out ::= Z.succ |>)).
(** How [await operation()] ends. *)
Inductive outcome : Type := Returned | CancelledInside | RaisedInside.
Definition finish (task : nat) (o : outcome) (l : lane) : lane :=
  let l := match o with
    | Returned => l <| l_completed ::= Z.succ |>
    | CancelledInside => l <| l_cancelled ::= Z.succ |>
    | RaisedInside => l end in
  set_idle (l <| l_active ::= Z.pred |>) <| l_slots ::= Z.succ |>
    <| l_running ::= List.filter (λ t, negb (t =? task)%nat) |>.

(** * Interleavings *)

Inductive event : Type :=
  | Submitted (task : nat) | Refused (e : lane_error) | Started (task : nat) | TimedOut (task : nat)
  | Withdrawn (task : nat) (* cancelled while it waits *) | Finished (task : nat) (o : outcome).
(** One step of some task.  A free slot goes to the first waiter. *)
Inductive lane_step (limits : LaneLimits) (l : lane) : event → lane → Prop :=
  | step_submit bytes deadline task l' :
      enter limits bytes deadline l = (Ok task, l') → lane_step limits l (Submitted task) l'
  | step_refuse bytes deadline e l' :
      enter limits bytes deadline l = (Err e, l') → lane_step limits l (Refused e) l'
  | step_start w ws waited :
      l_waiting l = w :: ws → (0 < l_slots l)%Z → (0 ≤ waited)%Z → lane_step limits l (Started (w_task w)) (start w waited l)
  | step_time_out w :
      w ∈ l_waiting l → w_deadline w = true → lane_step limits l (TimedOut (w_task w)) (time_out w l).2
  | step_withdraw w :
      w ∈ l_waiting l → lane_step limits l (Withdrawn (w_task w)) (leave w l)
  | step_finish task o :
      task ∈ l_running l → lane_step limits l (Finished task o) (finish task o l).
(** Runs of the lane, with their events in order. *)
Inductive lane_run (limits : LaneLimits) (l : lane) : list event → lane → Prop :=
  | run_nil : lane_run limits l [] l
  | run_snoc es l1 e l2 : lane_run limits l es l1 → lane_step limits l1 e l2 → lane_run limits l (es ++ [e]) l2.
