(* ===== verification/Lanes.v ===== *)
(** What a bounded lane guarantees, over every interleaving of its tasks: its
    bounds, its accounts, first come first served, and that it empties. *)
From S2P Require Import Prelude Models Admission.

Definition tasks (ws : list waiter) : list nat := map w_task ws.
Definition bytes_of (ws : list waiter) : Z := foldr (λ w n, w_bytes w + n)%Z 0%Z ws.

(** * Queues without one of their tasks *)

Section without.
Context {A : Type} (f : A → nat).
Definition without (task : nat) (l : list A) : list A := List.filter (λ x, negb (f x =? task)%nat) l.
Lemma without_absent task l : task ∉ map f l → without task l = l.
Proof.
  unfold without. induction l as [|x l IH]; [done|]. cbn [map List.filter]. intros [Hne Hin]%not_elem_of_cons.
  assert ((f x =? task)%nat = false) as -> by (apply Nat.eqb_neq; congruence). cbn [negb]. by rewrite IH.
Qed.
Lemma without_split x l : x ∈ l → NoDup (map f l) → ∃ l1 l2, l = l1 ++ x :: l2 ∧ without (f x) l = l1 ++ l2.
Proof.
  intros (l1 & l2 & ->)%list_elem_of_split Hnd. exists l1, l2. split; [done|].
  rewrite map_app in Hnd. apply NoDup_app in Hnd as (_ & Hd & Hnd). cbn [map] in *. apply NoDup_cons in Hnd as [Hn _].
  transitivity (without (f x) l1 ++ without (f x) l2).
  { unfold without. rewrite List.filter_app. cbn [List.filter]. by rewrite Nat.eqb_refl. }
  rewrite !without_absent; [done|done|]. intros Hin. apply (Hd _ Hin). left.
Qed.
End without.
Lemma bytes_app ws1 ws2 : bytes_of (ws1 ++ ws2) = (bytes_of ws1 + bytes_of ws2)%Z.
Proof. unfold bytes_of. induction ws1 as [|w ws IH]; cbn; [done|]. rewrite IH. lia. Qed.
#[local] Arguments bytes_of : simpl never.

(** * The invariant of a lane *)

Ltac forall_split := repeat first [rewrite Forall_app in * | rewrite Forall_cons in *]; tauto.
(** The tasks of a lane: each once, and the waiting ones in the order they came. *)
Record queue_ok (next : nat) (ws : list waiter) (running : list nat) : Prop := {
  q_fresh : Forall (λ t, t < next)%nat (tasks ws ++ running);
  q_distinct : NoDup (tasks ws ++ running);
  q_order : StronglySorted lt (tasks ws);
  q_sizes : Forall (λ w, 0 ≤ w_bytes w)%Z ws;
}.
Lemma queue_drop next l1 w l2 rs : queue_ok next (l1 ++ w :: l2) rs → queue_ok next (l1 ++ l2) rs.
Proof.
  intros [Hf Hd Ho Hs]. unfold tasks in *. rewrite map_app in *. cbn [map] in *. rewrite <- app_assoc in *. cbn [app] in *.
  constructor; unfold tasks; rewrite ?map_app, <- ?app_assoc.
  - forall_split.
  - rewrite <- Permutation_middle in Hd. by apply NoDup_cons in Hd as [_ Hd].
  - apply StronglySorted_app in Ho as (H1 & H2 & H3). inversion H3; subst.
    apply StronglySorted_app. split_and!; [|done|done]. intros x1 x2 Hx1 Hx2. apply H1; [done|by right].
  - forall_split.
Qed.
Lemma queue_start next w ws rs : queue_ok next (w :: ws) rs → queue_ok next ws (w_task w :: rs).
Proof.
  intros [Hf Hd Ho Hs]. unfold tasks in *. cbn [map app] in *. inversion Ho; subst. inversion Hs; subst.
  constructor; unfold tasks; cbn [map]; [| |done|done].
  - forall_split.
  - rewrite <- Permutation_middle. done.
Qed.
Lemma queue_push next ws rs b d : (0 ≤ b)%Z → queue_ok next ws rs → queue_ok (S next) (ws ++ [MkWaiter next b d]) rs.
Proof.
  intros Hb [Hf Hd Ho Hs]. unfold tasks in *. constructor; unfold tasks; rewrite ?map_app; cbn [map w_task].
  - rewrite <- app_assoc. cbn [app]. rewrite Forall_app in *. rewrite Forall_cons. destruct Hf as [H1 H2].
    split_and!; [eapply Forall_impl; [exact H1|]|lia|eapply Forall_impl; [exact H2|]]; cbn; lia.
  - rewrite <- app_assoc. cbn [app]. rewrite <- Permutation_middle. apply NoDup_cons. split; [|done].
    intros Hin. rewrite Forall_forall in Hf. specialize (Hf _ Hin). cbn in Hf. lia.
  - apply StronglySorted_app. split_and!; [|done|repeat constructor]. intros x1 x2 Hx ->%list_elem_of_singleton.
    rewrite Forall_app, !Forall_forall in Hf. destruct Hf as [Hf _]. exact (Hf _ Hx).
  - rewrite Forall_app. split; [done|]. by repeat constructor.
Qed.
Lemma queue_finish next ws r1 t r2 : queue_ok next ws (r1 ++ t :: r2) → queue_ok next ws (r1 ++ r2).
Proof.
  intros [Hf Hd Ho Hs]. constructor; [| |done|done].
  - forall_split.
  - rewrite app_assoc in *. rewrite <- Permutation_middle in Hd. by apply NoDup_cons in Hd as [_ Hd].
Qed.

Record lane_ok (limits : LaneLimits) (l : lane) : Prop := {
  ok_queue : queue_ok (l_next l) (l_waiting l) (l_running l);
  ok_items : l_queued_items l = Z.of_nat (length (l_waiting l));
  ok_bytes : l_queued_bytes l = bytes_of (l_waiting l);
  ok_active : l_active l = Z.of_nat (length (l_running l));
  ok_slots : (l_slots l + l_active l = concurrency limits ∧ 0 ≤ l_slots l)%Z;
  ok_idle : l_idle l = (l_active l =? 0)%Z && (l_queued_items l =? 0)%Z;
  ok_limits : (l_queued_items l ≤ max_queue_items limits ∧ l_queued_bytes l ≤ max_queue_bytes limits)%Z;
  ok_waits : (0 ≤ l_max_queue_wait l ≤ l_queue_wait l)%Z;
}.

Section lanes.
Context (limits : LaneLimits).
Abbreviation ok := (lane_ok limits).

Lemma new_lane_ok : make_lane_limits limits = Ok limits → ok (new_lane limits).
Proof.
  unfold make_lane_limits. destruct (_ <? _)%Z eqn:E1; [done|]. destruct (_ || _) eqn:E2; [done|]. intros _. bool_hyps.
  constructor; cbn; try done; [repeat constructor|lia..].
Qed.
(** Taking one waiter out of the queue, or one task out of execution. *)
Lemma drop_waiter_split w l : ok l → w ∈ l_waiting l → ∃ l1 l2, l_waiting l = l1 ++ w :: l2 ∧
  l_waiting (drop_waiter (w_task w) l) = l1 ++ l2.
Proof.
  intros Hok Hin. pose proof (q_distinct _ _ _ (ok_queue _ _ Hok)) as Hnd. apply NoDup_app in Hnd as (Hnd & _ & _).
  destruct (without_split w_task w (l_waiting l) Hin Hnd) as (l1 & l2 & Hl & Hw). by exists l1, l2.
Qed.
Lemma running_split t l : ok l → t ∈ l_running l → ∃ r1 r2, l_running l = r1 ++ t :: r2 ∧
  without id t (l_running l) = r1 ++ r2.
Proof.
  intros Hok Hin. pose proof (q_distinct _ _ _ (ok_queue _ _ Hok)) as Hnd. apply NoDup_app in Hnd as (_ & _ & Hnd).
  apply (without_split id t (l_running l) Hin). by rewrite map_id.
Qed.
Lemma enter_ok b d l : ok l → ok (enter limits b d l).2.
Proof.
  intros Hok. unfold enter. destruct (b <? 0)%Z eqn:Eb; [done|]. destruct (_ || _) eqn:E.
  { destruct Hok. by constructor. }
  destruct Hok. cbn [snd]. bool_hyps. constructor; cbn.
  - by apply queue_push.
  - rewrite length_app. cbn. lia.
  - rewrite bytes_app. unfold bytes_of at 2. cbn. lia.
  - done.
  - done.
  - symmetry. apply andb_false_iff. right. apply Z.eqb_neq. lia.
  - lia.
  - done.
Qed.
Lemma set_idle_ok l : ok (l <| l_idle := (l_active l =? 0)%Z && (l_queued_items l =? 0)%Z |>) →
  (l_idle l = true → (l_active l =? 0)%Z && (l_queued_items l =? 0)%Z = true) → ok (set_idle l).
Proof.
  unfold set_idle. intros Hok Hi. destruct ((l_active l =? 0)%Z && _) eqn:E; [done|].
  destruct Hok. constructor; try done. rewrite E. apply not_true_is_false. intros Ht. discriminate (Hi Ht).
Qed.
(** The weights of a queue with one more waiter. *)
Lemma queue_weights l1 w l2 :
  Z.of_nat (length (l1 ++ w :: l2)) = (Z.of_nat (length (l1 ++ l2)) + 1)%Z ∧
  bytes_of (l1 ++ w :: l2) = (bytes_of (l1 ++ l2) + w_bytes w)%Z.
Proof.
  rewrite !length_app, !bytes_app. change (bytes_of (w :: l2)) with (w_bytes w + bytes_of l2)%Z. cbn [length]. split; lia.
Qed.
Lemma waiter_size next ws rs w : queue_ok next ws rs → w ∈ ws → (0 ≤ w_bytes w)%Z.
Proof. intros Hq Hin. pose proof (q_sizes _ _ _ Hq) as Hs. rewrite Forall_forall in Hs. by apply Hs. Qed.
Lemma leave_ok w l : ok l → w ∈ l_waiting l → ok (leave w l).
Proof.
  intros Hok Hin. destruct (drop_waiter_split w l Hok Hin) as (l1 & l2 & Hl & Hd).
  pose proof (waiter_size _ _ _ _ (ok_queue _ _ Hok) Hin) as Hw. destruct (queue_weights l1 w l2) as [Hn Hb].
  destruct Hok. rewrite Hl in *. unfold leave. apply set_idle_ok.
  - constructor; cbn in *; rewrite ?Hd; try first [done|lia|by eapply queue_drop].
  - cbn. rewrite ok_idle0. intros [_ Hq]%andb_true_iff. apply Z.eqb_eq in Hq. lia.
Qed.
Lemma start_ok w ws waited l : ok l → l_waiting l = w :: ws → (0 < l_slots l)%Z → (0 ≤ waited)%Z → ok (start w waited l).
Proof.
  intros Hok Hl Hs Hw. assert (w ∈ l_waiting l) as Hin by (rewrite Hl; left).
  destruct (drop_waiter_split w l Hok Hin) as (l1 & l2 & Hl' & Hd).
  assert (l1 = []) as ->.
  { destruct l1 as [|x l1]; [done|]. rewrite Hl in Hl'. injection Hl' as <- ->.
    pose proof (q_distinct _ _ _ (ok_queue _ _ Hok)) as Hnd. rewrite Hl in Hnd. unfold tasks in Hnd. cbn [map] in Hnd.
    rewrite map_app in Hnd. cbn in Hnd. apply NoDup_cons in Hnd as [Hnin _]. exfalso. apply Hnin.
    rewrite <- app_assoc. apply elem_of_app. right. left. }
  rewrite Hl in Hl'. injection Hl' as <-.
  pose proof (waiter_size _ _ _ _ (ok_queue _ _ Hok) Hin) as Hb.
  assert (bytes_of (w :: ws) = w_bytes w + bytes_of ws)%Z as Hbytes by done. destruct Hok. rewrite Hl in *.
  constructor; cbn in *; rewrite ?Hd; try first [done|lia|by apply queue_start].
  - rewrite ok_idle0. transitivity false; [|symmetry]; apply andb_false_iff; [right|left]; apply Z.eqb_neq; lia.
Qed.
Lemma finish_ok t o l : ok l → t ∈ l_running l → ok (finish t o l).
Proof.
  intros Hok Hin. destruct (running_split t l Hok Hin) as (r1 & r2 & Hr & Hd). unfold without in Hd. cbn in Hd.
  assert (Z.of_nat (length (r1 ++ t :: r2)) = (Z.of_nat (length (r1 ++ r2)) + 1)%Z) as Hn by (rewrite !length_app; cbn; lia).
  destruct Hok. rewrite Hr in *. unfold finish, set_idle.
  assert ((l_active l =? 0)%Z = false) as Ha by (apply Z.eqb_neq; lia). rewrite Ha in ok_idle0. cbn in ok_idle0.
  destruct o; cbn; destruct (_ && _) eqn:E; constructor; cbn in *; rewrite ?Hr, ?Hd; try done; try lia;
    try (by eapply queue_finish); by rewrite E.
Qed.
Lemma step_ok l e l' : ok l → lane_step limits l e l' → ok l'.
Proof.
  intros Hok Hs. destruct Hs as [b d t l' He|b d e l' He|w ws waited Hw Hsl Hwt|w Hin Hd|w Hin|t o Hin].
  - pose proof (enter_ok b d l Hok) as H. by rewrite He in H.
  - pose proof (enter_ok b d l Hok) as H. by rewrite He in H.
  - by eapply start_ok.
  - apply leave_ok; [|done]. by destruct Hok.
  - by apply leave_ok.
  - by apply finish_ok.
Qed.
Lemma run_ok l es l' : ok l → lane_run limits l es l' → ok l'.
Proof. intros Hok. induction 1 as [|es l1 e l2 Hr IH Hs]; [done|]. by eapply step_ok. Qed.

(** * What a run leaves in the counters *)

Definition count (p : event → bool) (es : list event) : Z := Z.of_nat (length (List.filter p es)).
Lemma count_snoc p es e : count p (es ++ [e]) = (count p es + if p e then 1 else 0)%Z.
Proof. unfold count. rewrite List.filter_app, length_app. cbn. destruct (p e); cbn; lia. Qed.
Definition is_submitted (e : event) : bool := match e with Submitted _ => true | _ => false end.
Definition is_overloaded (e : event) : bool := match e with Refused (StoreGatewayError _ _ _) => true | _ => false end.
Definition is_timed_out (e : event) : bool := match e with TimedOut _ => true | _ => false end.
Definition is_withdrawn (e : event) : bool := match e with Withdrawn _ => true | _ => false end.
Definition is_returned (e : event) : bool := match e with Finished _ Returned => true | _ => false end.
Definition is_cancelled (e : event) : bool := match e with Finished _ CancelledInside => true | _ => false end.
Definition is_raised (e : event) : bool := match e with Finished _ RaisedInside => true | _ => false end.
Record accounted (es : list event) (l : lane) : Prop := {
  ac_accepted : l_accepted l = count is_submitted es;
  ac_rejected : l_rejected l = count is_overloaded es;
  ac_completed : l_completed l = count is_returned es;
  ac_cancelled : l_cancelled l = count is_cancelled es;
  ac_timed_out : l_timed_out l = count is_timed_out es;
  ac_total : (l_accepted l = l_completed l + l_cancelled l + l_timed_out l + l_active l + l_queued_items l
              + count is_withdrawn es + count is_raised es)%Z;
}.
Lemma enter_counts b d l r l' : enter limits b d l = (r, l') →
  l_completed l' = l_completed l ∧ l_cancelled l' = l_cancelled l ∧ l_timed_out l' = l_timed_out l ∧ l_active l' = l_active l ∧
  match r with
  | Ok _ => l_accepted l' = (l_accepted l + 1)%Z ∧ l_queued_items l' = (l_queued_items l + 1)%Z ∧ l_rejected l' = l_rejected l
  | Err e => l_accepted l' = l_accepted l ∧ l_queued_items l' = l_queued_items l ∧
      l_rejected l' = (l_rejected l + if is_overloaded (Refused e) then 1 else 0)%Z
  end.
Proof.
  unfold enter. destruct (b <? 0)%Z; [intros [= <- <-]; cbn; split_and!; lia|].
  destruct (_ || _); intros [= <- <-]; cbn; split_and!; lia.
Qed.
Lemma step_accounted es l e l' : accounted es l → lane_step limits l e l' → accounted (es ++ [e]) l'.
Proof.
  intros [] Hs.
  destruct Hs as [b d t l' He%enter_counts|b d e l' He%enter_counts|w ws waited Hw Hsl Hwt|w Hin Hd|w Hin|t o Hin];
    [destruct He as (? & ? & ? & ? & ? & ? & ?)|destruct He as (? & ? & ? & ? & ? & ? & Hrej)|..].
  1: constructor; rewrite !count_snoc; cbn; lia.
  1: constructor; rewrite !count_snoc; cbn [is_submitted is_returned is_cancelled is_timed_out is_withdrawn is_raised]; lia.
  all: try destruct o; constructor; rewrite !count_snoc; unfold start, time_out, leave, finish, set_idle; cbn;
    try (destruct (_ && _); cbn); lia.
Qed.

(** * First come, first served *)

Definition started (es : list event) : list nat := omap (λ e, match e with Started t => Some t | _ => None end) es.
Lemma started_snoc es e : started (es ++ [e]) = started es ++ match e with Started t => [t] | _ => [] end.
Proof. unfold started. rewrite omap_app. by destruct e. Qed.
(** How a step changes the queue. *)
Lemma step_waiting l e l' : ok l → lane_step limits l e l' →
  match e with
  | Submitted t => t = l_next l ∧ l_next l' = S t ∧ ∃ b d, l_waiting l' = l_waiting l ++ [MkWaiter t b d]
  | Refused _ | Finished _ _ => l_next l' = l_next l ∧ l_waiting l' = l_waiting l
  | Started t => l_next l' = l_next l ∧ ∃ w, w_task w = t ∧ l_waiting l = w :: l_waiting l'
  | TimedOut t | Withdrawn t => l_next l' = l_next l ∧ ∃ l1 w l2, w_task w = t ∧ l_waiting l = l1 ++ w :: l2 ∧ l_waiting l' = l1 ++ l2
  end.
Proof.
  intros Hok Hs.
  assert (∀ l, l_waiting (set_idle l) = l_waiting l ∧ l_next (set_idle l) = l_next l) as Hidle.
  { intros x. unfold set_idle. by destruct (_ && _). }
  destruct Hs as [b d t l' He|b d e l' He|w ws waited Hw Hsl Hwt|w Hin Hd|w Hin|t o Hin].
  - revert He. unfold enter. destruct (b <? 0)%Z; [done|]. destruct (_ || _); intros [= <- <-]. eauto.
  - revert He. unfold enter. destruct (b <? 0)%Z; [by intros [= _ <-]|]. destruct (_ || _); by intros [= _ <-].
  - split; [done|]. exists w. split; [done|]. destruct (drop_waiter_split w l Hok) as (l1 & l2 & Hl & Hd); [rewrite Hw; left|].
    assert (l_waiting (start w waited l) = without w_task (w_task w) (l_waiting l)) as -> by done.
    rewrite Hw. f_equal. pose proof (q_distinct _ _ _ (ok_queue _ _ Hok)) as Hnd. rewrite Hw in Hnd.
    apply NoDup_app in Hnd as (Hnd & _ & _). cbn in Hnd. apply NoDup_cons in Hnd as [Hn _].
    transitivity (without w_task (w_task w) ws); [by rewrite without_absent|]. unfold without. cbn. by rewrite Nat.eqb_refl.
  - unfold time_out, leave. cbn [snd]. destruct (Hidle (drop_waiter (w_task w) (l <| l_timed_out ::= Z.succ |>)
      <| l_queued_items ::= Z.pred |> <| l_queued_bytes ::= (λ b, b - w_bytes w)%Z |>)) as [-> ->]. split; [done|].
    destruct (drop_waiter_split w l Hok Hin) as (l1 & l2 & Hl & Hd'). by exists l1, w, l2.
  - unfold leave. destruct (Hidle (drop_waiter (w_task w) l
      <| l_queued_items ::= Z.pred |> <| l_queued_bytes ::= (λ b, b - w_bytes w)%Z |>)) as [-> ->]. split; [done|].
    destruct (drop_waiter_split w l Hok Hin) as (l1 & l2 & Hl & Hd'). by exists l1, w, l2.
  - unfold finish, set_idle. destruct o; cbn; by destruct (_ && _).
Qed.

(** The tasks started so far came before every task that waits. *)
Definition served (es : list event) (l : lane) : Prop :=
  StronglySorted lt (started es ++ tasks (l_waiting l)) ∧ Forall (λ t, t < l_next l)%nat (started es).
Lemma served_drop s l1 w l2 : StronglySorted lt (s ++ tasks (l1 ++ w :: l2)) → StronglySorted lt (s ++ tasks (l1 ++ l2)).
Proof.
  unfold tasks. rewrite !map_app. cbn. rewrite !app_assoc. intros (H1 & H2 & H3)%StronglySorted_app. inversion H3; subst.
  apply StronglySorted_app. split_and!; [|done|done]. intros x1 x2 Hx1 Hx2. apply H1; [done|by right].
Qed.
Lemma step_served es l e l' : ok l → served es l → lane_step limits l e l' → served (es ++ [e]) l'.
Proof.
  intros Hok [Hs Hf] Hst. pose proof (q_fresh _ _ _ (ok_queue _ _ Hok)) as Hfr. rewrite Forall_app in Hfr. destruct Hfr as [Hfr _].
  pose proof (step_waiting _ _ _ Hok Hst) as Hw. unfold served. rewrite started_snoc.
  destruct e as [t|e|t|t|t|t o]; rewrite ?app_nil_r.
  4, 5: destruct Hw as (-> & l1 & w & l2 & <- & Hl & ->); rewrite Hl in Hs; split; [by eapply served_drop|done].
  - destruct Hw as (-> & -> & b & d & ->). split; [|eapply Forall_impl; [exact Hf|]; cbn; lia].
    unfold tasks. rewrite map_app, app_assoc. apply StronglySorted_app. split_and!; [|done|repeat constructor].
    intros x1 x2 Hx ->%list_elem_of_singleton. rewrite Forall_forall in Hf, Hfr. cbn.
    apply elem_of_app in Hx as [Hx|Hx]; [by apply Hf|by apply Hfr].
  - by destruct Hw as [-> ->].
  - destruct Hw as (-> & w & <- & Hl). rewrite Hl in *. cbn in Hs. rewrite <- app_assoc. split; [done|].
    rewrite Forall_app. split; [done|]. cbn in Hfr. inversion Hfr; subst. by constructor.
  - by destruct Hw as [-> ->].
Qed.

(** * Progress *)

Definition arrival (e : event) : bool := match e with Submitted _ | Refused _ => true | _ => false end.
(** Steps the tasks in the lane can still make. *)
Definition work (l : lane) : Z := (2 * l_queued_items l + l_active l)%Z.
Lemma step_work l e l' : lane_step limits l e l' → arrival e = false → (work l' ≤ work l - 1)%Z.
Proof.
  unfold work. destruct 1 as [b d t l' He|b d e l' He|w ws waited Hw Hsl Hwt|w Hin Hd|w Hin|t o Hin]; try done; intros _;
    try destruct o; unfold start, time_out, leave, finish, set_idle; cbn; try (destruct (_ && _); cbn); lia.
Qed.
Lemma run_work l es l' : lane_run limits l es l' → forallb (λ e, negb (arrival e)) es = true →
  (Z.of_nat (length es) + work l' ≤ work l)%Z.
Proof.
  induction 1 as [|es l1 e l2 Hr IH Hs]; [cbn; lia|]. rewrite forallb_app, length_app. cbn [forallb length].
  rewrite andb_true_r. intros [Hq He]%andb_true_iff. apply negb_true_iff in He.
  pose proof (step_work _ _ _ Hs He). specialize (IH Hq). lia.
Qed.
Lemma idle_work l : ok l → l_idle l = true ↔ work l = 0%Z.
Proof.
  intros []. unfold work. rewrite ok_idle0, andb_true_iff, !Z.eqb_eq. lia.
Qed.
(** A task gets its slot, or gives it back. *)
Definition serving (e : event) : bool := match e with Started _ | Finished _ _ => true | _ => false end.
(** A lane that is not idle can start or finish a task. *)
Lemma lane_progress l : (1 ≤ concurrency limits)%Z → ok l → l_idle l = false →
  ∃ e l', lane_step limits l e l' ∧ serving e = true.
Proof.
  intros Hc Hok Hi. destruct (l_running l) as [|t ts] eqn:Hr.
  - destruct (l_waiting l) as [|w ws] eqn:Hw.
    + destruct Hok. rewrite Hr in ok_active0. rewrite Hw in ok_items0. cbn in *. by rewrite ok_idle0, ok_active0, ok_items0 in Hi.
    + exists (Started (w_task w)), (start w 0 l). split; [|done]. eapply step_start; [done| |lia].
      destruct Hok. rewrite Hr in ok_active0. cbn in *. lia.
  - exists (Finished t Returned), (finish t Returned l). split; [|done]. apply step_finish. rewrite Hr. left.
Qed.

(** ** A waiter is overtaken by nobody *)

Definition ahead (t : nat) (ws : list waiter) : nat := length (List.filter (λ w, (w_task w <? t)%nat) ws).
Lemma ahead_app t ws1 ws2 : ahead t (ws1 ++ ws2) = (ahead t ws1 + ahead t ws2)%nat.
Proof. unfold ahead. by rewrite List.filter_app, length_app. Qed.
Lemma ahead_cons t w ws : ahead t (w :: ws) = ((if (w_task w <? t)%nat then 1 else 0) + ahead t ws)%nat.
Proof. unfold ahead. cbn [List.filter]. by destruct (w_task w <? t)%nat. Qed.
Lemma ahead_drop t l1 w l2 : t ∈ tasks (l1 ++ l2) →
  t ∈ tasks (l1 ++ w :: l2) ∧ (ahead t (l1 ++ l2) ≤ ahead t (l1 ++ w :: l2))%nat.
Proof.
  unfold tasks. rewrite !map_app, !ahead_app, ahead_cons. intros Hin. split; [|lia]. cbn.
  apply elem_of_app in Hin as [?|?]; apply elem_of_app; [by left|right; by right].
Qed.
Lemma step_ahead l e l' t : ok l → lane_step limits l e l' → (t < l_next l)%nat → t ∈ tasks (l_waiting l') →
  t ∈ tasks (l_waiting l) ∧ (t < l_next l')%nat ∧
  (ahead t (l_waiting l') + (match e with Started _ => 1 | _ => 0 end) ≤ ahead t (l_waiting l))%nat.
Proof.
  intros Hok Hst Ht Hin. pose proof (step_waiting _ _ _ Hok Hst) as Hw. destruct e as [t'|e|t'|t'|t'|t' o].
  4, 5: destruct Hw as (-> & l1 & w & l2 & _ & Hl & Hl'); rewrite Hl, Hl' in *; destruct (ahead_drop t l1 w l2 Hin); split_and!; [done|done|lia].
  - destruct Hw as (-> & Hn & b & d & Hl). rewrite Hl, Hn in *. unfold tasks in Hin. rewrite map_app in Hin.
    apply elem_of_app in Hin as [Hin|Heq%list_elem_of_singleton]; [|cbn in Heq; lia]. split_and!; [done|lia|].
    rewrite ahead_app, ahead_cons. cbn [w_task]. assert ((l_next l <? t)%nat = false) as -> by (apply Nat.ltb_ge; lia).
    unfold ahead at 2. cbn. lia.
  - destruct Hw as [-> Hl]. rewrite Hl in *. split_and!; [done|done|lia].
  - destruct Hw as (-> & w & <- & Hl). rewrite Hl in *. split_and!; [by right|done|]. rewrite ahead_cons.
    pose proof (q_order _ _ _ (ok_queue _ _ Hok)) as Ho. rewrite Hl in Ho. inversion Ho as [|? ? _ Hlt]; subst.
    rewrite Forall_forall in Hlt. specialize (Hlt t Hin). apply Nat.ltb_lt in Hlt as ->. lia.
  - destruct Hw as [-> Hl]. rewrite Hl in *. split_and!; [done|done|lia].
Qed.
Lemma run_ahead l es l' t : ok l → lane_run limits l es l' → (t < l_next l)%nat → t ∈ tasks (l_waiting l') →
  t ∈ tasks (l_waiting l) ∧ (t < l_next l')%nat ∧
  (ahead t (l_waiting l') + length (started es) ≤ ahead t (l_waiting l))%nat.
Proof.
  intros Hok Hr Ht. induction Hr as [|es l1 e l2 Hr IH Hs]; intros Hin; [cbn; split_and!; [done|done|lia]|].
  assert (t < l_next l1)%nat as Ht1.
  { clear -Hr Ht Hok. induction Hr as [|es l1 e l2 Hr IH Hs]; [done|]. specialize (IH).
    pose proof (step_waiting _ _ _ (run_ok _ _ _ Hok Hr) Hs) as Hw. destruct e; destruct Hw as [Hn Hw]; try (rewrite Hn; done).
    destruct Hw as [Hn' _]. rewrite Hn'. lia. }
  destruct (step_ahead _ _ _ t (run_ok _ _ _ Hok Hr) Hs Ht1 Hin) as (Hin1 & Ht2 & Ha).
  destruct (IH Hin1) as (Hin0 & _ & Ha0). split_and!; [done|done|]. rewrite started_snoc, length_app.
  destruct e; cbn [length] in *; lia.
Qed.
End lanes.

(** * Guarantees of every reachable lane *)

Section guarantees.
Context (limits : LaneLimits) (Hlimits : make_lane_limits limits = Ok limits).
Context (es : list event) (l : lane) (Hrun : lane_run limits (new_lane limits) es l).

Lemma reachable_ok : lane_ok limits l.
Proof. eapply run_ok; [by apply new_lane_ok|done]. Qed.
Lemma limits_concurrency : (1 ≤ concurrency limits)%Z.
Proof. revert Hlimits. unfold make_lane_limits. destruct (_ <? _)%Z eqn:E; [done|]. intros _. by bool_hyps. Qed.
Lemma sizes_nonneg next ws rs : queue_ok next ws rs → (0 ≤ bytes_of ws)%Z.
Proof.
  intros Hq. pose proof (q_sizes _ _ _ Hq) as Hs. clear Hq. induction Hs as [|w ws Hw Hs IH]; [done|].
  change (bytes_of (w :: ws)) with (w_bytes w + bytes_of ws)%Z. lia.
Qed.

(** C16: The bounds and the accounts of a lane. Whatever its tasks do, it never
    runs more operations than its concurrency nor queues more items or bytes
    than its limits, it is marked idle exactly when nothing is queued or
    active, every counter is the number of the events it counts, and every
    accepted task is completed, cancelled, timed out, active, queued, or one of
    those no counter shows: withdrawn from the queue or ended by an exception. *)
Theorem lane_bounds :
  (0 ≤ l_active l ≤ concurrency limits)%Z ∧ (0 ≤ l_queued_items l ≤ max_queue_items limits)%Z ∧
  (0 ≤ l_queued_bytes l ≤ max_queue_bytes limits)%Z ∧ (l_slots l = concurrency limits - l_active l)%Z ∧
  (l_idle l = true ↔ l_active l = 0%Z ∧ l_queued_items l = 0%Z) ∧ accounted es l.
Proof using Hlimits Hrun.
  pose proof reachable_ok as Hok. pose proof (sizes_nonneg _ _ _ (ok_queue _ _ Hok)). destruct Hok.
  assert (accounted es l) as Hac.
  { clear -Hrun. induction Hrun as [|es l1 e l2 Hr IH Hs]; [by constructor|]. eapply step_accounted; [|exact Hs]. by apply IH. }
  rewrite ok_idle0, andb_true_iff, !Z.eqb_eq. split_and!; try lia; try done.
Qed.

(** First come, first served. Tasks enter their operation in the order in
    which they were accepted, and whoever has started came before everyone who
    still waits. *)
Theorem lane_fifo : StronglySorted lt (started es ++ tasks (l_waiting l)).
Proof using Hlimits Hrun.
  enough (served es l) as [? _] by done. pose proof (new_lane_ok _ Hlimits) as H0. clear -Hrun H0.
  induction Hrun as [|es l1 e l2 Hr IH Hs]; [by repeat constructor|].
  eapply step_served; [by eapply run_ok|by apply IH|done].
Qed.

(** C15: A lane with valid limits serves everyone, from every state it reaches.
    Unless it is idle, some task can start its operation or finish it, without any
    waiter withdrawing or timing out.  Without arrivals it makes no more steps than
    twice its queue plus its active tasks, and where no task can start or finish it
    is idle.  With any arrivals, a task that waits behind [n] others is no longer
    waiting once [n + 1] tasks have been started. *)
Theorem lane_serves es' l' :
  lane_run limits l es' l' →
  (l_idle l = false → ∃ e l1, lane_step limits l e l1 ∧ serving e = true) ∧
  (forallb (λ e, negb (arrival e)) es' = true → (Z.of_nat (length es') ≤ 2 * l_queued_items l + l_active l)%Z) ∧
  ((∀ e l1, lane_step limits l' e l1 → serving e = false) → l_idle l' = true) ∧
  (∀ w, w ∈ l_waiting l → (ahead (w_task w) (l_waiting l) < length (started es'))%nat → w_task w ∉ tasks (l_waiting l')).
Proof using Hlimits Hrun.
  intros Hr'. pose proof reachable_ok as Hok. pose proof (run_ok _ _ _ _ Hok Hr') as Hok'.
  split_and!.
  - by apply lane_progress, Hok; apply limits_concurrency.
  - intros Hq. pose proof (run_work _ _ _ _ Hr' Hq) as Hw.
    assert (0 ≤ work l')%Z by (destruct Hok'; unfold work; lia). unfold work in *. lia.
  - intros Hstuck. apply not_false_is_true. intros Hi.
    destruct (lane_progress _ l' limits_concurrency Hok' Hi) as (e & l1 & Hs & Ha). by rewrite (Hstuck _ _ Hs) in Ha.
  - intros w Hw Hlt Hin.
    assert (w_task w < l_next l)%nat as Hfresh.
    { pose proof (q_fresh _ _ _ (ok_queue _ _ Hok)) as Hf. rewrite Forall_app, Forall_forall in Hf. destruct Hf as [Hf _].
      apply Hf. apply list_elem_of_In, in_map. by apply list_elem_of_In. }
    destruct (run_ahead _ _ _ _ _ Hok Hr' Hfresh Hin) as (_ & _ & Ha). lia.
Qed.
End guarantees.

(** * A small lane, evaluated *)

Definition sample_limits : LaneLimits := MkLaneLimits 1 2 100.
(** Two tasks: the first starts, the second waits with a deadline. *)
Definition sample_waiter (t : nat) (d : bool) : waiter := MkWaiter t 10 d.
Definition sample_lane1 : lane := (enter sample_limits 10 false (new_lane sample_limits)).2.
Definition sample_lane2 : lane := start (sample_waiter 0 false) 5 sample_lane1.
Definition sample_lane : lane := (enter sample_limits 10 true sample_lane2).2.
Definition sample_events : list event := (([] ++ [Submitted 0]) ++ [Started 0]) ++ [Submitted 1].
Lemma sample_run : lane_run sample_limits (new_lane sample_limits) sample_events sample_lane.
Proof.
  apply (run_snoc _ _ _ sample_lane2); [apply (run_snoc _ _ _ sample_lane1); [apply (run_snoc _ _ _ (new_lane sample_limits)); [constructor|]|]|].
  - apply (step_submit _ _ 10 false). vm_compute. reflexivity.
  - apply (step_start _ sample_lane1 (sample_waiter 0 false) [] 5); vm_compute; [reflexivity|reflexivity|discriminate].
  - apply (step_submit _ _ 10 true). vm_compute. reflexivity.
Qed.
Lemma lane_bounds_witness : l_active sample_lane = 1%Z ∧ l_queued_bytes sample_lane = 10%Z ∧
  (0 ≤ l_active sample_lane ≤ concurrency sample_limits)%Z ∧ accounted sample_events sample_lane.
Proof.
  pose proof (lane_bounds sample_limits eq_refl sample_events sample_lane sample_run) as (Ha & _ & _ & _ & _ & Hc).
  split; [reflexivity|split; [reflexivity|split; [exact Ha|exact Hc]]].
Defined.
Lemma lane_fifo_witness : StronglySorted lt [0; 1]%nat.
Proof. exact (lane_fifo sample_limits eq_refl sample_events sample_lane sample_run). Defined.
Lemma lane_serves_witness : l_idle sample_lane = false ∧
  ∃ e l1, lane_step sample_limits sample_lane e l1 ∧ serving e = true.
Proof.
  split; [reflexivity|].
  exact (proj1 (lane_serves sample_limits eq_refl sample_events sample_lane sample_run [] sample_lane (run_nil _ _)) eq_refl).
Defined.
