(* ===== verification/Contracts.v ===== *)
(** The records of [cortex_harness/storage/contracts.py]: the states of
    generations, jobs and owners, the physical target of a store, generation
    manifests and ingestion jobs with their persisted forms.  A dataclass does
    not check the types of its fields: those the code does not convert with
    [str] or [int] hold whatever JSON value they were given. *)
From S2P Require Import Prelude Json Text PyValue Models Store.

Definition AttributeError : exn := OtherException "AttributeError".

(** * Enumerations *)

Module GenerationState.
Inductive GenerationState :=
  | BUILDING | VALIDATING | PUBLISHED | FAILED | CANCELLED | RETIRING | RETIRED.
#[export] Instance eq_dec : EqDecision GenerationState.
Proof. solve_decision. Defined.
Definition generation_state_value (s : GenerationState) : string :=
  match s with
  | BUILDING => "BUILDING" | VALIDATING => "VALIDATING" | PUBLISHED => "PUBLISHED"
  | FAILED => "FAILED" | CANCELLED => "CANCELLED" | RETIRING => "RETIRING" | RETIRED => "RETIRED"
  end.
Definition all_generation_states : list GenerationState :=
  [BUILDING; VALIDATING; PUBLISHED; FAILED; CANCELLED; RETIRING; RETIRED].
End GenerationState.
Abbreviation GenerationState := GenerationState.GenerationState.
#[export] Existing Instance GenerationState.eq_dec.

Module IngestionJobState.
Inductive IngestionJobState :=
  | QUEUED | PREPARING | WRITING | VALIDATING | PUBLISHING
  | COMPLETED | FAILED | CANCELLED | AMBIGUOUS | SUPERSEDED.
#[export] Instance eq_dec : EqDecision IngestionJobState.
Proof. solve_decision. Defined.
Definition job_state_value (s : IngestionJobState) : string :=
  match s with
  | QUEUED => "QUEUED" | PREPARING => "PREPARING" | WRITING => "WRITING" | VALIDATING => "VALIDATING"
  | PUBLISHING => "PUBLISHING" | COMPLETED => "COMPLETED" | FAILED => "FAILED" | CANCELLED => "CANCELLED"
  | AMBIGUOUS => "AMBIGUOUS" | SUPERSEDED => "SUPERSEDED"
  end.
Definition all_job_states : list IngestionJobState :=
  [QUEUED; PREPARING; WRITING; VALIDATING; PUBLISHING; COMPLETED; FAILED; CANCELLED; AMBIGUOUS; SUPERSEDED].
(** [terminal] *)
Definition job_terminal (s : IngestionJobState) : bool :=
  match s with COMPLETED | FAILED | CANCELLED | AMBIGUOUS | SUPERSEDED => true | _ => false end.
End IngestionJobState.
Abbreviation IngestionJobState := IngestionJobState.IngestionJobState.
#[export] Existing Instance IngestionJobState.eq_dec.

Module OwnerLifecycleState.
Inductive OwnerLifecycleState := STARTING | RECOVERING | WARMING | READY | DRAINING | STOPPED.
#[export] Instance eq_dec : EqDecision OwnerLifecycleState.
Proof. solve_decision. Defined.
End OwnerLifecycleState.
Abbreviation OwnerLifecycleState := OwnerLifecycleState.OwnerLifecycleState.
#[export] Existing Instance OwnerLifecycleState.eq_dec.

(** [SomeEnum(text)]: the member with that value, or [ValueError]. *)
Definition enum_of_value {A} (value : A → string) (members : list A) (text : string) : res A :=
  match List.find (λ x, String.eqb (value x) text) members with Some x => Ok x | None => Err ValueError end.
Definition generation_state_of_value : string → res GenerationState :=
  enum_of_value GenerationState.generation_state_value GenerationState.all_generation_states.
Definition job_state_of_value : string → res IngestionJobState :=
  enum_of_value IngestionJobState.job_state_value IngestionJobState.all_job_states.

(** * [PhysicalTargetKey] *)

Record PhysicalTargetKey := MkPhysicalTargetKey {
  tk_instance_id : json; tk_owner_id : json; tk_graph_path : json; tk_vector_path : json;
}.
#[export] Instance target_eq_dec : EqDecision PhysicalTargetKey.
Proof. solve_decision. Defined.
(** [asdict(self.target)] *)
Definition target_to_dict (t : PhysicalTargetKey) : dict :=
  [("instance_id", tk_instance_id t); ("owner_id", tk_owner_id t);
   ("graph_path", tk_graph_path t); ("vector_path", tk_vector_path t)]%string.
Definition target_fields : list string := ["instance_id"; "owner_id"; "graph_path"; "vector_path"].
(** [PhysicalTargetKey( **kwargs )]: a missing or an unexpected argument is a
    [TypeError]. *)
Definition target_of_kwargs (kwargs : dict) : res PhysicalTargetKey :=
  if existsb (λ kv : string * json, negb (in_list kv.1 target_fields)) kwargs then Err TypeError
  else match assoc "instance_id" kwargs, assoc "owner_id" kwargs, assoc "graph_path" kwargs, assoc "vector_path" kwargs with
    | Some i, Some o, Some g, Some v => Ok (MkPhysicalTargetKey i o g v)
    | _, _, _, _ => Err TypeError
    end.
(** [from_paths], where [resolve p] is [str(Path(p).resolve())]. *)
Definition from_paths (resolve : string → string) (instance_id owner_id graph_path vector_path : string) : PhysicalTargetKey :=
  MkPhysicalTargetKey (JStr (casefold (strip instance_id))) (JStr (casefold (strip owner_id)))
    (JStr (resolve graph_path)) (JStr (resolve vector_path)).
(** [str.join] and [Path] demand texts. *)
Definition text_of (v : json) : res string := match v with JStr s => Ok s | _ => Err TypeError end.
(** [value] *)
Definition target_value (t : PhysicalTargetKey) : res string :=
  i ← text_of (tk_instance_id t); o ← text_of (tk_owner_id t);
  g ← text_of (tk_graph_path t); v ← text_of (tk_vector_path t);
  mret (join "|" [i; o; g; v]).
(** Paths compare by their components. *)
#[export] Instance list_cmp {A} `{Cmp A} : Cmp (list A) := fix go l1 l2 :=
  match l1, l2 with
  | [], [] => Eq | [], _ :: _ => Lt | _ :: _, [] => Gt
  | x :: l1, y :: l2 => match cmp x y with Eq => go l1 l2 | c => c end
  end.
(** [canonical_paths] *)
Definition canonical_paths (t : PhysicalTargetKey) : res (list string * list string) :=
  g ← text_of (tk_graph_path t); v ← text_of (tk_vector_path t);
  let '(g, v) := (posix_parts g, posix_parts v) in
  mret (if cmp_leb g v then (g, v) else (v, g)).

(** * [GenerationManifest] *)

Definition MANIFEST_SCHEMA_VERSION : Z := 1.
Record GenerationManifest := MkGenerationManifest {
  gm_generation_id : string; gm_target : PhysicalTargetKey; gm_source_revision : string;
  gm_graph_path : string; gm_vector_path : string; gm_state : GenerationState; gm_created_at : string;
  gm_validated_at : json; gm_published_at : json; gm_retired_at : json;
  gm_validation : dict; gm_schema_version : Z;
}.
#[export] Instance manifest_eta : Eta GenerationManifest := λ m,
  MkGenerationManifest (gm_generation_id m) (gm_target m) (gm_source_revision m) (gm_graph_path m)
    (gm_vector_path m) (gm_state m) (gm_created_at m) (gm_validated_at m) (gm_published_at m)
    (gm_retired_at m) (gm_validation m) (gm_schema_version m).
#[export] Instance manifest_eq_dec : EqDecision GenerationManifest.
Proof. solve_decision. Defined.

Definition manifest_to_dict (m : GenerationManifest) : dict :=
  [("generation_id", JStr (gm_generation_id m)); ("target", JObj (target_to_dict (gm_target m)));
   ("source_revision", JStr (gm_source_revision m)); ("graph_path", JStr (gm_graph_path m));
   ("vector_path", JStr (gm_vector_path m)); ("state", JStr (GenerationState.generation_state_value (gm_state m)));
   ("created_at", JStr (gm_created_at m)); ("validated_at", gm_validated_at m);
   ("published_at", gm_published_at m); ("retired_at", gm_retired_at m);
   ("validation", JObj (gm_validation m)); ("schema_version", JInt (gm_schema_version m))]%string.

(** [dict(value)]: a mapping, or a sequence of pairs.  A pair whose key is not
    a text is refused here, where Python only refuses lists and objects. *)
Fixpoint dict_of_pairs (l : list json) (d : dict) : res dict :=
  match l with
  | [] => Ok d
  | JArr [JStr k; v] :: l => dict_of_pairs l (setitem k v d)
  | JArr [_; _] :: _ => Err TypeError
  | JStr (String a (String b EmptyString)) :: l =>
      dict_of_pairs l (setitem (String a EmptyString) (JStr (String b EmptyString)) d)
  | JArr _ :: _ | JStr _ :: _ | JObj _ :: _ => Err ValueError
  | _ :: _ => Err TypeError
  end.
Definition py_dict (v : json) : res dict :=
  match v with
  | JObj d => Ok d
  | JArr l => dict_of_pairs l []
  | JStr s => if is_empty s then Ok [] else Err ValueError
  | _ => Err TypeError
  end.

Definition manifest_from_dict (data : dict) : res GenerationManifest :=
  match get "target" data with
  | JObj target_data =>
      version ← py_int (get_default "schema_version" (JInt 0) data);
      if negb (version =? MANIFEST_SCHEMA_VERSION)%Z then Err ValueError else
      generation_id ← getitem "generation_id" data;
      target ← target_of_kwargs target_data;
      source_revision ← getitem "source_revision" data;
      graph_path ← getitem "graph_path" data;
      vector_path ← getitem "vector_path" data;
      state ← generation_state_of_value (py_str (get_default "state" (JStr "PUBLISHED") data));
      created_at ← getitem "created_at" data;
      validation ← py_dict (py_or (get "validation" data) (JObj []));
      mret (MkGenerationManifest (py_str generation_id) target (py_str source_revision) (py_str graph_path)
              (py_str vector_path) state (py_str created_at) (get "validated_at" data) (get "published_at" data)
              (get "retired_at" data) validation version)
  | _ => Err ValueError
  end.
(** [GenerationManifest.from_dict(json.loads(text))] *)
Definition manifest_of_json (v : json) : res GenerationManifest :=
  match v with JObj data => manifest_from_dict data | _ => Err AttributeError end.

(** * [IngestionJob] *)

Record IngestionJob := MkIngestionJob {
  job_id : json; job_target : PhysicalTargetKey; job_idempotency_key : json; job_source_revision : json;
  job_state : IngestionJobState; job_submitted_at : json; job_updated_at : json; job_queue_position : json;
  job_generation_id : json; job_detail : json; job_cancel_requested_at : json;
}.
#[export] Instance job_eta : Eta IngestionJob := λ j,
  MkIngestionJob (job_id j) (job_target j) (job_idempotency_key j) (job_source_revision j) (job_state j)
    (job_submitted_at j) (job_updated_at j) (job_queue_position j) (job_generation_id j) (job_detail j)
    (job_cancel_requested_at j).
#[export] Instance job_eq_dec : EqDecision IngestionJob.
Proof. solve_decision. Defined.

(** [with_state(state, **changes)]: [changes] may name any field; the state, the
    time and the target are then set over it, and an unknown name is a
    [TypeError]. *)
Definition change_field (j : IngestionJob) (kv : string * json) : res IngestionJob :=
  let '(k, v) := kv in
  if String.eqb k "job_id" then Ok (j <| job_id := v |>)
  else if String.eqb k "idempotency_key" then Ok (j <| job_idempotency_key := v |>)
  else if String.eqb k "source_revision" then Ok (j <| job_source_revision := v |>)
  else if String.eqb k "submitted_at" then Ok (j <| job_submitted_at := v |>)
  else if String.eqb k "queue_position" then Ok (j <| job_queue_position := v |>)
  else if String.eqb k "generation_id" then Ok (j <| job_generation_id := v |>)
  else if String.eqb k "detail" then Ok (j <| job_detail := v |>)
  else if String.eqb k "cancel_requested_at" then Ok (j <| job_cancel_requested_at := v |>)
  else if in_list k ["target"; "updated_at"] then Ok j
  else Err TypeError.
Fixpoint change_fields (j : IngestionJob) (changes : dict) : res IngestionJob :=
  match changes with
  | [] => Ok j
  | kv :: changes => j ← change_field j kv; change_fields j changes
  end.
Definition with_state (j : IngestionJob) (state : IngestionJobState) (changes : dict) (now : string) : res IngestionJob :=
  j ← change_fields j changes;
  mret (j <| job_state := state |> <| job_updated_at := JStr now |>).

Definition job_to_dict (j : IngestionJob) : dict :=
  [("job_id", job_id j); ("target", JObj (target_to_dict (job_target j)));
   ("idempotency_key", job_idempotency_key j); ("source_revision", job_source_revision j);
   ("state", JStr (IngestionJobState.job_state_value (job_state j))); ("submitted_at", job_submitted_at j);
   ("updated_at", job_updated_at j); ("queue_position", job_queue_position j);
   ("generation_id", job_generation_id j); ("detail", job_detail j);
   ("cancel_requested_at", job_cancel_requested_at j)]%string.
(** [f(value) if value is not None else None] *)
Definition if_some (f : json → res json) (v : json) : res json := match v with JNull => Ok JNull | _ => f v end.
Definition str_json (v : json) : json := JStr (py_str v).
Definition job_from_dict (data : dict) : res IngestionJob :=
  match get "target" data with
  | JObj target_data =>
      id ← getitem "job_id" data;
      target ← target_of_kwargs target_data;
      idempotency_key ← getitem "idempotency_key" data;
      source_revision ← getitem "source_revision" data;
      state ← job_state_of_value (py_str (get_default "state" (JStr "QUEUED") data));
      submitted_at ← getitem "submitted_at" data;
      updated_at ← getitem "updated_at" data;
      queue_position ← if_some (λ v, JInt <$> py_int v) (get "queue_position" data);
      generation_id ← if_some (λ v, Ok (str_json v)) (get "generation_id" data);
      detail ← py_dict (py_or (get "detail" data) (JObj []));
      cancel_requested_at ← if_some (λ v, Ok (str_json v)) (get "cancel_requested_at" data);
      mret (MkIngestionJob (str_json id) target (str_json idempotency_key) (str_json source_revision) state
              (str_json submitted_at) (str_json updated_at) queue_position generation_id (JObj detail)
              cancel_requested_at)
  | _ => Err ValueError
  end.

(** * [FreshnessMetadata] *)

Record FreshnessMetadata := MkFreshnessMetadata {
  served_generation : string; served_source_revision : string; last_committed_at : json;
  ingestion_state : option IngestionJobState;
}.
Definition freshness_to_dict (f : FreshnessMetadata) : dict :=
  [("served_generation", JStr (served_generation f)); ("source_revision", JStr (served_source_revision f));
   ("last_committed_at", last_committed_at f);
   ("ingestion_state", match ingestion_state f with
      | Some s => JStr (IngestionJobState.job_state_value s) | None => JNull end)]%string.

(** * Round trips *)

Lemma enum_roundtrip {A} (value : A → string) members x :
  Inj (=) (=) value → x ∈ members → enum_of_value value members (value x) = Ok x.
Proof.
  intros Hinj Hx. unfold enum_of_value.
  destruct (List.find _ members) as [y|] eqn:E.
  - apply List.find_some in E as [_ E]. apply String.eqb_eq in E. apply Hinj in E. congruence.
  - apply list_elem_of_In in Hx. pose proof (List.find_none _ _ E x Hx) as Hn. cbn in Hn.
    by rewrite String.eqb_refl in Hn.
Qed.
#[export] Instance generation_state_value_inj : Inj (=) (=) GenerationState.generation_state_value.
Proof. by intros [] []. Qed.
#[export] Instance job_state_value_inj : Inj (=) (=) IngestionJobState.job_state_value.
Proof. by intros [] []. Qed.
Lemma generation_state_roundtrip s :
  generation_state_of_value (GenerationState.generation_state_value s) = Ok s.
Proof. by destruct s. Qed.
Lemma job_state_roundtrip s : job_state_of_value (IngestionJobState.job_state_value s) = Ok s.
Proof. by destruct s. Qed.
Lemma target_roundtrip t : target_of_kwargs (target_to_dict t) = Ok t.
Proof. by destruct t. Qed.
(** [dict(x or {})] gives back a mapping. *)
Lemma py_dict_or d : py_dict (py_or (JObj d) (JObj [])) = Ok d.
Proof. by destruct d. Qed.
Lemma manifest_roundtrip m : gm_schema_version m = MANIFEST_SCHEMA_VERSION →
  manifest_from_dict (manifest_to_dict m) = Ok m.
Proof.
  intros Hv. destruct m as [id t rev g v st c va pa ra vd ver]. cbn in Hv. subst ver.
  unfold manifest_from_dict. cbn -[py_dict py_or target_of_kwargs generation_state_of_value].
  rewrite target_roundtrip. cbn -[py_dict py_or generation_state_of_value].
  rewrite generation_state_roundtrip. cbn -[py_dict py_or]. by rewrite py_dict_or.
Qed.
