(* ===== verification/Stateful.v ===== *)
(** Methods of mutable Python objects: a computation on the object's state that
    returns or raises, and keeps what was changed before it raised. *)
From S2P Require Import Prelude.

Definition st (S E A : Type) : Type := S → result E A * S.
#[export] Instance st_ret S E : MRet (st S E) := λ A a s, (Ok a, s).
#[export] Instance st_bind S E : MBind (st S E) := λ A B f m s,
  match m s with (Ok a, s') => f a s' | (Err e, s') => (Err e, s') end.

Section st.
Context {S E : Type}.
Definition st_raise {A} (e : E) : st S E A := λ s, (Err e, s).
Definition st_lift {A} (r : result E A) : st S E A := λ s, (r, s).
Definition st_gets {A} (f : S → A) : st S E A := λ s, (Ok (f s), s).
Definition st_modify (f : S → S) : st S E unit := λ s, (Ok (), f s).
(** [if cond: raise e] *)
Definition st_reject (cond : bool) (e : E) : st S E unit := if cond then st_raise e else mret ().
(** [try: m finally: f] *)
Definition st_finally {A} (m : st S E A) (f : st S E unit) : st S E A := λ s,
  let '(r, s1) := m s in let '(r2, s2) := f s1 in
  (match r2 with Err e => Err e | Ok _ => r end, s2).

(** [post m Q s]: whatever [m] does from [s], [Q] holds of its outcome. *)
Definition post {A} (m : st S E A) (Q : result E A → S → Prop) (s : S) : Prop := Q (m s).1 (m s).2.

Lemma post_ret {A} (a : A) (Q : result E A → S → Prop) s : Q (Ok a) s → post (mret a) Q s.
Proof. done. Qed.
Lemma post_raise {A} e (Q : result E A → S → Prop) s : Q (Err e) s → post (st_raise e) Q s.
Proof. done. Qed.
Lemma post_lift {A} (r : result E A) (Q : result E A → S → Prop) s : Q r s → post (st_lift r) Q s.
Proof. done. Qed.
Lemma post_gets {A} (f : S → A) (Q : result E A → S → Prop) s : Q (Ok (f s)) s → post (st_gets f) Q s.
Proof. done. Qed.
Lemma post_modify f (Q : result E unit → S → Prop) s : Q (Ok ()) (f s) → post (st_modify f) Q s.
Proof. done. Qed.
Lemma post_reject b e (Q : result E unit → S → Prop) s :
  (b = true → Q (Err e) s) → (b = false → Q (Ok ()) s) → post (st_reject b e) Q s.
Proof. unfold st_reject. destruct b; intros H1 H2; [by apply H1|by apply H2]. Qed.
Lemma post_bind {A B} (m : st S E A) (f : A → st S E B) Q s :
  post m (λ r s', match r with Ok a => post (f a) Q s' | Err e => Q (Err e) s' end) s →
  post (mbind f m) Q s.
Proof. unfold post, mbind, st_bind. by destruct (m s) as [[a|e] s']. Qed.
Lemma post_finally {A} (m : st S E A) (f : st S E unit) Q s :
  post m (λ r s', post f (λ r2 s2, Q (match r2 with Err e => Err e | Ok _ => r end) s2) s') s →
  post (st_finally m f) Q s.
Proof. unfold post, st_finally. destruct (m s) as [r s1]. cbn. by destruct (f s1). Qed.
Lemma post_mono {A} (m : st S E A) (Q Q' : result E A → S → Prop) s :
  post m Q s → (∀ r s', Q r s' → Q' r s') → post m Q' s.
Proof. unfold post. auto. Qed.
Lemma post_elim {A} (m : st S E A) (Q : result E A → S → Prop) s r s' : post m Q s → m s = (r, s') → Q r s'.
Proof. unfold post. intros Hp He. by rewrite He in Hp. Qed.
Lemma post_intro {A} (m : st S E A) (Q : result E A → S → Prop) s :
  (∀ r s', m s = (r, s') → Q r s') → post m Q s.
Proof. unfold post. intros HQ. by apply HQ, surjective_pairing. Qed.

(** [keeps_view f m]: [m] leaves the part [f] of the state alone. *)
Definition keeps_view {T A} (f : S → T) (m : st S E A) : Prop := ∀ s, f (m s).2 = f s.
Section keeps_view.
Context {T : Type} (f : S → T).
Lemma kv_ret {A} (a : A) : keeps_view f (mret a : st S E A).
Proof. by intros s. Qed.
Lemma kv_raise {A} e : keeps_view f (st_raise (A:=A) e).
Proof. by intros s. Qed.
Lemma kv_lift {A} (r : result E A) : keeps_view f (st_lift r).
Proof. by intros s. Qed.
Lemma kv_gets {A} (g : S → A) : keeps_view f (st_gets g).
Proof. by intros s. Qed.
Lemma kv_modify g : (∀ s, f (g s) = f s) → keeps_view f (st_modify g).
Proof. intros Hg s. apply Hg. Qed.
Lemma kv_reject b e : keeps_view f (st_reject b e).
Proof. unfold st_reject. by destruct b. Qed.
Lemma kv_bind {A B} (m : st S E A) (k : A → st S E B) :
  keeps_view f m → (∀ a, keeps_view f (k a)) → keeps_view f (mbind k m).
Proof.
  intros Hm Hk s. unfold mbind, st_bind. specialize (Hm s). destruct (m s) as [[a|e] s']; cbn in *; [|done].
  by rewrite Hk.
Qed.
Lemma kv_elim {A} (m : st S E A) s r s' : keeps_view f m → m s = (r, s') → f s' = f s.
Proof. intros Hm He. specialize (Hm s). by rewrite He in Hm. Qed.
End keeps_view.
End st.

(** Inversion of outcomes that does not take their values apart. *)
Lemma Ok_inj {E A} (a b : A) : Ok (E:=E) a = Ok b → a = b.
Proof. by injection 1. Qed.
(** Runs through a computation to the states it can end in. *)
Ltac post_step :=
  lazymatch goal with
  | |- post (mbind _ _) _ _ => apply post_bind
  | |- post (mret _) _ _ => apply post_ret
  | |- post (st_raise _) _ _ => apply post_raise
  | |- post (st_lift _) _ _ => apply post_lift
  | |- post (st_gets _) _ _ => apply post_gets
  | |- post (st_modify _) _ _ => apply post_modify
  | |- post (st_reject _ _) _ _ => apply post_reject; intros ?
  | |- post (st_finally _ _) _ _ => apply post_finally
  | |- post (if ?b then _ else _) _ _ => destruct b eqn:?
  | |- post (match ?x with _ => _ end) _ _ => destruct x eqn:?
  | |- match ?x with Ok _ => _ | Err _ => _ end => destruct x eqn:?
  end.
Ltac post_steps := repeat (post_step; cbv beta iota).
Create HintDb kept_views.
(** Runs through a computation that leaves a view alone. *)
Ltac kv_step :=
  lazymatch goal with
  | |- keeps_view _ (mbind _ _) => apply kv_bind; [|intros ?]
  | |- keeps_view _ (mret _) => apply kv_ret
  | |- keeps_view _ (st_raise _) => apply kv_raise
  | |- keeps_view _ (st_lift _) => apply kv_lift
  | |- keeps_view _ (st_gets _) => apply kv_gets
  | |- keeps_view _ (st_modify _) => apply kv_modify; done
  | |- keeps_view _ (st_reject _ _) => apply kv_reject
  | |- keeps_view _ (if ?b then _ else _) => destruct b
  | |- keeps_view _ (match ?x with _ => _ end) => destruct x
  | |- keeps_view _ _ => solve [eauto with kept_views]
  end.
Ltac kv_steps := repeat kv_step.
