(* ===== verification/Generation.v ===== *)
(** [GenerationManager] of [cortex_harness/storage/generation.py]: which
    generation of a graph/vector pair readers use.  A generation is built below
    its own directory, published by an atomic write of the active pointer, and
    retired once no reader pins it.  Each method is cut where it takes and
    releases the publication lock: [Generations.v] interleaves the pieces. *)
From S2P Require Import Prelude Json Text PyValue Models Store Artifacts Contracts Stateful.

(** * What is on disk and what is in memory

    A metadata file holds the JSON value its text stands for.  Generations are
    named by their identifiers: a record file, and the directory it lies in. *)
Record files := MkFiles {
  f_pointer : option json; (* active-generation.json *)
  f_pointer_tmp : bool; (* active-generation.tmp exists *)
  f_records : gmap string json; (* generations/<id>/generation.json *)
  f_trees : gset string; (* generations/<id> *)
  f_marks : gmap string json; (* generation-compatibility/<id>.json *)
  f_tombstones : gmap string json; (* retired-generations/<id>.json *)
}.
#[export] Instance files_eta : Eta files := λ f,
  MkFiles (f_pointer f) (f_pointer_tmp f) (f_records f) (f_trees f) (f_marks f) (f_tombstones f).
(** [_references], [_retiring], [_active_cache] and [_active_cache_loaded] *)
Record memory := MkMemory {
  mem_references : gmap string Z; mem_retiring : gset string;
  mem_cache : option GenerationManifest; mem_loaded : bool;
}.
#[export] Instance memory_eta : Eta memory := λ m,
  MkMemory (mem_references m) (mem_retiring m) (mem_cache m) (mem_loaded m).
Record manager := MkManager { g_files : files; g_memory : memory }.
#[export] Instance manager_eta : Eta manager := λ g, MkManager (g_files g) (g_memory g).
Definition fresh_memory : memory := MkMemory ∅ ∅ None false.
Definition empty_files : files := MkFiles None false ∅ ∅ ∅ ∅.

Abbreviation M := (st manager exn).
(** How a write to a temporary file, its [os.replace] and the synchronisation of
    the directory end: all done; nothing done; failed once the directory was
    there; failed once the file was replaced. *)
Inductive io_outcome : Type := Written | Refused | Failed | FailedLate.
Definition durable_write (o : io_outcome) (partial effect : files → files) : M unit :=
  match o with
  | Written => st_modify (λ g, g <| g_files ::= effect |>)
  | Refused => st_raise OSError
  | Failed => _ ← st_modify (λ g, g <| g_files ::= partial |>); st_raise OSError
  | FailedLate => _ ← st_modify (λ g, g <| g_files ::= effect |>); st_raise OSError
  end.

(** [re.fullmatch(r"[A-Za-z0-9][A-Za-z0-9._-]{0,127}", value)] *)
Definition is_alnum (c : ascii) : bool := is_letter c || is_digit c.
Definition safe_id_char (c : ascii) : bool :=
  is_alnum c || Ascii.eqb c "." || Ascii.eqb c "_" || Ascii.eqb c "-".
Definition _safe_generation_id (value : string) : res string :=
  match value with
  | String c rest =>
      if is_alnum c && all_chars safe_id_char rest && (String.length rest <=? 127)%nat then Ok value else Err ValueError
  | EmptyString => Err ValueError
  end.
(** [a == b] for JSON values: objects compare without regard to order. *)
Definition json_equal (a b : json) : bool := bool_decide (sort_keys a = sort_keys b).
(** What [json.dump(manifest.to_dict(), sort_keys=True)] writes. *)
Definition stored (m : GenerationManifest) : json := sort_keys (JObj (manifest_to_dict m)).

Section manager.
(** [self.root], [self.target], [_storage_compatibility_for]; the working
    directory; [os.path.realpath] and [os.path.islink] of absolute paths. *)
Context (root : path) (target : PhysicalTargetKey) (compatibility_for : string → res dict).
Context (cwd : path) (realpath : path → path) (is_symlink : path → bool).

Definition generations_root : path := root ++ ["generations"].
(** [Path(text).resolve()] *)
Definition resolve_text (text : string) : path :=
  match posix_parts text with
  | p :: ps => if startswith "/" p then realpath ps else realpath (cwd ++ p :: ps)
  | [] => realpath cwd
  end.
(** [str(path)] *)
Definition path_text (p : path) : string := "/" +:+ join "/" p.

Definition _generation_root (generation_id : string) : res path :=
  id ← _safe_generation_id generation_id;
  let lexical_root := generations_root ++ [id] in
  if is_symlink lexical_root then Err ValueError
  else
    let resolved_root := realpath lexical_root in
    match below (realpath generations_root) resolved_root with
    | Some _ => Ok resolved_root
    | None => Err ValueError
    end.
Definition _validate_paths (m : GenerationManifest) : res unit :=
  generation_root ← _generation_root (gm_generation_id m);
  if bool_decide (resolve_text (gm_graph_path m) = generation_root ++ ["graph"; "data.rdb"])
     && bool_decide (resolve_text (gm_vector_path m) = generation_root ++ ["vector"])
  then Ok () else Err ValueError.
Definition _validate_storage_target (m : GenerationManifest) : res unit :=
  expected ← compatibility_for (gm_generation_id m);
  match expected with
  | [] => Ok ()
  | _ => match get "storage_compatibility" (gm_validation m) with
         | JObj actual => if json_equal (JObj actual) (JObj expected) then Ok () else Err ValueError
         | _ => Err ValueError
         end
  end.

(** [incompatibility] *)
Definition incompatibility (generation_id : string) : M (option dict) :=
  id ← st_lift (_safe_generation_id generation_id);
  marks ← st_gets (λ g, f_marks (g_files g));
  match marks !! id with
  | None => mret None
  | Some (JObj payload) =>
      match get "compatible" payload with JBool false => mret (Some payload) | _ => st_raise ValueError end
  | Some _ => st_raise AttributeError
  end.
(** [if self.incompatibility(...) is not None: raise ValueError] *)
Definition require_compatible (generation_id : string) : M unit :=
  marker ← incompatibility generation_id;
  match marker with None => mret () | Some _ => st_raise ValueError end.

Definition set_cache (cache : option GenerationManifest) : M unit :=
  st_modify (λ g, g <| g_memory ::= λ m, m <| mem_cache := cache |> <| mem_loaded := true |> |>).
Definition forget_cache : M unit :=
  st_modify (λ g, g <| g_memory ::= λ m, m <| mem_cache := None |> <| mem_loaded := false |> |>).

(** The checks [_load_active_unlocked] makes on what it read. *)
Definition check_active (m : GenerationManifest) : M unit :=
  _ ← st_reject (negb (bool_decide (gm_target m = target))
                 || negb (bool_decide (gm_state m = GenerationState.PUBLISHED))) ValueError;
  _ ← st_lift (_validate_storage_target m);
  _ ← st_lift (_validate_paths m);
  require_compatible (gm_generation_id m).
Definition _load_active_unlocked : M (option GenerationManifest) :=
  memory ← st_gets g_memory;
  if mem_loaded memory then mret (mem_cache memory)
  else
    pointer ← st_gets (λ g, f_pointer (g_files g));
    match pointer with
    | None => _ ← set_cache None; mret None
    | Some payload =>
        m ← st_lift (manifest_of_json payload);
        _ ← check_active m;
        _ ← set_cache (Some m);
        mret (Some m)
    end.
Definition load_active : M (option GenerationManifest) := _load_active_unlocked.
Definition recover : M (option GenerationManifest) :=
  _ ← forget_cache;
  active ← _load_active_unlocked;
  _ ← st_modify (λ g, g <| g_files ::= λ f, f <| f_pointer_tmp := false |> |>);
  mret active.

Definition mark_payload (generation_id reason provenance : string) : json :=
  JObj [("schema_version", JStr "1"); ("generation_id", JStr generation_id); ("compatible", JBool false);
        ("reason", JStr reason); ("provenance", JStr provenance)].
Definition mark_incompatible (o : io_outcome) (generation_id reason provenance : string) : M unit :=
  _ ← st_reject (is_empty (strip reason)) ValueError;
  id ← st_lift (_safe_generation_id generation_id);
  _ ← durable_write o (λ f, f)
        (λ f, f <| f_marks ::= <[id := sort_keys (mark_payload generation_id reason provenance)]> |>);
  cache ← st_gets (λ g, mem_cache (g_memory g));
  match cache with
  | Some m => if String.eqb (gm_generation_id m) generation_id then forget_cache else mret ()
  | None => mret ()
  end.

(** [_write_generation_record] *)
Definition _write_generation_record (o : io_outcome) (m : GenerationManifest) : M unit :=
  _ ← st_lift (_generation_root (gm_generation_id m));
  let mkdir (f : files) := f <| f_trees ::= λ t, {[gm_generation_id m]} ∪ t |> in
  durable_write o mkdir (λ f, mkdir f <| f_records ::= <[gm_generation_id m := stored m]> |>).
(** [allocate]; [generation_id] is the given one or a fresh [uuid4().hex]. *)
Definition allocate (o : io_outcome) (source_revision generation_id now : string) : M GenerationManifest :=
  id ← st_lift (_safe_generation_id generation_id);
  let generation_root := generations_root ++ [id] in
  compatibility ← st_lift (compatibility_for id);
  let m := MkGenerationManifest id target source_revision
      (path_text (generation_root ++ ["graph"; "data.rdb"])) (path_text (generation_root ++ ["vector"]))
      GenerationState.BUILDING now JNull JNull JNull
      (match compatibility with [] => [] | _ => [("storage_compatibility", JObj compatibility)]%string end)
      MANIFEST_SCHEMA_VERSION in
  _ ← _write_generation_record o m;
  mret m.

(** * [publish], between its locks

    [validate] is the caller's callback: it raises, or leaves [validation] as it
    pleases. *)
Definition publish_prepare (m : GenerationManifest) (validate : GenerationManifest → res dict) (now1 now2 : string)
    : M GenerationManifest :=
  _ ← st_reject (negb (bool_decide (gm_target m = target))) ValueError;
  _ ← st_lift (_validate_storage_target m);
  _ ← st_lift (_validate_paths m);
  _ ← require_compatible (gm_generation_id m);
  validation ← st_lift (validate m);
  let m := m <| gm_validation := validation |> in
  _ ← st_lift (_validate_storage_target m);
  compatibility ← st_lift (compatibility_for (gm_generation_id m));
  let published := m
    <| gm_state := GenerationState.PUBLISHED |>
    <| gm_validated_at := py_or (gm_validated_at m) (JStr now1) |>
    <| gm_published_at := JStr now2 |>
    <| gm_validation := match compatibility with
       | [] => validation
       | _ => setitem "storage_compatibility" (JObj compatibility) validation end |> in
  _ ← st_lift (_validate_storage_target published);
  mret published.
(** [if self._retired_path(id).is_file(): raise ValueError] *)
Definition require_not_retired (generation_id : string) : M unit :=
  id ← st_lift (_safe_generation_id generation_id);
  tombstones ← st_gets (λ g, f_tombstones (g_files g));
  st_reject (bool_decide (is_Some (tombstones !! id))) ValueError.
(** The first section under the lock. *)
Definition publish_fence (published : GenerationManifest) : M unit :=
  require_not_retired (gm_generation_id published).
(** Between the sections. *)
Definition publish_record (o : io_outcome) (published : GenerationManifest) : M unit :=
  _write_generation_record o published.
Definition _write_active_manifest_unlocked (o : io_outcome) (m : GenerationManifest) : M unit :=
  durable_write o (λ f, f <| f_pointer_tmp := true |>)
    (λ f, f <| f_pointer := Some (stored m) |> <| f_pointer_tmp := false |>).
(** [_write_active_manifest], a helper no other method calls. *)
Definition _write_active_manifest (o : io_outcome) (m : GenerationManifest) : M unit :=
  _ ← _write_active_manifest_unlocked o m;
  set_cache (Some m).
(** The second section under the lock. *)
Definition publish_select (o : io_outcome) (published : GenerationManifest) : M unit :=
  _ ← st_lift (_validate_storage_target published);
  _ ← st_lift (_validate_paths published);
  retiring ← st_gets (λ g, mem_retiring (g_memory g));
  _ ← st_reject (bool_decide (gm_generation_id published ∈ retiring)) ValueError;
  _ ← require_not_retired (gm_generation_id published);
  records ← st_gets (λ g, f_records (g_files g));
  _ ← st_lift (_generation_root (gm_generation_id published));
  _ ← st_reject (negb (bool_decide (is_Some (records !! gm_generation_id published)))) ValueError;
  _ ← require_compatible (gm_generation_id published);
  _ ← _write_active_manifest_unlocked o published;
  set_cache (Some published).
(** [publish], run without interruption. *)
Definition publish (o1 o2 : io_outcome) (m : GenerationManifest) (validate : GenerationManifest → res dict)
    (now1 now2 : string) : M GenerationManifest :=
  published ← publish_prepare m validate now1 now2;
  _ ← publish_fence published;
  _ ← publish_record o1 published;
  _ ← publish_select o2 published;
  mret published.

(** * Readers *)

(** [pin_active] up to its [yield], and its [finally] block. *)
Definition pin_active : M GenerationManifest :=
  active ← _load_active_unlocked;
  match active with
  | None => st_raise RuntimeError
  | Some m =>
      _ ← st_modify (λ g, g <| g_memory ::= λ mem, mem <| mem_references ::= λ refs,
            <[gm_generation_id m := default 0 (refs !! gm_generation_id m) + 1]> refs |> |>)%Z;
      mret m
  end.
Definition unpin_references (id : string) (refs : gmap string Z) : gmap string Z :=
  let current := default 0%Z (refs !! id) in
  if (current <=? 1)%Z then delete id refs else <[id := (current - 1)%Z]> refs.
Definition unpin (m : GenerationManifest) : M unit :=
  st_modify (λ g, g <| g_memory ::= λ mem, mem <| mem_references ::= unpin_references (gm_generation_id m) |> |>).
Definition reference_count (generation_id : string) : M Z :=
  st_gets (λ g, default 0%Z (mem_references (g_memory g) !! generation_id)).

(** * [retire], between its locks *)

Definition tombstone_payload (generation_id now : string) : json :=
  JObj [("schema_version", JInt 1); ("generation_id", JStr generation_id); ("retired_at", JStr now)].
Definition _write_retired_tombstone_unlocked (o : io_outcome) (m : GenerationManifest) (now : string) : M unit :=
  id ← st_lift (_safe_generation_id (gm_generation_id m));
  durable_write o (λ f, f) (λ f, f <| f_tombstones ::= <[id := sort_keys (tombstone_payload id now)]> |>).
(** The first section under the lock: is the generation to be removed? *)
Definition retire_begin (o : io_outcome) (m : GenerationManifest) (now : string) : M bool :=
  let id := gm_generation_id m in
  _ ← st_lift (_validate_paths m);
  active ← _load_active_unlocked;
  if match active with Some a => String.eqb (gm_generation_id a) id | None => false end then mret false
  else
    memory ← st_gets g_memory;
    if negb (default 0 (mem_references memory !! id) =? 0)%Z then mret false
    else if bool_decide (id ∈ mem_retiring memory) then mret false
    else
      _ ← _write_retired_tombstone_unlocked o m now;
      _ ← st_modify (λ g, g <| g_memory ::= λ mem, mem <| mem_retiring ::= λ r, {[id]} ∪ r |> |>);
      mret true.
(** How [shutil.rmtree] ends: it may fail before or after the record is gone. *)
Inductive rmtree_outcome : Type := Removed | PartlyRemoved (record_gone : bool).
Definition retire_remove (o : rmtree_outcome) (m : GenerationManifest) : M unit :=
  let id := gm_generation_id m in
  trees ← st_gets (λ g, f_trees (g_files g));
  if negb (bool_decide (id ∈ trees)) then mret ()
  else
    let drop_record (f : files) := f <| f_records ::= delete id |> in
    match o with
    | Removed => st_modify (λ g, g <| g_files ::= λ f, drop_record f <| f_trees ::= λ t, t ∖ {[id]} |> |>)
    | PartlyRemoved gone =>
        _ ← st_modify (λ g, if gone then g <| g_files ::= drop_record |> else g);
        st_raise OSError
    end.
(** The [finally] block. *)
Definition retire_end (m : GenerationManifest) : M unit :=
  st_modify (λ g, g <| g_memory ::= λ mem, mem <| mem_retiring ::= λ r, r ∖ {[gm_generation_id m]} |> |>).
(** [retire], run without interruption. *)
Definition retire (o : io_outcome) (rm : rmtree_outcome) (m : GenerationManifest) (now : string) : M bool :=
  begun ← retire_begin o m now;
  if negb begun then mret false
  else
    _ ← st_lift (_generation_root (gm_generation_id m));
    st_finally (_ ← retire_remove rm m; mret true) (retire_end m).
End manager.

(** [ensure_disk_capacity]: [int(required_bytes * 0.20)] multiplies doubles;
    [0.20] is [3602879701896397 / 2 ^ 54]. *)
Definition safety_bytes (required_bytes : Z) : Z :=
  Z.shiftr (nearest_double (nearest_double required_bytes * 3602879701896397)) 54.
Definition ensure_disk_capacity (free_bytes required_bytes : Z) : res unit :=
  if (required_bytes <? 0)%Z then Err ValueError
  else if (free_bytes <? required_bytes + safety_bytes required_bytes)%Z then Err OSError else Ok ().
