(* ===== verification/Generations.v ===== *)
(** Publication, reading and retirement of generations, interleaved.  The
    sections of [GenerationManager]'s methods that run under the publication
    lock are atomic steps of threads; what they do between them, file writes
    that fail and crashes of the process are steps too. *)
From S2P Require Import Prelude Json Text PyValue Models Store Artifacts Contracts Stateful Generation.

(** * Reading back what was written *)

Lemma insert_by_least {A} (x : string * A) l :
  Forall (by_key fst x) l → insert_by fst x l = x :: l.
Proof.
  destruct l as [|y l]; [done|]. intros Hx. inversion Hx; subst. cbn.
  by replace (cmp_leb x.1 y.1) with true by (symmetry; by apply cmp_leb_le).
Qed.
Lemma order_by_of_sorted {A} (l : list (string * A)) : StronglySorted (by_key fst) l → order_by fst l = l.
Proof.
  induction 1 as [|x l Hs IH Hx]; [done|]. change (order_by fst (x :: l)) with (insert_by fst x (order_by fst l)).
  by rewrite IH, insert_by_least.
Qed.
Lemma sort_keys_idemp v : sort_keys (sort_keys v) = sort_keys v.
Proof.
  induction v as [| | | | |l IH|l IH] using json_ind'; try done; cbn; f_equal.
  - rewrite map_map. induction IH as [|v l Hv IH]; [done|]. cbn. by rewrite Hv, IHIH.
  - assert (map (λ kv : string * json, (kv.1, sort_keys kv.2)) (order_by fst (map (λ kv, (kv.1, sort_keys kv.2)) l))
      = order_by fst (map (λ kv, (kv.1, sort_keys kv.2)) l)) as ->.
    { assert (Forall (λ kv : string * json, sort_keys kv.2 = kv.2)
        (order_by fst (map (λ kv, (kv.1, sort_keys kv.2)) l))) as Hf.
      { rewrite order_by_perm. apply List.Forall_map. eapply Forall_impl; [exact IH|]. intros kv Hkv. exact Hkv. }
      induction Hf as [|[k v] l' Hv _ IHf]; [done|]. cbn in *. by rewrite Hv, IHf. }
    apply order_by_of_sorted, order_by_strongly_sorted.
Qed.

(** A manifest as it comes back from its file. *)
Definition sorted_target (t : PhysicalTargetKey) : PhysicalTargetKey :=
  MkPhysicalTargetKey (sort_keys (tk_instance_id t)) (sort_keys (tk_owner_id t))
    (sort_keys (tk_graph_path t)) (sort_keys (tk_vector_path t)).
Definition sorted_manifest (m : GenerationManifest) : GenerationManifest :=
  m <| gm_target ::= sorted_target |> <| gm_validated_at ::= sort_keys |> <| gm_published_at ::= sort_keys |>
    <| gm_retired_at ::= sort_keys |> <| gm_validation ::= sorted_dict |>.
Lemma sorted_dict_idemp d : sorted_dict (sorted_dict d) = sorted_dict d.
Proof. pose proof (sort_keys_idemp (JObj d)) as H. cbn in H. by injection H. Qed.
Lemma manifest_of_stored m : gm_schema_version m = MANIFEST_SCHEMA_VERSION →
  manifest_of_json (stored m) = Ok (sorted_manifest m).
Proof.
  intros Hv. unfold stored. cbn [sort_keys manifest_of_json].
  unfold manifest_from_dict, getitem, get_default, get. fold (sorted_dict (manifest_to_dict m)).
  unfold sorted_dict. rewrite !assoc_order_by, !assoc_map.
  destruct m as [id [ti to tg tv] rev g v st c va pa ra vd ver]. cbn in Hv. subst ver.
  cbn -[py_dict py_or target_of_kwargs generation_state_of_value order_by].
  unfold target_of_kwargs.
  cbn -[py_dict py_or generation_state_of_value sort_keys].
  rewrite generation_state_roundtrip. cbn -[py_dict py_or sort_keys].
  by rewrite py_dict_or.
Qed.
Lemma target_sorted t : sort_keys (JObj (target_to_dict (sorted_target t))) = sort_keys (JObj (target_to_dict t)).
Proof. destruct t. cbn. by rewrite !sort_keys_idemp. Qed.
Lemma stored_sorted m : stored (sorted_manifest m) = stored m.
Proof.
  unfold stored. cbn [sort_keys]. do 2 f_equal. destruct m as [id t rev g v st c va pa ra vd ver].
  cbn -[sort_keys target_to_dict sorted_target]. rewrite !sort_keys_idemp, target_sorted.
  change (sort_keys (JObj (foldr (insert_by fst) [] (map (λ kv : string * json, (kv.1, sort_keys kv.2)) vd))))
    with (sort_keys (sort_keys (JObj vd))). by rewrite sort_keys_idemp.
Qed.
(** A manifest written by the manager is read back as it was, with the keys
    of its nested objects sorted; reading it back once more changes nothing. *)
Theorem manifest_reads_back (m : GenerationManifest) (Hv : gm_schema_version m = MANIFEST_SCHEMA_VERSION) :
  manifest_of_json (stored m) = Ok (sorted_manifest m) ∧ stored (sorted_manifest m) = stored m ∧
  sorted_manifest (sorted_manifest m) = sorted_manifest m.
Proof.
  pose proof (manifest_of_stored m Hv) as H1. pose proof (manifest_of_stored (sorted_manifest m) Hv) as H2.
  rewrite stored_sorted, H1 in H2. split_and!; [done|apply stored_sorted|].
  symmetry. exact (f_equal (λ r, match r with Ok a => a | Err _ => m end) H2).
Qed.
Lemma stored_id m1 m2 : stored m1 = stored m2 → gm_generation_id m1 = gm_generation_id m2.
Proof.
  intros H. apply (f_equal (λ v, match v with JObj d => get "generation_id" d | _ => JNull end)) in H.
  unfold stored in H. cbn [sort_keys] in H. fold (sorted_dict (manifest_to_dict m1)) (sorted_dict (manifest_to_dict m2)) in H.
  rewrite !get_sorted in H. by injection H.
Qed.

(** * Interleavings *)

Section generations.
Context (root : path) (target : PhysicalTargetKey) (compatibility_for : string → res dict).
Context (cwd : path) (realpath : path → path) (is_symlink : path → bool).
(** The target's fields are texts, as [PhysicalTargetKey.from_paths] makes them. *)
Context (Htarget : sorted_target target = target).

(** What a thread still has to do: [publish] past its checks, its first lock,
    its record; [retire] before and after the directory is removed. *)
Inductive work : Type :=
  | Checked (m : GenerationManifest) | Fenced (m : GenerationManifest) | Recorded (m : GenerationManifest)
  | Removing (m : GenerationManifest) | Ending (m : GenerationManifest).
(** The manager, the methods in progress and the readers inside [pin_active]. *)
Record system := MkSystem { sys_manager : manager; sys_work : list work; sys_pins : list GenerationManifest }.
Inductive event : Type :=
  | Published (m : GenerationManifest) | Pinned (m : GenerationManifest) | Marked (id : string)
  | Retired (id : string) | Crashed | Internal.

(** May the synchronisation of the directory fail after the active pointer was
    replaced? Every other write may fail in every way. *)
Definition allowed (late : bool) (o : io_outcome) : Prop := o = FailedLate → late = true.
Abbreviation pin_active := (pin_active root target compatibility_for cwd realpath is_symlink).
Abbreviation publish_prepare := (publish_prepare root target compatibility_for cwd realpath is_symlink).
Abbreviation publish_record := (publish_record root realpath is_symlink).
Abbreviation publish_select := (publish_select root compatibility_for cwd realpath is_symlink).
Abbreviation retire_begin := (retire_begin root target compatibility_for cwd realpath is_symlink).
Abbreviation load_active := (load_active root target compatibility_for cwd realpath is_symlink).
Abbreviation recover := (recover root target compatibility_for cwd realpath is_symlink).
Abbreviation allocate := (allocate root target compatibility_for realpath is_symlink).
Abbreviation generation_root := (_generation_root root realpath is_symlink).

Inductive gstep (late : bool) : system → event → system → Prop :=
  (* methods of one section *)
  | step_allocate g ws ps o rev id now r g' :
      allocate o rev id now g = (r, g') → gstep late (MkSystem g ws ps) Internal (MkSystem g' ws ps)
  | step_load g ws ps r g' : load_active g = (r, g') → gstep late (MkSystem g ws ps) Internal (MkSystem g' ws ps)
  | step_recover g ws ps r g' : recover g = (r, g') → gstep late (MkSystem g ws ps) Internal (MkSystem g' ws ps)
  | step_mark g ws ps o id reason prov r g' :
      mark_incompatible o id reason prov g = (r, g') →
      gstep late (MkSystem g ws ps) (if is_ok r then Marked id else Internal) (MkSystem g' ws ps)
  (* publication *)
  | step_prepare g ws ps m validate now1 now2 p g' : gm_schema_version m = MANIFEST_SCHEMA_VERSION →
      publish_prepare m validate now1 now2 g = (Ok p, g') →
      gstep late (MkSystem g ws ps) Internal (MkSystem g' (Checked p :: ws) ps)
  | step_fence g ws1 ws2 ps p r g' : publish_fence p g = (r, g') →
      gstep late (MkSystem g (ws1 ++ Checked p :: ws2) ps) Internal
        (MkSystem g' (if is_ok r then ws1 ++ Fenced p :: ws2 else ws1 ++ ws2) ps)
  | step_record g ws1 ws2 ps p o r g' : publish_record o p g = (r, g') →
      gstep late (MkSystem g (ws1 ++ Fenced p :: ws2) ps) Internal
        (MkSystem g' (if is_ok r then ws1 ++ Recorded p :: ws2 else ws1 ++ ws2) ps)
  | step_select g ws1 ws2 ps p o r g' : allowed late o → publish_select o p g = (r, g') →
      gstep late (MkSystem g (ws1 ++ Recorded p :: ws2) ps) (if is_ok r then Published p else Internal)
        (MkSystem g' (ws1 ++ ws2) ps)
  (* readers *)
  | step_pin g ws ps m g' : pin_active g = (Ok m, g') →
      gstep late (MkSystem g ws ps) (Pinned m) (MkSystem g' ws (m :: ps))
  | step_pin_refused g ws ps e g' : pin_active g = (Err e, g') →
      gstep late (MkSystem g ws ps) Internal (MkSystem g' ws ps)
  | step_unpin g ws ps1 ps2 m r g' : unpin m g = (r, g') →
      gstep late (MkSystem g ws (ps1 ++ m :: ps2)) Internal (MkSystem g' ws (ps1 ++ ps2))
  (* retirement *)
  | step_retire g ws ps m o now r g' : retire_begin o m now g = (r, g') →
      gstep late (MkSystem g ws ps) (match r with Ok true => Retired (gm_generation_id m) | _ => Internal end)
        (MkSystem g' (match r with Ok true => Removing m :: ws | _ => ws end) ps)
  | step_remove g ws1 ws2 ps m o r g' : retire_remove o m g = (r, g') →
      gstep late (MkSystem g (ws1 ++ Removing m :: ws2) ps) Internal (MkSystem g' (ws1 ++ Ending m :: ws2) ps)
  | step_remove_refused g ws1 ws2 ps m : generation_root (gm_generation_id m) = Err ValueError →
      gstep late (MkSystem g (ws1 ++ Removing m :: ws2) ps) Internal (MkSystem g (ws1 ++ ws2) ps)
  | step_end g ws1 ws2 ps m r g' : retire_end m g = (r, g') →
      gstep late (MkSystem g (ws1 ++ Ending m :: ws2) ps) Internal (MkSystem g' (ws1 ++ ws2) ps)
  (* the process dies, and a new one opens the directory *)
  | step_crash g ws ps :
      gstep late (MkSystem g ws ps) Crashed (MkSystem (g <| g_memory := fresh_memory |>) [] []).
(** Runs from an empty directory, with their events in order. *)
Inductive grun (late : bool) : list event → system → Prop :=
  | grun_nil : grun late [] (MkSystem (MkManager empty_files fresh_memory) [] [])
  | grun_snoc es s1 e s2 : grun late es s1 → gstep late s1 e s2 → grun late (es ++ [e]) s2.

(** The manifest of the last publication. *)
Fixpoint last_published (es : list event) : option GenerationManifest :=
  match es with
  | [] => None
  | e :: es => match last_published es with
               | Some m => Some m
               | None => match e with Published m => Some m | _ => None end end
  end.
Lemma last_published_snoc es e :
  last_published (es ++ [e]) = match e with Published m => Some m | _ => last_published es end.
Proof.
  induction es as [|e' es IH]; [by destruct e|]. cbn. rewrite IH. by destruct e.
Qed.

(** * What single methods do *)

#[local] Arguments stored : simpl never.
#[local] Arguments sorted_manifest : simpl never.
Abbreviation validate_storage_target := (_validate_storage_target compatibility_for).
Abbreviation validate_paths := (_validate_paths root cwd realpath is_symlink).
Abbreviation load := (_load_active_unlocked root target compatibility_for cwd realpath is_symlink).

(** What the manager demands of an active manifest, but for the markers. *)
Record publishable (m : GenerationManifest) : Prop := {
  pub_target : gm_target m = target;
  pub_state : gm_state m = GenerationState.PUBLISHED;
  pub_version : gm_schema_version m = MANIFEST_SCHEMA_VERSION;
  pub_storage : validate_storage_target m = Ok ();
  pub_paths : validate_paths m = Ok ();
}.
Lemma json_equal_sorted d v : json_equal (JObj (sorted_dict d)) v = json_equal (JObj d) v.
Proof. unfold json_equal. change (JObj (sorted_dict d)) with (sort_keys (JObj d)). by rewrite sort_keys_idemp. Qed.
Lemma storage_target_sorted m : validate_storage_target (sorted_manifest m) = validate_storage_target m.
Proof.
  unfold _validate_storage_target. cbn [sorted_manifest gm_generation_id].
  change (gm_generation_id (sorted_manifest m)) with (gm_generation_id m).
  change (gm_validation (sorted_manifest m)) with (sorted_dict (gm_validation m)).
  destruct (compatibility_for _) as [expected|]; [|done]. cbn. destruct expected; [done|].
  rewrite get_sorted. destruct (get _ _) as [| | | | |l|l]; try done.
  cbn [sort_keys]. fold (sorted_dict l). by rewrite json_equal_sorted.
Qed.
Lemma publishable_sorted m : publishable m → publishable (sorted_manifest m).
Proof.
  intros [Ht Hs Hv Hst Hp]. constructor; [|done|done|by rewrite storage_target_sorted|done].
  change (gm_target (sorted_manifest m)) with (sorted_target (gm_target m)). by rewrite Ht.
Qed.

(** The cached selection is the one on disk. *)
Record selection_ok (g : manager) : Prop := {
  sel_pointer : ∀ v, f_pointer (g_files g) = Some v → ∃ p, v = stored p ∧ publishable p;
  sel_unloaded : mem_loaded (g_memory g) = false → mem_cache (g_memory g) = None;
  sel_empty : mem_loaded (g_memory g) = true → mem_cache (g_memory g) = None → f_pointer (g_files g) = None;
  sel_cached : ∀ c, mem_cache (g_memory g) = Some c → f_pointer (g_files g) = Some (stored c);
}.
(** A selection that is cached after [g] was cached in [g], or not marked there. *)
Definition unmarked (g : manager) (c : GenerationManifest) : Prop :=
  mem_cache (g_memory g) = Some c ∨ f_marks (g_files g) !! gm_generation_id c = None.
Definition fresh_cache (g g' : manager) : Prop := ∀ c, mem_cache (g_memory g') = Some c → unmarked g c.
(** Same files, references and retirements. *)
Definition same_but_cache (g g' : manager) : Prop :=
  g_files g' = g_files g ∧ mem_references (g_memory g') = mem_references (g_memory g) ∧
  mem_retiring (g_memory g') = mem_retiring (g_memory g) ∧ fresh_cache g g'.
Lemma same_cache g : fresh_cache g g.
Proof. by left. Qed.
Lemma cache_kept g g' : mem_cache (g_memory g') = mem_cache (g_memory g) → fresh_cache g g'.
Proof. intros E c Hc. left. by rewrite <- E. Qed.
Lemma cache_dropped g g' : mem_cache (g_memory g') = None → fresh_cache g g'.
Proof. intros E c Hc. congruence. Qed.
#[local] Hint Extern 0 (fresh_cache _ _) => solve [apply cache_kept; reflexivity | apply cache_dropped; reflexivity] : core.
Lemma same_but_cached g g' : g_files g' = g_files g → mem_references (g_memory g') = mem_references (g_memory g) →
  mem_retiring (g_memory g') = mem_retiring (g_memory g) → fresh_cache g g' → same_but_cache g g'.
Proof. done. Qed.

Lemma require_compatible_post id g :
  post (require_compatible id) (λ r g', g' = g ∧ (r = Ok () → f_marks (g_files g) !! id = None)) g.
Proof.
  unfold require_compatible, incompatibility. post_steps; try done; split; try done.
  intros _. unfold _safe_generation_id in *. repeat case_match; simplify_eq; done.
Qed.
Lemma load_post g : selection_ok g →
  post load (λ r g', same_but_cache g g' ∧ selection_ok g' ∧
    ∀ a, r = Ok a → match a with
      | None => f_pointer (g_files g) = None
      | Some c => f_pointer (g_files g) = Some (stored c) ∧ unmarked g c end) g.
Proof.
  intros Hsel. pose proof Hsel as [Hp Hu He Hc]. unfold _load_active_unlocked, set_cache.
  post_step. post_step. cbv beta. destruct (mem_loaded (g_memory g)) eqn:El.
  { post_step. split_and!; [by apply same_but_cached, same_cache|done|]. intros a [= <-]. destruct (mem_cache _) as [c|] eqn:Ec; [|auto].
    split; [auto|by left]. }
  post_step. post_step. cbv beta. destruct (f_pointer (g_files g)) as [v|] eqn:Ev.
  2: { post_steps. split_and!; [by apply same_but_cached| |by intros a [= <-]]. constructor; cbn; try done; by rewrite Ev. }
  destruct (Hp v eq_refl) as (p & -> & Hpub).
  rewrite (manifest_of_stored _ (pub_version _ Hpub)). do 2 post_step. cbv beta iota.
  pose proof (publishable_sorted _ Hpub) as [Ht Hs Hv Hst Hpa].
  unfold check_active. rewrite Ht, Hs, Hst, Hpa. rewrite !bool_decide_true by done. cbn [negb orb].
  unfold st_reject. cbv iota. post_steps. eapply post_mono; [apply require_compatible_post|]. intros r s' [-> Hm].
  destruct r as [[]|e].
  2: { split_and!; [by apply same_but_cached, same_cache|done|done]. }
  post_steps. split_and!; [apply same_but_cached; [done..|]; intros c [= <-]; right; by apply Hm| |].
  - constructor; cbn; try done; [by rewrite Ev|]. intros c [= <-]. by rewrite stored_sorted.
  - intros a [= <-]. rewrite stored_sorted. split; [done|]. right. by apply Hm.
Qed.

(** * The invariant *)

Definition pins_of (id : string) (ps : list GenerationManifest) : Z :=
  Z.of_nat (length (List.filter (λ m, String.eqb (gm_generation_id m) id) ps)).
Lemma pins_of_app id ps1 ps2 : pins_of id (ps1 ++ ps2) = (pins_of id ps1 + pins_of id ps2)%Z.
Proof. unfold pins_of. rewrite List.filter_app, length_app. lia. Qed.
Lemma pins_of_cons id m ps : pins_of id (m :: ps) = (Z.b2z (String.eqb (gm_generation_id m) id) + pins_of id ps)%Z.
Proof. unfold pins_of. cbn [List.filter]. destruct (String.eqb (gm_generation_id m) id); cbn; lia. Qed.
Lemma pins_of_none id ps m : pins_of id ps = 0%Z → m ∈ ps → gm_generation_id m ≠ id.
Proof.
  intros H0 (ps1 & ps2 & ->)%list_elem_of_split <-. rewrite pins_of_app, pins_of_cons, String.eqb_refl in H0.
  unfold pins_of in H0. cbn in H0. lia.
Qed.

(** A generation whose directory nobody may remove. *)
Definition kept (f : files) (id : string) : Prop := f_tombstones f !! id = None ∧ is_Some (f_records f !! id).
Definition work_ok (f : files) (w : work) : Prop :=
  match w with
  | Checked p | Fenced p | Recorded p => publishable p
  | Removing m | Ending m => is_Some (f_tombstones f !! gm_generation_id m)
  end.
Record ginv (last : option GenerationManifest) (s : system) : Prop := {
  gi_selection : selection_ok (sys_manager s);
  gi_last : f_pointer (g_files (sys_manager s)) = stored <$> last;
  gi_active : ∀ p, last = Some p → kept (g_files (sys_manager s)) (gm_generation_id p);
  gi_pins : ∀ m, m ∈ sys_pins s → kept (g_files (sys_manager s)) (gm_generation_id m);
  gi_references : ∀ id, default 0%Z (mem_references (g_memory (sys_manager s)) !! id) = pins_of id (sys_pins s);
  gi_retiring : ∀ id, id ∈ mem_retiring (g_memory (sys_manager s)) →
    is_Some (f_tombstones (g_files (sys_manager s)) !! id);
  gi_work : Forall (work_ok (g_files (sys_manager s))) (sys_work s);
}.

(** Changes that touch no selection, reference or retirement. *)
Record calm (g g' : manager) : Prop := {
  calm_pointer : f_pointer (g_files g') = f_pointer (g_files g);
  calm_tombstones : f_tombstones (g_files g') = f_tombstones (g_files g);
  calm_records : ∀ id, is_Some (f_records (g_files g) !! id) → is_Some (f_records (g_files g') !! id);
  calm_references : mem_references (g_memory g') = mem_references (g_memory g);
  calm_retiring : mem_retiring (g_memory g') = mem_retiring (g_memory g);
  calm_cache : fresh_cache g g';
}.
Lemma same_calm g g' : same_but_cache g g' → calm g g'.
Proof. intros (Hf & Hr & Hx & Hc). constructor; by rewrite ?Hf, ?Hr, ?Hx. Qed.
Lemma calm_refl g : calm g g.
Proof. by constructor. Qed.
Lemma ginv_calm last g ws ps g' : ginv last (MkSystem g ws ps) → calm g g' → selection_ok g' →
  ginv last (MkSystem g' ws ps).
Proof.
  intros [Hs Hl Ha Hp Hr Hx Hw] [C1 C2 C3 C4 C5 _] Hs'. unfold kept in *. cbn in *.
  constructor; unfold kept; cbn; rewrite ?C1, ?C2, ?C4, ?C5; try done.
  - intros p Hlast. destruct (Ha p Hlast). auto.
  - intros m Hm. destruct (Hp m Hm). auto.
  - eapply Forall_impl; [exact Hw|]. intros []; cbn; by rewrite ?C2.
Qed.
Lemma ginv_works last g ws ps ws' : ginv last (MkSystem g ws ps) →
  (Forall (work_ok (g_files g)) ws → Forall (work_ok (g_files g)) ws') → ginv last (MkSystem g ws' ps).
Proof. intros [Hs Hl Ha Hp Hr Hx Hw] Hf. constructor; try done. by apply Hf. Qed.

Lemma record_post o m g : selection_ok g →
  post (_write_generation_record root realpath is_symlink o m)
    (λ r g', calm g g' ∧ selection_ok g' ∧ (r = Ok () → is_Some (f_records (g_files g') !! gm_generation_id m))) g.
Proof.
  intros [Hp Hu He Hc]. unfold _write_generation_record, durable_write.
  post_steps; try done; (split_and!; [constructor; try done; cbn; intros id; rewrite lookup_insert_is_Some'; auto
    |constructor; done|try done]).
  intros _. cbn. by rewrite lookup_insert_eq.
Qed.
Lemma allocate_post o rev id now g : selection_ok g →
  post (allocate o rev id now) (λ r g', calm g g' ∧ selection_ok g') g.
Proof.
  intros Hs. unfold Generation.allocate. post_steps; try (split; [apply calm_refl|done]).
  eapply post_mono; [by apply record_post|]. intros [[]|e] s' (Hc & Hs' & _); [by post_step|done].
Qed.
Lemma recover_post g : selection_ok g → post recover (λ r g', calm g g' ∧ selection_ok g') g.
Proof.
  intros Hs. unfold Generation.recover, forget_cache. post_steps.
  assert (selection_ok (g <| g_memory ::= λ m, m <| mem_cache := None |> <| mem_loaded := false |> |>)) as Hs0.
  { destruct Hs. by constructor. }
  eapply post_mono; [by apply load_post|]. intros r s' (Hsame & Hs' & _).
  apply same_calm in Hsame. destruct Hsame as [C1 C2 C3 C4 C5 C6]. assert (fresh_cache g s') as Hc.
  { intros c Hc. destruct (C6 c Hc) as [?|?]; [done|by right]. }
  destruct r; post_steps; (split; [by constructor|]); [|done]. destruct Hs'. by constructor.
Qed.
Lemma mark_post o id reason prov g : selection_ok g →
  post (mark_incompatible o id reason prov) (λ r g', calm g g' ∧ selection_ok g' ∧
    (∀ c, mem_cache (g_memory g') = Some c → mem_cache (g_memory g) = Some c) ∧
    (r = Ok () → is_Some (f_marks (g_files g') !! id) ∧
       ∀ c, mem_cache (g_memory g') = Some c → gm_generation_id c ≠ id)) g.
Proof.
  intros Hs. pose proof Hs as [Hp Hu He Hc]. unfold mark_incompatible, durable_write, forget_cache.
  post_steps; try (split_and!; [apply calm_refl|done|done|done]).
  all: unfold _safe_generation_id in *; repeat case_match; simplify_eq.
  all: split_and!; [by constructor|by constructor|try done|first [done|intros _; cbn; rewrite lookup_insert_eq; split; [done|]]].
  all: intros c' Hc'; cbn in *; simplify_eq.
  all: match goal with H : String.eqb _ _ = false |- _ => by apply String.eqb_neq in H | _ => congruence end.
Qed.

Lemma safe_id_same v id : _safe_generation_id v = Ok id → id = v.
Proof. unfold _safe_generation_id. intros. by repeat case_match; simplify_eq. Qed.
(** Settles the outcomes in which the manager only raised. *)
Ltac unchanged := try done; try (split; [apply calm_refl|done]); try (split_and!; [apply calm_refl|done|done]).

Lemma prepare_post m validate now1 now2 g : gm_schema_version m = MANIFEST_SCHEMA_VERSION →
  post (publish_prepare m validate now1 now2) (λ r g', g' = g ∧ ∀ p, r = Ok p → publishable p) g.
Proof.
  intros Hv. unfold Generation.publish_prepare.
  assert (∀ e : exn, g = g ∧ ∀ p : GenerationManifest, Err e = Ok p → publishable p) as Hraise by (intros; split; [done|congruence]).
  post_steps; try apply Hraise.
  eapply post_mono; [apply require_compatible_post|]. intros [[]|e'] s' [-> _]; [|apply Hraise].
  post_steps; try apply Hraise. split; [done|]. intros p <-%Ok_inj.
  repeat match goal with u : () |- _ => destruct u end. bool_hyps. by constructor.
Qed.
Lemma fence_post p g :
  post (publish_fence p) (λ r g', g' = g) g.
Proof. unfold publish_fence, require_not_retired. by post_steps. Qed.
Lemma select_post o p g : selection_ok g → publishable p → allowed false o →
  post (publish_select o p) (λ r g', match r with
    | Err _ => calm g g' ∧ selection_ok g'
    | Ok _ => selection_ok g' ∧ f_pointer (g_files g') = Some (stored p) ∧
        f_tombstones (g_files g') = f_tombstones (g_files g) ∧ f_records (g_files g') = f_records (g_files g) ∧
        mem_references (g_memory g') = mem_references (g_memory g) ∧
        mem_retiring (g_memory g') = mem_retiring (g_memory g) ∧ kept (g_files g) (gm_generation_id p) ∧
        f_marks (g_files g) !! gm_generation_id p = None ∧ mem_cache (g_memory g') = Some p end) g.
Proof.
  intros Hs Hpub Ho. pose proof Hs as [Hp Hu He Hc]. unfold Generation.publish_select, require_not_retired.
  post_steps; unchanged. eapply post_mono; [apply require_compatible_post|]. intros r s' [-> Hm].
  destruct r as [[]|e]; unchanged. specialize (Hm eq_refl).
  unfold _write_active_manifest_unlocked, durable_write, set_cache. post_steps; unchanged.
  all: try (exfalso; by specialize (Ho eq_refl)).
  - repeat match goal with H : _safe_generation_id _ = Ok _ |- _ => apply safe_id_same in H; subst end.
    bool_hyps. split_and!; try done.
    + constructor; cbn; try done; [intros v [= <-]; by exists p|]. intros c [= <-]. done.
    + split; [|done]. by apply eq_None_not_Some.
Qed.
Lemma pin_post g : selection_ok g →
  post pin_active (λ r g', match r with
    | Err _ => calm g g' ∧ selection_ok g'
    | Ok m => selection_ok g' ∧ f_pointer (g_files g) = Some (stored m) ∧ unmarked g m ∧ fresh_cache g g' ∧
        g_files g' = g_files g ∧ mem_retiring (g_memory g') = mem_retiring (g_memory g) ∧
        mem_references (g_memory g') = <[gm_generation_id m :=
          (default 0 (mem_references (g_memory g) !! gm_generation_id m) + 1)%Z]> (mem_references (g_memory g)) end) g.
Proof.
  intros Hs. unfold Generation.pin_active. post_step. eapply post_mono; [by apply load_post|].
  intros r s' (Hsame & Hs' & Ha). pose proof (same_calm _ _ Hsame). destruct r as [a|e]; [|done].
  specialize (Ha a eq_refl). destruct a as [c|]; [|by post_steps]. post_steps.
  destruct Hsame as (Hf & Hr & Hx & Hc), Hs'. destruct Ha. split_and!; try done. cbn. by rewrite Hr.
Qed.
(** The tombstone of [id] is written, and maybe its retirement noted: nobody
    selects or holds it. *)
Record tombstoned (id : string) (g g' : manager) : Prop := {
  to_selection : selection_ok g';
  to_pointer : f_pointer (g_files g') = f_pointer (g_files g);
  to_unselected : ∀ c, f_pointer (g_files g) = Some (stored c) → gm_generation_id c ≠ id;
  to_unheld : default 0%Z (mem_references (g_memory g) !! id) = 0%Z;
  to_written : ∃ v, f_tombstones (g_files g') = <[id := v]> (f_tombstones (g_files g));
  to_records : f_records (g_files g') = f_records (g_files g);
  to_references : mem_references (g_memory g') = mem_references (g_memory g);
  to_retiring : mem_retiring (g_memory g') ⊆ {[id]} ∪ mem_retiring (g_memory g);
  to_cache : fresh_cache g g';
}.
Lemma retire_begin_post o m now g : selection_ok g →
  post (retire_begin o m now) (λ r g', match r with
    | Ok true => tombstoned (gm_generation_id m) g g'
    | Ok false => calm g g' ∧ selection_ok g'
    | Err _ => calm g g' ∧ selection_ok g' ∨ tombstoned (gm_generation_id m) g g' end) g.
Proof.
  intros Hs. unfold Generation.retire_begin. post_steps; unchanged; try (left; unchanged).
  eapply post_mono; [by apply load_post|]. intros r s' (Hsame & Hs' & Ha).
  pose proof (same_calm _ _ Hsame) as Hcalm. destruct r as [active|e]; [|by left]. specialize (Ha active eq_refl).
  match goal with |- post (if ?b then _ else _) _ _ => destruct b eqn:Eid end; [by post_steps|].
  assert ((∀ c, f_pointer (g_files g) = Some (stored c) → gm_generation_id c ≠ gm_generation_id m)) as Hne.
  { intros c Hc. destruct active as [active|]; [|congruence]. destruct Ha as [Ha _]. apply String.eqb_neq in Eid.
    rewrite Hc in Ha. apply (inj Some), stored_id in Ha. congruence. }
  destruct Hsame as (Hf & Hr & Hx & Hc), Hs'.
  unfold _write_retired_tombstone_unlocked, durable_write. post_steps; try done; try (by left).
  all: repeat match goal with H : _safe_generation_id _ = Ok _ |- _ => apply safe_id_same in H; subst end; bool_hyps.
  - constructor; cbn; rewrite ?Hf, ?Hr, ?Hx; eauto; [by constructor|congruence].
  - left. split; [|by constructor]. destruct Hcalm. by constructor.
  - right. constructor; cbn; rewrite ?Hf, ?Hr, ?Hx; eauto; [by constructor|congruence|apply union_subseteq_r].
Qed.
Lemma remove_post o m g : post (retire_remove o m) (λ _ g',
  g_memory g' = g_memory g ∧ f_pointer (g_files g') = f_pointer (g_files g) ∧ f_marks (g_files g') = f_marks (g_files g) ∧
  f_tombstones (g_files g') = f_tombstones (g_files g) ∧
  ∀ id, id ≠ gm_generation_id m → f_records (g_files g') !! id = f_records (g_files g) !! id) g.
Proof.
  unfold retire_remove. post_steps; repeat case_match; split_and!; try done.
  all: intros id Hid; cbn; by rewrite lookup_delete_ne.
Qed.

(** Every step keeps the invariant; a publication replaces the selection. *)
Definition selected (last : option GenerationManifest) (e : event) : option GenerationManifest :=
  match e with Published m => Some m | _ => last end.
Ltac splits_work Hw := apply Forall_app in Hw as [? Hw]; apply Forall_cons in Hw as [? ?].
Lemma forall_middle {A} (P : A → Prop) l1 x l2 : Forall P l1 → P x → Forall P l2 → Forall P (l1 ++ x :: l2).
Proof. intros. apply Forall_app. split; [done|]. by constructor. Qed.
Lemma ginv_dropped last g ws1 w ws2 ps : ginv last (MkSystem g (ws1 ++ w :: ws2) ps) →
  work_ok (g_files g) w ∧ ginv last (MkSystem g (ws1 ++ ws2) ps).
Proof.
  intros Hg. pose proof (gi_work _ _ Hg) as Hw. cbn in Hw. splits_work Hw. split; [done|].
  eapply ginv_works; [done|]. intros _. by apply Forall_app.
Qed.
Lemma ginv_add last g ws1 w ws2 ps : ginv last (MkSystem g (ws1 ++ ws2) ps) → work_ok (g_files g) w →
  ginv last (MkSystem g (ws1 ++ w :: ws2) ps).
Proof.
  intros Hg Hw. eapply ginv_works; [done|]. intros [? ?]%Forall_app. by apply forall_middle.
Qed.
Lemma ginv_select last g g' ws ps p : ginv last (MkSystem g ws ps) → selection_ok g' →
  f_pointer (g_files g') = Some (stored p) → f_tombstones (g_files g') = f_tombstones (g_files g) →
  f_records (g_files g') = f_records (g_files g) →
  mem_references (g_memory g') = mem_references (g_memory g) → mem_retiring (g_memory g') = mem_retiring (g_memory g) →
  kept (g_files g) (gm_generation_id p) → ginv (Some p) (MkSystem g' ws ps).
Proof.
  intros [Hs Hl Ha Hp Hr Hx Hw] Hs' E1 E2 E3 E4 E5 Hk. cbn in *.
  constructor; unfold kept in *; cbn; rewrite ?E2, ?E3, ?E4, ?E5; try done.
  - by intros ? [= <-].
  - eapply Forall_impl; [exact Hw|]. intros []; cbn; by rewrite ?E2.
Qed.
Lemma ginv_pin last g g' ws ps m : ginv last (MkSystem g ws ps) → selection_ok g' →
  f_pointer (g_files g) = Some (stored m) → g_files g' = g_files g →
  mem_retiring (g_memory g') = mem_retiring (g_memory g) →
  mem_references (g_memory g') = <[gm_generation_id m :=
    (default 0 (mem_references (g_memory g) !! gm_generation_id m) + 1)%Z]> (mem_references (g_memory g)) →
  ginv last (MkSystem g' ws (m :: ps)).
Proof.
  intros [Hs Hl Ha Hp Hr Hx Hw] Hs' E1 E2 E3 E4. cbn in *.
  constructor; unfold kept in *; cbn; rewrite ?E2, ?E3, ?E4; try done.
  - intros m' [->|Hm]%elem_of_cons; [|by apply Hp]. rewrite Hl in E1. destruct last as [p|]; [|done].
    apply (inj Some), stored_id in E1. rewrite <- E1. by apply Ha.
  - intros id. rewrite pins_of_cons, <- Hr. destruct (String.eqb _ _) eqn:E; cbn [Z.b2z].
    + apply String.eqb_eq in E as <-. rewrite lookup_insert_eq. cbn. lia.
    + apply String.eqb_neq in E. by rewrite lookup_insert_ne.
Qed.
Lemma ginv_unpin last g g' ws ps1 m ps2 r : ginv last (MkSystem g ws (ps1 ++ m :: ps2)) → unpin m g = (r, g') →
  ginv last (MkSystem g' ws (ps1 ++ ps2)).
Proof.
  intros [Hs Hl Ha Hp Hr Hx Hw] [= <- <-]. cbn in *. constructor; cbn; try done.
  - destruct Hs. by constructor.
  - intros m' Hm. apply Hp. rewrite elem_of_app, elem_of_cons in *. tauto.
  - intros id. pose proof (Hr id) as H1. pose proof (Hr (gm_generation_id m)) as H2.
    rewrite !pins_of_app, pins_of_cons in *. rewrite String.eqb_refl in H2. cbn [Z.b2z] in H2.
    unfold unpin_references. rewrite H2. destruct (String.eqb (gm_generation_id m) id) eqn:E; cbn [Z.b2z] in H1.
    + apply String.eqb_eq in E. rewrite E in *. case_match eqn:Hle; bool_hyps.
      * rewrite lookup_delete_eq. cbn. unfold pins_of in *. lia.
      * rewrite lookup_insert_eq. cbn. lia.
    + apply String.eqb_neq in E. case_match; rewrite ?lookup_delete_ne, ?lookup_insert_ne by done; lia.
Qed.
Lemma ginv_retire last g g' ws ps m : ginv last (MkSystem g ws ps) → tombstoned (gm_generation_id m) g g' →
  ginv last (MkSystem g' (Removing m :: ws) ps).
Proof.
  intros [Hs Hl Ha Hp Hr Hx Hw] [Hs' E1 Hne H0 [v E2] E3 E4 E5 _]. cbn in *.
  assert (∀ id, is_Some (f_tombstones (g_files g) !! id) → is_Some (f_tombstones (g_files g') !! id)) as Hgrow.
  { intros id Hid. rewrite E2. apply lookup_insert_is_Some'. by right. }
  constructor; unfold kept in *; cbn; rewrite ?E1, ?E2, ?E3, ?E4; try done.
  - intros p ->. cbn in Hl. destruct (Ha p eq_refl). rewrite lookup_insert_ne; [done|]. intros E. by apply (Hne p).
  - intros p Hin. destruct (Hp p Hin). rewrite lookup_insert_ne; [done|]. intros E.
    rewrite Hr in H0. by apply (pins_of_none _ _ p H0).
  - intros id [->%elem_of_singleton|Hid]%E5%elem_of_union; [by rewrite lookup_insert_eq|].
    apply lookup_insert_is_Some'. right. by apply Hx.
  - constructor; [cbn; by rewrite E2, lookup_insert_eq|]. eapply Forall_impl; [exact Hw|]. intros []; cbn; auto.
Qed.
Lemma ginv_remove last g g' ws ps m o r : ginv last (MkSystem g ws ps) →
  is_Some (f_tombstones (g_files g) !! gm_generation_id m) → retire_remove o m g = (r, g') →
  ginv last (MkSystem g' ws ps) ∧ is_Some (f_tombstones (g_files g') !! gm_generation_id m).
Proof.
  intros [Hs Hl Ha Hp Hr Hx Hw] [v Hv] Hrun.
  destruct (post_elim _ _ _ _ _ (remove_post o m g) Hrun) as (E1 & E2 & E3 & E4 & E5). cbn in *. split; [|by rewrite E4, Hv].
  assert (∀ id, kept (g_files g) id → kept (g_files g') id) as Hk.
  { intros id [H1 H2]. unfold kept. rewrite E4, E5; [done|]. intros ->. congruence. }
  constructor; cbn; rewrite ?E1, ?E2, ?E4; auto.
  - destruct Hs. constructor; rewrite ?E1, ?E2, ?E3; done.
  - eapply Forall_impl; [exact Hw|]. intros []; cbn; by rewrite ?E4.
Qed.

Lemma ginv_crash last g ws ps : ginv last (MkSystem g ws ps) →
  ginv last (MkSystem (g <| g_memory := fresh_memory |>) [] []).
Proof.
  intros [Hs Hl Ha Hp Hr Hx Hw]. cbn in *. destruct Hs. constructor; cbn; try done; try (by constructor).
  intros m Hm. by apply elem_of_nil in Hm.
Qed.
Lemma ginv_end last g ws ps m r g' : ginv last (MkSystem g ws ps) → retire_end m g = (r, g') → ginv last (MkSystem g' ws ps).
Proof.
  intros [Hs Hl Ha Hp Hr Hx Hw] [= <- <-]. cbn in *. destruct Hs. constructor; cbn; try done.
  intros id [Hid _]%elem_of_difference. by apply Hx.
Qed.
Lemma ginv_step last s e s' : gstep false s e s' → ginv last s → ginv (selected last e) s'.
Proof.
  intros Hstep Hg. pose proof (gi_selection _ _ Hg) as Hs.
  destruct Hstep as [g ws ps o rev id now r g' Hrun|g ws ps r g' Hrun|g ws ps r g' Hrun
    |g ws ps o id reason prov r g' Hrun|g ws ps m validate now1 now2 p g' Hv Hrun|g ws1 ws2 ps p r g' Hrun
    |g ws1 ws2 ps p o r g' Hrun|g ws1 ws2 ps p o r g' Ho Hrun|g ws ps m g' Hrun|g ws ps e g' Hrun
    |g ws ps1 ps2 m r g' Hrun|g ws ps m o now r g' Hrun|g ws1 ws2 ps m o r g' Hrun|g ws1 ws2 ps m Hrun
    |g ws1 ws2 ps m r g' Hrun|g ws ps]; cbn [selected sys_manager] in *.
  - destruct (post_elim _ _ _ _ _ (allocate_post o rev id now g Hs) Hrun). by eapply ginv_calm.
  - destruct (post_elim _ _ _ _ _ (load_post g Hs) Hrun) as (Hsame & Hs' & _). eapply ginv_calm; [done|by apply same_calm|done].
  - destruct (post_elim _ _ _ _ _ (recover_post g Hs) Hrun). by eapply ginv_calm.
  - destruct (post_elim _ _ _ _ _ (mark_post o id reason prov g Hs) Hrun) as (Hc & Hs' & _).
    destruct (is_ok r); cbn; by eapply ginv_calm.
  - destruct (post_elim _ _ _ _ _ (prepare_post m validate now1 now2 g Hv) Hrun) as [-> Hp].
    apply (ginv_add _ _ [] _ ws); [done|]. by apply Hp.
  - pose proof (post_elim _ _ _ _ _ (fence_post p g) Hrun) as ->. apply ginv_dropped in Hg as [Hw Hg].
    destruct (is_ok r); [|done]. by apply ginv_add.
  - destruct (post_elim _ _ _ _ _ (record_post o p g Hs) Hrun) as (Hc & Hs' & _). apply ginv_dropped in Hg as [Hw Hg].
    pose proof (ginv_calm _ _ _ _ _ Hg Hc Hs'). destruct (is_ok r); [|done]. by apply ginv_add.
  - apply ginv_dropped in Hg as [Hw Hg]. pose proof (post_elim _ _ _ _ _ (select_post o p g Hs Hw Ho) Hrun) as H.
    destruct r as [[]|e]; cbn.
    + destruct H as (Hs' & E1 & E2 & E3 & E4 & E5 & Hk & _). by eapply ginv_select.
    + destruct H. by eapply ginv_calm.
  - destruct (post_elim _ _ _ _ _ (pin_post g Hs) Hrun) as (Hs' & E1 & _ & _ & E2 & E3 & E4). by eapply ginv_pin.
  - destruct (post_elim _ _ _ _ _ (pin_post g Hs) Hrun). by eapply ginv_calm.
  - by eapply ginv_unpin.
  - pose proof (post_elim _ _ _ _ _ (retire_begin_post o m now g Hs) Hrun) as H.
    destruct r as [[]|e]; cbn; [by apply (ginv_retire _ g)|destruct H; by eapply ginv_calm|].
    destruct H as [[]|H]; [by eapply ginv_calm|]. pose proof (ginv_retire _ _ _ _ _ m Hg H) as Hg'.
    by apply (ginv_dropped _ _ []) in Hg' as [_ Hg'].
  - apply ginv_dropped in Hg as [Hw Hg]. destruct (ginv_remove _ _ _ _ _ _ _ _ Hg Hw Hrun). by apply ginv_add.
  - by apply ginv_dropped in Hg as [_ Hg].
  - apply ginv_dropped in Hg as [_ Hg]. by eapply ginv_end.
  - by eapply ginv_crash.
Qed.
Lemma ginv_initial : ginv None (MkSystem (MkManager empty_files fresh_memory) [] []).
Proof.
  constructor; cbn; try done; try (by constructor).
  intros m Hm. by apply elem_of_nil in Hm.
Qed.
Lemma ginv_run es s : grun false es s → ginv (last_published es) s.
Proof.
  induction 1 as [|es s1 e s2 _ IH Hstep]; [apply ginv_initial|]. rewrite last_published_snoc.
  by apply (ginv_step _ _ _ _ Hstep) in IH.
Qed.

(** * The history of a run on disk *)

Definition fences (g : manager) := (f_marks (g_files g), f_tombstones (g_files g)).
Definition shelf (g : manager) := (fences g, (f_records (g_files g), f_trees (g_files g))).
Lemma kv_fst {A B C} (f : manager → B) (h : manager → C) (m : M A) : keeps_view (λ g, (f g, h g)) m → keeps_view f m.
Proof. intros Hm g. specialize (Hm g). by injection Hm. Qed.
Lemma kv_require id : keeps_view shelf (require_compatible id).
Proof. unfold require_compatible, incompatibility. kv_steps. Qed.
Lemma kv_cache c : keeps_view shelf (set_cache c).
Proof. unfold set_cache. kv_steps. Qed.
Lemma kv_not_retired id : keeps_view shelf (require_not_retired id).
Proof. unfold require_not_retired. kv_steps. Qed.
#[local] Hint Resolve kv_require kv_cache kv_not_retired : kept_views.
Lemma kv_load : keeps_view shelf load.
Proof. unfold _load_active_unlocked, check_active. kv_steps. Qed.
#[local] Hint Resolve kv_load : kept_views.
Lemma kv_recover : keeps_view shelf recover.
Proof. unfold Generation.recover, forget_cache. kv_steps. Qed.
Lemma kv_prepare m validate now1 now2 : keeps_view shelf (publish_prepare m validate now1 now2).
Proof. unfold Generation.publish_prepare. kv_steps. Qed.
Lemma kv_fence p : keeps_view shelf (publish_fence p).
Proof. unfold publish_fence. kv_steps. Qed.
Lemma kv_select o p : keeps_view shelf (publish_select o p).
Proof. unfold Generation.publish_select, _write_active_manifest_unlocked, durable_write. kv_steps. Qed.
Lemma kv_pin : keeps_view shelf pin_active.
Proof. unfold Generation.pin_active. kv_steps. Qed.
Lemma kv_record o m : keeps_view fences (_write_generation_record root realpath is_symlink o m).
Proof. unfold _write_generation_record, durable_write. kv_steps. Qed.
Lemma kv_remove o m : keeps_view fences (retire_remove o m).
Proof. unfold retire_remove. kv_steps; apply kv_modify; intros g; by destruct record_gone. Qed.
#[local] Hint Resolve kv_record : kept_views.
Lemma kv_allocate o rev id now : keeps_view fences (allocate o rev id now).
Proof. unfold Generation.allocate. kv_steps. Qed.
(** The tombstones aside. *)
Definition others (g : manager) := (f_marks (g_files g), (f_records (g_files g), f_trees (g_files g))).
Lemma kv_load_others : keeps_view others load.
Proof. intros g. pose proof (kv_load g) as H. unfold others. by injection H as -> _ -> ->. Qed.
#[local] Hint Resolve kv_load_others : kept_views.
Lemma kv_retire_others o m now : keeps_view others (retire_begin o m now).
Proof. unfold Generation.retire_begin, _write_retired_tombstone_unlocked, durable_write. kv_steps. Qed.

(** The marked and the retired generations have their files, which say so, a
    record lies in its directory, and no marked generation is cached. *)
Record ghist (es : list event) (g : manager) : Prop := {
  gh_marked : ∀ id, Marked id ∈ es → is_Some (f_marks (g_files g) !! id);
  gh_retired : ∀ id, Retired id ∈ es → is_Some (f_tombstones (g_files g) !! id);
  gh_payload : ∀ id v, f_marks (g_files g) !! id = Some v → ∃ reason prov, v = sort_keys (mark_payload id reason prov);
  gh_trees : ∀ id, is_Some (f_records (g_files g) !! id) → id ∈ f_trees (g_files g);
  gh_cached : ∀ c, mem_cache (g_memory g) = Some c → Marked (gm_generation_id c) ∉ es;
}.
Lemma ghist_unmarked es g c : ghist es g → unmarked g c → Marked (gm_generation_id c) ∉ es.
Proof.
  intros Hh [Hc|Hn]; [by apply (gh_cached _ _ Hh)|]. intros Hin%(gh_marked _ _ Hh). rewrite Hn in Hin. by destruct Hin.
Qed.
Definition fences_event (e : event) : bool := match e with Marked _ | Retired _ => true | _ => false end.
Lemma not_in_snoc (e : event) es e' : e ∉ es → e' ≠ e → e ∉ es ++ [e'].
Proof. intros Hn Hne [Hin|Hin%list_elem_of_singleton]%elem_of_app; [done|by subst]. Qed.
Lemma ghist_quiet es g e g' : ghist es g → fences_event e = false → fences g' = fences g → fresh_cache g g' →
  (∀ id, is_Some (f_records (g_files g') !! id) → id ∈ f_trees (g_files g')) → ghist (es ++ [e]) g'.
Proof.
  intros Hh He [= E1 E2] Hc Ht. pose proof Hh as [Hm Hr Hp _ _]. constructor; rewrite ?E1, ?E2; [..|done|done|].
  1-2: intros id [H|H%list_elem_of_singleton]%elem_of_app; [auto|by subst e].
  intros c Hc'. apply not_in_snoc; [|by intros ->]. by apply (ghist_unmarked _ _ _ Hh), Hc.
Qed.
Lemma ghist_same es g e g' : ghist es g → fences_event e = false → fresh_cache g g' → shelf g' = shelf g →
  ghist (es ++ [e]) g'.
Proof.
  intros Hh He Hc [= E1 E2 E3 E4]. apply (ghist_quiet _ _ _ _ Hh); [done|unfold fences; by rewrite E1, E2|done|].
  rewrite E3, E4. apply Hh.
Qed.
Lemma mark_effect o id reason prov g : post (mark_incompatible o id reason prov) (λ r g',
  (f_tombstones (g_files g'), (f_records (g_files g'), f_trees (g_files g')))
    = (f_tombstones (g_files g), (f_records (g_files g), f_trees (g_files g))) ∧
  (f_marks (g_files g') = <[id := sort_keys (mark_payload id reason prov)]> (f_marks (g_files g)) ∨
   is_ok r = false ∧ f_marks (g_files g') = f_marks (g_files g))) g.
Proof.
  unfold mark_incompatible, durable_write, forget_cache. post_steps; split; try done; try (by right).
  all: match goal with H : _safe_generation_id _ = Ok _ |- _ => apply safe_id_same in H; subst end; by left.
Qed.
Lemma ghist_mark es o id reason prov g r g' : ghist es g → selection_ok g → mark_incompatible o id reason prov g = (r, g') →
  ghist (es ++ [if is_ok r then Marked id else Internal]) g'.
Proof.
  intros Hh Hs Hrun. destruct (post_elim _ _ _ _ _ (mark_effect o id reason prov g) Hrun) as [[= E1 E2 E3] Em].
  destruct (post_elim _ _ _ _ _ (mark_post o id reason prov g Hs) Hrun) as (_ & _ & Hold & Hok).
  assert (∀ id', is_Some (f_marks (g_files g) !! id') → is_Some (f_marks (g_files g') !! id')) as Hgrow.
  { intros id' H. destruct Em as [-> |[_ ->]]; [|done]. apply lookup_insert_is_Some'. by right. }
  destruct Hh as [Hm Hr Hp Ht Hc]. constructor; rewrite ?E1, ?E2, ?E3; try done.
  - intros id' [Hin|Hin%list_elem_of_singleton]%elem_of_app; [by apply Hgrow, Hm|].
    destruct r as [[]|]; [|done]. injection Hin as ->. by apply Hok.
  - intros id' [Hin|Hin%list_elem_of_singleton]%elem_of_app; [auto|by destruct r].
  - intros id' v. destruct Em as [-> |[_ ->]]; [|auto]. intros [[<- <-]|[_ Hv]]%lookup_insert_Some; [eauto|auto].
  - intros c Hc'. apply not_in_snoc; [by apply Hc, Hold|]. destruct r as [[]|]; [|done]. intros [= E].
    by apply (proj2 (Hok eq_refl) c Hc').
Qed.
Lemma ghist_retire es o m now g r g' : ghist es g → selection_ok g → retire_begin o m now g = (r, g') →
  ghist (es ++ [match r with Ok true => Retired (gm_generation_id m) | _ => Internal end]) g'.
Proof.
  intros Hh Hs Hrun. pose proof (kv_elim _ _ _ _ _ (kv_retire_others o m now) Hrun) as [= Em E1 E2].
  pose proof (post_elim _ _ _ _ _ (retire_begin_post o m now g Hs) Hrun) as H.
  assert (fresh_cache g g') as Hc by (destruct r as [[]|e]; [apply H|apply H|destruct H as [[]|]; [by apply calm_cache|by eapply to_cache]]).
  assert (calm g g' ∧ r ≠ Ok true ∨ tombstoned (gm_generation_id m) g g') as [[[_ Et _ _ _ _] Hne]|Ht].
  { destruct r as [[]|e]; [by right|left; by destruct H|]. destruct H as [[]|]; [by left|by right]. }
  { destruct r as [[]|e]; [done|..]; (apply (ghist_same _ _ _ _ Hh); [done|done|]); unfold shelf, fences; by rewrite Em, Et, E1, E2. }
  destruct (to_written _ _ _ Ht) as [v Et]. pose proof Hh as [Hm Hr Hp Htr _]. constructor; rewrite ?Em, ?E1, ?E2; try done.
  - intros id' [Hin|Hin%list_elem_of_singleton]%elem_of_app; [auto|by destruct r as [[]|]].
  - intros id' [Hin|Hin%list_elem_of_singleton]%elem_of_app; rewrite Et; apply lookup_insert_is_Some'; [right; auto|left].
    destruct r as [[]|]; [congruence|done|done].
  - intros c Hc'. apply not_in_snoc; [by apply (ghist_unmarked _ _ _ Hh), Hc|]. by destruct r as [[]|].
Qed.
Definition shelved (g : manager) : Prop := ∀ id, is_Some (f_records (g_files g) !! id) → id ∈ f_trees (g_files g).
Lemma record_shelved o m g : shelved g → post (_write_generation_record root realpath is_symlink o m) (λ _, shelved) g.
Proof.
  intros Ht. unfold _write_generation_record, durable_write. post_steps; try done.
  all: intros id; cbn; rewrite ?lookup_insert_is_Some', elem_of_union, elem_of_singleton; intros H.
  all: try destruct H as [->|H]; auto.
Qed.
Lemma remove_shelved o m g : shelved g → post (retire_remove o m) (λ _, shelved) g.
Proof.
  intros Ht. unfold retire_remove. post_steps; try done.
  - intros id. cbn. rewrite lookup_delete_is_Some, elem_of_difference, elem_of_singleton. intros [? ?]. split; [auto|congruence].
  - case_match; [|done]. intros id. cbn. rewrite lookup_delete_is_Some. intros [? ?]. auto.
Qed.
Lemma allocate_shelved o rev id now g : shelved g → post (allocate o rev id now) (λ _, shelved) g.
Proof.
  intros Ht. unfold Generation.allocate. post_steps; try done.
  eapply post_mono; [by apply record_shelved|]. intros [[]|e] s' Hs'; [by post_step|done].
Qed.
Lemma shelved_elim {A} (m : M A) g r g' :
  (∀ g, shelved g → post m (λ _, shelved) g) → m g = (r, g') → shelved g → shelved g'.
Proof. intros Hm Hrun Hg. exact (post_elim _ _ _ _ _ (Hm g Hg) Hrun). Qed.
(** Only a marker makes a cached selection stale. *)
Lemma kept_cache {A} (m : M A) g r g' : keeps_view (λ g, mem_cache (g_memory g)) m → m g = (r, g') → fresh_cache g g'.
Proof. intros Hk Hrun. apply cache_kept. by rewrite (kv_elim _ _ _ _ _ Hk Hrun). Qed.
Lemma step_fresh last s e s' : gstep false s e s' → ginv last s → fences_event e = false →
  fresh_cache (sys_manager s) (sys_manager s').
Proof.
  intros Hstep Hg He. pose proof (gi_selection _ _ Hg) as Hs.
  destruct Hstep as [g ws ps o rev id now r g' Hrun|g ws ps r g' Hrun|g ws ps r g' Hrun
    |g ws ps o id reason prov r g' Hrun|g ws ps m validate now1 now2 p g' Hv Hrun|g ws1 ws2 ps p r g' Hrun
    |g ws1 ws2 ps p o r g' Hrun|g ws1 ws2 ps p o r g' Ho Hrun|g ws ps m g' Hrun|g ws ps e g' Hrun
    |g ws ps1 ps2 m r g' Hrun|g ws ps m o now r g' Hrun|g ws1 ws2 ps m o r g' Hrun|g ws1 ws2 ps m Hrun
    |g ws1 ws2 ps m r g' Hrun|g ws ps]; cbn [sys_manager] in *; try done.
  - by apply calm_cache, (post_elim _ _ _ _ _ (allocate_post o rev id now g Hs) Hrun).
  - by apply (post_elim _ _ _ _ _ (load_post g Hs) Hrun).
  - by apply calm_cache, (post_elim _ _ _ _ _ (recover_post g Hs) Hrun).
  - by apply calm_cache, (post_elim _ _ _ _ _ (mark_post o id reason prov g Hs) Hrun).
  - by destruct (post_elim _ _ _ _ _ (prepare_post m validate now1 now2 g Hv) Hrun) as [-> _].
  - by rewrite (post_elim _ _ _ _ _ (fence_post p g) Hrun).
  - by apply calm_cache, (post_elim _ _ _ _ _ (record_post o p g Hs) Hrun).
  - apply ginv_dropped in Hg as [Hw _]. pose proof (post_elim _ _ _ _ _ (select_post o p g Hs Hw Ho) Hrun) as H.
    destruct r as [[]|]; [|by apply calm_cache, H]. destruct H as (_ & _ & _ & _ & _ & _ & _ & Hm & Hc).
    intros c Hc'. right. rewrite Hc in Hc'. by injection Hc' as <-.
  - by apply (post_elim _ _ _ _ _ (pin_post g Hs) Hrun).
  - by apply calm_cache, (post_elim _ _ _ _ _ (pin_post g Hs) Hrun).
  - by injection Hrun as _ <-.
  - pose proof (post_elim _ _ _ _ _ (retire_begin_post o m now g Hs) Hrun) as H.
    destruct r as [[]|e]; [done|by apply calm_cache, H|]. destruct H as [[]|]; [by apply calm_cache|by eapply to_cache].
  - apply cache_kept. by rewrite (proj1 (post_elim _ _ _ _ _ (remove_post o m g) Hrun)).
  - by injection Hrun as _ <-.
Qed.
Lemma ghist_step last es s e s' : gstep false s e s' → ginv last s → ghist es (sys_manager s) →
  ghist (es ++ [e]) (sys_manager s').
Proof.
  intros Hstep Hg Hh. pose proof (gi_selection _ _ Hg) as Hs.
  assert (fences_event e = false → fresh_cache (sys_manager s) (sys_manager s')) as Hc by by eapply step_fresh.
  destruct Hstep; cbn [sys_manager] in *.
  all: try (by eapply ghist_mark); try (by eapply ghist_retire).
  all: try (apply (ghist_same _ _ _ _ Hh);
      [try match goal with |- context [is_ok ?r] => destruct (is_ok r) end; done
      |apply Hc; try match goal with |- context [is_ok ?r] => destruct (is_ok r) end; done|];
      first [done | eapply (kv_elim shelf); [|eassumption]; first [apply kv_load|apply kv_recover|apply kv_prepare
        |apply kv_fence|apply kv_select|apply kv_pin|by apply kv_modify]]).
  all: apply (ghist_quiet _ _ _ _ Hh); [done|eapply (kv_elim fences); [|eassumption]; first [apply kv_allocate|apply kv_record|apply kv_remove]|by apply Hc|];
      eapply shelved_elim; [|eassumption|exact (gh_trees _ _ Hh)]; intros ?; first [apply allocate_shelved|apply record_shelved|apply remove_shelved].
Qed.
Lemma ghist_run es s : grun false es s → ghist es (sys_manager s).
Proof.
  induction 1 as [|es s1 e s2 Hrun IH Hstep].
  - constructor; cbn; try done; intros id; [by intros ?%elem_of_nil|by intros ?%elem_of_nil|by intros []].
  - apply (ghist_step _ _ _ _ _ Hstep (ginv_run _ _ Hrun) IH).
Qed.
Lemma grun_split late es1 e es2 s : grun late (es1 ++ e :: es2) s → ∃ s1 s2, grun late es1 s1 ∧ gstep late s1 e s2.
Proof.
  revert s. induction es2 as [|e2 es2 IH] using rev_ind; intros s Hrun.
  - inversion Hrun as [|es s1 e' s2 H1 H2 E]; [by destruct es1|]. apply app_inj_tail in E as [-> ->]. eauto.
  - rewrite app_comm_cons, app_assoc in Hrun. inversion Hrun as [E|es s1 e' s2 H1 H2 E].
    { by destruct (es1 ++ e :: es2). }
    apply app_inj_tail in E as [-> ->]. by apply (IH s1).
Qed.

(** * Guarantees *)

(** The calls behind two of the events. *)
Lemma step_pinned late s m s' : gstep late s (Pinned m) s' → pin_active (sys_manager s) = (Ok m, sys_manager s').
Proof.
  inversion 1; subst; try done.
  all: match goal with H : (if is_ok ?r then _ else _) = _ |- _ => by destruct (is_ok r)
       | H : match ?r with Ok _ => _ | Err _ => _ end = _ |- _ => by destruct r as [[]|] end.
Qed.
Lemma step_published late s p s' : gstep late s (Published p) s' → ∃ ws1 ws2 o, sys_work s = ws1 ++ Recorded p :: ws2 ∧
  allowed late o ∧ publish_select o p (sys_manager s) = (Ok (), sys_manager s').
Proof.
  inversion 1; subst; try done.
  all: match goal with H : (if is_ok ?r then _ else _) = _ |- _ => destruct r as [[]|]; cbn in H; simplify_eq
       | H : match ?r with Ok _ => _ | Err _ => _ end = _ |- _ => by destruct r as [[]|] end.
  repeat eexists; done.
Qed.

Lemma published_publishable es s p : grun false es s → last_published es = Some p → publishable p.
Proof.
  induction 1 as [|es s1 e s2 Hrun IH Hstep]; [done|]. rewrite last_published_snoc.
  destruct e as [p'| | | | |]; try done. intros [= ->]. apply step_published in Hstep as (ws1 & ws2 & o & Ew & _ & _).
  pose proof (gi_work _ _ (ginv_run _ _ Hrun)) as Hw. rewrite Ew in Hw. by splits_work Hw.
Qed.

(** C17: A reader gets exactly the manifest of the last publication before it,
    and never a generation marked incompatible or retired before, whatever
    threads did in between, however often the process crashed and however its
    writes failed, with one exception: in these runs no synchronisation of the
    directory fails after the active pointer was replaced
    ([late_failure_loses_selection] shows what that does). *)
Theorem readers_see_latest es1 m es2 s (Hrun : grun false (es1 ++ Pinned m :: es2) s) :
  ∃ p, last_published es1 = Some p ∧ stored m = stored p ∧
    (Marked (gm_generation_id m) ∉ es1) ∧ (Retired (gm_generation_id m) ∉ es1).
Proof.
  apply grun_split in Hrun as (s1 & s2 & Hrun & Hstep).
  pose proof (ginv_run _ _ Hrun) as Hg. pose proof (ghist_run _ _ Hrun) as Hh.
  apply step_pinned in Hstep as Hpin. pose proof (gi_selection _ _ Hg) as Hs.
  destruct (post_elim _ _ _ _ _ (pin_post _ Hs) Hpin) as (_ & E & Hm & _ & _).
  pose proof (gi_last _ _ Hg) as Hl. cbn in Hl. rewrite E in Hl.
  destruct (last_published es1) as [p|]; [|done]. apply (inj Some) in Hl. exists p. split_and!; [done|done| |].
  - by apply (ghist_unmarked _ _ _ Hh).
  - intros Hin%(gh_retired _ _ Hh). destruct (gi_active _ _ Hg p eq_refl) as [Ht _]. cbn in *.
    rewrite (stored_id _ _ Hl), Ht in Hin. by destruct Hin.
Qed.


(** C18: Over every interleaving of threads, crash and failing write, except that no
    synchronisation of the directory fails after the active pointer was replaced
    ([late_failure_loses_selection] shows what that does): the record of the
    generation published last and of every generation a reader holds is on disk,
    none of them has a tombstone, and no removal of their directories is in
    progress. *)
Theorem held_directories_kept es s (Hrun : grun false es s) m
    (Hheld : last_published es = Some m ∨ m ∈ sys_pins s) :
  is_Some (f_records (g_files (sys_manager s)) !! gm_generation_id m) ∧
  f_tombstones (g_files (sys_manager s)) !! gm_generation_id m = None ∧
  ∀ q, Removing q ∈ sys_work s → gm_generation_id q ≠ gm_generation_id m.
Proof.
  pose proof (ginv_run _ _ Hrun) as Hg.
  assert (kept (g_files (sys_manager s)) (gm_generation_id m)) as [Ht Hrec].
  { destruct Hheld; [by apply (gi_active _ _ Hg)|by apply (gi_pins _ _ Hg)]. }
  split_and!; [done|done|]. intros q Hq E. pose proof (gi_work _ _ Hg) as Hw. rewrite Forall_forall in Hw.
  specialize (Hw _ Hq). cbn in Hw. rewrite E, Ht in Hw. by destruct Hw.
Qed.

(** [require_compatible] on a marker that the manager wrote *)
Lemma require_marked id g : (∀ v, f_marks (g_files g) !! id = Some v → ∃ r p, v = sort_keys (mark_payload id r p)) →
  is_Some (f_marks (g_files g) !! id) → _safe_generation_id id = Ok id → require_compatible id g = (Err ValueError, g).
Proof.
  intros Hp [v Hv] Hid. destruct (Hp v Hv) as (r & p & ->).
  unfold require_compatible, incompatibility, mbind, st_bind, st_lift, st_gets. rewrite Hid. cbv beta iota. rewrite Hv.
  cbn. unfold get. by destruct (cmp_leb _ _).
Qed.
Lemma require_unmarked id g : f_marks (g_files g) !! id = None → _safe_generation_id id = Ok id →
  require_compatible id g = (Ok (), g).
Proof.
  intros Hn Hid. unfold require_compatible, incompatibility, mbind, st_bind, st_lift, st_gets. rewrite Hid.
  cbv beta iota. by rewrite Hn.
Qed.
Lemma valid_safe m : validate_paths m = Ok () → _safe_generation_id (gm_generation_id m) = Ok (gm_generation_id m).
Proof.
  unfold _validate_paths, _generation_root. destruct (_safe_generation_id _) as [id|] eqn:E; [|done].
  intros _. f_equal. by apply safe_id_same.
Qed.
(** What [check_active] decides on a manifest the manager wrote. *)
Lemma check_active_run p g : publishable p →
  check_active root target compatibility_for cwd realpath is_symlink p g = require_compatible (gm_generation_id p) g.
Proof.
  intros [Ht Hs _ Hst Hp]. unfold check_active. rewrite Ht, Hs, Hst, Hp. by rewrite !bool_decide_true.
Qed.

(** After any run, crashes included, [recover] selects exactly what was
    published last; it refuses it when it was marked incompatible, and finds
    nothing only when nothing was published. *)
Theorem recovery_selects_last es s (Hrun : grun false es s) :
  (recover (sys_manager s)).1 = match last_published es with
    | None => Ok None
    | Some p => match f_marks (g_files (sys_manager s)) !! gm_generation_id p with
                | None => Ok (Some (sorted_manifest p))
                | Some _ => Err ValueError end end ∧
  ∀ id, Marked id ∈ es → is_Some (f_marks (g_files (sys_manager s)) !! id).
Proof.
  split; [|apply ghist_run, Hrun]. pose proof (ginv_run _ _ Hrun) as Hg. pose proof (ghist_run _ _ Hrun) as Hh.
  pose proof (gi_last _ _ Hg) as Hl.
  unfold Generation.recover, _load_active_unlocked, forget_cache, mbind, st_bind, st_gets, st_modify. cbn.
  destruct (last_published es) as [p|] eqn:Ep; cbn in Hl; rewrite Hl; [|done].
  pose proof (published_publishable _ _ _ Hrun Ep) as Hpub. cbn. rewrite (manifest_of_stored _ (pub_version _ Hpub)).
  rewrite (check_active_run _ _ (publishable_sorted _ Hpub)). pose proof (valid_safe _ (pub_paths _ Hpub)) as Hid.
  change (gm_generation_id (sorted_manifest p)) with (gm_generation_id p).
  destruct (f_marks _ !! _) eqn:Em.
  - rewrite require_marked; [done|exact (gh_payload _ _ Hh _)|cbn; by rewrite Em|done].
  - by rewrite require_unmarked.
Qed.

Abbreviation retire := (retire root target compatibility_for cwd realpath is_symlink).
(** The selection loads unless it is marked. *)
Lemma load_run es s : grun false es s →
  (∀ p, last_published es = Some p → f_marks (g_files (sys_manager s)) !! gm_generation_id p = None) →
  ∃ a g', load (sys_manager s) = (Ok a, g') ∧ same_but_cache (sys_manager s) g' ∧
    gm_generation_id <$> a = gm_generation_id <$> last_published es.
Proof.
  intros Hrun Hun. pose proof (ginv_run _ _ Hrun) as Hg. pose proof (ghist_run _ _ Hrun) as Hh.
  pose proof (gi_last _ _ Hg) as Hl. pose proof (load_post _ (gi_selection _ _ Hg)) as Hpost.
  destruct (load (sys_manager s)) as [r g'] eqn:E. apply (post_elim _ _ _ _ _ Hpost) in E as Hr.
  destruct Hr as (Hsame & _ & Ha). destruct r as [a|e].
  - exists a, g'. split_and!; [done|done|]. specialize (Ha a eq_refl). destruct a as [c|].
    + destruct Ha as [Ha _]. rewrite Hl in Ha. destruct (last_published es) as [p|]; [|done].
      apply (inj Some), stored_id in Ha. cbn. by rewrite Ha.
    + rewrite Hl in Ha. by destruct (last_published es).
  - exfalso. revert E. unfold _load_active_unlocked, mbind, st_bind, st_gets. destruct (mem_loaded _); [done|].
    destruct (last_published es) as [p|] eqn:Ep; cbn in Hl; rewrite Hl; [|done].
    pose proof (published_publishable _ _ _ Hrun Ep) as Hpub. cbn. rewrite (manifest_of_stored _ (pub_version _ Hpub)).
    rewrite (check_active_run _ _ (publishable_sorted _ Hpub)). rewrite require_unmarked; [done|exact (Hun p eq_refl)|].
    apply valid_safe, pub_paths. by apply publishable_sorted.
Qed.

(** Retirement, run without interruption and with working storage, answers
    whether the generation is not selected, not held by a reader and not being
    retired; exactly then its directory and record are gone and its tombstone
    is written, and otherwise no file changes. *)
Theorem retire_spec es s m now (Hrun : grun false es s) (Hvalid : validate_paths m = Ok ())
    (Hload : ∀ p, last_published es = Some p → f_marks (g_files (sys_manager s)) !! gm_generation_id p = None) :
  let g := sys_manager s in let id := gm_generation_id m in
  let removable := negb (bool_decide (gm_generation_id <$> last_published es = Some id))
                   && (pins_of id (sys_pins s) =? 0)%Z && negb (bool_decide (id ∈ mem_retiring (g_memory g))) in
  ∃ g', retire Written Removed m now g = (Ok removable, g') ∧
    if removable
    then is_Some (f_tombstones (g_files g') !! id) ∧ f_records (g_files g') = delete id (f_records (g_files g)) ∧
         f_trees (g_files g') = f_trees (g_files g) ∖ {[id]} ∧ f_pointer (g_files g') = f_pointer (g_files g)
    else g_files g' = g_files g.
Proof.
  cbv zeta. destruct (load_run _ _ Hrun Hload) as (a & g1 & El & (Ef & Er & Ex & _) & Ea).
  pose proof (ginv_run _ _ Hrun) as Hg. pose proof (gi_references _ _ Hg (gm_generation_id m)) as Hrefs.
  unfold Generation.retire, Generation.retire_begin, mbind, st_bind, st_lift. rewrite Hvalid, El, <- Ea.
  assert ((match a with Some c => String.eqb (gm_generation_id c) (gm_generation_id m) | None => false end)
    = bool_decide (gm_generation_id <$> a = Some (gm_generation_id m))) as ->.
  { destruct a as [c|]; cbn; [|done]. destruct (String.eqb_spec (gm_generation_id c) (gm_generation_id m)) as [->|Hne].
    - by rewrite bool_decide_true.
    - rewrite bool_decide_false; [done|]. congruence. }
  destruct (bool_decide (_ = _)); [by exists g1|]. cbn [negb andb]. unfold st_gets. rewrite Er, Hrefs, Ex.
  destruct (_ =? 0)%Z; cbn [negb andb]; [|by exists g1].
  destruct (bool_decide (_ ∈ _)); cbn [negb]; [by exists g1|].
  unfold _write_retired_tombstone_unlocked, durable_write, st_lift, st_modify, mbind, st_bind.
  rewrite (valid_safe _ Hvalid). cbn.
  unfold _validate_paths in Hvalid. destruct (generation_root _) as [generation_root|]; [|done]. cbn.
  unfold st_finally, retire_remove, retire_end, st_modify, mbind, st_bind, st_gets. cbn. rewrite Ef.
  destruct (bool_decide_reflect (gm_generation_id m ∈ f_trees (g_files (sys_manager s)))) as [Hin|Hout]; cbn.
  - eexists. split; [done|]. cbn. rewrite Ef, lookup_insert_eq. by split_and!.
  - eexists. split; [done|]. cbn. rewrite Ef, lookup_insert_eq. split_and!; [done| | |done].
    + rewrite delete_id; [done|]. apply eq_None_not_Some. intros Hrec. by apply Hout, (gh_trees _ _ (ghist_run _ _ Hrun)).
    + apply set_eq. intros id. rewrite elem_of_difference, elem_of_singleton. split; [|by intros []].
      intros Hid. split; [done|congruence].
Qed.

(** * The methods as steps *)

Abbreviation publish := (publish root target compatibility_for cwd realpath is_symlink).
(** [publish] run by one thread alone is a sequence of steps, which selects its
    manifest exactly when it returns. *)
Lemma publish_is_steps late es g ws ps o1 o2 m validate now1 now2 :
  grun late es (MkSystem g ws ps) → gm_schema_version m = MANIFEST_SCHEMA_VERSION → allowed late o2 →
  ∃ es', grun late (es ++ es') (MkSystem (publish o1 o2 m validate now1 now2 g).2 ws ps) ∧
    es' = match (publish o1 o2 m validate now1 now2 g).1 with
          | Ok p => [Internal; Internal; Internal; Published p]
          | Err _ => replicate (length es') Internal end.
Proof.
  intros Hrun Hv Ho2. unfold Generation.publish, mbind, st_bind.
  destruct (publish_prepare m validate now1 now2 g) as [r1 g1] eqn:E1.
  destruct (post_elim _ _ _ _ _ (prepare_post m validate now1 now2 g Hv) E1) as [-> _].
  destruct r1 as [p|e]; [|exists []; by rewrite app_nil_r].
  pose proof (grun_snoc _ _ _ _ _ Hrun (step_prepare late g ws ps _ _ _ _ _ _ Hv E1)) as H1.
  destruct (publish_fence p g) as [r2 g2] eqn:E2.
  pose proof (grun_snoc _ _ _ _ _ H1 (step_fence late g [] ws ps p _ _ E2)) as H2.
  destruct r2 as [[]|e]; cbn [is_ok app] in H2; [|eexists [_; _]; split; [|done]; by rewrite <- !app_assoc in H2].
  destruct (publish_record o1 p g2) as [r3 g3] eqn:E3.
  pose proof (grun_snoc _ _ _ _ _ H2 (step_record late g2 [] ws ps p _ _ _ E3)) as H3.
  destruct r3 as [[]|e]; cbn [is_ok app] in H3; [|eexists [_; _; _]; split; [|done]; by rewrite <- !app_assoc in H3].
  destruct (publish_select o2 p g3) as [r4 g4] eqn:E4.
  pose proof (grun_snoc _ _ _ _ _ H3 (step_select late g3 [] ws ps p _ _ _ Ho2 E4)) as H4.
  rewrite <- !app_assoc in H4. destruct r4 as [[]|e]; cbn [is_ok app] in H4; by eexists [_; _; _; _].
Qed.
(** So is [retire]. *)
Lemma retire_is_steps late es g ws ps o rm m now : grun late es (MkSystem g ws ps) →
  (retire o rm m now g).1 = Ok true →
  grun late (es ++ [Retired (gm_generation_id m); Internal; Internal]) (MkSystem (retire o rm m now g).2 ws ps).
Proof.
  intros Hrun. unfold Generation.retire, mbind, st_bind.
  destruct (retire_begin o m now g) as [r1 g1] eqn:E1.
  pose proof (grun_snoc _ _ _ _ _ Hrun (step_retire late g ws ps _ _ _ _ _ E1)) as H1.
  destruct r1 as [[]|e]; cbn [negb]; [|done..]. unfold st_lift. destruct (generation_root _) as [p|]; [|done].
  unfold st_finally. destruct (retire_remove rm m g1) as [r2 g2] eqn:E2.
  pose proof (grun_snoc _ _ _ _ _ H1 (step_remove late g1 [] ws ps m _ _ _ E2)) as H2.
  destruct (retire_end m g2) as [r3 g3] eqn:E3.
  pose proof (grun_snoc _ _ _ _ _ H2 (step_end late g2 [] ws ps m _ _ E3)) as H3.
  rewrite <- !app_assoc in H3. destruct r2 as [[]|e]; unfold mret, st_ret; rewrite E3; by destruct r3 as [[]|e'].
Qed.
Lemma pin_is_step late es g ws ps m : grun late es (MkSystem g ws ps) → (pin_active g).1 = Ok m →
  grun late (es ++ [Pinned m]) (MkSystem (pin_active g).2 ws (m :: ps)).
Proof.
  intros Hrun Hm. eapply grun_snoc; [exact Hrun|]. apply step_pin. rewrite <- Hm. apply surjective_pairing.
Qed.
End generations.

(** * An example *)

Section example.
#[local] Open Scope string_scope.
Definition demo_root : path := ["srv"].
Definition demo_target : PhysicalTargetKey := from_paths id "Main" " owner" "/srv/graph" "/srv/vector".
Definition demo_fence (_ : string) : res dict := Ok [("graph_mode", JStr "file")].
Abbreviation demo f := (f demo_root demo_target demo_fence [] id (λ _, false)).
Definition demo_manifest (id : string) : GenerationManifest :=
  MkGenerationManifest id demo_target "rev" ("/srv/generations/" +:+ id +:+ "/graph/data.rdb")
    ("/srv/generations/" +:+ id +:+ "/vector") GenerationState.BUILDING "t0" JNull JNull JNull
    [("storage_compatibility", JObj [("graph_mode", JStr "file")])] 1.
Definition demo_published (id : string) : GenerationManifest :=
  (demo_manifest id) <| gm_state := GenerationState.PUBLISHED |> <| gm_validated_at := JStr "t1" |>
    <| gm_published_at := JStr "t2" |>.
Definition accept (m : GenerationManifest) : res dict := Ok (gm_validation m).
Definition demo_publish (o : io_outcome) (id : string) := demo publish Written o (demo_manifest id) accept "t1" "t2".
Definition demo_g0 : manager := MkManager empty_files fresh_memory.
Definition demo_g1 : manager := (demo_publish Written "g1" demo_g0).2.
Definition demo_g2 : manager := (demo_publish Written "g2" demo_g1).2.
Abbreviation demo_grun := (grun demo_root demo_target demo_fence [] id (λ _, false)).
Definition steps_of (id : string) : list event := [Internal; Internal; Internal; Published (demo_published id)].

Lemma demo_target_texts : sorted_target demo_target = demo_target.
Proof. reflexivity. Qed.
Lemma demo_initial late : demo_grun late [] (MkSystem demo_g0 [] []).
Proof. constructor. Qed.
Lemma demo_publishes late es gid g : demo_grun late es (MkSystem g [] []) →
  (demo_publish Written gid g).1 = Ok (demo_published gid) →
  demo_grun late (es ++ steps_of gid) (MkSystem (demo_publish Written gid g).2 [] []).
Proof.
  intros Hrun Hr. destruct (publish_is_steps demo_root demo_target demo_fence [] id (λ _, false) late es g [] []
    Written Written (demo_manifest gid) accept "t1" "t2" Hrun) as (es' & Hrun' & E); try done.
  unfold demo_publish in *. rewrite Hr in E. by subst es'.
Qed.
Lemma demo_result1 : (demo_publish Written "g1" demo_g0).1 = Ok (demo_published "g1").
Proof. vm_compute. reflexivity. Qed.
Lemma demo_result2 : (demo_publish Written "g2" demo_g1).1 = Ok (demo_published "g2").
Proof. vm_compute. reflexivity. Qed.
Lemma demo_pinned : (demo pin_active demo_g1).1 = Ok (demo_published "g1").
Proof. vm_compute. reflexivity. Qed.
Lemma demo_run1 late : demo_grun late (steps_of "g1") (MkSystem demo_g1 [] []).
Proof. exact (demo_publishes late [] "g1" demo_g0 (demo_initial late) demo_result1). Qed.
Lemma demo_run2 : demo_grun false (steps_of "g1" ++ steps_of "g2") (MkSystem demo_g2 [] []).
Proof. exact (demo_publishes false _ "g2" demo_g1 (demo_run1 false) demo_result2). Qed.
Lemma demo_run_pinned : demo_grun false (steps_of "g1" ++ [Pinned (demo_published "g1")])
  (MkSystem (demo pin_active demo_g1).2 [] [demo_published "g1"]).
Proof. exact (pin_is_step _ _ _ _ _ _ _ _ _ _ _ _ (demo_run1 false) demo_pinned). Qed.

Lemma readers_see_latest_witness : ∃ p, last_published (steps_of "g1") = Some p ∧
  stored (demo_published "g1") = stored p ∧ (Marked "g1" ∉ steps_of "g1") ∧ (Retired "g1" ∉ steps_of "g1").
Proof. exact (readers_see_latest _ _ _ _ _ _ demo_target_texts (steps_of "g1") (demo_published "g1") [] _ demo_run_pinned). Defined.
Lemma held_directories_kept_witness :
  is_Some (f_records (g_files (demo pin_active demo_g1).2) !! "g1") ∧
  f_tombstones (g_files (demo pin_active demo_g1).2) !! "g1" = None ∧
  ∀ q, Removing q ∈ [] → gm_generation_id q ≠ "g1".
Proof.
  apply (held_directories_kept _ _ _ _ _ _ demo_target_texts _ _ demo_run_pinned (demo_published "g1")). right. by left.
Defined.
Lemma demo_no_mark : f_marks (g_files demo_g2) !! "g2" = None.
Proof. vm_compute. reflexivity. Qed.
Lemma recovery_selects_last_witness : (demo recover demo_g2).1 = Ok (Some (sorted_manifest (demo_published "g2"))).
Proof.
  pose proof (proj1 (recovery_selects_last _ _ _ _ _ _ demo_target_texts _ _ demo_run2)) as H.
  change (last_published _) with (Some (demo_published "g2")) in H. cbv iota in H.
  change (gm_generation_id (demo_published "g2")) with "g2" in H. cbn [sys_manager] in H.
  rewrite demo_no_mark in H. exact H.
Defined.
Lemma demo_removable :
  negb (bool_decide (gm_generation_id <$> last_published (steps_of "g1" ++ steps_of "g2") = Some "g1"))
  && (pins_of "g1" [] =? 0)%Z && negb (bool_decide ("g1" ∈ mem_retiring (g_memory demo_g2))) = true.
Proof. vm_compute. reflexivity. Qed.
Lemma demo_unmarked p : last_published (steps_of "g1" ++ steps_of "g2") = Some p →
  f_marks (g_files demo_g2) !! gm_generation_id p = None.
Proof. intros [= <-]. exact demo_no_mark. Qed.
Lemma demo_valid : _validate_paths demo_root [] id (λ _, false) (demo_manifest "g1") = Ok ().
Proof. vm_compute. reflexivity. Qed.
Lemma retire_spec_witness : ∃ g', demo retire Written Removed (demo_manifest "g1") "t3" demo_g2 = (Ok true, g') ∧
  f_records (g_files g') = delete "g1" (f_records (g_files demo_g2)).
Proof.
  pose proof (retire_spec _ _ _ _ _ _ demo_target_texts _ _ (demo_manifest "g1") "t3" demo_run2 demo_valid demo_unmarked) as H.
  cbv zeta in H. cbn [sys_manager sys_pins] in H. change (gm_generation_id (demo_manifest "g1")) with "g1" in H.
  lazymatch type of H with ∃ _, _ = (Ok ?b, _) ∧ _ => replace b with true in H by (symmetry; exact demo_removable) end.
  destruct H as (g' & Hr & _ & Hrec & _). exists g'. split; [exact Hr|exact Hrec].
Defined.
Lemma manifest_reads_back_witness : manifest_of_json (stored (demo_published "g1")) = Ok (demo_published "g1").
Proof. exact (proj1 (manifest_reads_back (demo_published "g1") eq_refl)). Defined.

(** When the synchronisation of the directory fails after the pointer was
    replaced, [publish] raises and the manager still serves the generation
    before, but the pointer on disk names the new one; [retire] then removes it,
    and after a restart readers are sent to a generation that is gone. *)
Definition demo_late : manager := (demo_publish FailedLate "g2" demo_g1).2.
Definition demo_lost : manager := (demo retire Written Removed (demo_manifest "g2") "t3" demo_late).2.
Lemma demo_late_raises : (demo_publish FailedLate "g2" demo_g1).1 = Err OSError.
Proof. vm_compute. reflexivity. Qed.
Lemma demo_late_serves : (demo load_active demo_late).1 = Ok (Some (demo_published "g1")).
Proof. vm_compute. reflexivity. Qed.
Lemma demo_lost_retires : (demo retire Written Removed (demo_manifest "g2") "t3" demo_late).1 = Ok true.
Proof. vm_compute. reflexivity. Qed.
Lemma demo_lost_pointer : f_pointer (g_files demo_lost) = Some (stored (demo_published "g2")).
Proof. vm_compute. reflexivity. Qed.
Lemma demo_lost_record : f_records (g_files demo_lost) !! "g2" = None.
Proof. vm_compute. reflexivity. Qed.
Lemma demo_lost_recovers : (demo recover demo_lost).1 = Ok (Some (sorted_manifest (demo_published "g2"))).
Proof. vm_compute. reflexivity. Qed.
Theorem late_failure_loses_selection : ∃ es s p, demo_grun true es s ∧
  f_pointer (g_files (sys_manager s)) = Some (stored p) ∧
  f_records (g_files (sys_manager s)) !! gm_generation_id p = None ∧
  (demo recover (sys_manager s)).1 = Ok (Some (sorted_manifest p)).
Proof.
  destruct (publish_is_steps demo_root demo_target demo_fence [] id (λ _, false) true _ demo_g1 [] []
    Written FailedLate (demo_manifest "g2") accept "t1" "t2" (demo_run1 true)) as (es' & Hrun & _); try done.
  pose proof (retire_is_steps _ _ _ _ _ _ true _ _ _ _ Written Removed _ "t3" Hrun demo_lost_retires) as Hlost.
  eexists _, _, (demo_published "g2"). split; [exact Hlost|].
  split_and!; [exact demo_lost_pointer|exact demo_lost_record|exact demo_lost_recovers].
Qed.
End example.
