(* ===== verification/Jobs.v ===== *)
(** The ingestion jobs of [StoreGateway] in [cortex_harness/storage/gateway.py]:
    the job table with its idempotency keys and queue limits, its file, and the
    reconciliation of a table that a dead owner left.  A coroutine holds the
    job lock in sections that do not suspend; each is one computation here. *)
From S2P Require Import Prelude Json Text PyValue Models Contracts Stateful Generation Admission.

(** [StoreGatewayError(code, retryable=...)], or another exception. *)
Inductive gateway_error : Type :=
  | GatewayError (code : GatewayErrorCode.GatewayErrorCode) (retryable : bool)
  | Raised (e : exn).
Definition store_maintenance : gateway_error := GatewayError GatewayErrorCode.STORE_MAINTENANCE true.
Definition ingestion_already_running : gateway_error := GatewayError GatewayErrorCode.INGESTION_ALREADY_RUNNING false.
Definition ingestion_overloaded : gateway_error := GatewayError GatewayErrorCode.OVERLOADED true.

(** * The state machine of a job *)

Import IngestionJobState.
Definition _JOB_TRANSITIONS (s : IngestionJobState) : list IngestionJobState :=
  match s with
  | QUEUED => [PREPARING; WRITING; CANCELLED; FAILED; SUPERSEDED]
  | PREPARING => [WRITING; CANCELLED; FAILED; SUPERSEDED]
  | WRITING => [VALIDATING; CANCELLED; FAILED; AMBIGUOUS]
  | VALIDATING => [PUBLISHING; CANCELLED; FAILED; AMBIGUOUS]
  | PUBLISHING => [COMPLETED; FAILED; AMBIGUOUS]
  | COMPLETED | FAILED | CANCELLED | AMBIGUOUS | SUPERSEDED => []
  end.

(** * The job table *)

(** A [dict]: keys in the order in which they were first inserted. *)
Section odict.
Context {K V : Type} `{EqDecision K}.
Fixpoint od_get (k : K) (d : list (K * V)) : option V :=
  match d with [] => None | (k', v) :: d => if decide (k = k') then Some v else od_get k d end.
Fixpoint od_set (k : K) (v : V) (d : list (K * V)) : list (K * V) :=
  match d with
  | [] => [(k, v)]
  | (k', w) :: d => if decide (k = k') then (k, v) :: d else (k', w) :: od_set k v d
  end.
End odict.
(** [_jobs], [_job_keys] and [_accepting_jobs] *)
Record job_table := MkJobTable {
  jt_jobs : list (string * IngestionJob); jt_keys : list (string * string * string); jt_accepting : bool;
}.
#[export] Instance job_table_eta : Eta job_table := λ t, MkJobTable (jt_jobs t) (jt_keys t) (jt_accepting t).
Definition empty_table : job_table := MkJobTable [] [] false.
Abbreviation J := (st job_table gateway_error).
Definition raised {A} (r : res A) : result gateway_error A := match r with Ok a => Ok a | Err e => Err (Raised e) end.
Definition active_jobs (jobs : list (string * IngestionJob)) : list IngestionJob :=
  List.filter (λ j, negb (job_terminal (job_state j))) jobs.*2.
(** [int(job.detail.get("estimated_bytes", 0))] *)
Definition estimated_bytes_of (j : IngestionJob) : res Z :=
  match job_detail j with
  | JObj detail => py_int (get_default "estimated_bytes" (JInt 0) detail)
  | _ => Err AttributeError
  end.
Fixpoint queued_bytes (jobs : list IngestionJob) : res Z :=
  match jobs with
  | [] => Ok 0%Z
  | j :: jobs => n ← estimated_bytes_of j; total ← queued_bytes jobs; mret (n + total)%Z
  end.
Definition queued_count (jobs : list (string * IngestionJob)) : Z :=
  Z.of_nat (length (List.filter (λ j, bool_decide (job_state j = QUEUED)) jobs.*2)).

Section jobs.
(** [self.target] and [self.limits.write] *)
Context (target : PhysicalTargetKey) (limits : LaneLimits).

Definition require_accepting : J unit :=
  accepting ← st_gets jt_accepting; st_reject (negb accepting) store_maintenance.
(** [submit_ingest], up to [_persist_jobs], which follows for a new job: its
    result says so.  [uuid] is the fresh identifier. *)
Definition submit_ingest (uuid now1 now2 idempotency_key source_revision : string) (estimated_bytes : Z)
    : J (IngestionJob * bool) :=
  _ ← st_reject (is_empty (strip idempotency_key) || is_empty (strip source_revision)) (Raised ValueError);
  _ ← st_reject (estimated_bytes <? 0)%Z (Raised ValueError);
  value ← st_lift (raised (target_value target));
  let key := (value, idempotency_key) in
  _ ← require_accepting;
  table ← st_gets id;
  match od_get key (jt_keys table) with
  | Some existing_id =>
      match od_get existing_id (jt_jobs table) with
      | None => st_raise (Raised KeyError)
      | Some existing =>
          _ ← st_reject (negb (bool_decide (job_source_revision existing = JStr source_revision))) ingestion_already_running;
          mret (existing, false)
      end
  | None =>
      let active := active_jobs (jt_jobs table) in
      queued ← st_lift (raised (queued_bytes active));
      _ ← st_reject ((max_queue_items limits <=? Z.of_nat (length active))%Z
                     || (max_queue_bytes limits <? queued + estimated_bytes)%Z) ingestion_overloaded;
      let job := MkIngestionJob (JStr uuid) target (JStr idempotency_key) (JStr source_revision) QUEUED
                   (JStr now1) (JStr now2) (JInt (queued_count (jt_jobs table))) JNull
                   (JObj [("estimated_bytes", JInt estimated_bytes)]%string) JNull in
      _ ← st_modify (λ t, t <| jt_jobs ::= od_set uuid job |> <| jt_keys ::= od_set key uuid |>);
      mret (job, true)
  end.

(** [update_job(job_id, state, **changes)], up to [_persist_jobs].  The names of
    the other parameters are no keyword arguments.  All values are JSON values
    here, so [json.dumps] accepts the result. *)
Definition update_job (id : string) (state : IngestionJobState) (changes : dict) (now : string) : J IngestionJob :=
  _ ← st_reject (existsb (λ kv : string * json, in_list kv.1 ["self"; "job_id"; "state"]) changes) (Raised TypeError);
  _ ← require_accepting;
  jobs ← st_gets jt_jobs;
  match od_get id jobs with
  | None => st_raise (Raised KeyError)
  | Some job =>
      let same := bool_decide (state = job_state job) in
      _ ← st_reject (job_terminal (job_state job) && negb same) (Raised ValueError);
      _ ← st_reject (negb same && negb (bool_decide (state ∈ _JOB_TRANSITIONS (job_state job)))) (Raised ValueError);
      updated ← st_lift (raised (with_state job state changes now));
      _ ← st_modify (λ t, t <| jt_jobs ::= od_set id updated |>);
      mret updated
  end.

(** [get_ingestion_status] *)
Definition get_ingestion_status (id : string) : J (option IngestionJob) :=
  jobs ← st_gets jt_jobs; mret (od_get id jobs).

(** [cancel_ingest], up to [_persist_jobs], which follows when something was
    changed. *)
Definition cancel_ingest (id now1 now2 : string) : J (option IngestionJob * bool) :=
  _ ← require_accepting;
  jobs ← st_gets jt_jobs;
  match od_get id jobs with
  | None => mret (None, false)
  | Some job =>
      if job_terminal (job_state job) then mret (Some job, false)
      else
        let now := py_or (job_cancel_requested_at job) (JStr now1) in
        updated ← st_lift (raised (match job_state job with
          | QUEUED | PREPARING =>
              with_state job CANCELLED [("cancel_requested_at", now); ("queue_position", JNull)]%string now2
          | s => with_state job s [("cancel_requested_at", now)]%string now2 end));
        _ ← st_modify (λ t, t <| jt_jobs ::= od_set id updated |>);
        mret (Some updated, true)
  end.

(** What [wait] of [wait_for_ingestion] finds whenever it looks: its result, or
    nothing while it has to wait on. *)
Definition wait_poll (id : string) (t : job_table) : option (option IngestionJob) :=
  match od_get id (jt_jobs t) with
  | None => Some None
  | Some job => if job_terminal (job_state job) then Some (Some job) else None
  end.

(** * The file of the jobs *)

(** The payload of [_persist_jobs], as the text in the file reads back. *)
Definition jobs_payload (t : job_table) : res json :=
  value ← target_value target;
  mret (sort_keys (JObj [("schema_version", JInt 1); ("target", JStr value);
                         ("jobs", JArr (map (λ j, JObj (job_to_dict j)) (jt_jobs t).*2))]%string)).
Definition FileNotFoundError : exn := OtherException "FileNotFoundError".
(** [_read_jobs_file] *)
Definition _read_jobs_file (file : option json) : res dict :=
  match file with
  | None => Err FileNotFoundError
  | Some (JObj payload) => match get "jobs" payload with JArr _ => Ok payload | _ => Err ValueError end
  | Some _ => Err ValueError
  end.

(** The branch of [_load_jobs] for one job; [active] is the recovered active
    generation. *)
Definition with_recovery (j : IngestionJob) (state : IngestionJobState) (more : dict) (note now : string) : res IngestionJob :=
  match job_detail j with
  | JObj detail => with_state j state (more ++ [("detail", JObj (setitem "recovery" (JStr note) detail))]%string) now
  | _ => Err TypeError
  end.
Definition reconcile_job (active : option GenerationManifest) (now : string) (j : IngestionJob) : res IngestionJob :=
  match job_state j with
  | PREPARING => with_recovery j QUEUED [] "preparation_requeued_after_restart" now
  | PUBLISHING =>
      if match active with
         | Some a => bool_decide (job_generation_id j = JStr (gm_generation_id a))
                     && bool_decide (job_source_revision j = JStr (gm_source_revision a))
         | None => false end
      then with_recovery j COMPLETED [("queue_position", JNull)]%string "publication_reconciled" now
      else with_recovery j AMBIGUOUS [] "publication_not_selected_by_active_manifest" now
  | WRITING | VALIDATING => with_recovery j AMBIGUOUS [] "owner_restarted_during_store_operation" now
  | QUEUED | COMPLETED | FAILED | CANCELLED | AMBIGUOUS | SUPERSEDED => Ok j
  end.
Definition load_job (active : option GenerationManifest) (now value : string) (item : json) (t : job_table) : res job_table :=
  match item with
  | JObj data =>
      j ← job_from_dict data;
      if negb (bool_decide (job_target j = target)) then Err ValueError else
      j ← reconcile_job active now j;
      id ← text_of (job_id j);
      idempotency_key ← text_of (job_idempotency_key j);
      mret (t <| jt_jobs ::= od_set id j |> <| jt_keys ::= od_set (value, idempotency_key) id |>)
  | _ => Err AttributeError
  end.
Fixpoint load_items (active : option GenerationManifest) (now value : string) (items : list json) (t : job_table)
    : res job_table :=
  match items with
  | [] => Ok t
  | item :: items => t ← load_job active now value item t; load_items active now value items t
  end.
(** [_load_jobs], up to [_persist_jobs]: without a file nothing is done; else
    its result says that the table was replaced. *)
Definition _load_jobs (file : option json) (active : option GenerationManifest) (now : string) : st job_table exn bool :=
  match file with
  | None => mret false
  | Some _ =>
      payload ← st_lift (_read_jobs_file file);
      value ← st_lift (target_value target);
      _ ← st_reject (negb (bool_decide (get "schema_version" payload = JInt 1))
                     || negb (bool_decide (get "target" payload = JStr value))) ValueError;
      recovered ← st_lift (load_items active now value
                             (match get "jobs" payload with JArr items => items | _ => [] end) empty_table);
      _ ← st_modify (λ t, t <| jt_jobs := jt_jobs recovered |> <| jt_keys := jt_keys recovered |>);
      mret true
  end.
End jobs.
