(* ===== verification/JobStore.v ===== *)
(** The ingestion jobs of a gateway over their whole life: interleaved calls,
    their writes of the job file under its lock, failing writes, and crashes
    followed by a reload.  A change is durable once its own write, or that of
    a later table, has succeeded. *)
From S2P Require Import Prelude Json Text PyValue Models Contracts Stateful Generation Generations Jobs.
Import IngestionJobState.

(** * Ordered dictionaries *)

Section odict.
Context {K V : Type} `{EqDecision K}.
Implicit Types d : list (K * V).
Lemma od_get_set k k' v d : od_get k (od_set k' v d) = if decide (k = k') then Some v else od_get k d.
Proof.
  induction d as [|[k1 w] d IH]; cbn; [done|]. repeat (case_decide; cbn; simplify_eq); try done.
Qed.
Lemma od_set_fresh k v d : od_get k d = None → od_set k v d = d ++ [(k, v)].
Proof. induction d as [|[k1 w] d IH]; cbn; [done|]. case_decide; [done|]. intros Hk. by rewrite IH. Qed.
Lemma od_get_elem k v d : od_get k d = Some v → (k, v) ∈ d.
Proof. induction d as [|[k1 w] d IH]; cbn; [done|]. case_decide; intros; simplify_eq; [left|right; auto]. Qed.
Lemma od_get_keys k d : od_get k d = None ↔ k ∉ d.*1.
Proof.
  induction d as [|[k1 w] d IH]; cbn; [split; [intros _; apply not_elem_of_nil|done]|].
  rewrite not_elem_of_cons. case_decide as Hk; [split; [done|by intros []]|]. rewrite IH. tauto.
Qed.
Lemma od_elem_get k v d : NoDup d.*1 → (k, v) ∈ d → od_get k d = Some v.
Proof.
  induction d as [|[k1 w] d IH]; cbn; [by intros _ ?%elem_of_nil|]. intros [Hk Hnd]%NoDup_cons [[= -> ->]|Hin]%elem_of_cons.
  - by rewrite decide_True.
  - rewrite decide_False; [auto|]. intros ->. apply Hk. by apply (list_elem_of_fmap_2 fst _ (k1, v)).
Qed.
Lemma od_set_keys k v d : (od_set k v d).*1 = if decide (k ∈ d.*1) then d.*1 else d.*1 ++ [k].
Proof.
  induction d as [|[k1 w] d IH]; cbn; [done|]. destruct (decide (k = k1)) as [->|Hne]; cbn.
  - rewrite decide_True; [done|left].
  - rewrite IH. destruct (decide (k ∈ d.*1)) as [Hin|Hin].
    + rewrite decide_True; [done|by right].
    + rewrite decide_False; [done|]. by intros [|]%elem_of_cons.
Qed.
Lemma od_set_NoDup k v d : NoDup d.*1 → NoDup (od_set k v d).*1.
Proof.
  intros Hnd. rewrite od_set_keys. case_decide; [done|]. apply NoDup_app. split_and!; [done| |apply NoDup_singleton].
  intros x Hx ->%list_elem_of_singleton. done.
Qed.
Lemma od_set_split k v w d : od_get k d = Some w → ∃ d1 d2, d = d1 ++ (k, w) :: d2 ∧ od_set k v d = d1 ++ (k, v) :: d2.
Proof.
  induction d as [|[k1 w1] d IH]; cbn; [done|]. case_decide as Hk; intros H; simplify_eq.
  - by exists [], d.
  - destruct (IH H) as (d1 & d2 & -> & ->). by exists ((k1, w1) :: d1), d2.
Qed.
End odict.

(** * Jobs as the code makes them *)

(** One move of a job: a listed transition, or a preparation that is queued
    again after a restart. *)
Definition job_move (s s' : IngestionJobState) : Prop :=
  s' ∈ _JOB_TRANSITIONS s ∨ (s = PREPARING ∧ s' = QUEUED).
Definition text (v : json) : Prop := match v with JStr _ => True | _ => False end.
Definition text_or_none (v : json) : Prop := match v with JStr _ | JNull => True | _ => False end.
Definition int_or_none (v : json) : Prop := match v with JInt _ | JNull => True | _ => False end.
Definition object (v : json) : Prop := match v with JObj _ => True | _ => False end.
(** The fields have the types the dataclass declares. *)
Record job_ok (target : PhysicalTargetKey) (id : string) (j : IngestionJob) : Prop := {
  jo_id : job_id j = JStr id;
  jo_target : job_target j = target;
  jo_key : text (job_idempotency_key j);
  jo_revision : text (job_source_revision j);
  jo_submitted : text (job_submitted_at j);
  jo_updated : text (job_updated_at j);
  jo_position : int_or_none (job_queue_position j);
  jo_generation : text_or_none (job_generation_id j);
  jo_detail : object (job_detail j);
  jo_cancel : text_or_none (job_cancel_requested_at j);
}.
(** Keyword arguments of those types, none of which renames the job. *)
Inductive change_typed : string * json → Prop :=
  | typed_position v : int_or_none v → change_typed ("queue_position"%string, v)
  | typed_generation v : text_or_none v → change_typed ("generation_id"%string, v)
  | typed_cancel v : text_or_none v → change_typed ("cancel_requested_at"%string, v)
  | typed_detail v : object v → change_typed ("detail"%string, v)
  | typed_overwritten k v : k ∈ ["target"; "updated_at"]%string → change_typed (k, v).
(** A later version of the same job. *)
Record job_evolves (j j' : IngestionJob) : Prop := {
  je_id : job_id j' = job_id j;
  je_target : job_target j' = job_target j;
  je_key : job_idempotency_key j' = job_idempotency_key j;
  je_revision : job_source_revision j' = job_source_revision j;
  je_submitted : job_submitted_at j' = job_submitted_at j;
  je_state : rtc job_move (job_state j) (job_state j');
}.
#[export] Instance job_evolves_preorder : PreOrder job_evolves.
Proof.
  split; [intros j; by constructor|]. intros j1 j2 j3 [] []. constructor; try congruence. by etrans.
Qed.
(** A terminal job stays as it is. *)
Lemma terminal_final s s' : rtc job_move s s' → job_terminal s = true → s' = s.
Proof.
  induction 1 as [|s s1 s2 [Hm|[-> ->]] _ IH]; [done| |done].
  destruct s; try done; by intros _; apply elem_of_nil in Hm.
Qed.

(** What [change_fields] and [with_state] make of a job. *)
Definition changed (target : PhysicalTargetKey) (id : string) (j j' : IngestionJob) : Prop :=
  job_ok target id j' ∧ job_evolves j j' ∧ job_state j' = job_state j.
Lemma change_typed_field target id j kv : job_ok target id j → change_typed kv →
  ∃ j', change_field j kv = Ok j' ∧ changed target id j j'.
Proof.
  intros [] [v Hv|v Hv|v Hv|v Hv|k v Hk].
  1-4: eexists; split; [reflexivity|]; split_and!; [by constructor|by constructor|done].
  exists j. assert (change_field j (k, v) = Ok j) as ->.
  { apply elem_of_cons in Hk as [->|[->|Hk%elem_of_nil]%elem_of_cons]; done. }
  split; [done|]. split_and!; [by constructor|by constructor|done].
Qed.
Lemma change_typed_fields target id changes : Forall change_typed changes → ∀ j, job_ok target id j →
  ∃ j', change_fields j changes = Ok j' ∧ changed target id j j'.
Proof.
  induction 1 as [|kv changes Hkv _ IH]; intros j Hj; cbn; [by exists j|].
  destruct (change_typed_field _ _ _ _ Hj Hkv) as (j1 & -> & H1 & E1 & S1). cbn.
  destruct (IH _ H1) as (j2 & -> & H2 & E2 & S2). exists j2. split; [done|]. split_and!; [done|by etrans|congruence].
Qed.
Lemma with_state_typed target id j state changes now : job_ok target id j → Forall change_typed changes →
  rtc job_move (job_state j) state →
  ∃ j', with_state j state changes now = Ok j' ∧ job_ok target id j' ∧ job_evolves j j' ∧ job_state j' = state.
Proof.
  intros Hj Hc Hm. unfold with_state. destruct (change_typed_fields _ _ _ Hc _ Hj) as (j1 & -> & [] & [] & Es).
  eexists. split; [reflexivity|]. split_and!; [by constructor| |done]. by constructor.
Qed.

(** * Reading a job back *)

Definition sorted_job (j : IngestionJob) : IngestionJob := j <| job_detail ::= sort_keys |>.
Lemma sorted_job_ok target id j : job_ok target id j → job_ok target id (sorted_job j).
Proof. intros []. constructor; try done. cbn. by destruct (job_detail j). Qed.
Lemma sorted_job_evolves j : job_evolves j (sorted_job j).
Proof. by constructor. Qed.
Lemma target_of_sorted t : target_of_kwargs (sorted_dict (target_to_dict t)) = Ok (sorted_target t).
Proof. by destruct t. Qed.
Lemma text_str v : text v → sort_keys v = v ∧ str_json v = v.
Proof. by destruct v. Qed.
Lemma job_fields j :
  get "target" (job_to_dict j) = JObj (target_to_dict (job_target j)) ∧
  getitem "job_id" (job_to_dict j) = Ok (job_id j) ∧
  getitem "idempotency_key" (job_to_dict j) = Ok (job_idempotency_key j) ∧
  getitem "source_revision" (job_to_dict j) = Ok (job_source_revision j) ∧
  get_default "state" (JStr "QUEUED") (job_to_dict j) = JStr (job_state_value (job_state j)) ∧
  getitem "submitted_at" (job_to_dict j) = Ok (job_submitted_at j) ∧
  getitem "updated_at" (job_to_dict j) = Ok (job_updated_at j) ∧
  get "queue_position" (job_to_dict j) = job_queue_position j ∧
  get "generation_id" (job_to_dict j) = job_generation_id j ∧
  get "detail" (job_to_dict j) = job_detail j ∧
  get "cancel_requested_at" (job_to_dict j) = job_cancel_requested_at j.
Proof. by split_and!. Qed.
Lemma job_of_sorted target id j : sorted_target target = target → job_ok target id j →
  job_from_dict (sorted_dict (job_to_dict j)) = Ok (sorted_job j).
Proof.
  intros Ht [Hid Htg Hk Hr Hs Hu Hp Hg Hd Hc].
  destruct (job_fields j) as (E1 & E2 & E3 & E4 & E5 & E6 & E7 & E8 & E9 & E10 & E11).
  unfold job_from_dict. rewrite !getitem_sorted, get_default_sorted, !get_sorted, E1, E2, E3, E4, E5, E6, E7, E8, E9, E10, E11.
  cbn [sort_keys]. fold (sorted_dict (target_to_dict (job_target j))). rewrite target_of_sorted, Htg, Ht.
  destruct (text_str _ Hk) as [K1 K2], (text_str _ Hr) as [R1 R2], (text_str _ Hs) as [S1 S2], (text_str _ Hu) as [U1 U2].
  rewrite Hid. cbn [fmap result_fmap mbind result_bind sort_keys]. rewrite K1, R1, S1, U1, K2, R2, S2, U2.
  change (py_str (JStr ?s)) with s. rewrite job_state_roundtrip. cbn [mbind result_bind].
  destruct (job_detail j) as [| | | | | |d] eqn:Ed; try done. cbn [sort_keys]. fold (sorted_dict d). rewrite py_dict_or.
  destruct j as [jid t key rev st sub upd pos gen det can]. cbn in * |-. subst.
  by destruct pos, gen, can.
Qed.

(** * Restarting *)

(** The state in which a restart finds a job again. *)
Definition recovered_state (active : option GenerationManifest) (j : IngestionJob) : IngestionJobState :=
  match job_state j with
  | PREPARING => QUEUED
  | WRITING | VALIDATING => AMBIGUOUS
  | PUBLISHING =>
      if match active with
         | Some a => bool_decide (job_generation_id j = JStr (gm_generation_id a))
                     && bool_decide (job_source_revision j = JStr (gm_source_revision a))
         | None => false end then COMPLETED else AMBIGUOUS
  | s => s
  end.
(** A job of the file and what the restart makes of it. *)
Definition recovers (target : PhysicalTargetKey) (active : option GenerationManifest) (x y : string * IngestionJob) : Prop :=
  y.1 = x.1 ∧ job_ok target y.1 y.2 ∧ job_evolves x.2 y.2 ∧ job_state y.2 = recovered_state active x.2.
Lemma with_recovery_typed target id j state more note now : job_ok target id j → Forall change_typed more →
  rtc job_move (job_state j) state →
  ∃ j', with_recovery j state more note now = Ok j' ∧ job_ok target id j' ∧ job_evolves j j' ∧ job_state j' = state.
Proof.
  intros Hj Hm Hs. unfold with_recovery. pose proof (jo_detail _ _ _ Hj). destruct (job_detail j); try done.
  apply with_state_typed; [done| |done]. apply Forall_app. split; [done|]. repeat constructor.
Qed.
Lemma one_move s s' : s' ∈ _JOB_TRANSITIONS s → rtc job_move s s'.
Proof. intros Hs. apply rtc_once. by left. Qed.
Lemma reconcile_typed target id active now j : job_ok target id j →
  ∃ j', reconcile_job active now j = Ok j' ∧ job_ok target id j' ∧ job_evolves j j' ∧ job_state j' = recovered_state active j.
Proof.
  intros Hj. unfold reconcile_job, recovered_state. destruct (job_state j) eqn:Es.
  1, 6-10: by exists j.
  - apply with_recovery_typed; [done|constructor|]. rewrite Es. apply rtc_once. by right.
  - apply with_recovery_typed; [done|constructor|]. rewrite Es. apply one_move. set_solver.
  - apply with_recovery_typed; [done|constructor|]. rewrite Es. apply one_move. set_solver.
  - case_match; (apply with_recovery_typed; [done|repeat constructor|]); rewrite Es; apply one_move; set_solver.
Qed.


Section store.
Context (target : PhysicalTargetKey) (limits : Admission.LaneLimits) (value : string).
Context (Htarget : sorted_target target = target) (Hvalue : target_value target = Ok value).

Definition keys_of (jobs : list (string * IngestionJob)) : list json := map (λ x, job_idempotency_key x.2) jobs.
#[local] Arguments keys_of : simpl never.
#[local] Arguments active_jobs : simpl never.
(** Every idempotency key names the one job that has it. *)
Definition keys_ok (jobs : list (string * IngestionJob)) (keys : list (string * string * string)) : Prop :=
  ∀ k id, od_get (value, k) keys = Some id ↔ ∃ j, (id, j) ∈ jobs ∧ job_idempotency_key j = JStr k.
Record table_ok (t : job_table) : Prop := {
  to_ids : NoDup (jt_jobs t).*1;
  to_jobs : ∀ id j, (id, j) ∈ jt_jobs t → job_ok target id j;
  to_unique : NoDup (keys_of (jt_jobs t));
  to_keys : keys_ok (jt_jobs t) (jt_keys t);
  to_active : (Z.of_nat (length (active_jobs (jt_jobs t))) ≤ Z.max 0 (Admission.max_queue_items limits))%Z;
}.
Definition job_item (x : string * IngestionJob) : json := JObj (sorted_dict (job_to_dict x.2)).
Lemma jobs_payload_ok t : jobs_payload target t = Ok (JObj (sorted_dict
  [("schema_version", JInt 1); ("target", JStr value); ("jobs", JArr (map (λ j, JObj (job_to_dict j)) (jt_jobs t).*2))]%string)).
Proof. unfold jobs_payload. rewrite Hvalue. done. Qed.
Lemma payload_jobs t : sort_keys (JArr (map (λ j, JObj (job_to_dict j)) (jt_jobs t).*2)) = JArr (map job_item (jt_jobs t)).
Proof. cbn [sort_keys]. f_equal. rewrite map_map. induction (jt_jobs t) as [|x l IH]; [done|]. cbn [map fmap list_fmap]. by rewrite IH. Qed.

Lemma keys_of_app l1 l2 : keys_of (l1 ++ l2) = keys_of l1 ++ keys_of l2.
Proof. apply map_app. Qed.
Lemma keys_of_cons x l : keys_of (x :: l) = job_idempotency_key x.2 :: keys_of l.
Proof. done. Qed.
Lemma fresh_key jobs keys k : keys_ok jobs keys → JStr k ∉ keys_of jobs → od_get (value, k) keys = None.
Proof.
  intros Hk Hn. destruct (od_get _ _) as [id|] eqn:E; [|done]. apply Hk in E as (j & Hin & Ej). exfalso. apply Hn.
  rewrite <- Ej. apply list_elem_of_In, in_map_iff. exists (id, j). split; [done|by apply list_elem_of_In].
Qed.
(** A job with a new identifier and a new key. *)
Lemma keys_ok_add jobs keys id j k : keys_ok jobs keys → job_idempotency_key j = JStr k → JStr k ∉ keys_of jobs →
  keys_ok (jobs ++ [(id, j)]) (od_set (value, k) id keys).
Proof.
  intros Hk Ej Hn k' id'. rewrite od_get_set. split.
  - case_decide as E; [injection E as <-; intros [= <-]; exists j; split; [apply elem_of_app; right; by left|done]|].
    intros (j' & Hin & Ej')%Hk. exists j'. split; [by apply elem_of_app; left|done].
  - intros (j' & [Hin|[= -> ->]%list_elem_of_singleton]%elem_of_app & Ej').
    + rewrite decide_False; [apply Hk; eauto|]. intros [= ->]. apply Hn. rewrite <- Ej'.
      apply list_elem_of_In, in_map_iff. exists (id', j'). split; [done|by apply list_elem_of_In].
    + rewrite decide_True; [done|]. congruence.
Qed.
Lemma load_items_spec active now l : ∀ acc,
  (∀ id j, (id, j) ∈ l → job_ok target id j) → NoDup ((jt_jobs acc).*1 ++ l.*1) →
  NoDup (keys_of (jt_jobs acc ++ l)) → keys_ok (jt_jobs acc) (jt_keys acc) →
  ∃ acc' l', load_items target active now value (map job_item l) acc = Ok acc' ∧
    jt_jobs acc' = jt_jobs acc ++ l' ∧ jt_accepting acc' = jt_accepting acc ∧
    Forall2 (recovers target active) l l' ∧ keys_ok (jt_jobs acc') (jt_keys acc').
Proof.
  induction l as [|[id j] l IH]; intros acc Hok Hids Hkeys Hk; cbn [map load_items].
  { exists acc, []. rewrite app_nil_r. by split_and!. }
  assert (job_ok target id j) as Hj by (apply Hok; by left).
  unfold load_job at 1. cbn [job_item]. unfold job_item. cbn [snd]. rewrite (job_of_sorted _ _ _ Htarget Hj).
  cbn [mbind result_bind]. rewrite (jo_target _ _ _ (sorted_job_ok _ _ _ Hj)), bool_decide_true by done. cbn [negb].
  destruct (reconcile_typed _ _ active now _ (sorted_job_ok _ _ _ Hj)) as (j' & -> & Hj' & He & Hs).
  cbn [mbind result_bind]. rewrite (jo_id _ _ _ Hj'). cbn [text_of mbind result_bind].
  assert (job_idempotency_key j' = job_idempotency_key j) as Ekey by (by rewrite (je_key _ _ He)).
  pose proof (jo_key _ _ _ Hj) as Htext. destruct (job_idempotency_key j) as [| | | |k| |] eqn:Ek; try done.
  rewrite Ekey. cbn [text_of mbind result_bind].
  cbn [fmap list_fmap fst] in Hids. apply NoDup_app in Hids as (Hi1 & Hi2 & [Hi3 Hi4]%NoDup_cons).
  assert (id ∉ (jt_jobs acc).*1) as Hfresh by (intros Hin; apply (Hi2 _ Hin); left).
  rewrite keys_of_app, keys_of_cons in Hkeys. cbn [snd] in Hkeys. rewrite Ek in Hkeys.
  assert (JStr k ∉ keys_of (jt_jobs acc)) as Hkf.
  { apply NoDup_app in Hkeys as (_ & Hd & _). intros Hin. apply (Hd _ Hin). by left. }
  edestruct (IH (acc <| jt_jobs ::= od_set id j' |> <| jt_keys ::= od_set (value, k) id |>)) as
    (acc' & l' & Hload & Ejobs & Eacc & Hall & Hkeys'); cbn; rewrite ?od_set_fresh by (by apply od_get_keys).
  - intros id' j2 Hin. apply Hok. by right.
  - rewrite fmap_app, <- app_assoc. cbn. apply NoDup_app. split_and!; [done| |by constructor].
    intros x Hx [->|Hx']%elem_of_cons; [done|]. apply (Hi2 x Hx). by right.
  - rewrite <- app_assoc, keys_of_app. cbn [app]. rewrite keys_of_cons. cbn [snd]. by rewrite Ekey.
  - by apply keys_ok_add.
  - exists acc', ((id, j') :: l'). split_and!; [exact Hload| |done| |done].
    + rewrite Ejobs. cbn. by rewrite od_set_fresh, <- app_assoc by (by apply od_get_keys).
    + constructor; [|done]. split_and!; [done|done| |done]. cbn. etrans; [apply sorted_job_evolves|done].
Qed.

(** * What the calls do to a table *)

(** A version of a job that the table still knows, or knows a later one of. *)
Definition holds (jobs : list (string * IngestionJob)) (c : string * IngestionJob) : Prop :=
  ∃ j, od_get c.1 jobs = Some j ∧ job_evolves c.2 j.
Definition keeps_jobs (t t' : job_table) : Prop := ∀ c, holds (jt_jobs t) c → holds (jt_jobs t') c.
#[local] Instance keeps_jobs_preorder : PreOrder keeps_jobs.
Proof. split; [by intros t c|]. intros t1 t2 t3 H1 H2 c Hc. by apply H2, H1. Qed.

Lemma active_app l1 l2 : active_jobs (l1 ++ l2) = active_jobs l1 ++ active_jobs l2.
Proof. unfold active_jobs. by rewrite fmap_app, List.filter_app. Qed.
Lemma evolves_terminal j j' : job_evolves j j' → job_terminal (job_state j) = true → job_terminal (job_state j') = true.
Proof. intros He Ht. by rewrite (terminal_final _ _ (je_state _ _ He) Ht). Qed.
Lemma active_evolves l1 l2 : Forall2 (λ x y : string * IngestionJob, job_evolves x.2 y.2) l1 l2 →
  (length (active_jobs l2) ≤ length (active_jobs l1))%nat.
Proof.
  unfold active_jobs. induction 1 as [|x y l1 l2 He _ IH]; [done|]. cbn [fmap list_fmap List.filter].
  pose proof (evolves_terminal _ _ He) as Ht.
  destruct (job_terminal (job_state x.2)), (job_terminal (job_state y.2)); cbn; lia.
Qed.
Lemma same_evolves l : Forall2 (λ x y : string * IngestionJob, job_evolves x.2 y.2) l l.
Proof. induction l; by constructor. Qed.
Lemma holds_get t id j : table_ok t → (id, j) ∈ jt_jobs t → holds (jt_jobs t) (id, j).
Proof. intros Ht Hin. exists j. split; [apply od_elem_get; [apply Ht|done]|done]. Qed.

Lemma table_replace t id j j' : table_ok t → od_get id (jt_jobs t) = Some j → job_ok target id j' → job_evolves j j' →
  table_ok (t <| jt_jobs ::= od_set id j' |>) ∧ keeps_jobs t (t <| jt_jobs ::= od_set id j' |>) ∧
  holds (jt_jobs (t <| jt_jobs ::= od_set id j' |>)) (id, j').
Proof.
  intros [H1 H2 H3 H4 H5] Hget Hok He. destruct (od_set_split id j' j _ Hget) as (d1 & d2 & E1 & E2).
  assert (keys_of (od_set id j' (jt_jobs t)) = keys_of (jt_jobs t)) as Ekeys.
  { rewrite E1 in *. rewrite E2, !keys_of_app, !keys_of_cons. cbn [snd]. by rewrite (je_key _ _ He). }
  split_and!.
  - constructor; cbn.
    + by apply od_set_NoDup.
    + intros id2 j2. rewrite E2. intros [Hin|[[= -> ->]|Hin]%elem_of_cons]%elem_of_app; [| done |];
        apply H2; rewrite E1; apply elem_of_app; [by left|right; by right].
    + by rewrite Ekeys.
    + intros k id2. rewrite (H4 k id2), E2, E1. setoid_rewrite elem_of_app. setoid_rewrite elem_of_cons.
      split; intros (j2 & [Hin|[[= -> ->]|Hin]] & Ej2); eauto 6; eexists; (split; [right; by left|]).
      * by rewrite (je_key _ _ He).
      * by rewrite <- (je_key _ _ He).
    + etrans; [|exact H5]. apply inj_le. rewrite E2, E1. apply active_evolves, Forall2_app; [apply same_evolves|].
      constructor; [done|apply same_evolves].
  - intros c (j2 & Hj2 & He2). unfold holds. cbn. rewrite od_get_set. case_decide as E; [|eauto]. subst id.
    exists j'. split; [done|]. etrans; [exact He2|]. congruence.
  - exists j'. split; [|done]. cbn. by rewrite od_get_set, decide_True.
Qed.
(** Moves allowed by [update_job]. *)
Lemma update_move s s' : s' = s ∨ s' ∈ _JOB_TRANSITIONS s → rtc job_move s s'.
Proof. intros [->|H]; [done|by apply one_move]. Qed.
Lemma update_post id state changes now t : table_ok t → Forall change_typed changes →
  post (update_job id state changes now) (λ r t', match r with
    | Err _ => t' = t
    | Ok j => table_ok t' ∧ keeps_jobs t t' ∧ holds (jt_jobs t') (id, j) ∧ job_state j = state end) t.
Proof.
  intros Ht Hc. unfold update_job, require_accepting. post_steps; try done.
  match goal with
  | Hget : od_get _ _ = Some ?job, Hw : raised (with_state ?job _ _ _) = Ok _ |- _ =>
      rename Hget into Hjob; rename Hw into Hwith; pose proof (to_jobs _ Ht _ _ (od_get_elem _ _ _ Hjob)) as Hj;
      destruct (with_state_typed target id job state changes now Hj Hc) as (j2 & E & Hok & He & Hs) end.
  { apply update_move. bool_hyps.
    match goal with H : negb (bool_decide (state = ?s)) && _ = false |- _ =>
      destruct (bool_decide_reflect (state = s)) as [->|]; [by left|right] end.
    cbn in *. bool_hyps. done. }
  rewrite E in Hwith. injection Hwith as <-. destruct (table_replace _ _ _ _ Ht Hjob Hok He) as (H1' & H2' & H3').
  done.
Qed.

Lemma cancel_post id now1 now2 t : table_ok t →
  post (cancel_ingest id now1 now2) (λ r t', match r with
    | Ok (Some j, true) => table_ok t' ∧ keeps_jobs t t' ∧ holds (jt_jobs t') (id, j)
    | _ => t' = t end) t.
Proof.
  intros Ht. unfold cancel_ingest, require_accepting. post_steps; try done.
  match goal with
  | Hget : od_get _ _ = Some ?job, Hw : raised _ = Ok _ |- _ =>
      rename Hget into Hjob; rename Hw into Hwith; pose proof (to_jobs _ Ht _ _ (od_get_elem _ _ _ Hjob)) as Hj;
      assert (∃ j2, raised (match job_state job with
        | QUEUED | PREPARING => with_state job CANCELLED [("cancel_requested_at", py_or (job_cancel_requested_at job) (JStr now1));
                                  ("queue_position", JNull)]%string now2
        | s => with_state job s [("cancel_requested_at", py_or (job_cancel_requested_at job) (JStr now1))]%string now2 end) = Ok j2
        ∧ job_ok target id j2 ∧ job_evolves job j2) as (j2 & E & Hok & He) end.
  { pose proof (jo_cancel _ _ _ Hj) as Hcan.
    assert (text_or_none (py_or (job_cancel_requested_at i) (JStr now1))) as Htext.
    { unfold py_or. by destruct (truthy _). }
    assert (∀ s changes, Forall change_typed changes → rtc job_move (job_state i) s →
      ∃ j2, raised (with_state i s changes now2) = Ok j2 ∧ job_ok target id j2 ∧ job_evolves i j2) as Hws.
    { intros s changes Hc Hs. destruct (with_state_typed target id i s changes now2 Hj Hc Hs) as (j2 & -> & ? & ? & _). by exists j2. }
    destruct (job_state i) eqn:Es; apply Hws; try done; try (repeat constructor; done); apply one_move; set_solver. }
  rewrite E in Hwith. injection Hwith as <-. destruct (table_replace _ _ _ _ Ht Hjob Hok He) as (H1' & H2' & H3').
  done.
Qed.
Lemma unknown_key t k : table_ok t → od_get (value, k) (jt_keys t) = None → JStr k ∉ keys_of (jt_jobs t).
Proof.
  intros Ht Hn Hin. apply list_elem_of_In, in_map_iff in Hin as ([id j] & Ej & Hin%list_elem_of_In).
  assert (od_get (value, k) (jt_keys t) = Some id) as Hs by (apply (to_keys _ Ht); eauto). congruence.
Qed.
Lemma table_add t id k j : table_ok t → od_get id (jt_jobs t) = None → JStr k ∉ keys_of (jt_jobs t) → job_ok target id j →
  job_idempotency_key j = JStr k → (Z.of_nat (length (active_jobs (jt_jobs t))) < Admission.max_queue_items limits)%Z →
  let t' := t <| jt_jobs ::= od_set id j |> <| jt_keys ::= od_set (value, k) id |> in
  table_ok t' ∧ keeps_jobs t t' ∧ holds (jt_jobs t') (id, j).
Proof.
  intros [H1 H2 H3 H4 H5] Hid Hk Hj Ek Hlen. cbv zeta.
  assert (jt_jobs (t <| jt_jobs ::= od_set id j |> <| jt_keys ::= od_set (value, k) id |>) = jt_jobs t ++ [(id, j)]) as Ejobs.
  { cbn. by apply od_set_fresh. }
  split_and!.
  - constructor; rewrite ?Ejobs.
    + rewrite fmap_app. apply NoDup_app. split_and!; [done| |apply NoDup_singleton].
      intros x Hx ->%list_elem_of_singleton. by apply od_get_keys in Hid.
    + intros id' j' [Hin|[= -> ->]%list_elem_of_singleton]%elem_of_app; [by apply H2|done].
    + rewrite keys_of_app. apply NoDup_app. split_and!; [done| |apply NoDup_singleton].
      intros x Hx ->%list_elem_of_singleton. cbn in Hx. by rewrite Ek in Hx.
    + by apply keys_ok_add.
    + rewrite active_app, length_app. assert (length (active_jobs [(id, j)]) ≤ 1)%nat; [|lia].
      unfold active_jobs. cbn. by destruct (negb _); cbn; lia.
  - intros c (j' & Hj' & He). exists j'. split; [|done]. cbn. rewrite od_get_set. case_decide as E; [|done].
    rewrite E in Hj'. congruence.
  - exists j. split; [|done]. cbn. by rewrite od_get_set, decide_True.
Qed.
Lemma submit_post uuid now1 now2 key rev bytes t : table_ok t → od_get uuid (jt_jobs t) = None →
  post (submit_ingest target limits uuid now1 now2 key rev bytes) (λ r t', match r with
    | Ok (j, true) => table_ok t' ∧ keeps_jobs t t' ∧ holds (jt_jobs t') (uuid, j) ∧ job_state j = QUEUED ∧
        job_idempotency_key j = JStr key ∧ job_source_revision j = JStr rev ∧ JStr key ∉ keys_of (jt_jobs t)
    | Ok (j, false) => t' = t ∧ job_idempotency_key j = JStr key ∧ job_source_revision j = JStr rev ∧
        ∃ id, (id, j) ∈ jt_jobs t
    | Err _ => t' = t end) t.
Proof.
  intros Ht Hfresh. unfold submit_ingest, require_accepting. post_steps; try done.
  all: match goal with H : raised (target_value target) = Ok _ |- _ => rewrite Hvalue in H; injection H as <- end.
  - match goal with H : od_get (value, key) _ = Some _ |- _ => apply (to_keys _ Ht) in H as (j2 & Hin & Ek) end.
    match goal with H : od_get _ _ = Some ?i |- _ => rewrite (od_elem_get _ _ _ (to_ids _ Ht) Hin) in H; injection H as -> end.
    bool_hyps. split_and!; eauto.
  - match goal with H : od_get (value, key) _ = None |- _ => apply (unknown_key _ _ Ht) in H as Hk end.
    bool_hyps. match goal with |- context [od_set uuid ?j] =>
      destruct (table_add t uuid key j) as (H1' & H2' & H3'); [done|done|exact Hk|by constructor|done|done|] end.
    split_and!; [exact H1'|exact H2'|exact H3'|done..].
Qed.

(** * Restarting from the file of a table *)

Lemma recovers_ids active l l' : Forall2 (recovers target active) l l' → l'.*1 = l.*1.
Proof. induction 1 as [|x y l l' [E _] _ IH]; [done|]. cbn [fmap list_fmap]. by rewrite E, IH. Qed.
Lemma recovers_keys active l l' : Forall2 (recovers target active) l l' → keys_of l' = keys_of l.
Proof. induction 1 as [|x y l l' (_ & _ & He & _) _ IH]; [done|]. by rewrite !keys_of_cons, IH, (je_key _ _ He). Qed.
Lemma recovers_holds active l l' c : Forall2 (recovers target active) l l' → holds l c → holds l' c.
Proof.
  intros Hall (j & Hj & He). unfold holds. induction Hall as [|[i j1] [i' j2] l l' (E & _ & He2 & _) _ IH]; [done|].
  cbn in *. subst i'. case_decide; [|auto]. injection Hj as ->. exists j2. split; [done|]. by etrans.
Qed.
Lemma load_spec active now tf p t : jobs_payload target tf = Ok p → table_ok tf →
  ∃ t', _load_jobs target (Some p) active now t = (Ok true, t') ∧ jt_accepting t' = jt_accepting t ∧ table_ok t' ∧
    Forall2 (recovers target active) (jt_jobs tf) (jt_jobs t') ∧ ∀ c, holds (jt_jobs tf) c → holds (jt_jobs t') c.
Proof.
  intros Hp [H1 H2 H3 H4 H5]. rewrite jobs_payload_ok in Hp. injection Hp as <-.
  destruct (load_items_spec active now (jt_jobs tf) empty_table H2 H1 H3) as (acc & l' & Hload & Ejobs & _ & Hall & Hk).
  { intros k id. cbn. split; [done|]. by intros (j & ?%elem_of_nil & _). }
  cbn in Ejobs. exists (t <| jt_jobs := jt_jobs acc |> <| jt_keys := jt_keys acc |>). split_and!.
  - unfold _load_jobs, _read_jobs_file, mbind, st_bind, st_lift. rewrite !get_sorted, Hvalue.
    cbn [get assoc default String.eqb Ascii.eqb Bool.eqb id]. rewrite payload_jobs. cbv iota beta.
    rewrite !get_sorted. cbn [get assoc default String.eqb Ascii.eqb Bool.eqb id]. rewrite payload_jobs.
    cbn [sort_keys]. rewrite !bool_decide_true by done. cbn [negb orb st_reject]. unfold mret, st_ret. by rewrite Hload.
  - done.
  - constructor; cbn; rewrite Ejobs.
    + by rewrite (recovers_ids _ _ _ Hall).
    + intros id j Hin. rewrite Forall2_lookup in Hall. apply list_elem_of_lookup in Hin as [i Hi].
      specialize (Hall i). rewrite Hi in Hall. inversion Hall as [x y (E & Hj & _)|]; subst. cbn in *. done.
    + by rewrite (recovers_keys _ _ _ Hall).
    + rewrite <- Ejobs. exact Hk.
    + etrans; [|exact H5]. apply inj_le, active_evolves. eapply Forall2_impl; [exact Hall|].
      by intros x y (_ & _ & He & _).
  - cbn. by rewrite Ejobs.
  - intros c Hc. cbn. rewrite Ejobs. by eapply recovers_holds.
Qed.

(** * The life of an owner's jobs *)

Abbreviation claim := (string * IngestionJob)%type.
(** The table, the file, the calls that wait for the lock of the file (with the
    change they have to make durable; a restart waits without one), the write
    in progress with the changes it makes durable, namely the caller's and every
    job of the table it writes, and the changes that successful writes made so. *)
Record owner := MkOwner {
  ow_table : job_table; ow_file : option json; ow_waiting : list (option claim);
  ow_writing : option (list claim * json); ow_done : list claim;
}.
#[local] Instance owner_eta : Eta owner := λ o,
  MkOwner (ow_table o) (ow_file o) (ow_waiting o) (ow_writing o) (ow_done o).
Definition first_owner : owner := MkOwner empty_table None [] None [].
Abbreviation submit := (submit_ingest target limits).
(** [P] restricts the keyword arguments of [update_job]. *)
Inductive jstep (P : dict → Prop) : owner → owner → Prop :=
  | j_submit uuid now1 now2 key rev bytes job t' o :
      od_get uuid (jt_jobs (ow_table o)) = None →
      submit uuid now1 now2 key rev bytes (ow_table o) = (Ok (job, true), t') →
      jstep P o (o <| ow_table := t' |> <| ow_waiting ::= cons (Some (uuid, job)) |>)
  | j_update id state changes now job t' o : P changes →
      update_job id state changes now (ow_table o) = (Ok job, t') →
      jstep P o (o <| ow_table := t' |> <| ow_waiting ::= cons (Some (id, job)) |>)
  | j_cancel id now1 now2 job t' o :
      cancel_ingest id now1 now2 (ow_table o) = (Ok (Some job, true), t') →
      jstep P o (o <| ow_table := t' |> <| ow_waiting ::= cons (Some (id, job)) |>)
  | j_accept b o : jstep P o (o <| ow_table ::= λ t, t <| jt_accepting := b |> |>)
  (* [_persist_jobs]: the lock, the write, and how it ends *)
  | j_begin w1 c w2 p o : ow_writing o = None → ow_waiting o = w1 ++ c :: w2 →
      jobs_payload target (ow_table o) = Ok p →
      jstep P o (o <| ow_waiting := w1 ++ w2 |> <| ow_writing := Some (option_list c ++ jt_jobs (ow_table o), p) |>)
  | j_end c p o : ow_writing o = Some (c, p) →
      jstep P o (o <| ow_file := Some p |> <| ow_writing := None |> <| ow_done ::= app c |>)
  | j_fail c p replaced o : ow_writing o = Some (c, p) →
      jstep P o (o <| ow_file ::= λ f, if (replaced : bool) then Some p else f |> <| ow_writing := None |>)
  | j_drop w1 c w2 o : ow_waiting o = w1 ++ c :: w2 → jstep P o (o <| ow_waiting := w1 ++ w2 |>)
  (* the process dies and a new owner loads the file *)
  | j_restart active now loaded t' o :
      _load_jobs target (ow_file o) active now empty_table = (Ok loaded, t') →
      jstep P o (MkOwner t' (ow_file o) (if loaded then [None] else []) None (ow_done o)).
Definition owned (P : dict → Prop) (o : owner) : Prop := rtc (jstep P) first_owner o.
(** Every keyword argument, and those of the declared types. *)
Definition any_changes (changes : dict) : Prop := True.
Definition typed_changes (changes : dict) : Prop := Forall change_typed changes.

(** ** What the calls and a restart keep

    [tok] is what is known of a table, [hd] how a table honours a change. *)
Record grows (tok : job_table → Prop) (hd : list claim → claim → Prop) (t t' : job_table) (c : claim) : Prop := {
  gr_table : tok t'; gr_keeps : ∀ c, hd (jt_jobs t) c → hd (jt_jobs t') c; gr_new : hd (jt_jobs t') c;
}.
Record safe (P : dict → Prop) (tok : job_table → Prop) (hd : list claim → claim → Prop) : Prop := {
  sf_empty : tok empty_table;
  sf_own t c : tok t → c ∈ jt_jobs t → hd (jt_jobs t) c;
  sf_accept t b : tok t → tok (t <| jt_accepting := b |>);
  sf_submit uuid now1 now2 key rev bytes job t t' : tok t → od_get uuid (jt_jobs t) = None →
    submit uuid now1 now2 key rev bytes t = (Ok (job, true), t') → grows tok hd t t' (uuid, job);
  sf_update id state changes now job t t' : tok t → P changes →
    update_job id state changes now t = (Ok job, t') → grows tok hd t t' (id, job);
  sf_cancel id now1 now2 job t t' : tok t →
    cancel_ingest id now1 now2 t = (Ok (Some job, true), t') → grows tok hd t t' (id, job);
  sf_load active now tf p loaded t' : tok tf → jobs_payload target tf = Ok p →
    _load_jobs target (Some p) active now empty_table = (Ok loaded, t') →
    loaded = true ∧ tok t' ∧ ∀ c, hd (jt_jobs tf) c → hd (jt_jobs t') c;
}.
Arguments sf_empty {P tok hd} _.
Arguments sf_own {P tok hd} _.
Arguments sf_accept {P tok hd} _.
Arguments sf_submit {P tok hd} _.
Arguments sf_update {P tok hd} _.
Arguments sf_cancel {P tok hd} _.
Arguments sf_load {P tok hd} _.

Section life.
Context {P : dict → Prop} {tok : job_table → Prop} {hd : list claim → claim → Prop} (Hsafe : safe P tok hd).
(** A text of the file that keeps what was acknowledged. *)
Definition file_ok (done : list claim) (p : json) : Prop :=
  ∃ t, jobs_payload target t = Ok p ∧ tok t ∧ Forall (hd (jt_jobs t)) done.
Record jinv (o : owner) : Prop := {
  ji_table : tok (ow_table o);
  ji_done : Forall (hd (jt_jobs (ow_table o))) (ow_done o);
  ji_waiting : Forall (λ c, Forall (hd (jt_jobs (ow_table o))) (option_list c)) (ow_waiting o);
  ji_file : ∀ p, ow_file o = Some p → file_ok (ow_done o) p;
  ji_nothing : ow_file o = None → ow_done o = [];
  ji_writing : ∀ c p, ow_writing o = Some (c, p) →
    file_ok (c ++ ow_done o) p ∧ Forall (hd (jt_jobs (ow_table o))) c;
}.
Lemma jinv_change o t' c : jinv o → grows tok hd (ow_table o) t' c →
  jinv (o <| ow_table := t' |> <| ow_waiting ::= cons (Some c) |>).
Proof.
  intros [H1 H2 H3 H4 H5 H6] [Ht Hk Hc]. constructor; cbn; try done.
  - eapply Forall_impl; [exact H2|]. intros ? Hx. by apply Hk.
  - constructor; [by repeat constructor|]. eapply Forall_impl; [exact H3|]. intros x Hx. cbn in Hx.
    eapply Forall_impl; [exact Hx|]. intros ? Hy. by apply Hk.
  - intros c' p Hw. destruct (H6 c' p Hw) as [Hf Hx]. split; [done|]. eapply Forall_impl; [exact Hx|].
    intros ? Hy. by apply Hk.
Qed.
Lemma jinv_step o o' : jstep P o o' → jinv o → jinv o'.
Proof using Hsafe.
  intros Hstep Hi. destruct Hstep as [uuid now1 now2 key rev bytes job t' o Hf Hrun|id state changes now job t' o Hc Hrun
    |id now1 now2 job t' o Hrun|b o|w1 c w2 p o Hw Hwait Hp|c p o Hw|c p replaced o Hw|w1 c w2 o Hwait|active now loaded t' o Hrun].
  - apply jinv_change; [done|]. by eapply (sf_submit Hsafe), Hrun; [apply Hi|].
  - apply jinv_change; [done|]. by eapply (sf_update Hsafe), Hrun; [apply Hi|].
  - apply jinv_change; [done|]. by eapply (sf_cancel Hsafe), Hrun; apply Hi.
  - destruct Hi as [H1 H2 H3 H4 H5 H6]. constructor; cbn; try done. by apply (sf_accept Hsafe).
  - destruct Hi as [H1 H2 H3 H4 H5 H6]. rewrite Hwait in H3. apply Forall_app in H3 as [Hw1 [Hcl Hw2]%Forall_cons].
    assert (Forall (hd (jt_jobs (ow_table o))) (option_list c ++ jt_jobs (ow_table o))) as Hall.
    { apply Forall_app. split; [done|]. apply Forall_forall. intros c' Hc'. by apply (sf_own Hsafe). }
    constructor; cbn; try done; [by apply Forall_app|]. intros c' p' [= <- <-]. split; [|done]. exists (ow_table o).
    split_and!; [done|done|]. by apply Forall_app.
  - destruct Hi as [H1 H2 H3 H4 H5 H6]. destruct (H6 _ _ Hw) as [(t & Hp & Ht & Hall) Hcl].
    constructor; cbn; try done.
    + by apply Forall_app.
    + intros p' [= <-]. by exists t.
  - destruct Hi as [H1 H2 H3 H4 H5 H6]. constructor; cbn; try done.
    + intros p'. destruct replaced; [|by apply H4]. intros [= <-]. destruct (H6 _ _ Hw) as [(t & Hp & Ht & Hall) _].
      exists t. split_and!; [done|done|]. by apply Forall_app in Hall as [_ Hall].
    + destruct replaced; [done|auto].
  - destruct Hi as [H1 H2 H3 H4 H5 H6]. constructor; cbn; try done. rewrite Hwait in H3.
    apply Forall_app in H3 as [Hw1 [Hcl Hw2]%Forall_cons]. by apply Forall_app.
  - destruct Hi as [H1 H2 H3 H4 H5 H6]. destruct (ow_file o) as [p|] eqn:Ef.
    + destruct (H4 p eq_refl) as (tf & Hp & Htf & Hall).
      destruct (sf_load Hsafe _ _ _ _ _ _ Htf Hp Hrun) as (-> & Ht2 & Hkeep). constructor; cbn; try done.
      * eapply Forall_impl; [exact Hall|]. auto.
      * repeat constructor.
    + injection Hrun as <- <-. constructor; cbn; try done; [apply (sf_empty Hsafe)|by rewrite H5].
Qed.
Lemma jinv_owned o : owned P o → jinv o.
Proof using Hsafe.
  assert (jinv first_owner) as Hfirst by (constructor; cbn; try done; apply (sf_empty Hsafe)).
  intros Hr. unfold owned in Hr. revert Hfirst. induction Hr as [|o1 o2 o3 Hs _ IH]; [done|].
  intros Hi. apply IH. by eapply jinv_step.
Qed.
(** Every change whose write succeeded is honoured by the table and by the file. *)
Lemma done_survives o c : owned P o → c ∈ ow_done o → tok (ow_table o) ∧ hd (jt_jobs (ow_table o)) c ∧
  ∃ p t, ow_file o = Some p ∧ jobs_payload target t = Ok p ∧ tok t ∧ hd (jt_jobs t) c.
Proof using Hsafe.
  intros Ho Hdone. apply jinv_owned in Ho as [H1 H2 _ H4 H5 _]. rewrite Forall_forall in H2. split_and!; [done|auto|].
  destruct (ow_file o) as [p|]; [|rewrite H5 in Hdone by done; by apply elem_of_nil in Hdone].
  destruct (H4 p eq_refl) as (t & Hp & Ht & Hall). rewrite Forall_forall in Hall. exists p, t. auto.
Qed.
End life.

(** ** With keyword arguments of the declared types *)

Lemma empty_table_ok : table_ok empty_table.
Proof.
  constructor; cbn; try apply NoDup_nil_2; [by intros ? ? ?%elem_of_nil| |unfold active_jobs; cbn; lia].
  intros k id. cbn. split; [done|]. by intros (j & ?%elem_of_nil & _).
Qed.
Lemma typed_safe : safe typed_changes table_ok holds.
Proof.
  constructor.
  - apply empty_table_ok.
  - intros t [id j] Ht. by apply holds_get.
  - by intros t b [].
  - intros uuid now1 now2 key rev bytes job t t' Ht Hf Hrun.
    by destruct (post_elim _ _ _ _ _ (submit_post uuid now1 now2 key rev bytes _ Ht Hf) Hrun) as (H1 & H2 & H3 & _).
  - intros id state changes now job t t' Ht Hc Hrun.
    by destruct (post_elim _ _ _ _ _ (update_post id state changes now _ Ht Hc) Hrun) as (H1 & H2 & H3 & _).
  - intros id now1 now2 job t t' Ht Hrun.
    by destruct (post_elim _ _ _ _ _ (cancel_post id now1 now2 _ Ht) Hrun) as (H1 & H2 & H3).
  - intros active now tf p loaded t' Htf Hp Hrun.
    destruct (load_spec active now tf p empty_table Hp Htf) as (t2 & E & _ & Ht2 & _ & Hkeep).
    rewrite E in Hrun. injection Hrun as <- <-. auto.
Qed.

(** ** With any keyword arguments *)

(** Every job is filed under its identifier; a change is honoured by a job that
    is in the state it was left in, or in one reached from there. *)
Record filed (jobs : list claim) : Prop := {
  fl_ids : NoDup jobs.*1; fl_jobs : ∀ id j, (id, j) ∈ jobs → job_id j = JStr id;
}.
Definition reached (jobs : list claim) (c : claim) : Prop :=
  ∃ j, od_get c.1 jobs = Some j ∧ rtc job_move (job_state c.2) (job_state j).
Definition filed_table (t : job_table) : Prop := filed (jt_jobs t).
Lemma filed_set jobs id j : filed jobs → job_id j = JStr id →
  (∀ j0, od_get id jobs = Some j0 → rtc job_move (job_state j0) (job_state j)) →
  filed (od_set id j jobs) ∧ (∀ c, reached jobs c → reached (od_set id j jobs) c) ∧ reached (od_set id j jobs) (id, j).
Proof.
  intros [H1 H2] Hj Hm. split_and!.
  - constructor; [by apply od_set_NoDup|]. intros id' j' Hin.
    apply od_elem_get in Hin; [|by apply od_set_NoDup]. rewrite od_get_set in Hin.
    case_decide as E; [congruence|]. by apply H2, od_get_elem.
  - intros c (j' & Hj' & Hm'). unfold reached. rewrite od_get_set. case_decide as E; [|eauto].
    exists j. split; [done|]. etrans; [exact Hm'|]. apply Hm. by rewrite <- E.
  - exists j. split; [|done]. cbn. by rewrite od_get_set, decide_True.
Qed.
Lemma filed_grows t t' id j : filed_table t → jt_jobs t' = od_set id j (jt_jobs t) → job_id j = JStr id →
  (∀ j0, od_get id (jt_jobs t) = Some j0 → rtc job_move (job_state j0) (job_state j)) →
  grows filed_table reached t t' (id, j).
Proof.
  intros Ht E Hj Hm. destruct (filed_set _ _ _ Ht Hj Hm) as (H1 & H2 & H3).
  constructor; unfold filed_table; by rewrite E.
Qed.
(** What changed fields and a restart leave of a job. *)
Lemma change_fields_kept changes : ∀ j j',
  existsb (λ kv : string * json, in_list kv.1 ["self"; "job_id"; "state"]%string) changes = false →
  change_fields j changes = Ok j' → job_id j' = job_id j ∧ job_state j' = job_state j.
Proof.
  induction changes as [|[k v] changes IH]; intros j j'; cbn [existsb change_fields]; [by intros _ [= <-]|].
  intros [Hk Hc]%orb_false_iff. destruct (change_field j (k, v)) as [j1|] eqn:E; [|done]. cbn [mbind result_bind].
  intros Hrest. destruct (IH _ _ Hc Hrest) as [-> ->]. revert E. unfold change_field. cbn [fst] in Hk.
  destruct (String.eqb_spec k "job_id") as [->|_]; [done|].
  repeat match goal with |- (if ?b then _ else _) = _ → _ => destruct b end; by intros [= <-].
Qed.
Lemma with_state_kept j state changes now j' :
  existsb (λ kv : string * json, in_list kv.1 ["self"; "job_id"; "state"]%string) changes = false →
  with_state j state changes now = Ok j' → job_id j' = job_id j ∧ job_state j' = state.
Proof.
  intros Hc. unfold with_state. destruct (change_fields j changes) as [j1|] eqn:E; [|done]. intros [= <-].
  by destruct (change_fields_kept _ _ _ Hc E) as [<- _].
Qed.
Lemma reconcile_kept active now j j' : reconcile_job active now j = Ok j' →
  job_id j' = job_id j ∧ rtc job_move (job_state j) (job_state j').
Proof.
  assert (∀ state more note, existsb (λ kv : string * json, in_list kv.1 ["self"; "job_id"; "state"]%string) more = false →
    rtc job_move (job_state j) state → with_recovery j state more note now = Ok j' →
    job_id j' = job_id j ∧ rtc job_move (job_state j) (job_state j')) as Hrec.
  { intros state more note Hm Hs. unfold with_recovery. destruct (job_detail j); try done. intros Hw.
    apply with_state_kept in Hw as [-> ->]; [done|]. by rewrite existsb_app, Hm. }
  unfold reconcile_job. destruct (job_state j) eqn:Es; try (intros [= <-]; by rewrite Es).
  - apply Hrec; [done|]. apply rtc_once. by right.
  - apply Hrec; [done|]. apply one_move; clear; set_solver.
  - apply Hrec; [done|]. apply one_move; clear; set_solver.
  - case_match; (apply Hrec; [done|]; apply one_move; clear; set_solver).
Qed.
Lemma read_back_kept j j' : job_from_dict (sorted_dict (job_to_dict j)) = Ok j' →
  job_id j' = str_json (sort_keys (job_id j)) ∧ job_state j' = job_state j.
Proof.
  destruct (job_fields j) as (E1 & E2 & E3 & E4 & E5 & E6 & E7 & _). unfold job_from_dict.
  rewrite !getitem_sorted, get_default_sorted, get_sorted, E1, E2, E3, E4, E5, E6, E7.
  cbn [fmap result_fmap mbind result_bind sort_keys]. change (py_str (JStr ?s)) with s.
  rewrite job_state_roundtrip. unfold mbind, result_bind.
  repeat match goal with |- match ?x with Ok _ => _ | Err _ => _ end = _ → _ => destruct x end; try done.
  by intros [= <-].
Qed.
(** A job read back, by the identifier it was filed under. *)
Lemma load_job_kept active now id j acc acc' : job_id j = JStr id →
  load_job target active now value (job_item (id, j)) acc = Ok acc' →
  ∃ j', jt_jobs acc' = od_set id j' (jt_jobs acc) ∧ job_id j' = JStr id ∧ rtc job_move (job_state j) (job_state j').
Proof.
  intros Hid. unfold load_job, job_item. cbn [snd].
  destruct (job_from_dict _) as [j1|] eqn:E1; [|done]. cbn [mbind result_bind].
  apply read_back_kept in E1 as [Hid1 Hs1]. rewrite Hid in Hid1. cbn in Hid1.
  destruct (negb _); [done|]. destruct (reconcile_job active now j1) as [j2|] eqn:E2; [|done]. cbn [mbind result_bind].
  apply reconcile_kept in E2 as [Hid2 Hs2]. rewrite Hid2, Hid1. cbn [text_of mbind result_bind].
  destruct (text_of (job_idempotency_key j2)); [|done]. cbn [mbind result_bind]. intros [= <-].
  exists j2. rewrite <- Hs1. split_and!; [done|by rewrite Hid2, Hid1|done].
Qed.
Lemma load_items_kept active now l : ∀ acc acc', (∀ id j, (id, j) ∈ l → job_id j = JStr id) →
  filed (jt_jobs acc) → NoDup ((jt_jobs acc).*1 ++ l.*1) → load_items target active now value (map job_item l) acc = Ok acc' →
  filed (jt_jobs acc') ∧ (∀ c, reached (jt_jobs acc) c → reached (jt_jobs acc') c) ∧ ∀ c, reached l c → reached (jt_jobs acc') c.
Proof.
  induction l as [|[id j] l IH]; intros acc acc' Hl Hacc Hnd; cbn [map load_items].
  { intros [= <-]. split_and!; [done|done|]. by intros c (? & ? & _). }
  assert (job_id j = JStr id) as Hj by (apply Hl; by left).
  destruct (load_job _ _ _ _ _ acc) as [acc1|] eqn:E1; [|done]. cbn [mbind result_bind].
  destruct (load_job_kept _ _ _ _ _ _ Hj E1) as (j' & Ejobs & Hj' & Hm).
  cbn [fmap list_fmap fst] in Hnd. apply NoDup_app in Hnd as (Hn1 & Hn2 & [Hn3 Hn4]%NoDup_cons).
  assert (od_get id (jt_jobs acc) = None) as Hfresh by (apply od_get_keys; intros Hin; apply (Hn2 _ Hin); left).
  destruct (filed_set (jt_jobs acc) id j' Hacc Hj') as (F1 & F2 & F3); [by rewrite Hfresh|]. rewrite <- Ejobs in F1, F2, F3.
  intros E2. apply IH in E2 as (G1 & G2 & G3); [| |done|].
  - split_and!; [done|auto|]. intros c (jc & Hc & Hmc). cbn [od_get] in Hc. case_decide as Ec; [|apply G3; by exists jc].
    injection Hc as ->. apply G2. rewrite Ejobs. exists j'. rewrite od_get_set, decide_True by done. split; [done|]. by etrans.
  - intros id' j2 Hin. apply Hl. by right.
  - rewrite Ejobs, od_set_fresh, fmap_app, <- app_assoc by done. cbn. apply NoDup_app. split_and!; [done| |by constructor].
    intros x Hx [->|Hx']%elem_of_cons; [by apply od_get_keys in Hfresh|]. apply (Hn2 x Hx). by right.
Qed.
Lemma any_safe : safe any_changes filed_table reached.
Proof.
  constructor.
  - constructor; cbn; [apply NoDup_nil_2|]. by intros ? ? ?%elem_of_nil.
  - intros t [id j] Ht Hin. exists j. split; [|done]. by apply od_elem_get; [apply Ht|].
  - by intros t b Ht.
  - intros uuid now1 now2 key rev bytes job t t' Ht Hf Hrun.
    assert (post (submit uuid now1 now2 key rev bytes) (λ r t', match r with
      | Ok (j, true) => jt_jobs t' = od_set uuid j (jt_jobs t) ∧ job_id j = JStr uuid | _ => True end) t) as Hp.
    { unfold submit_ingest, require_accepting. by post_steps. }
    destruct (post_elim _ _ _ _ _ Hp Hrun) as [Ej Hj]. apply filed_grows; [done..|]. by rewrite Hf.
  - intros id state changes now job t t' Ht _ Hrun.
    assert (post (update_job id state changes now) (λ r t', match r with
      | Ok j => jt_jobs t' = od_set id j (jt_jobs t) ∧ job_id j = JStr id ∧
          ∀ j0, od_get id (jt_jobs t) = Some j0 → rtc job_move (job_state j0) (job_state j)
      | Err _ => True end) t) as Hp.
    { unfold update_job, require_accepting. post_steps; try done.
      match goal with Hw : raised (with_state ?i _ _ _) = Ok _, Hget : od_get _ _ = Some ?i |- _ =>
        destruct (with_state i state changes now) as [j2|] eqn:Ew; [|done]; injection Hw as <-;
        apply with_state_kept in Ew as [Eid Es]; [|assumption]; rewrite (fl_jobs _ Ht _ _ (od_get_elem _ _ _ Hget)) in Eid end.
      split_and!; [done|done|]. intros j0 Hj0. simplify_eq. apply update_move. bool_hyps.
      match goal with H : negb (bool_decide (?st = ?s)) && _ = false |- _ =>
        destruct (bool_decide_reflect (st = s)) as [E|E]; [by left|right] end.
      cbn in *. bool_hyps. done. }
    destruct (post_elim _ _ _ _ _ Hp Hrun) as (Ej & Hj & Hm). by apply filed_grows.
  - intros id now1 now2 job t t' Ht Hrun.
    assert (post (cancel_ingest id now1 now2) (λ r t', match r with
      | Ok (Some j, true) => jt_jobs t' = od_set id j (jt_jobs t) ∧ job_id j = JStr id ∧
          ∀ j0, od_get id (jt_jobs t) = Some j0 → rtc job_move (job_state j0) (job_state j)
      | _ => True end) t) as Hp.
    { unfold cancel_ingest, require_accepting. post_steps; try done.
      match goal with Hget : od_get _ _ = Some ?i |- _ =>
        pose proof (fl_jobs _ Ht _ _ (od_get_elem _ _ _ Hget)) as Hid; rename Hget into Hjob end.
      match goal with Hw : raised ?m = Ok _ |- _ => destruct m as [j2|] eqn:Ew; [|done]; injection Hw as <- end.
      split; [done|]. match type of Hjob with _ = Some ?i => destruct (job_state i) eqn:Es end; try done;
        apply with_state_kept in Ew as [-> E2]; try done; (split; [done|]); intros j0 Hj0; simplify_eq; rewrite Es, E2;
        try done; apply one_move; set_solver. }
    destruct (post_elim _ _ _ _ _ Hp Hrun) as (Ej & Hj & Hm). by apply filed_grows.
  - intros active now tf p loaded t' Htf Hp Hrun. rewrite jobs_payload_ok in Hp. injection Hp as <-.
    revert Hrun. unfold _load_jobs, _read_jobs_file, mbind, st_bind, st_lift. rewrite !get_sorted, Hvalue.
    cbn [get assoc default String.eqb Ascii.eqb Bool.eqb id]. rewrite payload_jobs. cbv iota beta.
    rewrite !get_sorted. cbn [get assoc default String.eqb Ascii.eqb Bool.eqb id]. rewrite payload_jobs.
    cbn [sort_keys]. rewrite !bool_decide_true by done. cbn [negb orb st_reject]. unfold mret, st_ret.
    destruct (load_items _ _ _ _ _ _) as [acc|] eqn:El; [|done]. intros [= <- <-].
    assert (filed (jt_jobs empty_table)) as Hempty by (constructor; cbn; [apply NoDup_nil_2|by intros ? ? ?%elem_of_nil]).
    destruct (load_items_kept _ _ _ _ _ (fl_jobs _ Htf) Hempty (fl_ids _ Htf) El) as (F1 & _ & F3). auto.
Qed.

(** * Guarantees *)

(** C20: Once a write of the job file has succeeded, the change its caller had
    to save and every job of the table it wrote are never undone, whatever calls,
    failing writes, crashes and successful restarts follow, and whatever JSON values
    [update_job] is given as keyword arguments: the table and the file have a job under its
    identifier, in the state it was left in or in one that listed transitions and
    restarts reach from there; a terminal state stays.  A change whose write
    failed is covered only by a later successful write; until then a retry may be
    answered with it all the same ([unsaved_job_answered]). *)
Theorem acknowledged_jobs_survive o id j (Ho : owned any_changes o) (Hdone : (id, j) ∈ ow_done o) :
  (∃ j', od_get id (jt_jobs (ow_table o)) = Some j' ∧ job_id j' = JStr id ∧
     rtc job_move (job_state j) (job_state j') ∧ (job_terminal (job_state j) = true → job_state j' = job_state j)) ∧
  (∃ p t j', ow_file o = Some p ∧ jobs_payload target t = Ok p ∧ od_get id (jt_jobs t) = Some j' ∧
     rtc job_move (job_state j) (job_state j')).
Proof.
  destruct (done_survives any_safe o _ Ho Hdone) as (Ht & (j' & Hj & Hm) & p & t & Hf & Hp & _ & (j2 & Hj2 & Hm2)).
  split; [|by exists p, t, j2]. exists j'. split_and!; [done|by apply (fl_jobs _ Ht), od_get_elem|done|].
  by apply terminal_final.
Qed.
(** When [update_job] changes only fields of the declared types and no identity,
    the table and the file also keep the key, the revision and the time of
    submission. *)
Theorem acknowledged_identity_kept o id j (Ho : owned typed_changes o) (Hdone : (id, j) ∈ ow_done o) :
  holds (jt_jobs (ow_table o)) (id, j) ∧
  ∃ p t, ow_file o = Some p ∧ jobs_payload target t = Ok p ∧ holds (jt_jobs t) (id, j).
Proof.
  destruct (done_survives typed_safe o _ Ho Hdone) as (_ & Hh & p & t & Hf & Hp & _ & Hh2). split; [done|]. by exists p, t.
Qed.
(** C21: Provided [update_job] was only given the queue position, the generation,
    the detail and the time of cancellation, each of its declared type, then
    whatever an owner did and wherever it died, its successor loads the job file;
    it finds the jobs of that file in their order, each moved to the state its
    restart prescribes, and none of them in the middle of a store operation.
    (Other values are accepted too: [untyped_detail_unloadable].) *)
Theorem restart_reconciles o active now (Ho : owned typed_changes o) :
  ∃ b t', _load_jobs target (ow_file o) active now empty_table = (Ok b, t') ∧ table_ok t' ∧
    match ow_file o with
    | None => jt_jobs t' = []
    | Some p => ∃ t, jobs_payload target t = Ok p ∧ Forall2 (recovers target active) (jt_jobs t) (jt_jobs t')
    end ∧
    ∀ id j, (id, j) ∈ jt_jobs t' → job_state j = QUEUED ∨ job_terminal (job_state j) = true.
Proof.
  apply (jinv_owned typed_safe) in Ho as [_ _ _ H4 _ _]. destruct (ow_file o) as [p|].
  - destruct (H4 p eq_refl) as (tf & Hp & Htf & _).
    destruct (load_spec active now tf p empty_table Hp Htf) as (t2 & E & _ & Ht2 & Hall & _).
    exists true, t2. split_and!; [done|done|by exists tf|]. intros id j Hin. apply list_elem_of_lookup in Hin as [i Hi].
    rewrite Forall2_lookup in Hall. specialize (Hall i). rewrite Hi in Hall.
    inversion Hall as [x y (_ & _ & _ & Es)|]; subst. cbn in Es. unfold recovered_state in Es.
    destruct (job_state x.2); rewrite Es; auto. by case_match; right.
  - exists false, empty_table. split_and!; [done|apply empty_table_ok|done|]. by intros id j ?%elem_of_nil.
Qed.
(** At most [max_queue_items] jobs are not terminal, no two jobs have the
    same idempotency key, and each key leads to its job. *)
Theorem job_table_bounded o (Ho : owned typed_changes o) :
  (Z.of_nat (length (active_jobs (jt_jobs (ow_table o)))) ≤ Z.max 0 (Admission.max_queue_items limits))%Z ∧
  NoDup (keys_of (jt_jobs (ow_table o))) ∧
  ∀ k id, od_get (value, k) (jt_keys (ow_table o)) = Some id ↔
    ∃ j, (id, j) ∈ jt_jobs (ow_table o) ∧ job_idempotency_key j = JStr k.
Proof. by apply (jinv_owned typed_safe) in Ho as [[] _ _ _ _ _]. Qed.
(** C22: Provided [update_job] was only given the queue position, the generation,
    the detail and the time of cancellation, each of its declared type: once a job
    was in a job file that was written successfully, a valid submission under its
    idempotency key to an accepting owner never makes a second job, whatever calls,
    failing writes, crashes and restarts came in between.  It returns a later
    version of that job when the source revision is the same, refuses another
    revision, and changes nothing. *)
Theorem resubmission_idempotent o id j k uuid now1 now2 rev bytes (Ho : owned typed_changes o) (Hdone : (id, j) ∈ ow_done o)
    (Hkey : job_idempotency_key j = JStr k) (Haccepting : jt_accepting (ow_table o) = true)
    (Hargs : is_empty (strip k) = false ∧ is_empty (strip rev) = false ∧ (0 ≤ bytes)%Z) :
  ∃ j', job_evolves j j' ∧
    submit uuid now1 now2 k rev bytes (ow_table o) =
      (if bool_decide (job_source_revision j = JStr rev) then Ok (j', false) else Err ingestion_already_running, ow_table o).
Proof.
  apply (jinv_owned typed_safe) in Ho as [Ht H2 _ _ _ _]. rewrite Forall_forall in H2. destruct (H2 _ Hdone) as (j' & Hj & He).
  exists j'. split; [done|]. destruct Hargs as (Hk & Hr & Hb). cbn in Hj.
  assert (od_get (value, k) (jt_keys (ow_table o)) = Some id) as Hid.
  { apply (to_keys _ Ht). exists j'. split; [by apply od_get_elem|]. by rewrite (je_key _ _ He). }
  unfold submit_ingest, require_accepting, st_reject, mbind, st_bind, st_gets, st_lift.
  rewrite Hk, Hr. cbn [orb]. replace (bytes <? 0)%Z with false by (symmetry; apply Z.ltb_ge; lia).
  rewrite Hvalue. cbn [raised]. unfold mret, st_ret. cbv beta iota. rewrite Haccepting. cbn [negb Datatypes.id].
  cbv beta iota. rewrite Hid, Hj, (je_revision _ _ He). by destruct (bool_decide _).
Qed.
End store.

(** * An example *)

Section example.
#[local] Open Scope string_scope.
Definition demo_value : string := "main|owner|/srv/graph|/srv/vector".
Definition demo_limits : Admission.LaneLimits := Admission.MkLaneLimits 1 8 4096.
Definition demo_job : IngestionJob :=
  MkIngestionJob (JStr "u1") demo_target (JStr "key") (JStr "rev") QUEUED (JStr "t0") (JStr "t0") (JInt 0) JNull
    (JObj [("estimated_bytes", JInt 10)]) JNull.
Definition demo_table : job_table := MkJobTable [("u1", demo_job)] [((demo_value, "key"), "u1")] true.
Definition payload_of (t : job_table) : json := match jobs_payload demo_target t with Ok p => p | Err _ => JNull end.
Lemma payload_of_ok t : jobs_payload demo_target t = Ok (payload_of t).
Proof. done. Qed.
Lemma demo_target_value : target_value demo_target = Ok demo_value.
Proof. reflexivity. Qed.
Lemma demo_submit : submit_ingest demo_target demo_limits "u1" "t0" "t0" "key" "rev" 10 (MkJobTable [] [] true)
  = (Ok (demo_job, true), demo_table).
Proof. vm_compute. reflexivity. Qed.
Section any.
Context (P : dict → Prop).
Abbreviation demo_owned := (owned demo_target demo_limits P).
Abbreviation demo_step := (jstep demo_target demo_limits P).
(** A call's write of the table, from its lock to its success. *)
Lemma demo_write t f c done : demo_owned (MkOwner t f [Some c] None done) →
  demo_owned (MkOwner t f [] (Some (c :: jt_jobs t, payload_of t)) done).
Proof. intros Ho. eapply rtc_r; [exact Ho|]. exact (j_begin demo_target demo_limits P [] (Some c) [] (payload_of t) (MkOwner t f [Some c] None done) eq_refl eq_refl eq_refl). Qed.
Lemma demo_write_ok t f c done : demo_owned (MkOwner t f [Some c] None done) →
  demo_owned (MkOwner t (Some (payload_of t)) [] None ((c :: jt_jobs t) ++ done)).
Proof.
  intros Ho. eapply rtc_r; [exact (demo_write _ _ _ _ Ho)|].
  exact (j_end _ _ P (c :: jt_jobs t) _ (MkOwner t f [] (Some (c :: jt_jobs t, payload_of t)) done) eq_refl).
Qed.
Lemma demo_accepting : demo_owned (MkOwner (MkJobTable [] [] true) None [] None []).
Proof. apply rtc_once. exact (j_accept _ _ P true first_owner). Qed.
Lemma demo_submitted : demo_owned (MkOwner demo_table None [Some ("u1", demo_job)] None []).
Proof.
  eapply rtc_r; [exact demo_accepting|].
  exact (j_submit _ _ P "u1" "t0" "t0" "key" "rev" 10 demo_job demo_table (MkOwner (MkJobTable [] [] true) None [] None []) eq_refl demo_submit).
Qed.
Definition demo_saved : owner := MkOwner demo_table (Some (payload_of demo_table)) [] None [("u1", demo_job); ("u1", demo_job)].
Lemma demo_saved_owned : demo_owned demo_saved.
Proof. exact (demo_write_ok _ _ _ _ demo_submitted). Qed.

(** When the write after a submission fails, the submission raises but its job
    stays in the table: the caller's next attempt is answered with that job,
    although no file knows it and nothing is left to write one. *)
Theorem unsaved_job_answered : ∃ o j, demo_owned o ∧
  submit_ingest demo_target demo_limits "u2" "t1" "t1" "key" "rev" 10 (ow_table o) = (Ok (j, false), ow_table o) ∧
  ow_file o = None ∧ ow_waiting o = [] ∧ ow_writing o = None.
Proof.
  exists (MkOwner demo_table None [] None []), demo_job. split_and!; try done.
  eapply rtc_r; [exact (demo_write _ _ _ _ demo_submitted)|].
  exact (j_fail _ _ P [("u1", demo_job); ("u1", demo_job)] _ false
    (MkOwner demo_table None [] (Some ([("u1", demo_job); ("u1", demo_job)], payload_of demo_table)) []) eq_refl).
Qed.
End any.

Lemma acknowledged_jobs_survive_witness : ∃ j', od_get "u1" (jt_jobs demo_table) = Some j' ∧ job_id j' = JStr "u1" ∧
  rtc job_move QUEUED (job_state j').
Proof.
  destruct (proj1 (acknowledged_jobs_survive demo_target demo_limits demo_value demo_target_texts demo_target_value
    demo_saved "u1" demo_job (demo_saved_owned any_changes) (list_elem_of_here _ _))) as (j' & Hj & Hid & Hs & _).
  exists j'. split; [exact Hj|split; [exact Hid|exact Hs]].
Defined.
Lemma acknowledged_identity_kept_witness : holds (jt_jobs demo_table) ("u1", demo_job).
Proof.
  exact (proj1 (acknowledged_identity_kept demo_target demo_limits demo_value demo_target_texts demo_target_value
    demo_saved "u1" demo_job (demo_saved_owned typed_changes) (list_elem_of_here _ _))).
Defined.
Lemma restart_reconciles_witness : ∃ b t', _load_jobs demo_target (Some (payload_of demo_table)) None "t1" empty_table = (Ok b, t') ∧
  table_ok demo_target demo_limits demo_value t'.
Proof.
  destruct (restart_reconciles demo_target demo_limits demo_value demo_target_texts demo_target_value
    demo_saved None "t1" (demo_saved_owned typed_changes)) as (b & t' & Hr & Ht & _). exists b, t'. split; [exact Hr|exact Ht].
Defined.
Lemma job_table_bounded_witness : (Z.of_nat (length (active_jobs (jt_jobs demo_table))) ≤ 8)%Z.
Proof.
  exact (proj1 (job_table_bounded demo_target demo_limits demo_value demo_target_texts demo_target_value demo_saved
    (demo_saved_owned typed_changes))).
Defined.
Lemma resubmission_idempotent_witness : ∃ j', job_evolves demo_job j' ∧
  submit_ingest demo_target demo_limits "u2" "t1" "t1" "key" "rev" 5 demo_table = (Ok (j', false), demo_table).
Proof.
  exact (resubmission_idempotent demo_target demo_limits demo_value demo_target_texts demo_target_value
    demo_saved "u1" demo_job "key" "u2" "t1" "t1" "rev" 5%Z (demo_saved_owned typed_changes) (list_elem_of_here _ _)
    eq_refl eq_refl (conj eq_refl (conj eq_refl (proj1 (Z.leb_le 0 5) eq_refl)))).
Defined.

(** [update_job] accepts a text as the detail of a job that is being written;
    the job is saved, and no later owner can load the file. *)
Definition writing_job : IngestionJob := demo_job <| job_state := WRITING |> <| job_updated_at := JStr "t1" |>.
Definition texted_job : IngestionJob := writing_job <| job_detail := JStr "half done" |> <| job_updated_at := JStr "t2" |>.
Definition with_demo (j : IngestionJob) : job_table := MkJobTable [("u1", j)] [((demo_value, "key"), "u1")] true.
Theorem untyped_detail_unloadable : ∃ o, owned demo_target demo_limits any_changes o ∧ ow_done o ≠ [] ∧
  ∀ active now, (_load_jobs demo_target (ow_file o) active now empty_table).1 = Err ValueError.
Proof.
  set (claims := ("u1", writing_job) :: jt_jobs (with_demo writing_job) ++ ow_done demo_saved).
  exists (MkOwner (with_demo texted_job) (Some (payload_of (with_demo texted_job))) [] None
    ((("u1", texted_job) :: jt_jobs (with_demo texted_job)) ++ claims)).
  split_and!; [|done|by intros active now; vm_compute].
  apply demo_write_ok with (f := Some (payload_of (with_demo writing_job))). eapply rtc_r.
  - apply (demo_write_ok any_changes (with_demo writing_job) (Some (payload_of demo_table)) ("u1", writing_job) (ow_done demo_saved)).
    eapply rtc_r; [exact (demo_saved_owned any_changes)|].
    exact (j_update _ _ any_changes "u1" WRITING [] "t1" writing_job (with_demo writing_job) demo_saved I eq_refl).
  - exact (j_update _ _ any_changes "u1" WRITING [("detail", JStr "half done")] "t2" texted_job (with_demo texted_job)
      (MkOwner (with_demo writing_job) (Some (payload_of (with_demo writing_job))) [] None claims) I eq_refl).
Qed.
End example.
