(* ===== verification/Owner.v ===== *)
(** [StoreGateway] of [cortex_harness/storage/gateway.py] as the owner of a
    store: its leases, executors and lanes, the backend handles its lanes open,
    its readiness, starting and closing.  A coroutine is cut where it suspends;
    [Ownership.v] interleaves the pieces.  The jobs are in [Jobs.v]. *)
From Stdlib Require Import QArith.
From S2P Require Import Prelude Json Text PyValue Models Store Artifacts Contracts Stateful Generation Admission Jobs.
#[local] Open Scope Z_scope.

(** * Limits *)

(** [PerformanceProfile]; a duration is in microseconds, the fraction is the
    rational number its double stands for. *)
Record PerformanceProfile := MkPerformanceProfile {
  pp_name : string; graph_readers : Z; vector_readers : Z; writer_slots : Z; control_slots : Z;
  pp_max_queue_items : Z; pp_max_queue_bytes : Z; request_timeout : Z; disk_safety_fraction : Q;
}.
(** [__post_init__] *)
Definition make_profile (p : PerformanceProfile) : res PerformanceProfile :=
  if negb (in_list (pp_name p) ["safe"; "balanced"; "custom"]%string) then Err ValueError
  else if Z.min (Z.min (graph_readers p) (vector_readers p)) (Z.min (writer_slots p) (control_slots p)) <? 1 then Err ValueError
  else if negb (writer_slots p =? 1) then Err ValueError
  else if (pp_max_queue_items p <? 1) || (pp_max_queue_bytes p <? 1) then Err ValueError
  else if request_timeout p <=? 0 then Err ValueError
  else if Qle_bool (disk_safety_fraction p) 0 || Qle_bool 1 (disk_safety_fraction p) then Err ValueError
  else Ok p.
Record GatewayLimits := MkGatewayLimits {
  graph_read : LaneLimits; vector_read : LaneLimits; write_limits : LaneLimits; control_limits : LaneLimits;
  drain_timeout : Z;
}.
(** [__post_init__] *)
Definition make_gateway_limits (l : GatewayLimits) : res GatewayLimits :=
  if drain_timeout l <=? 0 then Err ValueError else Ok l.
Definition lane_limits_of (l : LaneLimits) : res LaneLimits :=
  match make_lane_limits l with Ok l => Ok l | Err _ => Err ValueError end.
(** [from_profile] *)
Definition from_profile (p : PerformanceProfile) : res GatewayLimits :=
  graph ← lane_limits_of (MkLaneLimits (graph_readers p) (pp_max_queue_items p) (pp_max_queue_bytes p));
  vector ← lane_limits_of (MkLaneLimits (vector_readers p) (pp_max_queue_items p) (pp_max_queue_bytes p));
  write ← lane_limits_of (MkLaneLimits (writer_slots p) (Z.max 1 (pp_max_queue_items p / 4)) (pp_max_queue_bytes p));
  control ← lane_limits_of (MkLaneLimits (control_slots p) (Z.max 1 (pp_max_queue_items p / 8)) (pp_max_queue_bytes p));
  make_gateway_limits (MkGatewayLimits graph vector write control (Z.max 1000000 (request_timeout p * 2))).
(** A profile that passes its own checks passes those of the lanes. *)
Lemma profile_limits p : make_profile p = Ok p → ∃ l, from_profile p = Ok l ∧
  ∀ x, x ∈ [graph_read l; vector_read l; write_limits l; control_limits l] → make_lane_limits x = Ok x.
Proof.
  unfold make_profile. do 6 (case_match; [done|]). intros _. bool_hyps.
  assert (∀ c i b, 1 ≤ c → 0 ≤ i → 0 ≤ b → make_lane_limits (MkLaneLimits c i b) = Ok (MkLaneLimits c i b)) as Hl.
  { intros c i b Hc Hi Hb. unfold make_lane_limits. cbn.
    destruct (c <? 1) eqn:E1; [bool_hyps; lia|]. destruct (_ || _) eqn:E2; [bool_hyps; lia|done]. }
  unfold from_profile, lane_limits_of. rewrite !Hl by lia. cbn [mbind result_bind]. unfold make_gateway_limits.
  cbn [drain_timeout]. destruct (_ <=? 0) eqn:E; [bool_hyps; lia|]. eexists. split; [done|]. cbn.
  intros x Hx. repeat (apply elem_of_cons in Hx as [->|Hx]; [apply Hl; lia|]). by apply elem_of_nil in Hx.
Qed.

(** * The object *)

Module LaneName.
Inductive LaneName := GRAPH | VECTOR | WRITE | CONTROL.
#[export] Instance eq_dec : EqDecision LaneName.
Proof. solve_decision. Defined.
Definition all_lanes : list LaneName := [GRAPH; VECTOR; WRITE; CONTROL].
End LaneName.
Abbreviation LaneName := LaneName.LaneName.
#[export] Existing Instance LaneName.eq_dec.
Import LaneName OwnerLifecycleState.

(** A lease: the components of its path, and its backend. *)
Record lease := MkLease { ls_path : list string; ls_backend : string }.
Abbreviation handle := nat.
Record gateway := MkGateway {
  gw_lifecycle : OwnerLifecycleState; gw_leases : list lease; gw_executors : bool (* all four, or none *);
  gw_lanes : LaneName → lane; gw_resources : list (string * (LaneName * handle)); gw_accepting : bool;
  gw_active : option GenerationManifest; gw_probe_generation : option string; gw_probed_at : option string;
  gw_probe_error : option string; gw_registered : bool (* in the registry of runtime.py *);
}.
#[export] Instance gateway_eta : Eta gateway := λ g,
  MkGateway (gw_lifecycle g) (gw_leases g) (gw_executors g) (gw_lanes g) (gw_resources g) (gw_accepting g)
    (gw_active g) (gw_probe_generation g) (gw_probed_at g) (gw_probe_error g) (gw_registered g).
Definition limits_of (l : GatewayLimits) (n : LaneName) : LaneLimits :=
  match n with GRAPH => graph_read l | VECTOR => vector_read l | WRITE => write_limits l | CONTROL => control_limits l end.
(** [__init__] *)
Definition new_gateway (l : GatewayLimits) : gateway :=
  MkGateway STARTING [] false (λ n, new_lane (limits_of l n)) [] false None None None None false.
Definition set_lane (n : LaneName) (l : lane) (g : gateway) : gateway :=
  g <| gw_lanes ::= λ f n', if decide (n = n') then l else f n' |>.

(** * Starting and closing *)

(** The leases [start] acquires, in the order of [canonical_paths]. *)
Definition lease_plan (target : PhysicalTargetKey) : res (list lease) :=
  graph ← text_of (tk_graph_path target);
  paths ← canonical_paths target;
  let lease p := MkLease p (if decide (p = posix_parts graph) then "falkordb" else "qdrant") in
  mret [lease paths.1; lease paths.2].
(** [StorageLease.acquire] of each in turn, where [acquire] says how it ends;
    what was acquired is released again when one fails. *)
Fixpoint acquire_leases (acquire : lease → res unit) (plan acquired : list lease) : res (list lease) :=
  match plan with
  | [] => Ok acquired
  | l :: plan => match acquire l with Ok _ => acquire_leases acquire plan (acquired ++ [l]) | Err e => Err e end
  end.
(** [start] up to its first suspension: does it go on? *)
Definition start_begin (target : PhysicalTargetKey) (acquire : lease → res unit) (g : gateway) : result exn bool * gateway :=
  if negb (bool_decide (gw_lifecycle g = STARTING)) then (Ok false, g)
  else match plan ← lease_plan target; acquire_leases acquire plan [] with
    | Err e => (Err e, g)
    | Ok acquired =>
        (Ok true, g <| gw_leases := acquired |> <| gw_executors := true |> <| gw_lifecycle := RECOVERING |>)
    end.
(** After [generations.recover] returned, and after [_load_jobs]. *)
Definition start_recovered (active : option GenerationManifest) (g : gateway) : gateway := g <| gw_active := active |>.
Definition start_loaded (g : gateway) : gateway := g <| gw_lifecycle := READY |> <| gw_accepting := true |>.
Definition register_gateway (g : gateway) : gateway := g <| gw_registered := true |>.
Definition unregister_gateway (g : gateway) : gateway := g <| gw_registered := false |>.

Definition begin_drain (g : gateway) : gateway :=
  if decide (gw_lifecycle g = STOPPED) then g else g <| gw_lifecycle := DRAINING |> <| gw_accepting := false |>.
(** The handler of [start]'s last section, up to [_close_owned_resources]. *)
Definition start_failed (g : gateway) : gateway := unregister_gateway (begin_drain g).
(** [close] up to its first suspension; a closed gateway is left alone. *)
Definition close_begin (timeout : Z) (g : gateway) : result exn bool * gateway :=
  if decide (gw_lifecycle g = STOPPED) then (Ok false, g)
  else let g := begin_drain g in if timeout <=? 0 then (Err ValueError, g) else (Ok true, g).
(** Shutting the executors down waits for their threads; then the leases go. *)
Definition release_ownership (g : gateway) : gateway :=
  g <| gw_executors := false |> <| gw_leases := [] |> <| gw_lifecycle := STOPPED |>.
(** The end of [close], and of a failed [start]: [failed] when a handle did not
    close. *)
Definition close_end (failed : bool) (g : gateway) : gateway :=
  if failed then g <| gw_lifecycle := DRAINING |> else unregister_gateway (release_ownership g).
Definition start_unwound (failed : bool) (g : gateway) : gateway :=
  if failed then register_gateway (g <| gw_lifecycle := DRAINING |>) else release_ownership g.

(** * Backend handles *)

(** [get_or_create_resource] up to the call of [factory], from a thread of the
    lane [current]: the handle, or nothing when it has to be made. *)
Definition find_resource (current : option LaneName) (lane : LaneName) (key : string) (g : gateway) : res (option handle) :=
  if is_empty (strip key) then Err ValueError
  else if negb (gw_executors g) then Err ValueError
  else if negb (bool_decide (current = Some lane)) then Err RuntimeError
  else match od_get key (gw_resources g) with
    | Some (existing_lane, h) => if decide (existing_lane = lane) then Ok (Some h) else Err ValueError
    | None => Ok None
    end.
(** After [factory] returned: the handle is kept, or another thread was faster
    and it is closed again before [found] is returned or raised. *)
Inductive registration : Type := Kept | Raced (found : res handle).
Definition register_resource (lane : LaneName) (key : string) (created : handle) (g : gateway) : registration * gateway :=
  match od_get key (gw_resources g) with
  | None => (Kept, g <| gw_resources ::= od_set key (lane, created) |>)
  | Some (existing_lane, h) => (Raced (if decide (existing_lane = lane) then Ok h else Err ValueError), g)
  end.
Definition od_remove {V} (k : string) (d : list (string * V)) : list (string * V) :=
  List.filter (λ x, negb (String.eqb x.1 k)) d.
(** [_close_owned_resources] for one entry of its snapshot, after the handle was
    closed. *)
Definition drop_resource (entry : string * (LaneName * handle)) (g : gateway) : gateway :=
  if decide (od_get entry.1 (gw_resources g) = Some entry.2) then g <| gw_resources ::= od_remove entry.1 |> else g.

(** * Queries, writes and readiness *)

Definition admit_query (lane : LaneName) (g : gateway) : result gateway_error unit :=
  if negb (bool_decide (gw_lifecycle g = READY)) then Err store_maintenance
  else if bool_decide (lane = WRITE) then Err (Raised ValueError) else Ok ().
Definition admit_write (g : gateway) : result gateway_error unit :=
  if negb (bool_decide (gw_lifecycle g = READY)) then Err store_maintenance else Ok ().
(** [run] of [query]: what [pin_active] gave, what the operation did with it,
    whether the deadline had passed, and the jobs. *)
Definition query_result {A} (pinned : res GenerationManifest) (operation : GenerationManifest → res A) (late : bool)
    (jobs : list (string * IngestionJob)) : result gateway_error (A * FreshnessMetadata) :=
  match pinned with
  | Err e => Err (if bool_decide (e = RuntimeError) then store_maintenance else Raised e)
  | Ok m =>
      match operation m with
      | Err e => Err (Raised e)
      | Ok result =>
          if late then Err (GatewayError GatewayErrorCode.DEADLINE_EXCEEDED true)
          else Ok (result, MkFreshnessMetadata (gm_generation_id m) (gm_source_revision m) (gm_published_at m)
                             (job_state <$> head (active_jobs jobs)))
      end
  end.

(** [_run_readiness_probes_sync]; the probes raise or return. *)
Definition _run_readiness_probes_sync (graph_probe vector_probe : GenerationManifest → res unit) (m : GenerationManifest) : res unit :=
  _ ← graph_probe m; vector_probe m.
(** The end of [refresh_readiness]: the generation the probes were served, or
    the type of the exception. *)
Definition refresh_end (served : result string string) (now : string) (g : gateway) : gateway :=
  match served with
  | Ok id => g <| gw_probe_generation := Some id |> <| gw_probed_at := Some now |> <| gw_probe_error := None |>
  | Err e => g <| gw_probe_generation := None |> <| gw_probed_at := Some now |> <| gw_probe_error := Some e |>
  end.
(** [publish] after [write] returned. *)
Definition publish_returned (probes : bool) (published : GenerationManifest) (now : string) (g : gateway) : gateway :=
  let g := g <| gw_active := Some published |> in
  if probes then refresh_end (Ok (gm_generation_id published)) now g else g.
(** [publish] after [write] raised and [generations.recover] ended:
    [publication_error] is the type of the exception, nothing for a
    cancellation. *)
Definition publish_raised (probes : bool) (manifest : GenerationManifest) (publication_error : option string)
    (recovered : res (option GenerationManifest)) (now : string) (g : gateway) : gateway :=
  match recovered with
  | Err _ => g <| gw_active := None |> <| gw_probe_generation := None |>
               <| gw_probe_error := Some "PublicationReconciliationError" |>
  | Ok active =>
      let g := g <| gw_active := active |> in
      match active with
      | Some a =>
          if String.eqb (gm_generation_id a) (gm_generation_id manifest) && probes
          then refresh_end (match publication_error with None => Ok (gm_generation_id a) | Some e => Err e end) now g
          else g
      | None => g
      end
  end.
(** [health().ready] *)
Definition ready (probes : bool) (g : gateway) : bool :=
  bool_decide (gw_lifecycle g = READY) &&
  match gw_active g with
  | Some a => probes && bool_decide (gw_probe_generation g = Some (gm_generation_id a))
              && bool_decide (gw_probe_error g = None)
  | None => false
  end.
