(* ===== verification/Ownership.v ===== *)
(** The gateway of [Owner.v] over its whole life: requests in the lanes of
    [Admission.v], the threads that run them and open backend handles, starting,
    draining, closing and failing to close, in every order the event loop allows.
    Clients use the gateway once [start] has returned. *)
From S2P Require Import Prelude Json Text PyValue Models Contracts Stateful Generation Admission Lanes Jobs JobStore Owner.
Import LaneName OwnerLifecycleState.

(** * The world around a gateway *)

(** What a thread of an executor is doing: anything; calling a [factory] it
    found no handle for; holding the handle it was given; closing that handle
    because another thread was faster. *)
Inductive activity : Type := Working | Opening (key : string) | Created (key : string) (h : handle) | Duplicate (h : handle).
(** The operation of a task: only [retire] opens no handles. *)
Record thread := MkThread { th_lane : LaneName; th_task : nat; th_retires : bool; th_doing : activity }.
(** [start], where it is suspended. *)
Inductive starting : Type := Recovering | Loading | Probing (task : nat).
(** [close] waiting for lanes and writing the jobs; [close], or a failed
    [start], closing what its snapshot of the handles has left. *)
Inductive closer : Type :=
  | Waiting (lanes : list LaneName) | Persisting
  | Closing (unwinding : bool) (todo : list (string * (LaneName * handle))) (failed : bool).
(** Calls of [publish] and [refresh_readiness] by the task they run in, and how
    far they came: both probes returned, the pointer was replaced. *)
Inductive probing : Type :=
  | Publishing (task : nat) (m : GenerationManifest) (probed : bool) (selected : option GenerationManifest)
  | Refreshing (task : nat) (served : option string).
Record world := MkWorld {
  w_gateway : gateway; w_open : gset handle; w_threads : list thread; w_retiring : list nat;
  w_start : option starting; w_closers : list closer; w_probing : list probing;
  w_probed : list string (* the generations on which both probes returned *);
}.
#[export] Instance world_eta : Eta world := λ w,
  MkWorld (w_gateway w) (w_open w) (w_threads w) (w_retiring w) (w_start w) (w_closers w) (w_probing w) (w_probed w).
Definition lane_of (w : world) (n : LaneName) : lane := gw_lanes (w_gateway w) n.
(** Tasks in a lane, waiting or running. *)
Definition busy (l : lane) (t : nat) : Prop := t ∈ tasks (l_waiting l) ++ l_running l.

Inductive request : Type := Query (n : LaneName) | Write | Publish (m : GenerationManifest) | Refresh | Retire.
Definition request_lane (r : request) : LaneName :=
  match r with Query n => n | Write | Publish _ => WRITE | Refresh | Retire => CONTROL end.
Definition accept_request (r : request) (g : gateway) : result gateway_error unit :=
  match r with
  | Query n => admit_query n g | Write | Publish _ => admit_write g
  | Refresh => admit_query CONTROL g | Retire => Ok () end.
Definition note_request (r : request) (t : nat) (w : world) : world :=
  match r with
  | Query _ | Write => w
  | Publish m => w <| w_probing ::= cons (Publishing t m false None) |>
  | Refresh => w <| w_probing ::= cons (Refreshing t None) |>
  | Retire => w <| w_retiring ::= cons t |>
  end.
(** What may go wrong beyond exceptions: a coroutine that is cancelled twice
    leaves its thread behind; closing a duplicate handle fails; the publication
    of a generation that is selected already is cancelled before it replaced the pointer. *)
Record faults := MkFaults { ft_abandon : bool; ft_duplicate : bool; ft_republish : bool }.
Definition no_faults : faults := MkFaults false false false.

Section owner.
Context (target : PhysicalTargetKey) (limits : GatewayLimits) (probes : bool).
Definition first_world : world := MkWorld (new_gateway limits) ∅ [] [] None [] [] [].
Definition in_thread (w : world) (n : LaneName) (t : nat) : Prop := ∃ th, th ∈ w_threads w ∧ th_lane th = n ∧ th_task th = t.

Inductive ostep (f : faults) (w : world) : world → Prop :=
  (* [start] *)
  | o_start acquire g : w_start w = None → start_begin target acquire (w_gateway w) = (Ok true, g) →
      ostep f w (w <| w_gateway := g |> <| w_start := Some Recovering |>)
  | o_recovered active : w_start w = Some Recovering →
      ostep f w (w <| w_gateway ::= start_recovered active |> <| w_start := Some Loading |>)
  | o_loaded : w_start w = Some Loading → gw_active (w_gateway w) = None ∨ probes = false →
      ostep f w (w <| w_gateway ::= λ g, register_gateway (start_loaded g) |> <| w_start := None |>)
  | o_loaded_probe t l : w_start w = Some Loading → enter (limits_of limits CONTROL) 0 false (lane_of w CONTROL) = (Ok t, l) →
      ostep f w (w <| w_gateway ::= λ g, set_lane CONTROL l (start_loaded g) |>
                   <| w_start := Some (Probing t) |> <| w_probing ::= cons (Refreshing t None) |>)
  | o_loaded_refused e l now : w_start w = Some Loading → enter (limits_of limits CONTROL) 0 false (lane_of w CONTROL) = (Err e, l) →
      ostep f w (w <| w_gateway ::= λ g, register_gateway (refresh_end (Err "StoreGatewayError"%string) now
                     (set_lane CONTROL l (start_loaded g))) |> <| w_start := None |>)
  | o_started t : w_start w = Some (Probing t) → ¬ busy (lane_of w CONTROL) t →
      ostep f w (w <| w_gateway ::= register_gateway |> <| w_start := None |>)
  | o_start_failed s : w_start w = Some s → (∀ t, s = Probing t → ¬ busy (lane_of w CONTROL) t) →
      ostep f w (w <| w_gateway ::= start_failed |> <| w_start := None |>
                   <| w_closers ::= cons (Closing true (reverse (gw_resources (w_gateway w))) false) |>)
  (* requests and lanes *)
  | o_request r t l bytes deadline : w_start w = None → is_ok (accept_request r (w_gateway w)) = true →
      enter (limits_of limits (request_lane r)) bytes deadline (lane_of w (request_lane r)) = (Ok t, l) →
      ostep f w (note_request r t (w <| w_gateway ::= set_lane (request_lane r) l |>))
  | o_refused n e l bytes deadline : w_start w = None →
      enter (limits_of limits n) bytes deadline (lane_of w n) = (Err e, l) →
      ostep f w (w <| w_gateway ::= set_lane n l |>)
  | o_lane n e l : lane_step (limits_of limits n) (lane_of w n) e l → arrival e = false →
      (ft_abandon f = true ∨ ∀ t o, e = Finished t o → ¬ in_thread w n t) →
      ostep f w (w <| w_gateway ::= set_lane n l |>)
  (* threads *)
  | o_spawn n t : t ∈ l_running (lane_of w n) → gw_executors (w_gateway w) = true → ¬ in_thread w n t →
      ostep f w (w <| w_threads ::= cons (MkThread n t (bool_decide (n = CONTROL ∧ t ∈ w_retiring w)) Working) |>)
  | o_open ths1 ths2 n t key : w_threads w = ths1 ++ MkThread n t false Working :: ths2 →
      find_resource (Some n) n key (w_gateway w) = Ok None →
      ostep f w (w <| w_threads := ths1 ++ MkThread n t false (Opening key) :: ths2 |>)
  | o_created ths1 ths2 n t r key h : w_threads w = ths1 ++ MkThread n t r (Opening key) :: ths2 → h ∉ w_open w →
      ostep f w (w <| w_threads := ths1 ++ MkThread n t r (Created key h) :: ths2 |> <| w_open ::= λ o, {[h]} ∪ o |>)
  | o_not_created ths1 ths2 n t r key : w_threads w = ths1 ++ MkThread n t r (Opening key) :: ths2 →
      ostep f w (w <| w_threads := ths1 ++ MkThread n t r Working :: ths2 |>)
  | o_kept ths1 ths2 n t r key h g : w_threads w = ths1 ++ MkThread n t r (Created key h) :: ths2 →
      register_resource n key h (w_gateway w) = (Kept, g) →
      ostep f w (w <| w_threads := ths1 ++ MkThread n t r Working :: ths2 |> <| w_gateway := g |>)
  | o_raced ths1 ths2 n t r key h found g : w_threads w = ths1 ++ MkThread n t r (Created key h) :: ths2 →
      register_resource n key h (w_gateway w) = (Raced found, g) →
      ostep f w (w <| w_threads := ths1 ++ MkThread n t r (Duplicate h) :: ths2 |> <| w_gateway := g |>)
  | o_duplicate_closed ths1 ths2 n t r h : w_threads w = ths1 ++ MkThread n t r (Duplicate h) :: ths2 →
      ostep f w (w <| w_threads := ths1 ++ MkThread n t r Working :: ths2 |> <| w_open ::= λ o, o ∖ {[h]} |>)
  | o_duplicate_failed ths1 ths2 n t r h : ft_duplicate f = true →
      w_threads w = ths1 ++ MkThread n t r (Duplicate h) :: ths2 →
      ostep f w (w <| w_threads := ths1 ++ MkThread n t r Working :: ths2 |>)
  | o_return ths1 ths2 n t r : w_threads w = ths1 ++ MkThread n t r Working :: ths2 →
      ostep f w (w <| w_threads := ths1 ++ ths2 |>)
  (* probes *)
  | o_probe_candidate ps1 ps2 t m s graph_probe vector_probe : w_probing w = ps1 ++ Publishing t m false s :: ps2 →
      in_thread w WRITE t → _run_readiness_probes_sync graph_probe vector_probe m = Ok () →
      ostep f w (w <| w_probing := ps1 ++ Publishing t m true s :: ps2 |> <| w_probed ::= cons (gm_generation_id m) |>)
  | o_select ps1 ps2 t m b p : w_probing w = ps1 ++ Publishing t m b None :: ps2 → in_thread w WRITE t →
      b = true ∨ probes = false → gm_generation_id p = gm_generation_id m →
      ostep f w (w <| w_probing := ps1 ++ Publishing t m b (Some p) :: ps2 |>)
  | o_published ps1 ps2 t m b p now : w_probing w = ps1 ++ Publishing t m b (Some p) :: ps2 → ¬ busy (lane_of w WRITE) t →
      ostep f w (w <| w_probing := ps1 ++ ps2 |> <| w_gateway ::= publish_returned probes p now |>)
  | o_publish_raised ps1 ps2 t m b s error recovered now : w_probing w = ps1 ++ Publishing t m b s :: ps2 →
      ¬ busy (lane_of w WRITE) t →
      (ft_republish f = true ∨ is_Some s ∨ is_Some error ∨ ∀ a, recovered = Ok (Some a) → gm_generation_id a ≠ gm_generation_id m) →
      ostep f w (w <| w_probing := ps1 ++ ps2 |> <| w_gateway ::= publish_raised probes m error recovered now |>)
  | o_probe_active ps1 ps2 t s m graph_probe vector_probe : w_probing w = ps1 ++ Refreshing t s :: ps2 →
      in_thread w CONTROL t → _run_readiness_probes_sync graph_probe vector_probe m = Ok () →
      ostep f w (w <| w_probing := ps1 ++ Refreshing t (Some (gm_generation_id m)) :: ps2 |>
                   <| w_probed ::= cons (gm_generation_id m) |>)
  | o_refreshed ps1 ps2 t s served now : w_probing w = ps1 ++ Refreshing t s :: ps2 → ¬ busy (lane_of w CONTROL) t →
      (∀ id, served = Ok id → s = Some id) →
      ostep f w (w <| w_probing := ps1 ++ ps2 |> <| w_gateway ::= refresh_end served now |>)
  | o_refresh_cancelled ps1 ps2 t s : w_probing w = ps1 ++ Refreshing t s :: ps2 →
      ostep f w (w <| w_probing := ps1 ++ ps2 |>)
  (* [begin_drain] and [close] *)
  | o_drain : w_start w = None → ostep f w (w <| w_gateway ::= begin_drain |>)
  | o_close timeout g : w_start w = None → close_begin timeout (w_gateway w) = (Ok true, g) →
      ostep f w (w <| w_gateway := g |> <| w_closers ::= cons (Waiting all_lanes) |>)
  | o_close_refused timeout e g : w_start w = None → close_begin timeout (w_gateway w) = (Err e, g) →
      ostep f w (w <| w_gateway := g |>)
  | o_idle cs1 cs2 ls n : w_closers w = cs1 ++ Waiting ls :: cs2 → l_idle (lane_of w n) = true →
      ostep f w (w <| w_closers := cs1 ++ Waiting (List.filter (λ n', negb (bool_decide (n' = n))) ls) :: cs2 |>)
  | o_timeout cs1 cs2 ls : w_closers w = cs1 ++ Waiting ls :: cs2 → ostep f w (w <| w_closers := cs1 ++ cs2 |>)
  | o_waited cs1 cs2 : w_closers w = cs1 ++ Waiting [] :: cs2 → ostep f w (w <| w_closers := cs1 ++ Persisting :: cs2 |>)
  | o_persisted cs1 cs2 : w_closers w = cs1 ++ Persisting :: cs2 →
      ostep f w (w <| w_closers := cs1 ++ Closing false (reverse (gw_resources (w_gateway w))) false :: cs2 |>)
  | o_closed cs1 cs2 u x todo failed : w_closers w = cs1 ++ Closing u (x :: todo) failed :: cs2 →
      gw_executors (w_gateway w) = true →
      ostep f w (w <| w_closers := cs1 ++ Closing u todo failed :: cs2 |> <| w_open ::= λ o, o ∖ {[x.2.2]} |>
                   <| w_gateway ::= drop_resource x |>)
  | o_not_closed cs1 cs2 u x todo failed : w_closers w = cs1 ++ Closing u (x :: todo) failed :: cs2 →
      ostep f w (w <| w_closers := cs1 ++ Closing u todo true :: cs2 |>)
  | o_end cs1 cs2 u failed : w_closers w = cs1 ++ Closing u [] failed :: cs2 → failed = true ∨ w_threads w = [] →
      ostep f w (w <| w_closers := cs1 ++ cs2 |> <| w_gateway ::= if u then start_unwound failed else close_end failed |>).
Definition reached (f : faults) (w : world) : Prop := rtc (ostep f) first_world w.

(** * What holds in between *)

Abbreviation lane_fine n := (lane_ok (limits_of limits n)).
Lemma lane_busy n l e l' : lane_fine n l → lane_step (limits_of limits n) l e l' → arrival e = false →
  (∀ t, busy l' t → busy l t) ∧ (∀ t, t ∈ l_running l → (∀ o, e ≠ Finished t o) → t ∈ l_running l').
Proof.
  intros Hok Hs Ha. destruct Hs as [| |x ws waited Hw _ _|x Hin _|x Hin|t o Hin]; try done; unfold busy; clear Ha.
  - split; [|intros t Ht _; unfold start; cbn; by right]. intros t. unfold start, drop_waiter. cbn. rewrite Hw. cbn.
    rewrite Nat.eqb_refl. cbn. unfold tasks. rewrite elem_of_app, !elem_of_cons, elem_of_app.
    intros [(y & -> & [Hy _]%list_elem_of_In%List.filter_In)%list_elem_of_fmap|[->|Ht]].
    + right. left. apply list_elem_of_fmap. exists y. split; [done|by apply list_elem_of_In].
    + by left.
    + by right; right.
  - assert (l_waiting (time_out x l).2 = without w_task (w_task x) (l_waiting l) ∧ l_running (time_out x l).2 = l_running l) as [E1 E2].
    { unfold time_out, leave, set_idle, drop_waiter. cbn. by destruct (_ && _). }
    rewrite E1, E2. split; [|done]. intros t. unfold tasks, without. rewrite !elem_of_app.
    intros [(y & -> & [Hy _]%list_elem_of_In%List.filter_In)%list_elem_of_fmap|Ht]; [left|by right].
    apply list_elem_of_fmap. exists y. split; [done|by apply list_elem_of_In].
  - assert (l_waiting (leave x l) = without w_task (w_task x) (l_waiting l) ∧ l_running (leave x l) = l_running l) as [E1 E2].
    { unfold leave, set_idle, drop_waiter. cbn. by destruct (_ && _). }
    rewrite E1, E2. split; [|done]. intros t. unfold tasks, without. rewrite !elem_of_app.
    intros [(y & -> & [Hy _]%list_elem_of_In%List.filter_In)%list_elem_of_fmap|Ht]; [left|by right].
    apply list_elem_of_fmap. exists y. split; [done|by apply list_elem_of_In].
  - assert (l_waiting (finish t o l) = l_waiting l ∧ l_running (finish t o l) = without id t (l_running l)) as [E1 E2].
    { unfold finish, set_idle. cbn. destruct o; cbn; by destruct (_ && _). }
    rewrite E1, E2. unfold without. split.
    + intros t'. rewrite !elem_of_app. intros [Ht|[Ht _]%list_elem_of_In%List.filter_In]; [by left|right]. by apply list_elem_of_In.
    + intros t' Ht Hne. apply list_elem_of_In, List.filter_In. split; [by apply list_elem_of_In|].
      destruct (t' =? t)%nat eqn:E; [|by unfold id; rewrite E]. apply Nat.eqb_eq in E as ->. by destruct (Hne o).
Qed.
Lemma enter_busy lim bytes d l t l' : enter lim bytes d l = (Ok t, l') →
  t = l_next l ∧ l_running l' = l_running l ∧ ∀ t', busy l' t' → busy l t' ∨ t' = t.
Proof.
  unfold enter. destruct (_ <? _)%Z; [done|]. destruct (_ || _); [done|]. intros [= <- <-]. cbn. split_and!; [done|done|].
  intros t'. unfold busy, tasks. cbn. rewrite map_app, !elem_of_app. cbn. rewrite list_elem_of_singleton. tauto.
Qed.
Lemma refused_busy lim bytes d l e l' : enter lim bytes d l = (Err e, l') →
  l_running l' = l_running l ∧ ∀ t', busy l' t' → busy l t'.
Proof. unfold enter. destruct (_ <? _)%Z; [by intros [= _ <-]|]. destruct (_ || _); [by intros [= _ <-]|done]. Qed.
Lemma idle_not_busy n l t : lane_fine n l → l_idle l = true → ¬ busy l t.
Proof.
  intros Hok Hi. rewrite (ok_idle _ _ Hok), (ok_active _ _ Hok), (ok_items _ _ Hok) in Hi. bool_hyps.
  unfold busy. destruct (l_waiting l); [|cbn in *; lia]. destruct (l_running l); [|cbn in *; lia]. apply not_elem_of_nil.
Qed.

(** A task that opens no handle. *)
Definition retiring (w : world) (n : LaneName) (t : nat) : Prop := n = CONTROL ∧ t ∈ w_retiring w.
Definition quiet (w : world) (n : LaneName) : Prop := ∀ t, busy (lane_of w n) t → retiring w n t.
Definition winding_down (s : OwnerLifecycleState) : Prop := s = DRAINING ∨ s = STOPPED.
Definition closer_ok (w : world) (c : closer) : Prop :=
  match c with
  | Waiting ls => ∀ n, n ∉ ls → quiet w n
  | Persisting => ∀ n, quiet w n
  | Closing _ todo failed => (∀ n, quiet w n) ∧ (failed = true ∨ ∀ x, x ∈ gw_resources (w_gateway w) → x ∈ todo)
  end.
Definition thread_ok (w : world) (th : thread) : Prop :=
  gw_executors (w_gateway w) = true ∧ th_task th ∈ l_running (lane_of w (th_lane th)) ∧
  if th_retires th then th_doing th = Working else ¬ retiring w (th_lane th) (th_task th).
Definition holds_handle (w : world) (h : handle) : Prop :=
  (∃ key n, (key, (n, h)) ∈ gw_resources (w_gateway w)) ∨
  ∃ th, th ∈ w_threads w ∧ (th_doing th = Duplicate h ∨ ∃ key, th_doing th = Created key h).
Definition start_ok (w : world) : Prop :=
  match w_start w with
  | None => True
  | Some (Probing t) => gw_lifecycle (w_gateway w) = READY ∧
      ∀ n t', busy (lane_of w n) t' → retiring w n t' ∨ (n = CONTROL ∧ t' = t)
  | Some _ => gw_lifecycle (w_gateway w) = RECOVERING
  end.
Record winv (w : world) : Prop := {
  wi_lanes : ∀ n, lane_fine n (lane_of w n);
  wi_threads : ∀ th, th ∈ w_threads w → thread_ok w th;
  wi_open : ∀ h, h ∈ w_open w → holds_handle w h;
  wi_keys : NoDup (gw_resources (w_gateway w)).*1;
  wi_on : gw_executors (w_gateway w) = true → lease_plan target = Ok (gw_leases (w_gateway w));
  wi_off : gw_executors (w_gateway w) = false → gw_resources (w_gateway w) = [] ∧ gw_leases (w_gateway w) = [];
  wi_quiet : gw_lifecycle (w_gateway w) ≠ READY → gw_lifecycle (w_gateway w) ≠ DRAINING → ∀ n, quiet w n;
  wi_closers : ∀ c, c ∈ w_closers w → winding_down (gw_lifecycle (w_gateway w)) ∧ closer_ok w c;
  wi_start : start_ok w;
  wi_begun : gw_lifecycle (w_gateway w) = STARTING → gw_executors (w_gateway w) = false;
  wi_stopped : gw_lifecycle (w_gateway w) = STOPPED → gw_executors (w_gateway w) = false;
  wi_running : gw_lifecycle (w_gateway w) = RECOVERING ∨ gw_lifecycle (w_gateway w) = READY → gw_executors (w_gateway w) = true;
}.

(** ** Steps that leave most of the world alone *)

Definition core (w : world) :=
  let g := w_gateway w in
  (gw_lifecycle g, gw_leases g, gw_executors g, gw_lanes g, gw_resources g,
   (w_open w, w_threads w, w_retiring w, w_start w, w_closers w)).
Lemma winv_core w w' : core w' = core w → winv w → winv w'.
Proof.
  unfold core. intros E. injection E as E1 E2 E3 E4 E5 E6 E7 E8 E9 E10.
  assert (∀ n, lane_of w' n = lane_of w n) as El by (intros n; unfold lane_of; by rewrite E4).
  assert (∀ n, quiet w' n ↔ quiet w n) as Eq by (intros n; unfold quiet, retiring; by rewrite El, E8).
  intros []. constructor; rewrite ?E1, ?E2, ?E3, ?E5, ?E6, ?E7, ?E10; try done.
  - intros n. by rewrite El.
  - intros th Hth. unfold thread_ok, retiring. rewrite E3, El, E8. by apply wi_threads0.
  - intros h Hh. unfold holds_handle. rewrite E5, E7. by apply wi_open0.
  - intros H1 H2 n. apply Eq. by apply wi_quiet0.
  - intros c Hc. destruct (wi_closers0 c Hc) as [H1 H2]. split; [done|].
    destruct c; cbn in *; rewrite ?E5; try (intros n; rewrite Eq; auto).
    split; [intros n; apply Eq; by apply H2|apply H2].
  - unfold start_ok in *. rewrite E9, E1. destruct (w_start w) as [[]|]; try done.
    destruct wi_start0 as [H1 H2]. split; [done|]. intros n t'. unfold retiring. rewrite El, E8. apply H2.
Qed.
Lemma winding_ready g : winding_down (gw_lifecycle g) → gw_lifecycle g = READY → False.
Proof. by intros [-> | ->]. Qed.
(** Another lane: no running thread is lost, and only a gateway that is ready
    gets new tasks. *)
Lemma winv_lane w n l s : winv w → lane_fine n l →
  (∀ t, busy l t → busy (lane_of w n) t ∨ gw_lifecycle (w_gateway w) = READY) →
  (∀ th, th ∈ w_threads w → th_lane th = n → th_task th ∈ l_running l) →
  start_ok (w <| w_gateway ::= set_lane n l |> <| w_start := s |>) →
  winv (w <| w_gateway ::= set_lane n l |> <| w_start := s |>).
Proof.
  intros [] Hl Hb Hr Hs.
  assert (∀ n', lane_of (w <| w_gateway ::= set_lane n l |> <| w_start := s |>) n' =
                if decide (n = n') then l else lane_of w n') as El by done.
  assert (∀ n' t, busy (if decide (n = n') then l else lane_of w n') t → busy (lane_of w n') t ∨ gw_lifecycle (w_gateway w) = READY) as Eb.
  { intros n' t. case_decide as E; [subst; apply Hb|by left]. }
  assert (gw_lifecycle (w_gateway w) ≠ READY →
    ∀ n', quiet w n' → quiet (w <| w_gateway ::= set_lane n l |> <| w_start := s |>) n') as Eq.
  { intros Hne n' Hq t Ht. apply Hq. rewrite El in Ht. by destruct (Eb _ _ Ht). }
  constructor; try done.
  - intros n'. rewrite El. by case_decide; subst.
  - intros th Hth. destruct (wi_threads0 th Hth) as (H1 & H2 & H3). split_and!; [done| |done].
    rewrite El. case_decide; [by apply Hr|done].
  - intros H1 H2 n'. apply Eq; [done|]. by apply wi_quiet0.
  - intros c Hc. destruct (wi_closers0 c Hc) as [H1 H2]. split; [done|].
    assert (gw_lifecycle (w_gateway w) ≠ READY) as Hne by (intros E; by eapply winding_ready).
    destruct c; cbn in *; [intros n' Hn; apply Eq; auto|intros n'; auto|]. split; [intros n'; by apply Eq, H2|apply H2].
Qed.
(** The start of a gateway is not affected by tasks that leave. *)
Lemma start_lane w n l : start_ok w → (∀ t, busy l t → busy (lane_of w n) t ∨ w_start w = None) →
  start_ok (w <| w_gateway ::= set_lane n l |>).
Proof.
  unfold start_ok. cbn. destruct (w_start w) as [[]|]; try done. intros [H1 H2] Hb. split; [done|]. intros n' t'.
  unfold lane_of. cbn. case_decide as E; [subst|]; [|apply H2]. intros Ht. apply H2. by destruct (Hb _ Ht).
Qed.
(** Other threads, none of which retires more than before. *)
Lemma winv_threads w ths : winv w → (∀ th, th ∈ ths → thread_ok w th) →
  (∀ h, h ∈ w_open w → holds_handle (w <| w_threads := ths |>) h) → winv (w <| w_threads := ths |>).
Proof. intros [] Ht Hh. by constructor. Qed.

(** ** Starting *)

Lemma acquire_leases_plan acquire plan acquired r : acquire_leases acquire plan acquired = Ok r → r = acquired ++ plan.
Proof.
  revert acquired. induction plan as [|l plan IH]; intros acquired; cbn; [intros [= <-]; by rewrite app_nil_r|].
  destruct (acquire l); [|done]. intros ->%IH. by rewrite <- app_assoc.
Qed.
Lemma winv_first : (∀ n, make_lane_limits (limits_of limits n) = Ok (limits_of limits n)) → winv first_world.
Proof.
  intros Hl. constructor; cbn; try done.
  - intros n. by apply new_lane_ok.
  - by intros th ?%elem_of_nil.
  - apply NoDup_nil_2.
  - intros _ _ n t. unfold busy. cbn. by intros ?%elem_of_nil.
  - by intros c ?%elem_of_nil.
  - by intros [|].
Qed.
Lemma no_closers w : winv w → ¬ winding_down (gw_lifecycle (w_gateway w)) → ∀ c, c ∉ w_closers w.
Proof. intros Hi Hn c Hc. by destruct (wi_closers _ Hi c Hc). Qed.
Lemma winv_begun w acquire g : winv w → start_begin target acquire (w_gateway w) = (Ok true, g) →
  winv (w <| w_gateway := g |> <| w_start := Some Recovering |>).
Proof.
  unfold start_begin. intros Hi. case_bool_decide as Hs; cbn [negb]; [|done].
  destruct (plan ← lease_plan target; _) as [acquired|e] eqn:Ea; [|done]. intros [= <-].
  pose proof (no_closers _ Hi ltac:(rewrite Hs; by intros [|])) as Hnc. pose proof (wi_begun _ Hi Hs) as Hoff.
  destruct (lease_plan target) as [plan|] eqn:Ep; [|done]. apply acquire_leases_plan in Ea. cbn in Ea. subst acquired.
  destruct Hi. constructor; cbn; try done.
  - intros th Hth. destruct (wi_threads0 th Hth) as [Hx _]. congruence.
  - intros _ _. apply wi_quiet0; by rewrite Hs.
  - intros c Hc. by destruct (Hnc c).
Qed.
(** [start] on its way: [READY] once the jobs are loaded. *)
Lemma winv_loaded w s : winv w → gw_lifecycle (w_gateway w) = RECOVERING →
  start_ok (w <| w_gateway ::= start_loaded |> <| w_start := s |>) →
  winv (w <| w_gateway ::= start_loaded |> <| w_start := s |>).
Proof.
  intros Hi Hr Hs. pose proof (no_closers _ Hi ltac:(rewrite Hr; by intros [|])) as Hnc.
  destruct Hi. constructor; cbn; try done; [intros c Hc; by destruct (Hnc c)|auto].
Qed.

(** ** Threads and handles *)

Lemma middle_forall {A} (P : A → Prop) l1 x y l2 : (∀ z, z ∈ l1 ++ x :: l2 → P z) → P y → ∀ z, z ∈ l1 ++ y :: l2 → P z.
Proof.
  intros Hall Hy z. rewrite elem_of_app, elem_of_cons. intros Hz.
  destruct Hz as [Hz|[->|Hz]]; [|done|]; apply Hall; rewrite elem_of_app, elem_of_cons; tauto.
Qed.
Lemma outer_forall {A} (P : A → Prop) l1 x l2 : (∀ z, z ∈ l1 ++ x :: l2 → P z) → ∀ z, z ∈ l1 ++ l2 → P z.
Proof.
  intros Hall z. rewrite elem_of_app. intros Hz. apply Hall. rewrite elem_of_app, elem_of_cons. tauto.
Qed.
Definition holding (a : activity) (h : handle) : Prop := a = Duplicate h ∨ ∃ key, a = Created key h.
(** Giving a thread another activity. *)
Lemma holds_other w ths1 th th' ths2 h : w_threads w = ths1 ++ th :: ths2 → holds_handle w h →
  (holding (th_doing th) h → holding (th_doing th') h) → holds_handle (w <| w_threads := ths1 ++ th' :: ths2 |>) h.
Proof.
  intros E [Hr|(x & Hx & Hh)] Hth; [by left|right]. rewrite E, elem_of_app, elem_of_cons in Hx. cbn.
  destruct Hx as [Hx|[->|Hx]].
  - exists x. rewrite elem_of_app. by split; [left|].
  - exists th'. rewrite elem_of_app, elem_of_cons. split; [by right; left|by apply Hth].
  - exists x. rewrite elem_of_app, elem_of_cons. by split; [right; right|].
Qed.
Lemma winv_thread w ths1 ths2 n t r a a' o : winv w → w_threads w = ths1 ++ MkThread n t r a :: ths2 →
  (r = true → a' = Working) →
  (∀ h, h ∈ o → h ∈ w_open w ∧ (holding a h → holding a' h) ∨ holding a' h) →
  winv (w <| w_threads := ths1 ++ MkThread n t r a' :: ths2 |> <| w_open := o |>).
Proof.
  intros Hi E Hr Ho. pose proof (wi_threads _ Hi) as Ht. rewrite E in Ht.
  assert (thread_ok w (MkThread n t r a)) as (H1 & H2 & H3) by (apply Ht; rewrite elem_of_app; right; left).
  destruct Hi. constructor; try done; cbn.
  - apply (middle_forall _ _ _ _ _ Ht). split_and!; [done|done|]. cbn in *. destruct r; [by apply Hr|done].
  - intros h Hh. destruct (Ho h Hh) as [[Hin Hk]|Hk].
    + apply (holds_other w ths1 _ (MkThread n t r a') ths2 h E (wi_open0 h Hin) Hk).
    + right. exists (MkThread n t r a'). cbn. split; [|done]. rewrite elem_of_app, elem_of_cons. by right; left.
Qed.
Lemma winv_spawn w n t : winv w → t ∈ l_running (lane_of w n) → gw_executors (w_gateway w) = true →
  winv (w <| w_threads ::= cons (MkThread n t (bool_decide (n = CONTROL ∧ t ∈ w_retiring w)) Working) |>).
Proof.
  intros [] Ht He. constructor; try done; cbn.
  - intros th [->|Hth]%elem_of_cons; [|by apply wi_threads0]. split_and!; [done|done|]. cbn.
    by case_bool_decide.
  - intros h Hh. destruct (wi_open0 h Hh) as [Hr|(th & Hth & Hd)]; [by left|right]. exists th. by split; [right|].
Qed.
Lemma winv_return w ths1 ths2 n t r : winv w → w_threads w = ths1 ++ MkThread n t r Working :: ths2 →
  winv (w <| w_threads := ths1 ++ ths2 |>).
Proof.
  intros Hi E. pose proof (wi_threads _ Hi) as Ht. rewrite E in Ht. destruct Hi. constructor; try done; cbn.
  - exact (outer_forall _ _ _ _ Ht).
  - intros h Hh. destruct (wi_open0 h Hh) as [Hr|(x & Hx & Hd)]; [by left|right]. exists x. split; [|done]. cbn.
    rewrite E, elem_of_app, elem_of_cons in Hx. rewrite elem_of_app. destruct Hx as [?|[->|?]]; [by left| |by right].
    by destruct Hd as [Hd|[key Hd]].
Qed.
(** A handle is kept: some task that may open handles is in a lane, so nobody
    has come to closing them. *)
Lemma busy_thread w th : winv w → th ∈ w_threads w → th_retires th = false → ¬ ∀ n, quiet w n.
Proof.
  intros Hi Hth Hr Hq. destruct (wi_threads _ Hi th Hth) as (_ & Hrun & Hn). rewrite Hr in Hn. apply Hn.
  apply Hq. unfold busy. rewrite elem_of_app. by right.
Qed.
Lemma winv_kept w ths1 ths2 n t r key h g : winv w → w_threads w = ths1 ++ MkThread n t r (Created key h) :: ths2 →
  register_resource n key h (w_gateway w) = (Kept, g) →
  winv (w <| w_threads := ths1 ++ MkThread n t r Working :: ths2 |> <| w_gateway := g |>).
Proof.
  intros Hi E. unfold register_resource. destruct (od_get key _) as [[]|] eqn:Ek; [done|]. intros [= <-].
  pose proof (wi_threads _ Hi) as Ht. rewrite E in Ht.
  assert (MkThread n t r (Created key h) ∈ w_threads w) as Hin by (rewrite E, elem_of_app; right; left).
  assert (thread_ok w (MkThread n t r (Created key h))) as (H1 & H2 & H3) by (by apply Ht; rewrite <- E).
  cbn in H3. destruct r; [done|]. pose proof (busy_thread _ _ Hi Hin eq_refl) as Hnq.
  destruct Hi. constructor; cbn; try done.
  - apply (middle_forall _ _ _ _ _ Ht). by split_and!.
  - intros h' Hh.
    destruct (wi_open0 h' Hh) as [(k & n' & Hr)|(x & Hx & Hd)].
    + left. exists k, n'. cbn. rewrite od_set_fresh, elem_of_app by done. by left.
    + rewrite E, elem_of_app, elem_of_cons in Hx. destruct Hx as [Hx|[->|Hx]].
      * right. exists x. cbn. rewrite elem_of_app. by split; [left|].
      * left. exists key, n. cbn. rewrite od_set_fresh, elem_of_app by done. right.
        destruct Hd as [Hd|[k Hd]]; [done|]. cbn in Hd. injection Hd as _ ->. by left.
      * right. exists x. cbn. rewrite elem_of_app, elem_of_cons. by split; [right; right|].
  - by apply od_set_NoDup.
  - by rewrite H1.
  - intros c Hc. destruct (wi_closers0 c Hc) as [Hw Hc']. split; [done|]. destruct c; try done.
    destruct Hnq. apply Hc'.
Qed.

(** ** Draining and closing *)

Lemma winv_no_start w : winv w → winv (w <| w_start := None |>).
Proof. intros []. by constructor. Qed.
Lemma winv_drain w : winv w → w_start w = None → winv (w <| w_gateway ::= begin_drain |>).
Proof.
  intros Hi Hs. destruct (decide (gw_lifecycle (w_gateway w) = STOPPED)) as [E|E].
  { apply (winv_core w); [|done]. unfold core, begin_drain. cbn. destruct (decide _); [done|]. by rewrite E. }
  assert (begin_drain (w_gateway w) = (w_gateway w) <| gw_lifecycle := DRAINING |> <| gw_accepting := false |>) as Eb
    by (unfold begin_drain; by rewrite decide_False).
  assert (∀ n, lane_of (w <| w_gateway ::= begin_drain |>) n = lane_of w n) as El by (intros n; unfold lane_of; cbn; by rewrite Eb).
  assert (∀ n, quiet w n → quiet (w <| w_gateway ::= begin_drain |>) n) as Eq by (intros n Hq t; rewrite El; apply Hq).
  destruct Hi. constructor; cbn; rewrite ?Eb; cbn; try done.
  - intros n. by rewrite El.
  - intros th Hth. unfold thread_ok. rewrite El. cbn. rewrite Eb. by apply wi_threads0.
  - intros h Hh. unfold holds_handle. cbn. rewrite Eb. by apply wi_open0.
  - intros c Hc. split; [by left|]. destruct (wi_closers0 c Hc) as [_ Hok].
    destruct c; cbn in *; rewrite ?Eb; [intros n Hn; auto|auto|]. split; [intros n; by apply Eq, Hok|apply Hok].
  - unfold start_ok. cbn. by rewrite Hs.
  - by intros [|].
Qed.
Lemma drained w : winding_down (gw_lifecycle (begin_drain (w_gateway w))).
Proof. unfold begin_drain. case_decide; [by right|by left]. Qed.
Lemma winv_closers w cs : winv w →
  (∀ c, c ∈ cs → c ∈ w_closers w ∨ winding_down (gw_lifecycle (w_gateway w)) ∧ closer_ok w c) →
  winv (w <| w_closers := cs |>).
Proof.
  intros [] Hc. constructor; try done. cbn. intros c Hin. destruct (Hc c Hin) as [Hold|]; [by apply wi_closers0|done].
Qed.
(** Replacing a closer by one that is as good. *)
Lemma winv_closer w cs1 c c' cs2 : winv w → w_closers w = cs1 ++ c :: cs2 → (closer_ok w c → closer_ok w c') →
  winv (w <| w_closers := cs1 ++ c' :: cs2 |>).
Proof.
  intros Hi E Hc. assert (c ∈ w_closers w) as Hin by (rewrite E, elem_of_app; right; left).
  destruct (wi_closers _ Hi c Hin) as [Hw Hok]. apply winv_closers; [done|]. intros z.
  rewrite E, !elem_of_app, !elem_of_cons. intros [?|[->|?]]; [left; tauto|right; auto|left; tauto].
Qed.
Lemma od_get_remove {V} k k' (d : list (string * V)) : k ≠ k' → od_get k (od_remove k' d) = od_get k d.
Proof.
  intros Hne. induction d as [|[k1 v] d IH]; [done|]. unfold od_remove in *. cbn. destruct (String.eqb k1 k') eqn:E; cbn.
  - apply String.eqb_eq in E as ->. by rewrite decide_False.
  - by rewrite IH.
Qed.
Lemma elem_of_remove {V} k (x : string * V) d : x ∈ od_remove k d ↔ x ∈ d ∧ x.1 ≠ k.
Proof.
  unfold od_remove. rewrite list_elem_of_In, List.filter_In, <- list_elem_of_In, negb_true_iff, String.eqb_neq. done.
Qed.
Lemma od_remove_NoDup {V} k (d : list (string * V)) : NoDup d.*1 → NoDup (od_remove k d).*1.
Proof.
  induction d as [|[k1 v] d IH]; [done|]. change (od_remove k ((k1, v) :: d)) with (if negb (String.eqb k1 k) then (k1, v) :: od_remove k d else od_remove k d).
  cbn. intros [Hk Hd]%NoDup_cons. destruct (String.eqb k1 k); cbn; [auto|].
  apply NoDup_cons. split; [|auto]. intros ([k2 v2] & -> & [Hin _]%elem_of_remove)%list_elem_of_fmap.
  apply Hk. by apply (list_elem_of_fmap_2 fst) in Hin.
Qed.
(** What is left after one entry was closed. *)
Lemma drop_resource_spec x y g : NoDup (gw_resources g).*1 →
  y ∈ gw_resources (drop_resource x g) ↔ y ∈ gw_resources g ∧ y ≠ x.
Proof.
  intros Hnd. unfold drop_resource. destruct x as [k e]. cbn. case_decide as E; cbn.
  - rewrite elem_of_remove. split; intros [Hy Hne]; split; try done; [by intros ->|]. intros Ek. apply Hne.
    destruct y as [k' e']. cbn in Ek. subst k'. f_equal. apply (od_elem_get _ _ _ Hnd) in Hy. congruence.
  - split; [|by intros []]. intros Hy. split; [done|]. intros ->. by apply E, od_elem_get.
Qed.
Lemma winv_closed w cs1 cs2 u x todo failed : winv w → w_closers w = cs1 ++ Closing u (x :: todo) failed :: cs2 →
  gw_executors (w_gateway w) = true →
  winv (w <| w_closers := cs1 ++ Closing u todo failed :: cs2 |> <| w_open ::= λ o, o ∖ {[x.2.2]} |>
          <| w_gateway ::= drop_resource x |>).
Proof.
  intros Hi E He. pose proof (wi_keys _ Hi) as Hk.
  assert (∀ y, y ∈ gw_resources (drop_resource x (w_gateway w)) ↔ y ∈ gw_resources (w_gateway w) ∧ y ≠ x) as Hd
    by (intros y; by apply drop_resource_spec).
  assert (∃ rs, drop_resource x (w_gateway w) = (w_gateway w) <| gw_resources := rs |> ∧ NoDup rs.*1) as (rs & Ers & Hrs).
  { unfold drop_resource. case_decide; [eexists; split; [done|by apply od_remove_NoDup]|].
    exists (gw_resources (w_gateway w)). split; [by destruct (w_gateway w)|done]. }
  pose proof (wi_closers _ Hi) as Hcl. rewrite E in Hcl.
  change (winv (w <| w_closers := cs1 ++ Closing u todo failed :: cs2 |> <| w_open ::= λ o, o ∖ {[x.2.2]} |>
                  <| w_gateway := drop_resource x (w_gateway w) |>)). rewrite Ers.
  rewrite Ers in Hd. destruct Hi. constructor; cbn in *; try done.
  - intros h [Hh Hne]%elem_of_difference. destruct (wi_open0 h Hh) as [(key & n & Hr)|Hth]; [|by right].
    left. exists key, n. cbn. apply Hd. split; [done|]. intros <-. apply Hne. cbn. by apply elem_of_singleton.
  - congruence.
  - intros c Hc. assert (c = Closing u todo failed ∨ c ∈ cs1 ++ Closing u (x :: todo) failed :: cs2) as [->|Hc'].
    { rewrite elem_of_app, elem_of_cons in Hc. rewrite elem_of_app, elem_of_cons. tauto. }
    + destruct (Hcl (Closing u (x :: todo) failed)) as [Hw [Hq Ht]]; [rewrite elem_of_app; right; left|].
      split; [done|]. split; [done|]. destruct Ht as [Ht|Ht]; [by left|right]. cbn. intros y [Hy Hne]%Hd.
      by destruct (proj1 (elem_of_cons _ _ _) (Ht y Hy)).
    + destruct (Hcl c Hc') as [Hw Hok]. split; [done|]. destruct c; try done. destruct Hok as [Hq Ht].
      split; [done|]. destruct Ht as [Ht|Ht]; [by left|right]. cbn. intros y [Hy _]%Hd. by apply Ht.
Qed.
Lemma all_quiet w c : winv w → c ∈ w_closers w → (match c with Closing _ _ _ => True | _ => False end) → ∀ n, quiet w n.
Proof. intros Hi Hc Hk. destruct (wi_closers _ Hi c Hc) as [_ Hok]. destruct c; try done. apply Hok. Qed.
(** The leases go when every handle was closed. *)
Lemma nothing_left w c : winv w → c ∈ w_closers w → (match c with Closing _ [] false => True | _ => False end) →
  w_threads w = [] → gw_resources (w_gateway w) = [] ∧ w_open w = ∅.
Proof.
  intros Hi Hc Hk Hth. destruct (wi_closers _ Hi c Hc) as [_ Hok]. destruct c as [| |u [] []]; try done.
  destruct Hok as [_ [?|Hr]]; [done|]. assert (gw_resources (w_gateway w) = []) as Er.
  { destruct (gw_resources _) as [|y l]; [done|]. assert (y ∈ []) as Hy by (apply Hr; left). by apply elem_of_nil in Hy. }
  split; [done|]. apply leibniz_equiv, set_equiv. intros h. split; [|by intros ?%elem_of_empty]. intros Hh.
  destruct (wi_open _ Hi h Hh) as [(k & n & Hx)|(th & Hx & _)]; [rewrite Er in Hx|rewrite Hth in Hx]; by apply elem_of_nil in Hx.
Qed.
Lemma close_end_fields (u failed : bool) g : let g' := (if u then start_unwound failed else close_end failed) g in
  gw_lanes g' = gw_lanes g ∧ gw_resources g' = gw_resources g ∧ winding_down (gw_lifecycle g') ∧
  if failed then gw_lifecycle g' = DRAINING ∧ gw_executors g' = gw_executors g ∧ gw_leases g' = gw_leases g
  else gw_lifecycle g' = STOPPED ∧ gw_executors g' = false ∧ gw_leases g' = [].
Proof. destruct u, failed; cbn; split_and!; try done; by (left + right). Qed.
Lemma winv_end w cs1 cs2 (u failed : bool) : winv w → w_closers w = cs1 ++ Closing u [] failed :: cs2 →
  failed = true ∨ w_threads w = [] →
  winv (w <| w_closers := cs1 ++ cs2 |> <| w_gateway ::= if u then start_unwound failed else close_end failed |>).
Proof.
  intros Hi E Hth. assert (Closing u [] failed ∈ w_closers w) as Hin by (rewrite E, elem_of_app; right; left).
  assert (failed = false → gw_resources (w_gateway w) = [] ∧ w_open w = ∅ ∧ w_threads w = []) as Hnone.
  { intros ->. destruct Hth as [|Hth]; [done|]. destruct (nothing_left w _ Hi Hin I Hth). done. }
  pose proof (all_quiet w _ Hi Hin I) as Hq. destruct (wi_closers _ Hi _ Hin) as [Hw _].
  pose proof (wi_closers _ Hi) as Hcl. rewrite E in Hcl. pose proof (outer_forall _ _ _ _ Hcl) as Hcl'. clear Hcl E.
  set (g' := (if u then start_unwound failed else close_end failed) (w_gateway w)).
  assert (∀ w', w_gateway w' = g' → w_retiring w' = w_retiring w → ∀ n, quiet w' n) as Hq'.
  { intros w' Eg Er n t. unfold lane_of, retiring. rewrite Eg, Er. unfold g'.
    destruct (close_end_fields u failed (w_gateway w)) as (-> & _). apply Hq. }
  change (winv (w <| w_closers := cs1 ++ cs2 |> <| w_gateway := (if u then start_unwound failed else close_end failed) (w_gateway w) |>)).
  pose proof (close_end_fields u failed (w_gateway w)) as (El & Er & Hwd & Hf). fold g' in El, Er, Hwd, Hf |- *.
  clearbody g'. destruct Hi. constructor; cbn.
  - intros n. unfold lane_of. cbn. by rewrite El.
  - destruct failed; [|destruct Hnone as (_ & _ & ->); [done|by intros th ?%elem_of_nil]].
    intros th Hx. destruct (wi_threads0 th Hx) as (H1 & H2 & H3). destruct Hf as (_ & Hf & _).
    split_and!; [by cbn; rewrite Hf|unfold lane_of; cbn; by rewrite El|done].
  - intros h Hh. unfold holds_handle. cbn. rewrite Er. by apply wi_open0.
  - by rewrite Er.
  - destruct failed; destruct Hf as (_ & -> & ->); [done|]. by destruct Hnone.
  - destruct failed; destruct Hf as (_ & -> & ->); rewrite Er; [done|]. intros _. split; [by apply Hnone|done].
  - intros _ _. by apply Hq'.
  - intros c Hc. split; [done|]. destruct (Hcl' c Hc) as [_ Hok]. destruct c; cbn in *; [intros n _; by apply Hq'|intros n; by apply Hq'|].
    rewrite Er. split; [intros n; by apply Hq'|apply Hok].
  - unfold start_ok in *. cbn. destruct (w_start w) as [[]|]; [| | |done].
    1-2: rewrite wi_start0 in Hw; by destruct Hw.
    destruct wi_start0 as [Hs _]. rewrite Hs in Hw. by destruct Hw.
  - destruct failed; destruct Hf as (-> & _); done.
  - destruct failed; destruct Hf as (-> & -> & _); done.
  - intros [Hx|Hx]; rewrite Hx in Hwd; by destruct Hwd.
Qed.
(** A new request. *)
Lemma admit_ready r g : is_ok (accept_request r g) = true → r = Retire ∨ gw_lifecycle g = READY.
Proof.
  destruct r; cbn; unfold admit_query, admit_write; try (by left); case_bool_decide; cbn; try done; by right.
Qed.
Lemma winv_retire w t l : winv w → lane_fine CONTROL l → t = l_next (lane_of w CONTROL) →
  l_running l = l_running (lane_of w CONTROL) → (∀ t', busy l t' → busy (lane_of w CONTROL) t' ∨ t' = t) →
  w_start w = None → winv (w <| w_gateway ::= set_lane CONTROL l |> <| w_retiring ::= cons t |>).
Proof.
  intros Hi Hl Et Er Hb Hs.
  assert (∀ n t', retiring w n t' → retiring (w <| w_gateway ::= set_lane CONTROL l |> <| w_retiring ::= cons t |>) n t') as Hret.
  { intros n t' [-> Hr]. split; [done|]. cbn. by right. }
  assert (∀ n, quiet w n → quiet (w <| w_gateway ::= set_lane CONTROL l |> <| w_retiring ::= cons t |>) n) as Hq.
  { intros n Hq t'. unfold lane_of. cbn. case_decide as E; [subst n|intros Hx; by apply Hret, Hq].
    intros [Hx| ->]%Hb; [by apply Hret, Hq|]. split; [done|]. by left. }
  pose proof (ok_queue _ _ (wi_lanes _ Hi CONTROL)) as Hqk. destruct Hi. constructor; try done.
  - intros n. unfold lane_of. cbn. case_decide; [by subst|apply wi_lanes0].
  - intros th Hth. destruct (wi_threads0 th Hth) as (H1 & H2 & H3). split_and!; [done| |].
    + unfold lane_of. cbn. case_decide as E; [rewrite Er, E; done|done].
    + destruct (th_retires th); [done|]. intros [E Hin]. cbn in Hin. apply elem_of_cons in Hin as [Hin|Hin]; [|by apply H3].
      rewrite E in H2. pose proof (q_fresh _ _ _ Hqk) as Hf. rewrite Forall_app, !Forall_forall in Hf.
      destruct Hf as [_ Hf]. specialize (Hf _ H2). cbn in Hf. lia.
  - intros H1 H2 n. apply Hq. by apply wi_quiet0.
  - intros c Hc. destruct (wi_closers0 c Hc) as [Hw Hok]. split; [done|].
    destruct c; cbn in *; [intros n Hn; auto|intros n; auto|]. split; [intros n; by apply Hq, Hok|apply Hok].
  - unfold start_ok. cbn. by rewrite Hs.
Qed.

(** ** Every step *)

Lemma start_note r t w : w_start (note_request r t w) = w_start w.
Proof. by destruct r. Qed.
Lemma winv_note r t w : r ≠ Retire → winv w → winv (note_request r t w).
Proof. intros Hr. by destruct r; try done; apply winv_core. Qed.
Lemma busy_step w n l e : winv w → lane_step (limits_of limits n) (lane_of w n) e l → arrival e = false →
  (∀ th, th ∈ w_threads w → th_lane th = n → th_task th ∈ l_running (lane_of w n)) ∧
  (∀ t, busy l t → busy (lane_of w n) t).
Proof.
  intros Hi Hs Ha. split; [|by eapply lane_busy; [apply (wi_lanes _ Hi)| |]].
  intros th Hth <-. by destruct (wi_threads _ Hi th Hth) as (_ & Hr & _).
Qed.
Lemma winv_request w r t l bytes deadline : winv w → w_start w = None → is_ok (accept_request r (w_gateway w)) = true →
  enter (limits_of limits (request_lane r)) bytes deadline (lane_of w (request_lane r)) = (Ok t, l) →
  winv (note_request r t (w <| w_gateway ::= set_lane (request_lane r) l |>)).
Proof.
  intros Hi Hs Ha He. pose proof (enter_busy _ _ _ _ _ _ He) as (Et & Er & Hb).
  assert (lane_fine (request_lane r) l) as Hl.
  { pose proof (enter_ok _ bytes deadline _ (wi_lanes _ Hi (request_lane r))) as Hl. by rewrite He in Hl. }
  destruct (admit_ready _ _ Ha) as [->|Hready]; [by apply winv_retire|].
  assert (winv (w <| w_gateway ::= set_lane (request_lane r) l |>)) as Hw.
  { apply (winv_core (w <| w_gateway ::= set_lane (request_lane r) l |> <| w_start := None |>)); [by unfold core; rewrite <- Hs|].
    apply winv_lane; try done; [auto|]. intros th Hth E. rewrite Er, <- E. by destruct (wi_threads _ Hi th Hth) as (_ & Hx & _). }
  destruct r; [by apply winv_note..|by apply winv_retire].
Qed.
(** [start] enters its probes. *)
Lemma winv_probe w t l : winv w → gw_lifecycle (w_gateway w) = RECOVERING →
  enter (limits_of limits CONTROL) 0 false (lane_of w CONTROL) = (Ok t, l) →
  winv (w <| w_gateway ::= λ g, set_lane CONTROL l (start_loaded g) |> <| w_start := Some (Probing t) |>).
Proof.
  intros Hi Hr He. pose proof (enter_busy _ _ _ _ _ _ He) as (_ & Er & Hb).
  assert (lane_fine CONTROL l) as Hl.
  { pose proof (enter_ok _ 0 false _ (wi_lanes _ Hi CONTROL)) as Hl. by rewrite He in Hl. }
  pose proof (wi_quiet _ Hi) as Hq. rewrite Hr in Hq. specialize (Hq ltac:(done) ltac:(done)).
  assert (winv (w <| w_gateway ::= start_loaded |> <| w_start := None |>)) as Hw by by apply winv_loaded.
  refine (winv_lane _ CONTROL l (Some (Probing t)) Hw Hl _ _ _); [by right| |].
  - intros th Hth E. rewrite Er, <- E. by destruct (wi_threads _ Hi th Hth) as (_ & Hx & _).
  - split; [done|]. intros n t'. unfold lane_of. cbn. case_decide as E; [subst n|left; by apply Hq].
    intros [Hx| ->]%Hb; [left; by apply Hq|by right].
Qed.
Lemma winv_refused w n l e bytes deadline : winv w → enter (limits_of limits n) bytes deadline (lane_of w n) = (Err e, l) →
  winv (w <| w_gateway ::= set_lane n l |>).
Proof.
  intros Hi He. destruct (refused_busy _ _ _ _ _ _ He) as [Er Hb].
  assert (lane_fine n l) as Hl.
  { pose proof (enter_ok _ bytes deadline _ (wi_lanes _ Hi n)) as Hl. by rewrite He in Hl. }
  apply (winv_core (w <| w_gateway ::= set_lane n l |> <| w_start := w_start w |>)); [done|].
  apply winv_lane; [done|done|auto| |apply (start_lane w n l (wi_start _ Hi)); auto].
  intros th Hth E. rewrite Er, <- E. by destruct (wi_threads _ Hi th Hth) as (_ & Hx & _).
Qed.
Lemma winv_start_failed w s : winv w → w_start w = Some s → (∀ t, s = Probing t → ¬ busy (lane_of w CONTROL) t) →
  winv (w <| w_gateway ::= start_failed |> <| w_start := None |>
          <| w_closers ::= cons (Closing true (reverse (gw_resources (w_gateway w))) false) |>).
Proof.
  intros Hi Hs Ht. pose proof (wi_start _ Hi) as Hso. unfold start_ok in Hso. rewrite Hs in Hso.
  assert (∀ n, quiet w n) as Hq.
  { destruct s; [apply (wi_quiet _ Hi); by rewrite Hso|apply (wi_quiet _ Hi); by rewrite Hso|]. destruct Hso as [_ Hso].
    intros n t' Hb. destruct (Hso n t' Hb) as [|[-> ->]]; [done|]. by destruct (Ht _ eq_refl). }
  pose proof (winv_drain _ (winv_no_start _ Hi) eq_refl) as Hd.
  apply (winv_core (w <| w_start := None |> <| w_gateway ::= begin_drain |>
    <| w_closers := Closing true (reverse (gw_resources (w_gateway w))) false :: w_closers w |>)); [done|].
  apply winv_closers; [done|]. intros c [->|Hc]%elem_of_cons; [right|by left].
  assert (gw_lanes (begin_drain (w_gateway w)) = gw_lanes (w_gateway w) ∧
          gw_resources (begin_drain (w_gateway w)) = gw_resources (w_gateway w)) as [El Er].
  { unfold begin_drain. by case_decide. }
  split; [apply drained|]. cbn. rewrite Er. split; [|right; intros x Hx; by rewrite elem_of_reverse].
  intros n t'. unfold lane_of. cbn. rewrite El. apply Hq.
Qed.
Lemma winv_lane_step w n e l f : winv w → ft_abandon f = false → lane_step (limits_of limits n) (lane_of w n) e l →
  arrival e = false → (ft_abandon f = true ∨ ∀ t o, e = Finished t o → ¬ in_thread w n t) →
  winv (w <| w_gateway ::= set_lane n l |>).
Proof.
  intros Hi Hf Hs Ha Hth. destruct Hth as [Hth|Hth]; [congruence|].
  destruct (lane_busy n _ _ _ (wi_lanes _ Hi n) Hs Ha) as [Hb Hrun].
  apply (winv_core (w <| w_gateway ::= set_lane n l |> <| w_start := w_start w |>)); [done|].
  apply winv_lane; [done|by eapply step_ok; [apply (wi_lanes _ Hi)|]|auto| |apply (start_lane w n l (wi_start _ Hi)); auto].
  intros th Hx E. destruct (wi_threads _ Hi th Hx) as (_ & Hr & _). rewrite E in Hr. apply Hrun; [done|].
  intros o Eo. apply (Hth _ _ Eo). by exists th.
Qed.
Lemma winv_close w timeout g : winv w → w_start w = None → close_begin timeout (w_gateway w) = (Ok true, g) →
  winv (w <| w_gateway := g |> <| w_closers ::= cons (Waiting all_lanes) |>).
Proof.
  unfold close_begin. intros Hi Hs. destruct (decide (gw_lifecycle _ = STOPPED)); [done|]. destruct (_ <=? _)%Z; [done|].
  intros [= <-]. apply (winv_core (w <| w_gateway ::= begin_drain |> <| w_closers := Waiting all_lanes :: w_closers w |>)); [done|].
  apply winv_closers; [by apply winv_drain|]. intros c [->|Hc]%elem_of_cons; [right|by left].
  split; [apply drained|]. intros m Hm. exfalso. apply Hm. unfold all_lanes. rewrite !elem_of_cons. destruct m; tauto.
Qed.
Lemma winv_close_refused w timeout e g : winv w → w_start w = None → close_begin timeout (w_gateway w) = (Err e, g) →
  winv (w <| w_gateway := g |>).
Proof.
  unfold close_begin. intros Hi Hs. destruct (decide (gw_lifecycle _ = STOPPED)); [done|]. destruct (_ <=? _)%Z; [|done].
  intros [= _ <-]. exact (winv_drain w Hi Hs).
Qed.
Lemma winv_step f w w' : ft_abandon f = false → ft_duplicate f = false → ostep f w w' → winv w → winv w'.
Proof.
  intros Hf1 Hf2 Hstep Hi. pose proof (wi_start _ Hi) as Hso. unfold start_ok in Hso.
  destruct Hstep as [acquire g Hs Hb|active Hs|Hs Hp|t l Hs He|e l now Hs He|t Hs Hb|s Hs Hb|r t l b d Hs Ha He
    |n e l b d Hs He|n e l Hs Ha Hth|n t Ht He Hn|l1 l2 n t key E Hfr|l1 l2 n t r key h E Hh|l1 l2 n t r key E
    |l1 l2 n t r key h g E Hr|l1 l2 n t r key h found g E Hr|l1 l2 n t r h E|l1 l2 n t r h Hd E|l1 l2 n t r E
    |l1 l2 t m s gp vp E Hth Hp|l1 l2 t m b p E Hth Hb Hid|l1 l2 t m b p now E Hb|l1 l2 t m b s err rec now E Hb Hg
    |l1 l2 t s m gp vp E Hth Hp|l1 l2 t s served now E Hb Hs|l1 l2 t s E|Hs|timeout g Hs Hc|timeout e g Hs Hc
    |cs1 cs2 ls n E Hidle|cs1 cs2 ls E|cs1 cs2 E|cs1 cs2 E|cs1 cs2 u x todo failed E He|cs1 cs2 u x todo failed E
    |cs1 cs2 u failed E Hth]; try (rewrite Hs in Hso).
  - by eapply winv_begun.
  - apply (winv_core (w <| w_start := Some Loading |>)); [done|]. destruct Hi. by constructor.
  - apply (winv_core (w <| w_gateway ::= start_loaded |> <| w_start := None |>)); [done|]. by apply winv_loaded.
  - eapply winv_core; [|exact (winv_probe w t l Hi Hso He)]. done.
  - apply (winv_core (w <| w_gateway ::= start_loaded |> <| w_start := None |> <| w_gateway ::= set_lane CONTROL l |>)); [done|].
    eapply winv_refused; [by apply winv_loaded|exact He].
  - apply (winv_core (w <| w_start := None |>)); [done|]. by apply winv_no_start.
  - by eapply winv_start_failed.
  - by eapply winv_request.
  - by eapply winv_refused.
  - by eapply winv_lane_step.
  - by apply winv_spawn.
  - eapply winv_core; [|refine (winv_thread w l1 l2 n t false Working (Opening key) (w_open w) Hi E _ _)]; [done|done|].
    intros h Hh. left. split; [done|]. by intros [|[]].
  - apply (winv_thread w l1 l2 n t r (Opening key) (Created key h)); [done|done| |].
    + intros ->. assert (MkThread n t true (Opening key) ∈ w_threads w) as Hin by (rewrite E, elem_of_app; right; left).
      by destruct (wi_threads _ Hi _ Hin) as (_ & _ & ?).
    + intros h' [->%elem_of_singleton|Hin]%elem_of_union; [right; right; by exists key|left]. split; [done|]. by intros [|[]].
  - eapply winv_core; [|refine (winv_thread w l1 l2 n t r (Opening key) Working (w_open w) Hi E _ _)]; [done|done|].
    intros h Hh. left. split; [done|]. by intros [|[]].
  - by eapply winv_kept.
  - assert (g = w_gateway w) as ->.
    { unfold register_resource in Hr. destruct (od_get _ _) as [[]|]; [|done]. by injection Hr as _ <-. }
    eapply winv_core; [|refine (winv_thread w l1 l2 n t r (Created key h) (Duplicate h) (w_open w) Hi E _ _)]; [done| |].
    + intros ->. assert (MkThread n t true (Created key h) ∈ w_threads w) as Hin by (rewrite E, elem_of_app; right; left).
      by destruct (wi_threads _ Hi _ Hin) as (_ & _ & ?).
    + intros h' Hh. left. split; [done|]. intros [|[key' [= <- <-]]]; [done|by left].
  - eapply winv_core; [|refine (winv_thread w l1 l2 n t r (Duplicate h) Working (w_open w ∖ {[h]}) Hi E _ _)]; [done|done|].
    intros h' [Hin Hne]%elem_of_difference. left. split; [done|]. intros [[= <-]|[]]; [|done]. by destruct Hne; apply elem_of_singleton.
  - congruence.
  - by eapply winv_return.
  - by apply (winv_core w).
  - by apply (winv_core w).
  - apply (winv_core w); [|done]. unfold publish_returned. by destruct probes.
  - apply (winv_core w); [|done]. unfold core, publish_raised. cbn. destruct rec as [[a|]|]; cbn; try done. destruct (_ && _); [by destruct err|done].
  - by apply (winv_core w).
  - apply (winv_core w); [|done]. unfold core. cbn. by destruct served.
  - by apply (winv_core w).
  - by apply winv_drain.
  - by eapply winv_close.
  - by eapply winv_close_refused.
  - eapply winv_closer; [done|done|]. cbn. intros Hq m Hm. destruct (decide (m = n)) as [->|Hne].
    + intros t Ht. by destruct (idle_not_busy n _ t (wi_lanes _ Hi n) Hidle).
    + apply Hq. intros Hin. apply Hm. apply list_elem_of_In, List.filter_In. split; [by apply list_elem_of_In|].
      by rewrite bool_decide_false.
  - apply winv_closers; [done|]. intros c Hc. left. rewrite E. rewrite elem_of_app in Hc. rewrite elem_of_app, elem_of_cons. tauto.
  - eapply winv_closer; [done|done|]. cbn. intros Hq n. apply Hq, not_elem_of_nil.
  - eapply winv_closer; [done|done|]. cbn. intros Hq. split; [done|]. right. intros x Hx. by rewrite elem_of_reverse.
  - by apply winv_closed.
  - eapply winv_closer; [done|done|]. cbn. intros [Hq _]. by split; [|left].
  - by apply winv_end.
Qed.
Lemma winv_reached f w : (∀ n, make_lane_limits (limits_of limits n) = Ok (limits_of limits n)) →
  ft_abandon f = false → ft_duplicate f = false → reached f w → winv w.
Proof.
  intros Hl H1 H2 Hr. pose proof (winv_first Hl) as Hi. unfold reached in Hr. revert Hi.
  induction Hr as [|x y z Hs _ IH]; [done|]. intros Hi. apply IH. by eapply winv_step.
Qed.

(** ** Probes *)

Definition probing_ok (w : world) (p : probing) : Prop :=
  match p with
  | Publishing _ m b s => (b = true → gm_generation_id m ∈ w_probed w) ∧
      ∀ p, s = Some p → gm_generation_id p = gm_generation_id m ∧ (b = true ∨ probes = false)
  | Refreshing _ s => ∀ id, s = Some id → id ∈ w_probed w
  end.
Record rinv (w : world) : Prop := {
  ri_probe : probes = true → ∀ id, gw_probe_generation (w_gateway w) = Some id → id ∈ w_probed w;
  ri_probing : ∀ p, p ∈ w_probing w → probing_ok w p;
}.
Lemma rinv_same w w' : gw_probe_generation (w_gateway w') = gw_probe_generation (w_gateway w) →
  w_probing w' = w_probing w → w_probed w' = w_probed w → rinv w → rinv w'.
Proof.
  intros E1 E2 E3 []. constructor; [by rewrite E1, E3|]. rewrite E2. intros p Hp. specialize (ri_probing0 p Hp).
  destruct p; cbn in *; by rewrite E3.
Qed.
Lemma rinv_entries w ps : rinv w → (∀ p, p ∈ ps → probing_ok w p) → rinv (w <| w_probing := ps |>).
Proof. intros [] Hp. by constructor. Qed.
(** A successful probe of a generation. *)
Lemma rinv_probed w ps id : rinv w → (∀ p, p ∈ ps → probing_ok (w <| w_probed ::= cons id |>) p) →
  rinv (w <| w_probing := ps |> <| w_probed ::= cons id |>).
Proof. intros [] Hp. constructor; [|done]. cbn. intros Hpr i Hi. right. by apply ri_probe0. Qed.
Lemma probing_mono w id p : probing_ok w p → probing_ok (w <| w_probed ::= cons id |>) p.
Proof. destruct p; cbn; [intros [H1 H2]; split; [intros Hb; right; auto|done]|]. intros H i Hi. right. auto. Qed.
Lemma rinv_end w served now : rinv w → (∀ id, served = Ok id → id ∈ w_probed w) →
  rinv (w <| w_gateway ::= refresh_end served now |>).
Proof. intros [] Hs. constructor; [|done]. cbn. intros _ id. destruct served as [i|]; cbn; [intros [= <-]; by apply Hs|done]. Qed.
Lemma drain_probe g : gw_probe_generation (begin_drain g) = gw_probe_generation g.
Proof. unfold begin_drain. by case_decide. Qed.
Lemma end_probe (u failed : bool) g :
  gw_probe_generation ((if u then start_unwound failed else close_end failed) g) = gw_probe_generation g.
Proof. by destruct u, failed. Qed.
Lemma start_begin_probe acquire g g' : start_begin target acquire g = (Ok true, g') → gw_probe_generation g' = gw_probe_generation g.
Proof.
  unfold start_begin. destruct (negb _); [done|]. destruct (plan ← _; _); [|done]. by intros [= <-].
Qed.
Lemma close_begin_probe timeout g r g' : close_begin timeout g = (r, g') → gw_probe_generation g' = gw_probe_generation g.
Proof.
  unfold close_begin. destruct (decide _); [by intros [= _ <-]|]. destruct (_ <=? _)%Z; intros [= _ <-]; apply drain_probe.
Qed.
Lemma register_probe n key h g r g' : register_resource n key h g = (r, g') → gw_probe_generation g' = gw_probe_generation g.
Proof. unfold register_resource. destruct (od_get _ _) as [[]|]; by intros [= _ <-]. Qed.
Lemma drop_probe x g : gw_probe_generation (drop_resource x g) = gw_probe_generation g.
Proof. unfold drop_resource. by case_decide. Qed.
Lemma rinv_step f w w' : ft_republish f = false → ostep f w w' → rinv w → rinv w'.
Proof.
  intros Hf Hstep Hi. pose proof (ri_probing _ Hi) as Hps.
  destruct Hstep as [acquire g Hs Hb|active Hs|Hs Hp|t l Hs He|e l now Hs He|t Hs Hb|s Hs Hb|r t l b d Hs Ha He
    |n e l b d Hs He|n e l Hs Ha Hth|n t Ht He Hn|l1 l2 n t key E Hfr|l1 l2 n t r key h E Hh|l1 l2 n t r key E
    |l1 l2 n t r key h g E Hr|l1 l2 n t r key h found g E Hr|l1 l2 n t r h E|l1 l2 n t r h Hd E|l1 l2 n t r E
    |l1 l2 t m s gp vp E Hth Hp|l1 l2 t m b p E Hth Hb Hid|l1 l2 t m b p now E Hb|l1 l2 t m b s err rec now E Hb Hg
    |l1 l2 t s m gp vp E Hth Hp|l1 l2 t s served now E Hb Hs|l1 l2 t s E|Hs|timeout g Hs Hc|timeout e g Hs Hc
    |cs1 cs2 ls n E Hidle|cs1 cs2 ls E|cs1 cs2 E|cs1 cs2 E|cs1 cs2 u x todo failed E He|cs1 cs2 u x todo failed E
    |cs1 cs2 u failed E Hth]; try (by apply (rinv_same w)); try (rewrite E in Hps).
  - by apply (rinv_same w); [eapply start_begin_probe|..].
  - apply (rinv_same (w <| w_probing := Refreshing t None :: w_probing w |>)); [done..|].
    apply rinv_entries; [done|]. intros p [->|Hp]%elem_of_cons; [done|by apply Hps].
  - by apply (rinv_same (w <| w_gateway ::= refresh_end (Err "StoreGatewayError"%string) now |>)); [..|apply rinv_end].
  - by apply (rinv_same w); [apply drain_probe|..].
  - apply (rinv_same (note_request r t w)); [by destruct r..|]. destruct r; try (by apply (rinv_same w)).
    + apply (rinv_same (w <| w_probing := Publishing t m false None :: w_probing w |>)); [done..|].
      apply rinv_entries; [done|]. intros p [->|Hp]%elem_of_cons; [done|by apply Hps].
    + apply (rinv_same (w <| w_probing := Refreshing t None :: w_probing w |>)); [done..|].
      apply rinv_entries; [done|]. intros p [->|Hp]%elem_of_cons; [done|by apply Hps].
  - apply (rinv_same w); [by eapply register_probe|done..].
  - apply (rinv_same w); [by eapply register_probe|done..].
  - assert (probing_ok w (Publishing t m false s)) as [_ Hs] by (apply Hps; rewrite elem_of_app; right; left).
    apply rinv_probed; [done|]. apply (middle_forall _ _ _ _ _ (λ p Hp, probing_mono w (gm_generation_id m) p (Hps p Hp))).
    split; [by left|]. intros p Hp'. split; [by apply Hs|by left].
  - assert (probing_ok w (Publishing t m b None)) as [Hm _] by (apply Hps; rewrite elem_of_app; right; left).
    apply rinv_entries; [done|]. apply (middle_forall _ _ _ _ _ Hps). split; [done|]. by intros p' [= <-].
  - assert (probing_ok w (Publishing t m b (Some p))) as [Hm Hs] by (apply Hps; rewrite elem_of_app; right; left).
    destruct (Hs p eq_refl) as [Eid Hpr]. pose proof (rinv_entries _ _ Hi (outer_forall _ _ _ _ Hps)) as Hi'.
    destruct (bool_dec probes true) as [Ep|Ep].
    + apply (rinv_same (w <| w_probing := l1 ++ l2 |> <| w_gateway ::= refresh_end (Ok (gm_generation_id p)) now |>));
        [cbn; unfold publish_returned; by rewrite Ep|done|done|].
      apply rinv_end; [done|]. intros i [= <-]. cbn. rewrite Eid. apply Hm. by destruct Hpr; [|congruence].
    + constructor; [by intros|]. by apply (ri_probing _ Hi').
  - assert (probing_ok w (Publishing t m b s)) as [Hm Hs] by (apply Hps; rewrite elem_of_app; right; left).
    pose proof (rinv_entries _ _ Hi (outer_forall _ _ _ _ Hps)) as Hi'. unfold publish_raised.
    destruct rec as [[a|]|er]; [|by apply (rinv_same (w <| w_probing := l1 ++ l2 |>))|].
    2: { constructor; [done|]. by apply (ri_probing _ Hi'). }
    destruct (String.eqb (gm_generation_id a) (gm_generation_id m) && probes) eqn:Eb.
    2: { apply (rinv_same (w <| w_probing := l1 ++ l2 |>)); [done..]. }
    apply (rinv_same (w <| w_probing := l1 ++ l2 |> <| w_gateway ::= refresh_end (match err with
      | None => Ok (gm_generation_id a) | Some e => Err e end) now |>)); [by destruct err|done|done|].
    bool_hyps. apply rinv_end; [done|]. intros i. destruct err as [e|]; [done|]. intros [= <-]. cbn.
    destruct Hg as [Hg|[[p ->]|[[? [=]]|Hg]]]; [congruence| |by destruct (Hg a eq_refl)].
    destruct (Hs p eq_refl) as [_ Hb']. replace (gm_generation_id a) with (gm_generation_id m) by done.
    apply Hm. by destruct Hb'; [|congruence].
  - assert (probing_ok w (Refreshing t s)) as Hs by (apply Hps; rewrite elem_of_app; right; left).
    apply rinv_probed; [done|]. apply (middle_forall _ _ _ _ _ (λ p Hp, probing_mono w (gm_generation_id m) p (Hps p Hp))).
    intros i [= <-]. by left.
  - assert (probing_ok w (Refreshing t s)) as Hr by (apply Hps; rewrite elem_of_app; right; left).
    apply (rinv_end (w <| w_probing := l1 ++ l2 |>)); [by apply rinv_entries, (outer_forall _ _ _ _ Hps)|].
    intros i Ei. apply Hr. by apply Hs.
  - apply rinv_entries; [done|]. exact (outer_forall _ _ _ _ Hps).
  - by apply (rinv_same w); [apply drain_probe|..].
  - by apply (rinv_same w); [eapply close_begin_probe|..].
  - by apply (rinv_same w); [eapply close_begin_probe|..].
  - by apply (rinv_same w); [apply drop_probe|..].
  - by apply (rinv_same w); [apply end_probe|..].
Qed.
Lemma rinv_reached f w : ft_republish f = false → reached f w → rinv w.
Proof.
  intros Hf Hr. assert (rinv first_world) as Hi by (constructor; [done|by intros p ?%elem_of_nil]).
  unfold reached in Hr. revert Hi. induction Hr as [|x y z Hs _ IH]; [done|]. intros Hi. apply IH. by eapply rinv_step.
Qed.

(** * Guarantees *)

Context (Hlimits : ∀ n, make_lane_limits (limits_of limits n) = Ok (limits_of limits n)).

(** C23: Provided the gateway is used, drained and closed only once [start] has
    returned, every thread returns before its request leaves its lane, and closing
    a duplicate handle does not fail: as long as a backend handle may be open, the
    owner holds the leases of both stores and its executors run; a stopped owner
    holds no handle and no lease.  Handles are opened by any threads of any
    admitted requests; closing the handles the owner kept may fail, [close] may
    time out and be tried again, also twice at once.  A request that is cancelled
    twice leaves its thread behind: [abandoned_thread_outlives_leases]. *)
Theorem leases_cover_handles f w (Hthreads : ft_abandon f = false) (Hduplicates : ft_duplicate f = false) (Hw : reached f w) :
  (∀ h, h ∈ w_open w → lease_plan target = Ok (gw_leases (w_gateway w)) ∧ gw_executors (w_gateway w) = true) ∧
  (gw_lifecycle (w_gateway w) = STOPPED →
   w_open w = ∅ ∧ gw_leases (w_gateway w) = [] ∧ gw_resources (w_gateway w) = [] ∧ w_threads w = []).
Proof.
  pose proof (winv_reached f _ Hlimits Hthreads Hduplicates Hw) as Hi.
  assert (gw_executors (w_gateway w) = false → w_threads w = [] ∧ ∀ h, h ∉ w_open w) as Hoff.
  { intros He. assert (w_threads w = []) as Et.
    { destruct (w_threads w) as [|th ths] eqn:E; [done|]. destruct (wi_threads _ Hi th) as [Hx _]; [rewrite E; left|congruence]. }
    split; [done|]. intros h Hh. destruct (wi_off _ Hi He) as [Er _].
    destruct (wi_open _ Hi h Hh) as [(k & n & Hx)|(th & Hx & _)]; [rewrite Er in Hx|rewrite Et in Hx]; by apply elem_of_nil in Hx. }
  split.
  - intros h Hh. destruct (gw_executors (w_gateway w)) eqn:E; [by split; [apply (wi_on _ Hi)|]|].
    destruct (Hoff eq_refl) as [_ Hn]. by destruct (Hn h).
  - intros Hs. pose proof (wi_stopped _ Hi Hs) as He. destruct (Hoff He) as [Et Hn], (wi_off _ Hi He) as [Er El].
    split_and!; [|done..]. apply leibniz_equiv, set_equiv. intros h. split; [by intros ?%Hn|by intros ?%elem_of_empty].
Qed.
(** C24: Provided the gateway is used, drained and closed only once [start] has
    returned, and no publication of the generation that is active already is
    cancelled before it replaced the pointer: an owner reports itself ready only while its
    lifecycle is READY and it has an active generation on which both probes have
    succeeded.  When moreover every thread returns before its request leaves its
    lane and closing a duplicate handle does not fail, it holds both leases and
    nothing is closing it.  The cancellation left out makes a gateway ready
    without probes: [cancelled_publication_makes_ready]. *)
Theorem ready_means_probed f w (Hpublications : ft_republish f = false) (Hw : reached f w) (Hready : ready probes (w_gateway w) = true) :
  gw_lifecycle (w_gateway w) = READY ∧ (∃ a, gw_active (w_gateway w) = Some a ∧ gm_generation_id a ∈ w_probed w) ∧
  (ft_abandon f = false → ft_duplicate f = false → lease_plan target = Ok (gw_leases (w_gateway w)) ∧ w_closers w = []).
Proof.
  pose proof (rinv_reached f _ Hpublications Hw) as Hr.
  unfold ready in Hready. destruct (gw_active _) as [a|]; [|by rewrite andb_false_r in Hready].
  apply andb_true_iff in Hready as [Hl [[Hp Hg]%andb_true_iff _]%andb_true_iff].
  apply bool_decide_eq_true in Hl, Hg. split; [done|]. split; [exists a; split; [done|by apply (ri_probe _ Hr)]|].
  intros Ha Hd'. pose proof (winv_reached f _ Hlimits Ha Hd' Hw) as Hi. split.
  - apply (wi_on _ Hi), (wi_running _ Hi). by right.
  - destruct (w_closers w) as [|c cs] eqn:E; [done|]. destruct (wi_closers _ Hi c) as [Hd _]; [rewrite E; left|].
    rewrite Hl in Hd. by destruct Hd.
Qed.

(** Waiting for lanes that are idle, and closing what is left. *)
Lemma wait_lanes f ls w cs : (∀ n, l_idle (lane_of w n) = true) → w_closers w = Waiting ls :: cs →
  rtc (ostep f) w (w <| w_closers := Persisting :: cs |>).
Proof.
  intros Hi. remember (length ls) as k eqn:Ek. assert (length ls ≤ k)%nat as Hk by lia. clear Ek.
  revert ls w Hi Hk. induction k as [|k IH]; intros ls w Hi Hk Hc.
  - destruct ls; [|cbn in Hk; lia]. apply rtc_once. exact (o_waited f w [] cs Hc).
  - destruct ls as [|n ls]; [apply rtc_once; exact (o_waited f w [] cs Hc)|].
    eapply rtc_l; [exact (o_idle f w [] cs (n :: ls) n Hc (Hi n))|].
    set (ls' := List.filter (λ n', negb (bool_decide (n' = n))) (n :: ls)).
    set (w2 := w <| w_closers := Waiting ls' :: cs |>).
    refine (IH ls' w2 Hi _ eq_refl). unfold ls'.
    cbn. rewrite bool_decide_true by done. cbn. cbn in Hk. pose proof (List.filter_length_le (λ n', negb (bool_decide (n' = n))) ls). lia.
Qed.
Lemma close_handles f todo w cs : gw_executors (w_gateway w) = true ∨ todo = [] →
  w_closers w = Closing false todo false :: cs →
  ∃ w', rtc (ostep f) w w' ∧ w_closers w' = Closing false [] false :: cs ∧ w_threads w' = w_threads w.
Proof.
  revert w. induction todo as [|x todo IH]; intros w He Hc; [by exists w|]. destruct He as [He|]; [|done].
  pose proof (o_closed f w [] cs false x todo false Hc He) as Hs.
  lazymatch type of Hs with ostep _ _ ?x => set (w1 := x) in Hs end.
  destruct (IH w1) as (w' & Hr & Hcl & Hth); [|done|].
  - left. unfold w1. cbn. unfold drop_resource. by case_decide.
  - exists w'. split_and!; [eapply rtc_l; [exact Hs|exact Hr]|done|exact Hth].
Qed.
Lemma winv_later w w' : reached no_faults w → rtc (ostep no_faults) w w' → winv w'.
Proof. intros Hr Hs. apply (winv_reached no_faults); [done..|]. unfold reached in *. by etrans. Qed.
(** Whatever closings failed before, an owner whose lanes are idle can be
    closed, unless a backend handle refuses: it then holds no handle and no
    lease, and another process may open the stores. *)
Theorem close_completes w (Hw : reached no_faults w) (Hstart : w_start w = None)
    (Hlive : gw_lifecycle (w_gateway w) ≠ STOPPED) (Hidle : ∀ n, l_idle (lane_of w n) = true) (Hth : w_threads w = []) :
  ∃ w', rtc (ostep no_faults) w w' ∧ gw_lifecycle (w_gateway w') = STOPPED ∧ gw_leases (w_gateway w') = [] ∧
    gw_resources (w_gateway w') = [] ∧ w_open w' = ∅.
Proof.
  assert (close_begin 1 (w_gateway w) = (Ok true, begin_drain (w_gateway w))) as Hb
    by (unfold close_begin; by rewrite decide_False).
  pose proof (o_close no_faults w _ _ Hstart Hb) as H1.
  set (w1 := w <| w_gateway := begin_drain (w_gateway w) |> <| w_closers ::= cons (Waiting all_lanes) |>) in H1.
  assert (gw_lanes (begin_drain (w_gateway w)) = gw_lanes (w_gateway w)) as El by (unfold begin_drain; by case_decide).
  assert (rtc (ostep no_faults) w1 (w1 <| w_closers := Persisting :: w_closers w |>)) as H2.
  { apply (wait_lanes _ all_lanes); [|done]. intros n. unfold lane_of, w1. cbn. rewrite El. apply Hidle. }
  pose proof (o_persisted no_faults (w1 <| w_closers := Persisting :: w_closers w |>) [] _ eq_refl) as H3.
  lazymatch type of H3 with ostep _ _ ?x => set (w3 := x) in H3 end.
  assert (rtc (ostep no_faults) w w3) as H03 by (eapply rtc_l; [exact H1|]; etrans; [exact H2|by apply rtc_once]).
  assert (winv w3) as Hi3 by by eapply winv_later.
  destruct (close_handles no_faults (reverse (gw_resources (w_gateway w3))) w3 (w_closers w)) as (w4 & H4 & Hc4 & Ht4); [|done|].
  { destruct (gw_executors (w_gateway w3)) eqn:E; [by left|right]. by rewrite (proj1 (wi_off _ Hi3 E)). }
  assert (w_threads w4 = []) as Ht by (rewrite Ht4; exact Hth).
  pose proof (o_end no_faults w4 [] _ false false Hc4 (or_intror Ht)) as H5.
  lazymatch type of H5 with ostep _ _ ?x => set (w5 := x) in H5 end.
  assert (rtc (ostep no_faults) w w5) as H05 by (etrans; [exact H03|]; eapply rtc_r; [exact H4|exact H5]).
  exists w5. split; [done|]. assert (winv w5) as Hi5 by by eapply winv_later.
  assert (winv w4) as Hi4 by (eapply winv_later; [exact Hw|etrans; [exact H03|exact H4]]).
  destruct (nothing_left w4 (Closing false [] false)) as [Er Eo]; [done|rewrite Hc4; left|done|done|].
  split_and!; [done|done|exact Er|exact Eo].
Qed.
End owner.

(** * Examples *)

Section examples.
#[local] Open Scope string_scope.
Definition demo_plan : list lease := [MkLease ["/"; "srv"; "graph"] "falkordb"; MkLease ["/"; "srv"; "vector"] "qdrant"].
Definition demo_gateway_limits : GatewayLimits :=
  MkGatewayLimits default_lane_limits default_lane_limits (MkLaneLimits 1 8 4194304) (MkLaneLimits 1 4 4194304) 30000000.
Abbreviation demo_reached := (reached Generations.demo_target demo_gateway_limits).
Lemma demo_limits_valid n : make_lane_limits (limits_of demo_gateway_limits n) = Ok (limits_of demo_gateway_limits n).
Proof. by destruct n. Qed.
Lemma demo_plan_made : lease_plan Generations.demo_target = Ok demo_plan.
Proof. vm_compute. reflexivity. Qed.
(** An owner that started without probes and opened one handle in a query. *)
Definition demo_begun : gateway :=
  (new_gateway demo_gateway_limits) <| gw_leases := demo_plan |> <| gw_executors := true |> <| gw_lifecycle := RECOVERING |>.
Definition demo_started : gateway := register_gateway (start_loaded (start_recovered None demo_begun)).
Definition demo_world (g : gateway) : world := MkWorld g ∅ [] [] None [] [] [].
Lemma demo_begins probes f active : demo_reached probes f ((demo_world (start_recovered active demo_begun)) <| w_start := Some Loading |>).
Proof.
  eapply rtc_r; [|exact (o_recovered _ _ _ f ((demo_world demo_begun) <| w_start := Some Recovering |>) active eq_refl)].
  apply rtc_once. refine (o_start _ _ _ f (demo_world (new_gateway demo_gateway_limits)) (λ _, Ok ()) demo_begun eq_refl _).
  unfold start_begin. by rewrite demo_plan_made.
Qed.
Lemma demo_starts probes f : demo_reached probes f (demo_world demo_started).
Proof.
  eapply rtc_r; [exact (demo_begins probes f None)|].
  exact (o_loaded _ _ _ f ((demo_world (start_recovered None demo_begun)) <| w_start := Some Loading |>) eq_refl (or_introl eq_refl)).
Qed.
Definition lane_entered (n : LaneName) : lane := (enter (limits_of demo_gateway_limits n) 0 false (gw_lanes demo_started n)).2.
Definition lane_running (n : LaneName) : lane := start (MkWaiter 0 0 false) 1 (lane_entered n).
Definition demo_querying : world :=
  (demo_world (set_lane GRAPH (lane_running GRAPH) (set_lane GRAPH (lane_entered GRAPH) demo_started)))
    <| w_threads := [MkThread GRAPH 0 false Working] |>.
Lemma demo_queries probes f : demo_reached probes f demo_querying.
Proof.
  eapply rtc_r; [|by eapply (o_spawn _ _ _ _ (demo_world (set_lane GRAPH (lane_running GRAPH)
    (set_lane GRAPH (lane_entered GRAPH) demo_started))) GRAPH 0); [left|done|intros (th & ?%elem_of_nil & _)]].
  eapply rtc_r; [|eapply (o_lane _ _ _ _ (demo_world (set_lane GRAPH (lane_entered GRAPH) demo_started)) GRAPH (Started 0) (lane_running GRAPH));
    [by eapply (step_start _ (lane_entered GRAPH) (MkWaiter 0 0 false) [] 1)|done|by right]].
  eapply rtc_r; [apply demo_starts|]. by eapply (o_request _ _ _ _ (demo_world demo_started) (Query GRAPH) 0 (lane_entered GRAPH) 0 false).
Qed.
Definition demo_opening : world := demo_querying <| w_threads := [MkThread GRAPH 0 false (Opening "graph")] |>.
Definition demo_handle : world := demo_opening <| w_threads := [MkThread GRAPH 0 false (Created "graph" 7)] |> <| w_open ::= λ o, {[7]} ∪ o |>.
Lemma demo_opens probes f : demo_reached probes f demo_handle.
Proof.
  assert (7 ∉ w_open demo_opening) as Hn by apply not_elem_of_empty.
  eapply rtc_r; [|exact (o_created _ _ _ f demo_opening [] [] GRAPH 0 false "graph" 7 eq_refl Hn)].
  eapply rtc_r; [apply demo_queries|]. exact (o_open _ _ _ f demo_querying [] [] GRAPH 0 "graph" eq_refl eq_refl).
Qed.
Lemma leases_cover_handles_witness : lease_plan Generations.demo_target = Ok (gw_leases (w_gateway demo_handle)).
Proof.
  refine (proj1 (proj1 (leases_cover_handles Generations.demo_target demo_gateway_limits false demo_limits_valid
    no_faults demo_handle eq_refl eq_refl (demo_opens false no_faults)) 7 _)). apply elem_of_union_l, elem_of_singleton. reflexivity.
Defined.
Lemma close_completes_witness : ∃ w', rtc (ostep Generations.demo_target demo_gateway_limits false no_faults) (demo_world demo_started) w' ∧
  gw_lifecycle (w_gateway w') = STOPPED.
Proof.
  destruct (close_completes Generations.demo_target demo_gateway_limits false demo_limits_valid (demo_world demo_started)
    (demo_starts false no_faults)) as (w' & Hr & Hs & _); [reflexivity|discriminate|by intros []|reflexivity|].
  exists w'. split; [exact Hr|exact Hs].
Defined.

(** An owner that starts with an active generation and probes it. *)
Definition demo_active : GenerationManifest := Generations.demo_published "g1".
Definition control_entered : lane := (enter (limits_of demo_gateway_limits CONTROL) 0 false (new_lane (limits_of demo_gateway_limits CONTROL))).2.
Definition control_running : lane := start (MkWaiter 0 0 false) 1 control_entered.
Definition control_finished : lane := finish 0 Returned control_running.
Definition probing_gateway : gateway := set_lane CONTROL control_entered (start_loaded (start_recovered (Some demo_active) demo_begun)).
Definition running_gateway : gateway := set_lane CONTROL control_running probing_gateway.
Definition probed_gateway : gateway := set_lane CONTROL control_finished running_gateway.
Definition probing_world (g : gateway) (ths : list thread) (ps : list probing) (ids : list string) : world :=
  MkWorld g ∅ ths [] (Some (Probing 0)) [] ps ids.
Abbreviation p_step c := (c Generations.demo_target demo_gateway_limits true).
Lemma probing_reached f : demo_reached true f (probing_world running_gateway [MkThread CONTROL 0 false Working] [Refreshing 0 None] []).
Proof.
  eapply rtc_r; [|refine (p_step o_spawn f (probing_world running_gateway [] [Refreshing 0 None] []) CONTROL 0 _ eq_refl _)];
    [|left|intros (th & ?%elem_of_nil & _); done].
  eapply rtc_r; [|refine (p_step o_lane f (probing_world probing_gateway [] [Refreshing 0 None] []) CONTROL (Started 0) control_running _ eq_refl _)];
    [|by apply (step_start _ control_entered (MkWaiter 0 0 false) [] 1)|by right].
  eapply rtc_r; [exact (demo_begins true f (Some demo_active))|].
  exact (p_step o_loaded_probe f ((demo_world (start_recovered (Some demo_active) demo_begun)) <| w_start := Some Loading |>) 0 control_entered eq_refl eq_refl).
Qed.
(** The end of the probes, successful or not. *)
Definition probed_world (served : result string string) (s : option string) : world :=
  MkWorld (register_gateway (refresh_end served "t1" probed_gateway)) ∅ [] [] None [] [] (option_list s).
Lemma probed_reached f served s : (∀ id, served = Ok id → s = Some id) → s = None ∨ s = Some "g1" → demo_reached true f (probed_world served s).
Proof.
  intros Hserved Hs. set (ps := [Refreshing 0 s]).
  assert (demo_reached true f (probing_world running_gateway [MkThread CONTROL 0 false Working] ps (option_list s))) as Hr.
  { destruct Hs as [->| ->]; [apply probing_reached|]. eapply rtc_r; [apply probing_reached|].
    refine (p_step o_probe_active f (probing_world running_gateway [MkThread CONTROL 0 false Working] [Refreshing 0 None] [])
      [] [] 0 None demo_active (λ _, Ok ()) (λ _, Ok ()) eq_refl _ eq_refl). eexists. split; [by left|done]. }
  eapply rtc_r; [|refine (p_step o_started f (MkWorld (refresh_end served "t1" probed_gateway) ∅ [] [] (Some (Probing 0)) [] [] (option_list s)) 0 eq_refl _)];
    [|by destruct served; apply not_elem_of_nil].
  eapply rtc_r; [|refine (p_step o_refreshed f (probing_world probed_gateway [] ps (option_list s)) [] [] 0 s served "t1" eq_refl _ Hserved)];
    [|apply not_elem_of_nil].
  eapply rtc_r; [|refine (p_step o_lane f (probing_world running_gateway [] ps (option_list s)) CONTROL (Finished 0 Returned) control_finished _ eq_refl _)];
    [|apply (step_finish _ control_running 0 Returned); left|right; intros t o _ (th & ?%elem_of_nil & _); done].
  eapply rtc_r; [exact Hr|].
  exact (p_step o_return f (probing_world running_gateway [MkThread CONTROL 0 false Working] ps (option_list s)) [] [] CONTROL 0 false eq_refl).
Qed.
Lemma ready_means_probed_witness : ∃ a, gw_active (w_gateway (probed_world (Ok "g1") (Some "g1"))) = Some a ∧
  gm_generation_id a ∈ ["g1"].
Proof.
  destruct (ready_means_probed Generations.demo_target demo_gateway_limits true demo_limits_valid no_faults
    (probed_world (Ok "g1") (Some "g1")) eq_refl) as (_ & (a & Ha & Hp) & _);
    [apply probed_reached; [by intros id [= <-]|by right]|vm_compute; reflexivity|].
  exists a. split; [exact Ha|exact Hp].
Defined.

(** * What the hypotheses exclude *)

(** The cancellation of a publication that has not run, of the generation that
    is active already, makes a gateway ready although its probes failed. *)
Theorem cancelled_publication_makes_ready : ∃ w, demo_reached true (MkFaults false false true) w ∧
  ready true (w_gateway w) = true ∧ w_probed w = [].
Proof.
  set (f := MkFaults false false true). set (w0 := probed_world (Err "RuntimeError") None).
  assert (demo_reached true f w0) as H0 by (apply probed_reached; [done|by left]).
  set (entered := (enter (limits_of demo_gateway_limits WRITE) 0 false (lane_of w0 WRITE)).2).
  pose proof (p_step o_request f w0 (Publish demo_active) 0 entered 0 false eq_refl eq_refl eq_refl) as H1.
  lazymatch type of H1 with ostep _ _ _ _ _ ?w => set (w1 := w) in H1 end.
  assert (lane_step (limits_of demo_gateway_limits WRITE) (lane_of w1 WRITE) (Withdrawn 0) (leave (MkWaiter 0 0 false) entered)) as Hl
    by (apply (step_withdraw _ entered (MkWaiter 0 0 false)); left).
  assert (ft_abandon f = true ∨ ∀ t o, Withdrawn 0 = Finished t o → ¬ in_thread w1 WRITE t) as Hth by (by right).
  pose proof (p_step o_lane f w1 WRITE (Withdrawn 0) _ Hl eq_refl Hth) as H2.
  lazymatch type of H2 with ostep _ _ _ _ _ ?w => set (w2 := w) in H2 end.
  assert (¬ busy (lane_of w2 WRITE) 0) as Hn by (vm_compute; apply not_elem_of_nil).
  pose proof (p_step o_publish_raised f w2 [] [] 0 demo_active false None None (Ok (Some demo_active)) "t2" eq_refl Hn (or_introl eq_refl)) as H3.
  eexists. split; [eapply rtc_r; [|exact H3]; eapply rtc_r; [|exact H2]; eapply rtc_r; [exact H0|exact H1]|].
  split; [vm_compute; reflexivity|done].
Qed.
(** A coroutine that is cancelled twice leaves its thread behind.  The lane is
    idle then, the owner closes, and the thread opens a handle between the
    snapshot of the handles and the end of the executors: the leases are gone
    while the handle is open. *)
Theorem abandoned_thread_outlives_leases : ∃ w, demo_reached false (MkFaults true false false) w ∧
  gw_lifecycle (w_gateway w) = STOPPED ∧ gw_leases (w_gateway w) = [] ∧ 7 ∈ w_open w.
Proof.
  set (f := MkFaults true false false). pose proof (demo_queries false f) as H0.
  set (finished := finish 0 CancelledInside (lane_running GRAPH)).
  assert (lane_step (limits_of demo_gateway_limits GRAPH) (lane_of demo_querying GRAPH) (Finished 0 CancelledInside) finished) as Hl
    by (apply (step_finish _ (lane_running GRAPH)); left).
  pose proof (o_lane Generations.demo_target demo_gateway_limits false f demo_querying GRAPH _ _ Hl eq_refl (or_introl eq_refl)) as H1.
  lazymatch type of H1 with ostep _ _ _ _ _ ?w => set (w1 := w) in H1 end.
  pose proof (o_close Generations.demo_target demo_gateway_limits false f w1 1 _ eq_refl eq_refl) as H2.
  lazymatch type of H2 with ostep _ _ _ _ _ ?w => set (w2 := w) in H2 end.
  assert (∀ n, l_idle (lane_of w2 n) = true) as Hidle by (by intros []).
  pose proof (wait_lanes Generations.demo_target demo_gateway_limits false f all_lanes w2 [] Hidle eq_refl) as H3.
  lazymatch type of H3 with rtc _ _ ?w => set (w3 := w) in H3 end.
  pose proof (o_persisted Generations.demo_target demo_gateway_limits false f w3 [] [] eq_refl) as H4.
  lazymatch type of H4 with ostep _ _ _ _ _ ?w => set (w4 := w) in H4 end.
  pose proof (o_open Generations.demo_target demo_gateway_limits false f w4 [] [] GRAPH 0 "graph" eq_refl eq_refl) as H5.
  lazymatch type of H5 with ostep _ _ _ _ _ ?w => set (w5 := w) in H5 end.
  assert (7 ∉ w_open w5) as Hn by apply not_elem_of_empty.
  pose proof (o_created Generations.demo_target demo_gateway_limits false f w5 [] [] GRAPH 0 false "graph" 7 eq_refl Hn) as H6.
  lazymatch type of H6 with ostep _ _ _ _ _ ?w => set (w6 := w) in H6 end.
  pose proof (o_kept Generations.demo_target demo_gateway_limits false f w6 [] [] GRAPH 0 false "graph" 7 _ eq_refl eq_refl) as H7.
  lazymatch type of H7 with ostep _ _ _ _ _ ?w => set (w7 := w) in H7 end.
  pose proof (o_return Generations.demo_target demo_gateway_limits false f w7 [] [] GRAPH 0 false eq_refl) as H8.
  lazymatch type of H8 with ostep _ _ _ _ _ ?w => set (w8 := w) in H8 end.
  pose proof (o_end Generations.demo_target demo_gateway_limits false f w8 [] [] false false eq_refl (or_intror eq_refl)) as H9.
  lazymatch type of H9 with ostep _ _ _ _ _ ?w => set (w9 := w) in H9 end.
  exists w9. split; [|split; [reflexivity|split; [reflexivity|]]].
  - eapply rtc_r; [|exact H9]. eapply rtc_r; [|exact H8]. eapply rtc_r; [|exact H7]. eapply rtc_r; [|exact H6].
    eapply rtc_r; [|exact H5]. eapply rtc_r; [|exact H4]. etrans; [|exact H3]. eapply rtc_r; [|exact H2].
    eapply rtc_r; [exact H0|exact H1].
  - apply elem_of_union_l, elem_of_singleton. reflexivity.
Qed.
End examples.
