(* ===== verification/Url.v ===== *)
(** URLs as [urllib.parse] takes them apart and puts them together (Python 3.12
    and later), on ASCII texts, with the check of bracketed hosts by [ipaddress]. *)
From S2P Require Import Prelude Json Text PyValue.
#[local] Open Scope string_scope.

(** * Cutting texts *)

(** [s.partition(c)]: the parts before and after the first [c], if there is one. *)
Fixpoint partition (c : ascii) (s : string) : string * option string :=
  match s with
  | EmptyString => (EmptyString, None)
  | String x s' => if Ascii.eqb x c then (EmptyString, Some s')
                   else let '(a, b) := partition c s' in (String x a, b)
  end.
(** [s.rpartition(c)], when there is a [c]. *)
Fixpoint rpartition (c : ascii) (s : string) : option (string * string) :=
  match s with
  | EmptyString => None
  | String x s' =>
      match rpartition c s' with
      | Some (a, b) => Some (String x a, b)
      | None => if Ascii.eqb x c then Some (EmptyString, s') else None
      end
  end.
(** [s.partition(p)] for a longer [p]. *)
Fixpoint partition_text (p s : string) : option (string * string) :=
  match strip_prefix p s with
  | Some rest => Some (EmptyString, rest)
  | None => match s with
            | EmptyString => None
            | String x s' => match partition_text p s' with Some (a, b) => Some (String x a, b) | None => None end
            end
  end.
(** [s.split(c)] *)
Fixpoint split_char (c : ascii) (s : string) : list string :=
  match s with
  | EmptyString => [EmptyString]
  | String x s' =>
      if Ascii.eqb x c then EmptyString :: split_char c s'
      else match split_char c s' with [] => [String x EmptyString] | p :: ps => String x p :: ps end
  end.
Fixpoint remove_chars (p : ascii → bool) (s : string) : string :=
  match s with
  | EmptyString => EmptyString
  | String x s => if p x then remove_chars p s else String x (remove_chars p s)
  end.
Fixpoint lstrip_chars (p : ascii → bool) (s : string) : string :=
  match s with
  | String x s' => if p x then lstrip_chars p s' else s
  | EmptyString => EmptyString
  end.
Fixpoint any_char (p : ascii → bool) (s : string) : bool :=
  match s with EmptyString => false | String x s => p x || any_char p s end.
Definition has_char (c : ascii) (s : string) : bool := any_char (Ascii.eqb c) s.

(** * [ipaddress.ip_address] *)

Definition is_hex (c : ascii) : bool :=
  is_digit c || let n := Ascii.nat_of_ascii c in ((65 <=? n) && (n <=? 70) || (97 <=? n) && (n <=? 102))%nat.
(** A decimal octet: no leading zero, at most 255. *)
Definition ipv4_octet (s : string) : bool :=
  negb (is_empty s) && all_chars is_digit s && (String.length s <=? 3)%nat
  && negb (startswith "0" s && (1 <? String.length s)%nat)
  && match int_digits false 0 s with Some n => (n <=? 255)%Z | None => false end.
Definition is_ipv4 (s : string) : bool :=
  let parts := split_char "." s in (length parts =? 4)%nat && forallb ipv4_octet parts.
Definition hextet (s : string) : bool :=
  negb (is_empty s) && all_chars is_hex s && (String.length s <=? 4)%nat.
(** The places of [''] among the inner parts of an address. *)
Fixpoint inner_gaps (i : nat) (parts : list string) : list nat :=
  match parts with
  | [] | [_] => []
  | p :: parts => (if is_empty p then [i] else []) ++ inner_gaps (S i) parts
  end.
Definition last_part (parts : list string) : string := List.last parts EmptyString.
(** An IPv4 tail counts as two hextets. *)
Definition with_ipv4_tail (parts : list string) : option (list string) :=
  if has_char "." (last_part parts)
  then if is_ipv4 (last_part parts) then Some (List.removelast parts ++ ["0"; "0"])%list else None
  else Some parts.
(** [_ip_int_from_string] succeeds. *)
Definition ipv6_parts (parts : list string) : bool :=
  (3 <=? length parts)%nat &&
  match with_ipv4_tail parts with
  | None => false
  | Some parts =>
      let n := length parts in
      (n <=? 9)%nat &&
      match inner_gaps 1 (List.tl parts) with
      | [] => (n =? 8)%nat && negb (is_empty (List.hd EmptyString parts)) && negb (is_empty (last_part parts))
              && forallb hextet parts
      | [gap] =>
          let hi := if is_empty (List.hd EmptyString parts) then (gap - 1)%nat else gap in
          let lo := if is_empty (last_part parts) then (n - gap - 2)%nat else (n - gap - 1)%nat in
          (negb (is_empty (List.hd EmptyString parts)) || (hi =? 0)%nat)
          && (negb (is_empty (last_part parts)) || (lo =? 0)%nat)
          && (hi + lo <? 8)%nat
          && forallb hextet (List.firstn hi parts)
          && forallb hextet (List.skipn (n - lo) parts)
      | _ => false
      end
  end.
Definition is_ipv6 (s : string) : bool :=
  let '(addr, scope) := partition "%" s in
  match scope with
  | Some scope => negb (is_empty scope) && negb (has_char "%" scope)
  | None => true
  end && ipv6_parts (split_char ":" addr).

(** * [urlsplit] *)

Record SplitResult := MkSplitResult {
  u_scheme : string; u_netloc : string; u_path : string; u_query : string; u_fragment : string;
}.
Definition c0_or_space (c : ascii) : bool := (Ascii.nat_of_ascii c <=? 32)%nat.
Definition unsafe_char (c : ascii) : bool := let n := Ascii.nat_of_ascii c in ((n =? 9) || (n =? 10) || (n =? 13))%nat.
Definition scheme_char (c : ascii) : bool :=
  is_letter c || is_digit c || Ascii.eqb c "+" || Ascii.eqb c "-" || Ascii.eqb c ".".
Definition split_scheme (url : string) : string * string :=
  match partition ":" url with
  | (String c s as scheme, Some rest) => if is_letter c && all_chars scheme_char scheme then (casefold scheme, rest) else ("", url)
  | _ => ("", url)
  end.
Definition delimiter (c : ascii) : bool := Ascii.eqb c "/" || Ascii.eqb c "?" || Ascii.eqb c "#".
(** [_splitnetloc] *)
Definition split_netloc (s : string) : string * string := span (λ c, negb (delimiter c)) s.
(** [netloc.rpartition('@')[2]] *)
Definition host_and_port (netloc : string) : string :=
  match rpartition "@" netloc with Some (_, s) => s | None => netloc end.
(** [_check_bracketed_host] *)
Definition ip_future (s : string) : bool :=
  match s with
  | String _ s => let '(version, rest) := span is_hex s in
      negb (is_empty version) && match rest with String c r => Ascii.eqb c "." && negb (is_empty r) | _ => false end
  | EmptyString => false
  end.
Definition bracketed_host (hostname : string) : bool :=
  if startswith "v" hostname then ip_future hostname else negb (is_ipv4 hostname) && is_ipv6 hostname.
(** [_check_bracketed_netloc] *)
Definition bracketed_netloc (netloc : string) : bool :=
  match partition "[" (host_and_port netloc) with
  | (before, Some bracketed) =>
      let '(hostname, port) := partition "]" bracketed in
      let port := default "" port in
      is_empty before && (is_empty port || startswith ":" port) && bracketed_host hostname
  | (host, None) => bracketed_host (partition ":" host).1
  end.
Definition netloc_ok (netloc : string) : bool :=
  let opened := has_char "[" netloc in let closed := has_char "]" netloc in
  Bool.eqb opened closed && (negb opened || bracketed_netloc netloc).
(** Nothing where [urlsplit] raises [ValueError]. *)
Definition urlsplit (url : string) : option SplitResult :=
  let '(scheme, url) := split_scheme (remove_chars unsafe_char (lstrip_chars c0_or_space url)) in
  let '(netloc, url) := match strip_prefix "//" url with Some rest => split_netloc rest | None => ("", url) end in
  let '(url, fragment) := partition "#" url in
  let '(path, query) := partition "?" url in
  if netloc_ok netloc then Some (MkSplitResult scheme netloc path (default "" query) (default "" fragment)) else None.

(** [username], [hostname] and [port] *)
Definition username (u : SplitResult) : option string :=
  match rpartition "@" (u_netloc u) with Some (userinfo, _) => Some (partition ":" userinfo).1 | None => None end.
Definition host_port (u : SplitResult) : string * string :=
  let hostinfo := host_and_port (u_netloc u) in
  match partition "[" hostinfo with
  | (_, Some bracketed) =>
      let '(hostname, port) := partition "]" bracketed in
      (hostname, default "" (partition ":" (default "" port)).2)
  | (_, None) => let '(hostname, port) := partition ":" hostinfo in (hostname, default "" port)
  end.
Definition hostname (u : SplitResult) : option string :=
  let h := (host_port u).1 in
  if is_empty h then None
  else let '(host, zone) := partition "%" h in
       Some (casefold host +:+ match zone with Some z => "%" +:+ z | None => "" end).
(** Nothing where [port] raises [ValueError]. *)
Definition port (u : SplitResult) : option (option Z) :=
  let p := (host_port u).2 in
  if is_empty p then Some None
  else if all_chars is_digit p then
    match int_digits false 0 p with
    | Some n => if (n <=? 65535)%Z then Some (Some n) else None
    | None => None
    end
  else None.

(** * [urlunsplit], with no query and no fragment *)

Definition uses_netloc : list string :=
  [""; "ftp"; "http"; "gopher"; "nntp"; "telnet"; "imap"; "wais"; "file"; "mms"; "https"; "shttp"; "snews";
   "prospero"; "rtsp"; "rtspu"; "rsync"; "svn"; "svn+ssh"; "sftp"; "nfs"; "git"; "git+ssh"; "ws"; "wss"].
Definition urlunsplit (scheme netloc path : string) : string :=
  let url :=
    if negb (is_empty netloc)
    then "//" +:+ netloc +:+ (if negb (is_empty path) && negb (startswith "/" path) then "/" +:+ path else path)
    else if startswith "//" path
         || negb (is_empty scheme) && in_list scheme uses_netloc && (is_empty path || startswith "/" path)
    then "//" +:+ path
    else path in
  if is_empty scheme then url else scheme +:+ ":" +:+ url.
