(* ===== verification/Targets.v ===== *)
(** The identities of effective storage targets
    ([cortex_harness/storage/targets.py]): canonical endpoints without
    credentials, one graph or vector target, and the topology that fences a
    generation.  SHA-256 and the resolution of local paths are parameters.  Where
    the code raises [ValueError] with a redacted endpoint, the error carries that
    text here. *)
From S2P Require Import Prelude Json Text PyValue Models Store Identity Scope Config Contracts Url.
#[local] Open Scope string_scope.

Definition TARGET_SCHEMA_VERSION : Z := 1.
Definition _DEFAULT_PORTS : list (string * Z) :=
  [("http", 80); ("https", 443); ("redis", 6379); ("rediss", 6379); ("falkor", 6379); ("falkors", 6379);
   ("bolt", 7687); ("bolt+s", 7687); ("neo4j", 7687); ("neo4j+s", 7687); ("neo4j+ssc", 7687)]%Z.
Definition _TLS_SCHEMES : list string := ["https"; "rediss"; "falkors"; "bolt+s"; "neo4j+s"; "neo4j+ssc"].

(** [str(value or "")] *)
Definition text_or_empty (v : json) : string := py_str (py_or v (JStr "")).
Definition environment_flag_enabled (value : json) : bool :=
  in_list (casefold (strip (text_or_empty value))) ["1"; "true"; "yes"; "on"].
Definition _role_value (role : json) : res string :=
  let normalized := casefold (strip (text_or_empty role)) in
  let normalized := if String.eqb normalized "document" then "doc" else normalized in
  if in_list normalized ["code"; "doc"] then Ok normalized else Err ValueError.

(** * Endpoints *)

Definition _safe_endpoint_scheme_hint (candidate default_scheme : string) : string :=
  let hint := match partition_text "://" candidate with Some (h, _) => h | None => default_scheme end in
  match hint with
  | String c rest => if is_letter c && all_chars scheme_char rest then casefold hint else "<invalid-scheme>"
  | EmptyString => "<invalid-scheme>"
  end.
(** The host, as it is put between [//] and the port. *)
Definition canonical_host (hostname : string) : string :=
  let host := rstrip_char "." (casefold hostname) in
  if has_char ":" host && negb (startswith "[" host) then "[" +:+ host +:+ "]" else host.
Definition netloc_of (host : string) (port : option Z) : string :=
  match port with Some p => host +:+ ":" +:+ print_int p | None => host end.

Section targets.
Context `{Sha256}.
(** [canonical_local_target]: [str(Path(path).expanduser().resolve())] *)
Context (canonical_local_target : string → string).

(** [canonical_remote_endpoint] after [urlsplit]. *)
Definition endpoint_of (parsed : SplitResult) : result string (string * option string) :=
  let scheme := casefold (u_scheme parsed) in
  if is_empty scheme then Err "<missing-scheme>://<redacted>"
  else if String.eqb scheme "unix" then
    if is_empty (u_path parsed) then Err ""
    else Ok (urlunsplit scheme "" (canonical_local_target (u_path parsed)), username parsed)
  else match hostname parsed with
    | None => Err (scheme +:+ "://<missing-host>")
    | Some h =>
        let host := canonical_host h in
        match port parsed with
        | None => Err (scheme +:+ "://" +:+ host +:+ ":<invalid-port>")
        | Some p =>
            let p := match p with Some p => Some p | None => assoc scheme _DEFAULT_PORTS end in
            Ok (urlunsplit scheme (netloc_of host p) (rstrip_char "/" (u_path parsed)), username parsed)
        end
    end.
Definition canonical_remote_endpoint (value : json) (default_scheme : string) : result string (string * option string) :=
  let raw := strip (text_or_empty value) in
  if is_empty raw then Err ""
  else
    let candidate := match partition_text "://" raw with Some _ => raw | None => default_scheme +:+ "://" +:+ raw end in
    match urlsplit candidate with
    | None => Err (_safe_endpoint_scheme_hint candidate default_scheme +:+ "://<invalid-host>")
    | Some parsed => endpoint_of parsed
    end.
(** [endpoint_uses_tls], on an endpoint that [urlsplit] accepts. *)
Definition endpoint_uses_tls (endpoint : string) (explicit : bool) : bool :=
  explicit || match urlsplit (match partition_text "://" endpoint with Some _ => endpoint | None => "//" +:+ endpoint end) with
              | Some u => in_list (casefold (u_scheme u)) _TLS_SCHEMES
              | None => false end.
Definition _principal_fingerprint (value : option string) : option string :=
  let normalized := casefold (strip (default "" value)) in
  if is_empty normalized then None else Some ("sha256:" +:+ sha256_hex normalized).

(** * [EffectiveStorageTarget] *)

(** The arguments of the constructor, which checks their types itself. *)
Record target_args := MkTargetArgs {
  ta_component : json; ta_provider : json; ta_mode : json; ta_location : json; ta_namespace : json; ta_role : json;
  ta_tls : json; ta_principal : json; ta_capability : json; ta_schema : json; ta_version : json;
}.
Record EffectiveStorageTarget := MkTarget {
  st_component : string; st_provider : string; st_mode : string; st_location : string; st_namespace : string;
  st_role : string; st_tls : bool; st_principal : option string; st_capability : json; st_schema : json; st_version : json;
}.
#[export] Instance effective_target_eq_dec : EqDecision EffectiveStorageTarget.
Proof. solve_decision. Defined.
(** [v != 1]: [True] and [1.0] are equal to it. *)
Definition is_version_1 (v : json) : bool :=
  match v with JInt n => (n =? TARGET_SCHEMA_VERSION)%Z | JBool b => b | JFloat r => String.eqb r "1.0" | _ => false end.
Definition is_hex_lower (c : ascii) : bool :=
  is_digit c || let n := Ascii.nat_of_ascii c in ((97 <=? n) && (n <=? 102))%nat.
Definition valid_fingerprint (s : string) : bool :=
  match strip_prefix "sha256:" s with
  | Some digest => (String.length digest =? 64)%nat && all_chars is_hex_lower digest
  | None => false
  end.
Definition default_scheme_of (component provider : string) : string :=
  if String.eqb component "vector" then "http" else if in_list provider ["neo"; "neo4j"] then "bolt" else "redis".
Definition value_error {A} (r : result string A) : res A := match r with Ok a => Ok a | Err _ => Err ValueError end.
(** The location, the use of TLS and the principal. *)
Definition place_target (component provider mode : string) (location : json) (tls : bool) (principal : json)
    : res (string * bool * json) :=
  if String.eqb mode "file" then
    path ← text_of location;
    if tls || negb (bool_decide (principal = JNull)) then Err ValueError
    else mret (canonical_local_target path, false, JNull)
  else
    endpoint ← value_error (canonical_remote_endpoint location (default_scheme_of component provider));
    let principal := match principal, endpoint.2 with
      | JNull, Some uri_principal =>
          if is_empty uri_principal then JNull else opt_json (_principal_fingerprint (Some uri_principal))
      | _, _ => principal end in
    mret (endpoint.1, endpoint_uses_tls endpoint.1 tls, principal).
(** [__post_init__] *)
Definition make_target (a : target_args) : res EffectiveStorageTarget :=
  let component := casefold (strip (text_or_empty (ta_component a))) in
  let mode := casefold (strip (text_or_empty (ta_mode a))) in
  let provider := casefold (strip (text_or_empty (ta_provider a))) in
  let namespace := strip (text_or_empty (ta_namespace a)) in
  if negb (in_list component ["graph"; "vector"]) then Err ValueError
  else if negb (in_list mode ["file"; "remote"]) then Err ValueError
  else if is_empty provider || is_empty (strip (text_or_empty (ta_location a))) || is_empty namespace then Err ValueError
  else match ta_tls a with
  | JBool tls =>
      if negb (is_version_1 (ta_version a)) then Err ValueError
      else
        placed ← place_target component provider mode (ta_location a) tls (ta_principal a);
        let '(location, tls, principal) := placed in
        principal ← match principal with
          | JNull => Ok None
          | JStr s => if valid_fingerprint s then Ok (Some s) else Err ValueError
          | _ => Err ValueError end;
        role ← _role_value (ta_role a);
        mret (MkTarget component provider mode location namespace role tls principal
                (ta_capability a) (ta_schema a) (ta_version a))
  | _ => Err ValueError
  end.
(** [to_dict]: fields that are [None] are left out. *)
Definition given (kv : string * json) : bool := negb (bool_decide (kv.2 = JNull)).
Definition target_dict (t : EffectiveStorageTarget) : dict :=
  List.filter given
    [("component", JStr (st_component t)); ("provider", JStr (st_provider t)); ("mode", JStr (st_mode t));
     ("location", JStr (st_location t)); ("namespace", JStr (st_namespace t)); ("role", JStr (st_role t));
     ("tls", JBool (st_tls t)); ("principal_fingerprint", opt_json (st_principal t));
     ("capability_fingerprint", st_capability t); ("schema_fingerprint", st_schema t); ("schema_version", st_version t)].
Definition target_keys : list string :=
  ["component"; "provider"; "mode"; "location"; "namespace"; "role"; "tls"; "principal_fingerprint";
   "capability_fingerprint"; "schema_fingerprint"; "schema_version"].
(** [from_dict]: [cls( **value )] *)
Definition target_from_dict (d : dict) : res EffectiveStorageTarget :=
  if existsb (λ kv : string * json, negb (in_list kv.1 target_keys)) d then Err TypeError
  else match assoc "component" d, assoc "provider" d, assoc "mode" d, assoc "location" d, assoc "namespace" d, assoc "role" d with
    | Some c, Some p, Some m, Some l, Some n, Some r =>
        make_target (MkTargetArgs c p m l n r (get_default "tls" (JBool false) d) (get "principal_fingerprint" d)
          (get "capability_fingerprint" d) (get "schema_fingerprint" d) (get_default "schema_version" (JInt TARGET_SCHEMA_VERSION) d))
    | _, _, _, _, _, _ => Err TypeError
    end.
(** [from_json]; text that is no JSON is a [ValueError] too. *)
Definition target_from_json (text : string) : res EffectiveStorageTarget :=
  match loads text with Some (JObj d) => target_from_dict d | _ => Err ValueError end.
Definition target_canonical_json (t : EffectiveStorageTarget) : string := canonical_json (JObj (target_dict t)).
Definition target_fingerprint (t : EffectiveStorageTarget) : string :=
  "storage-target:v" +:+ py_str (st_version t) +:+ ":" +:+ sha256_hex (target_canonical_json t).

(** * [EffectiveStorageTopology] *)

Record EffectiveStorageTopology := MkTopology {
  tp_project_scope : string; tp_requested_backend : string; tp_forced_local : bool;
  tp_graph : EffectiveStorageTarget; tp_vector : EffectiveStorageTarget; tp_generation_id : string; tp_version : Z;
}.
#[export] Instance topology_eta : Eta EffectiveStorageTopology := λ t,
  MkTopology (tp_project_scope t) (tp_requested_backend t) (tp_forced_local t) (tp_graph t) (tp_vector t)
    (tp_generation_id t) (tp_version t).
(** [__post_init__] *)
Definition make_topology (t : EffectiveStorageTopology) : res EffectiveStorageTopology :=
  let project_scope := strip (tp_project_scope t) in
  let requested_backend := casefold (strip (tp_requested_backend t)) in
  let generation_id := strip (tp_generation_id t) in
  let remote := negb (String.eqb (st_mode (tp_graph t)) "file") || negb (String.eqb (st_mode (tp_vector t)) "file") in
  if is_empty project_scope then Err ValueError
  else if negb (in_list requested_backend ["local"; "remote"]) then Err ValueError
  else if is_empty generation_id then Err ValueError
  else if negb (tp_version t =? TARGET_SCHEMA_VERSION)%Z then Err ValueError
  else if negb (String.eqb (st_component (tp_graph t)) "graph") || negb (String.eqb (st_component (tp_vector t)) "vector") then Err ValueError
  else if negb (String.eqb (st_role (tp_graph t)) (st_role (tp_vector t))) then Err ValueError
  else if String.eqb requested_backend "local" && remote then Err ValueError
  else if tp_forced_local t && remote then Err ValueError
  else Ok (t <| tp_project_scope := project_scope |> <| tp_requested_backend := requested_backend |>
             <| tp_generation_id := generation_id |>).
Definition topology_dict (t : EffectiveStorageTopology) : dict :=
  [("schema_version", JInt (tp_version t)); ("project_scope", JStr (tp_project_scope t));
   ("requested_backend", JStr (tp_requested_backend t)); ("forced_local", JBool (tp_forced_local t));
   ("generation_id", JStr (tp_generation_id t)); ("graph", JObj (target_dict (tp_graph t)));
   ("vector", JObj (target_dict (tp_vector t)))].
Definition topology_canonical_json (t : EffectiveStorageTopology) : string := canonical_json (JObj (topology_dict t)).
Definition topology_fingerprint (t : EffectiveStorageTopology) : string :=
  "storage-topology:v" +:+ print_int (tp_version t) +:+ ":" +:+ sha256_hex (topology_canonical_json t).
Definition for_generation (generation_id : string) (t : EffectiveStorageTopology) : res EffectiveStorageTopology :=
  let value := strip generation_id in
  if is_empty value then Err ValueError else make_topology (t <| tp_generation_id := value |>).
Definition compatibility_metadata (t : EffectiveStorageTopology) : dict :=
  [("schema_version", JInt (tp_version t)); ("generation_id", JStr (tp_generation_id t));
   ("graph_mode", JStr (st_mode (tp_graph t))); ("vector_mode", JStr (st_mode (tp_vector t)));
   ("graph_target_fingerprint", JStr (target_fingerprint (tp_graph t)));
   ("vector_target_fingerprint", JStr (target_fingerprint (tp_vector t)));
   ("topology_fingerprint", JStr (topology_fingerprint t))].

(** * Making targets *)

Definition target_of (component provider mode location namespace role : string) (tls : bool) (principal : option string)
    : res EffectiveStorageTarget :=
  make_target (MkTargetArgs (JStr component) (JStr provider) (JStr mode) (JStr location) (JStr namespace) (JStr role)
    (JBool tls) (opt_json principal) JNull JNull (JInt TARGET_SCHEMA_VERSION)).
Definition remote_graph_target (uri graph : string) (role : json) (principal : option string) (ssl : bool) (provider : string)
    : res EffectiveStorageTarget :=
  endpoint ← value_error (canonical_remote_endpoint (JStr uri) (if String.eqb (casefold provider) "falkordb" then "redis" else "bolt"));
  role ← _role_value role;
  let named := match principal with Some p => if is_empty p then endpoint.2 else Some p | None => endpoint.2 end in
  target_of "graph" provider "remote" endpoint.1 graph role (endpoint_uses_tls endpoint.1 ssl) (_principal_fingerprint named).
Definition local_graph_target (path graph : string) (role : json) (provider : string) : res EffectiveStorageTarget :=
  role ← _role_value role;
  target_of "graph" provider "file" (canonical_local_target path) graph role false None.
Definition remote_vector_target (url collection : string) (role : json) : res EffectiveStorageTarget :=
  endpoint ← value_error (canonical_remote_endpoint (JStr url) "http");
  role ← _role_value role;
  target_of "vector" "qdrant" "remote" endpoint.1 collection role (endpoint_uses_tls endpoint.1 false) (_principal_fingerprint endpoint.2).
Definition local_vector_target (path collection : string) (role : json) : res EffectiveStorageTarget :=
  role ← _role_value role;
  target_of "vector" "qdrant" "file" (canonical_local_target path) collection role false None.

(** [env.get(name) or fallback] *)
Definition env_or (env : environment) (name fallback : string) : string := or_else (env !! name) fallback.
Definition _runtime_graph_target_from_env (env : environment) : res EffectiveStorageTarget :=
  let role := JStr (env_or env "CORTEX_STORAGE_OWNER" "code") in
  let provider := casefold (env_or env "CODE_GRAPH_PROVIDER" (env_or env "GRAPH_PROVIDER" "falkordb")) in
  if in_list provider ["neo4j"; "neo"] then
    remote_graph_target (env_or env "NEO4J_URI" "bolt://localhost:7687") (env_or env "NEO4J_DB" "neo4j") role
      (env !! "NEO4J_USER") false "neo4j"
  else
    let graph := env_or env "FALKORDB_GRAPH" (env_or env "FALKORDB_DATABASE" "hyper_graph") in
    if in_list provider ["ladybug"; "ladybugdb"; "ladybug-db"] then
      local_graph_target (env_or env "LADYBUG_PATH" "embedded") graph role "ladybug"
    else
      let uri := strip (env_or env "FALKORDB_URI" "") in
      if is_empty uri then local_graph_target (env_or env "FALKORDB_PATH" "embedded") graph role "falkordb"
      else remote_graph_target uri graph role None
             (negb (in_list (casefold (strip (env_or env "FALKORDB_SSL" ""))) [""; "0"; "false"; "no"; "off"])) "falkordb".
(** [supplied == runtime]; the versions of both are 1. *)
Definition same_target (s t : EffectiveStorageTarget) : bool :=
  bool_decide ((st_component s, st_provider s, st_mode s, st_location s, st_namespace s, st_role s) =
               (st_component t, st_provider t, st_mode t, st_location t, st_namespace t, st_role t))
  && Bool.eqb (st_tls s) (st_tls t)
  && bool_decide ((st_principal s, st_capability s, st_schema s) = (st_principal t, st_capability t, st_schema t)).
Definition effective_graph_target_from_env (env : environment) : res EffectiveStorageTarget :=
  let descriptor := strip (env_or env "CORTEX_EFFECTIVE_GRAPH_TARGET" "") in
  if is_empty descriptor then _runtime_graph_target_from_env env
  else
    supplied ← target_from_json descriptor;
    runtime ← _runtime_graph_target_from_env env;
    if negb (String.eqb (st_component supplied) "graph") then Err ValueError
    else if negb (same_target supplied runtime) then Err ValueError
    else mret supplied.
End targets.
