(* ===== verification/Fences.v ===== *)
(** Effective targets read back from their JSON, and the fence a topology puts
    around the generations built on it ([Targets.v] with [Generation.v]). *)
From S2P Require Import Prelude Json Text PyValue Models Store Identity Artifacts Scope Config Contracts Stateful Generation Generations Url Targets Endpoints.
#[local] Open Scope string_scope.

(** * Fields that may be left out *)

Lemma get_given k d : NoDup (map fst d) → get k (List.filter given d) = get k d.
Proof.
  unfold get. induction d as [|[k' v] d IH]; [done|]. cbn [map fst]. intros [Hk Hd]%NoDup_cons. specialize (IH Hd).
  cbn. unfold given at 1. cbn [snd]. case_bool_decide as Hv; cbn; destruct (String.eqb k k') eqn:E; try done.
  subst v. apply String.eqb_eq in E as ->. rewrite IH. cbn.
  destruct (assoc k' d) as [w|] eqn:Ew; [|done]. apply assoc_elem in Ew. destruct Hk. apply list_elem_of_fmap. by exists (k', w).
Qed.

(** * Targets with the types their annotations promise *)

Definition text_or_none (v : json) : bool := match v with JNull | JStr _ => true | _ => false end.
Definition typed_target (t : EffectiveStorageTarget) : bool :=
  text_or_none (st_capability t) && text_or_none (st_schema t) && bool_decide (st_version t = JInt TARGET_SCHEMA_VERSION).
Lemma typed_target_eq t : typed_target t = true →
  text_or_none (st_capability t) = true ∧ text_or_none (st_schema t) = true ∧ st_version t = JInt TARGET_SCHEMA_VERSION.
Proof. unfold typed_target. rewrite !andb_true_iff, bool_decide_eq_true. tauto. Qed.
Lemma text_or_none_sorted v : text_or_none v = true → sort_keys v = v.
Proof. by destruct v. Qed.
Lemma text_or_none_wf v : text_or_none v = true → json_wf v = true.
Proof. by destruct v. Qed.
Lemma opt_json_sorted a : sort_keys (opt_json a) = opt_json a.
Proof. by destruct a. Qed.
Lemma opt_json_inj a b : opt_json a = opt_json b → a = b.
Proof. destruct a, b; cbn; congruence. Qed.
Definition whole_dict (t : EffectiveStorageTarget) : dict :=
  [("component", JStr (st_component t)); ("provider", JStr (st_provider t)); ("mode", JStr (st_mode t));
   ("location", JStr (st_location t)); ("namespace", JStr (st_namespace t)); ("role", JStr (st_role t));
   ("tls", JBool (st_tls t)); ("principal_fingerprint", opt_json (st_principal t));
   ("capability_fingerprint", st_capability t); ("schema_fingerprint", st_schema t); ("schema_version", st_version t)].
Lemma get_target k t : get k (target_dict t) = get k (whole_dict t).
Proof. apply (get_given k (whole_dict t)). apply (bool_decide_unpack _). vm_compute. exact I. Qed.
Lemma target_dict_wf t : typed_target t = true → json_wf (JObj (target_dict t)) = true.
Proof.
  intros (H1 & H2 & H3)%typed_target_eq. cbn [json_wf]. rewrite forallb_forall. intros [k v] [Hv _]%filter_In. cbn [snd].
  repeat (destruct Hv as [[= <- <-]|Hv]; [by first [done|rewrite H3|apply text_or_none_wf; done|destruct (st_principal t)]|]).
  destruct Hv.
Qed.
(** What the JSON of a target says. *)
Lemma target_dict_inj t1 t2 : typed_target t1 = true → typed_target t2 = true →
  sort_keys (JObj (target_dict t1)) = sort_keys (JObj (target_dict t2)) → t1 = t2.
Proof.
  intros (H1 & H2 & H3)%typed_target_eq (H4 & H5 & H6)%typed_target_eq Heq.
  assert (∀ k, sort_keys (get k (whole_dict t1)) = sort_keys (get k (whole_dict t2))) as Hget.
  { intros k. cbn [sort_keys] in Heq. apply (f_equal (λ v, match v with JObj d => get k d | _ => JNull end)) in Heq.
    fold (sorted_dict (target_dict t1)) (sorted_dict (target_dict t2)) in Heq. by rewrite !get_sorted, !get_target in Heq. }
  pose proof (Hget "component") as G1. pose proof (Hget "provider") as G2. pose proof (Hget "mode") as G3.
  pose proof (Hget "location") as G4. pose proof (Hget "namespace") as G5. pose proof (Hget "role") as G6.
  pose proof (Hget "tls") as G7. pose proof (Hget "principal_fingerprint") as G8.
  pose proof (Hget "capability_fingerprint") as G9. pose proof (Hget "schema_fingerprint") as G10. clear Hget Heq.
  cbn -[sort_keys] in *. rewrite !opt_json_sorted in G8. rewrite (text_or_none_sorted (st_capability t1)), (text_or_none_sorted (st_capability t2)) in G9 by done.
  rewrite (text_or_none_sorted (st_schema t1)), (text_or_none_sorted (st_schema t2)) in G10 by done.
  apply opt_json_inj in G8. destruct t1, t2. cbn in *. congruence.
Qed.

(** * Targets, made again *)

Section roundtrip.
Context `{Sha256} (canonical_local_target : string → string).
Abbreviation make_target := (make_target canonical_local_target).
Abbreviation canonical_remote_endpoint := (canonical_remote_endpoint canonical_local_target).
Abbreviation target_from_dict := (target_from_dict canonical_local_target).
Abbreviation target_from_json := (target_from_json canonical_local_target).

(** A location that naming it again leaves alone. *)
Definition stable_location (t : EffectiveStorageTarget) : Prop :=
  if String.eqb (st_mode t) "file"
  then canonical_local_target (st_location t) = st_location t ∧ is_empty (strip (st_location t)) = false
  else ∀ d, canonical_remote_endpoint (JStr (st_location t)) d = Ok (st_location t, None).
Definition args_of (t : EffectiveStorageTarget) : target_args :=
  MkTargetArgs (JStr (st_component t)) (JStr (st_provider t)) (JStr (st_mode t)) (JStr (st_location t))
    (JStr (st_namespace t)) (JStr (st_role t)) (JBool (st_tls t)) (opt_json (st_principal t))
    (st_capability t) (st_schema t) (st_version t).
(** What [__post_init__] establishes. *)
Record made_target (t : EffectiveStorageTarget) : Prop := {
  mt_component : in_list (st_component t) ["graph"; "vector"] = true;
  mt_mode : in_list (st_mode t) ["file"; "remote"] = true;
  mt_provider : casefold (strip (st_provider t)) = st_provider t ∧ is_empty (st_provider t) = false;
  mt_namespace : strip (st_namespace t) = st_namespace t ∧ is_empty (st_namespace t) = false;
  mt_role : in_list (st_role t) ["code"; "doc"] = true;
  mt_principal : from_option valid_fingerprint true (st_principal t) = true;
  mt_version : is_version_1 (st_version t) = true;
  mt_file : st_mode t = "file" → st_tls t = false ∧ st_principal t = None;
  mt_remote : st_mode t = "remote" → endpoint_uses_tls (st_location t) (st_tls t) = st_tls t;
}.
Lemma uses_tls_idemp loc b : endpoint_uses_tls loc (endpoint_uses_tls loc b) = endpoint_uses_tls loc b.
Proof. unfold endpoint_uses_tls. destruct b; [done|]. cbn. by destruct (match urlsplit _ with Some _ => _ | None => _ end). Qed.
Lemma role_value_ok v r : _role_value v = Ok r → in_list r ["code"; "doc"] = true.
Proof. unfold _role_value. destruct (in_list _ ["code"; "doc"]) eqn:E; [|done]. by intros [= <-]. Qed.
Lemma make_target_made a t : make_target a = Ok t → made_target t.
Proof.
  unfold Targets.make_target. set (component := casefold _). set (mode := casefold (strip (text_or_empty (ta_mode a)))).
  set (provider := casefold (strip (text_or_empty (ta_provider a)))). set (namespace := strip _).
  destruct (in_list component _) eqn:Hc; [|done]. destruct (in_list mode _) eqn:Hm; [|done].
  destruct (is_empty provider || _ || _) eqn:He; [done|]. apply orb_false_iff in He as [[Hp _]%orb_false_iff Hn].
  destruct (ta_tls a) as [|tls| | | | |]; try done. destruct (is_version_1 _) eqn:Hv; [|done]. cbn [negb].
  destruct (place_target _ _ _ _ _ _ _) as [[[loc tls'] principal]|] eqn:Hpl; [|done]. cbn [mbind result_bind].
  destruct (match principal with JNull => Ok None | _ => _ end) as [pr|] eqn:Hpr; [|done]. cbn [mbind result_bind].
  destruct (_role_value (ta_role a)) as [role|] eqn:Hr; [|done]. cbn [mbind result_bind]. intros [= <-].
  constructor; cbn [st_component st_provider st_mode st_location st_namespace st_role st_tls st_principal st_version]; try done.
  - split; [|done]. subst provider. by rewrite strip_casefold, strip_idemp, casefold_idemp.
  - split; [|done]. apply strip_idemp.
  - by eapply role_value_ok.
  - destruct principal as [| | | |s| |]; try done; [by injection Hpr as <-|].
    destruct (valid_fingerprint s) eqn:E; [|done]. injection Hpr as <-. exact E.
  - intros Hf. unfold place_target in Hpl. rewrite Hf in Hpl. cbn [String.eqb Ascii.eqb Bool.eqb] in Hpl.
    destruct (text_of _); [|done]. cbn [mbind result_bind] in Hpl. destruct (tls || _) eqn:E; [done|].
    injection Hpl as <- <- <-. by injection Hpr as <-.
  - intros Hf. unfold place_target in Hpl. rewrite Hf in Hpl. cbn [String.eqb Ascii.eqb Bool.eqb] in Hpl.
    destruct (value_error _) as [[e u]|]; [|done]. cbn [mbind result_bind fst] in Hpl. injection Hpl as <- <- _. apply uses_tls_idemp.
Qed.
(** Making it again, from its own fields, changes nothing. *)
Lemma make_target_again t : made_target t → stable_location t → make_target (args_of t) = Ok t.
Proof.
  intros [Hc Hm [Hp1 Hp2] [Hn1 Hn2] Hr Hpr Hv Hf Hrem] Hl. unfold Targets.make_target, args_of.
  cbn [ta_component ta_provider ta_mode ta_location ta_namespace ta_role ta_tls ta_principal ta_capability ta_schema ta_version].
  rewrite !text_or_empty_str, Hp1, Hp2, Hn1, Hn2, Hv.
  assert (casefold (strip (st_component t)) = st_component t) as -> by (by apply in_list_elem in Hc; set_unfold; destruct_or! Hc; rewrite Hc).
  assert (st_mode t = "file" ∨ st_mode t = "remote") as Hmode by (by apply in_list_elem in Hm; set_unfold; destruct_or! Hm; auto).
  assert (casefold (strip (st_mode t)) = st_mode t) as -> by (by destruct Hmode as [-> | ->]).
  assert (is_empty (strip (st_location t)) = false) as ->.
  { unfold stable_location in Hl. destruct (String.eqb (st_mode t) "file"); [by destruct Hl|]. specialize (Hl ""). unfold Targets.canonical_remote_endpoint in Hl.
    rewrite text_or_empty_str in Hl. by destruct (is_empty (strip (st_location t))). }
  rewrite Hc, Hm. cbn [negb orb].
  assert (place_target canonical_local_target (st_component t) (st_provider t) (st_mode t) (JStr (st_location t)) (st_tls t) (opt_json (st_principal t))
    = Ok (st_location t, st_tls t, opt_json (st_principal t))) as ->.
  { unfold place_target, stable_location in *. destruct Hmode as [E|E]; rewrite E in *; cbn [String.eqb Ascii.eqb Bool.eqb] in *.
    - destruct (Hf eq_refl) as [-> ->]. cbn. by destruct Hl as [-> _].
    - rewrite Hl. cbn. rewrite Hrem by done. by destruct (st_principal t). }
  cbn [mbind result_bind].
  assert (match opt_json (st_principal t) with JNull => Ok None | JStr s => if valid_fingerprint s then Ok (Some s) else Err ValueError | _ => Err ValueError end
    = Ok (st_principal t)) as ->.
  { destruct (st_principal t) as [s|]; [|done]. cbn in *. by rewrite Hpr. }
  cbn [mbind result_bind].
  assert (_role_value (JStr (st_role t)) = Ok (st_role t)) as -> by (by apply in_list_elem in Hr; set_unfold; destruct_or! Hr; rewrite Hr).
  by destruct t.
Qed.
Lemma target_dict_sorted t : typed_target t = true → sorted_dict (target_dict t) = order_by fst (target_dict t).
Proof.
  intros (H1 & H2 & H3)%typed_target_eq. unfold sorted_dict. f_equal. rewrite <- map_id. apply map_ext_in. intros [k v] [Hv _]%filter_In.
  f_equal. cbn [snd]. repeat (destruct Hv as [[= <- <-]|Hv]; [by first [done|rewrite H3|apply opt_json_sorted|by apply text_or_none_sorted]|]).
  destruct Hv.
Qed.
Lemma target_from_dict_made t : typed_target t = true → target_from_dict (order_by fst (target_dict t)) = make_target (args_of t).
Proof.
  intros Ht. unfold Targets.target_from_dict.
  assert (existsb (λ kv : string * json, negb (in_list kv.1 target_keys)) (order_by fst (target_dict t)) = false) as ->.
  { apply not_true_iff_false. rewrite existsb_exists. intros ([k v] & Hin & Hk). apply list_elem_of_In in Hin. rewrite order_by_perm in Hin.
    apply list_elem_of_In, filter_In in Hin as [Hin _]. cbn [fst] in Hk.
    repeat (destruct Hin as [[= <- <-]|Hin]; [done|]). destruct Hin. }
  unfold get_default. fold (get "principal_fingerprint" (order_by fst (target_dict t))). unfold get. rewrite !assoc_order_by.
  apply typed_target_eq in Ht as (Hc & Hs & Hv). unfold args_of. rewrite Hv.
  unfold target_dict. rewrite Hv. destruct (st_principal t), (st_capability t), (st_schema t); done.
Qed.

Lemma target_json_again a t : make_target a = Ok t → typed_target t = true → stable_location t →
  target_from_json (target_canonical_json t) = Ok t.
Proof.
  intros Hmade Htyped Hstable. unfold Targets.target_from_json, target_canonical_json. rewrite loads_canonical by by apply target_dict_wf.
  cbn [sort_keys]. fold (sorted_dict (target_dict t)). rewrite target_dict_sorted, target_from_dict_made by done.
  apply make_target_again; [by eapply make_target_made|done].
Qed.
(** A target whose location is stable survives its transport in the
    environment: reading the canonical JSON that [to_canonical_json] wrote
    validates again and restores the same target, and so the same fingerprint. *)
Theorem target_reads_back (a : target_args) (t : EffectiveStorageTarget)
    (Hmade : make_target a = Ok t) (Htyped : typed_target t = true) (Hstable : stable_location t) :
  target_from_json (target_canonical_json t) = Ok t ∧
  (target_fingerprint <$> target_from_json (target_canonical_json t)) = Ok (target_fingerprint t).
Proof. by erewrite target_json_again. Qed.

Lemma make_target_version a t : make_target a = Ok t → st_version t = ta_version a.
Proof.
  unfold Targets.make_target. cbv zeta.
  repeat (match goal with |- (if ?b then _ else _) = _ → _ => destruct b; [done|] end).
  destruct (ta_tls a); try done. destruct (negb (is_version_1 _)); [done|].
  destruct (place_target _ _ _ _ _ _ _) as [[[? ?] pr]|]; [|done]. cbn [mbind result_bind].
  destruct (match pr with JNull => Ok None | _ => _ end); [|done]. cbn [mbind result_bind].
  destruct (_role_value _); [|done]. by intros [= <-].
Qed.
Lemma remote_graph_version uri g r p ssl pr t : remote_graph_target canonical_local_target uri g r p ssl pr = Ok t →
  st_version t = JInt TARGET_SCHEMA_VERSION.
Proof.
  unfold remote_graph_target. destruct (value_error _); [|done]. cbn [mbind result_bind]. destruct (_role_value _); [|done].
  cbn [mbind result_bind]. by intros ->%make_target_version.
Qed.
Lemma local_graph_version path g r pr t : local_graph_target canonical_local_target path g r pr = Ok t →
  st_version t = JInt TARGET_SCHEMA_VERSION.
Proof. unfold local_graph_target. destruct (_role_value _); [|done]. cbn [mbind result_bind]. by intros ->%make_target_version. Qed.
Lemma runtime_graph_version env t : _runtime_graph_target_from_env canonical_local_target env = Ok t → st_version t = JInt TARGET_SCHEMA_VERSION.
Proof.
  unfold _runtime_graph_target_from_env. destruct (in_list _ ["neo4j"; "neo"]); [apply remote_graph_version|].
  destruct (in_list _ _); [apply local_graph_version|]. cbv zeta. destruct (is_empty _); [apply local_graph_version|apply remote_graph_version].
Qed.
Lemma same_target_eq s t : st_version s = st_version t → same_target s t = bool_decide (s = t).
Proof.
  intros Hv. unfold same_target. destruct s, t; cbn in *. subst.
  destruct (bool_decide (MkTarget _ _ _ _ _ _ _ _ _ _ _ = _)) eqn:E; [apply bool_decide_eq_true in E|apply bool_decide_eq_false in E].
  - injection E as <- <- <- <- <- <- <- <- <- <-. rewrite !bool_decide_true by done. by rewrite eqb_reflx.
  - apply not_true_iff_false. rewrite !andb_true_iff, !bool_decide_eq_true, eqb_true_iff. intros [[E1 ->] E3].
    apply E. congruence.
Qed.

(** The text of a transported target, as the child finds it. *)
Lemma transported (env : environment) t : env !! "CORTEX_EFFECTIVE_GRAPH_TARGET" = Some (target_canonical_json t) →
  strip (env_or env "CORTEX_EFFECTIVE_GRAPH_TARGET" "") = target_canonical_json t ∧ is_empty (target_canonical_json t) = false.
Proof.
  intros Henv. assert (target_canonical_json t ≠ "") as Hne.
  { unfold target_canonical_json, canonical_json. cbn [sort_keys]. by destruct (print_object_shape (order_by fst (map (λ kv : string * json, (kv.1, sort_keys kv.2)) (target_dict t)))) as [s ->]. }
  split; [|by apply String.eqb_neq].
  unfold env_or, or_else. rewrite Henv. unfold target_canonical_json in *.
  destruct (is_empty _) eqn:E; [by apply String.eqb_eq in E|]. apply strip_canonical_object.
Qed.
(** C27: What a parent says about the graph target is believed only when the
    child's own runtime settings agree.  Whatever non-blank text is in
    [CORTEX_EFFECTIVE_GRAPH_TARGET], a target the child accepts from it is a graph
    target with the identity its own settings resolve to.  When the text is the
    canonical JSON of a made graph target [t] whose location naming again leaves
    alone, the child uses [t] when its own settings resolve to exactly [t], stops
    with a [ValueError] when they resolve to another target, and with their own
    error when they do not resolve. *)
Theorem child_target_agrees (env : environment) :
  (∀ used, is_empty (strip (env_or env "CORTEX_EFFECTIVE_GRAPH_TARGET" "")) = false →
     effective_graph_target_from_env canonical_local_target env = Ok used →
     ∃ runtime, _runtime_graph_target_from_env canonical_local_target env = Ok runtime ∧
       same_target used runtime = true ∧ st_component used = "graph") ∧
  (∀ a t, make_target a = Ok t → typed_target t = true → stable_location t → st_component t = "graph" →
     env !! "CORTEX_EFFECTIVE_GRAPH_TARGET" = Some (target_canonical_json t) →
     effective_graph_target_from_env canonical_local_target env =
       match _runtime_graph_target_from_env canonical_local_target env with
       | Ok runtime => if bool_decide (t = runtime) then Ok t else Err ValueError
       | Err e => Err e
       end).
Proof.
  split.
  - intros used Hdescriptor. unfold effective_graph_target_from_env. rewrite Hdescriptor.
    destruct (target_from_json _) as [supplied|]; [|done]. cbn [mbind result_bind].
    destruct (_runtime_graph_target_from_env _ env) as [runtime|]; [|done]. cbn [mbind result_bind].
    destruct (negb (String.eqb _ _)) eqn:Eg; [done|]. destruct (negb (same_target _ _)) eqn:Es; [done|]. intros [= <-].
    exists runtime. apply negb_false_iff in Eg, Es. by apply String.eqb_eq in Eg.
  - intros a t Hmade Htyped Hstable Hgraph Henv.
    destruct (transported env t Henv) as [Hs E]. unfold effective_graph_target_from_env. rewrite Hs, E.
    erewrite target_json_again by done. cbn [mbind result_bind].
    destruct (_runtime_graph_target_from_env _ env) as [runtime|] eqn:Hruntime; [|done]. cbn [mbind result_bind].
    rewrite Hgraph. cbn [String.eqb Ascii.eqb Bool.eqb negb].
    rewrite same_target_eq; [by destruct (bool_decide (t = runtime))|].
    rewrite (runtime_graph_version env runtime) by done. by apply typed_target_eq in Htyped as (_ & _ & ->).
Qed.
End roundtrip.

(** * The fence *)

Definition typed_topology (t : EffectiveStorageTopology) : bool := typed_target (tp_graph t) && typed_target (tp_vector t).
Section fence.
Context `{H : Sha256} (no_collision : CollisionFree H).

Lemma topology_wf t : typed_topology t = true → json_wf (JObj (topology_dict t)) = true.
Proof.
  unfold typed_topology. intros [Hg Hv]%andb_true_iff. apply target_dict_wf in Hg, Hv.
  cbn [json_wf topology_dict forallb snd andb]. cbn [json_wf] in Hg, Hv. by rewrite Hg, Hv.
Qed.
Lemma topology_json_inj t1 t2 : typed_topology t1 = true → typed_topology t2 = true →
  topology_canonical_json t1 = topology_canonical_json t2 → t1 = t2.
Proof.
  intros H1 H2. unfold topology_canonical_json. rewrite canonical_json_inj by by apply topology_wf. intros Heq.
  assert (∀ k, sort_keys (get k (topology_dict t1)) = sort_keys (get k (topology_dict t2))) as Hget.
  { intros k. cbn [sort_keys] in Heq. apply (f_equal (λ v, match v with JObj d => get k d | _ => JNull end)) in Heq.
    fold (sorted_dict (topology_dict t1)) (sorted_dict (topology_dict t2)) in Heq. by rewrite !get_sorted in Heq. }
  pose proof (Hget "schema_version") as G1. pose proof (Hget "project_scope") as G2. pose proof (Hget "requested_backend") as G3.
  pose proof (Hget "forced_local") as G4. pose proof (Hget "generation_id") as G5. pose proof (Hget "graph") as G6.
  pose proof (Hget "vector") as G7. clear Hget Heq.
  unfold typed_topology in *. apply andb_true_iff in H1 as [H1 H1'], H2 as [H2 H2'].
  apply (target_dict_inj (tp_graph t1) (tp_graph t2)) in G6; [|done..]. apply (target_dict_inj (tp_vector t1) (tp_vector t2)) in G7; [|done..].
  destruct t1, t2. cbn in *. congruence.
Qed.
Lemma topology_fingerprint_inj t1 t2 : tp_version t1 = tp_version t2 → typed_topology t1 = true → typed_topology t2 = true →
  topology_fingerprint t1 = topology_fingerprint t2 → t1 = t2.
Proof.
  intros Hv H1 H2. unfold topology_fingerprint. rewrite Hv. intros Heq%str_app_inj_l%str_app_inj_l%str_app_inj_l%no_collision.
  by apply topology_json_inj.
Qed.
Lemma for_generation_made id t t' : for_generation id t = Ok t' →
  tp_version t' = TARGET_SCHEMA_VERSION ∧ tp_graph t' = tp_graph t ∧ tp_vector t' = tp_vector t.
Proof.
  unfold for_generation, make_topology. destruct (is_empty (strip id)); [done|].
  cbv zeta. repeat (match goal with |- (if ?b then _ else _) = _ → _ => destruct b eqn:?; [done|] end).
  intros [= <-]. split_and!; [|done..]. by apply negb_false_iff, Z.eqb_eq in Heqb2.
Qed.
Lemma for_generation_typed id t t' : for_generation id t = Ok t' → typed_topology t = true → typed_topology t' = true.
Proof. intros (_ & Hg & Hv)%for_generation_made. unfold typed_topology. by rewrite Hg, Hv. Qed.
(** What two topologies record for a generation agrees only when they agree. *)
Lemma compatibility_inj id t1 t2 b1 b2 : typed_topology t1 = true → typed_topology t2 = true →
  for_generation id t1 = Ok b1 → for_generation id t2 = Ok b2 →
  json_equal (JObj (compatibility_metadata b1)) (JObj (compatibility_metadata b2)) = true → b1 = b2.
Proof.
  intros H1 H2 Hb1 Hb2 Heq. unfold json_equal in Heq. apply bool_decide_eq_true in Heq. cbn [sort_keys] in Heq.
  fold (sorted_dict (compatibility_metadata b1)) (sorted_dict (compatibility_metadata b2)) in Heq.
  apply (f_equal (λ v, match v with JObj d => get "topology_fingerprint" d | _ => JNull end)) in Heq. rewrite !get_sorted in Heq.
  assert (topology_fingerprint b1 = topology_fingerprint b2) as Hf by (cbn in Heq; congruence).
  apply topology_fingerprint_inj in Hf; [done| |by eapply for_generation_typed..].
  by destruct (for_generation_made _ _ _ Hb1) as [-> _], (for_generation_made _ _ _ Hb2) as [-> _].
Qed.
Lemma json_equal_refl v : json_equal v v = true.
Proof. unfold json_equal. by apply bool_decide_eq_true. Qed.

Lemma whole_metadata {A} b (x y : A) : match compatibility_metadata b with [] => x | _ => y end = y.
Proof. done. Qed.

(** What a manager of topology [t] records and demands ([_storage_compatibility_for]). *)
Definition _storage_compatibility_for (t : EffectiveStorageTopology) (generation_id : string) : res dict :=
  b ← for_generation generation_id t; mret (compatibility_metadata b).
Context (root : path) (target : PhysicalTargetKey) (cwd : path) (realpath : path → path) (is_symlink : path → bool).
Abbreviation allocate t := (allocate root target (_storage_compatibility_for t) realpath is_symlink).
Abbreviation validate_storage_target t := (_validate_storage_target (_storage_compatibility_for t)).

(** C26: A generation belongs to the topology it was allocated for: a manager
    accepts its manifest exactly when it would bind its own topology to the
    generation in the same way, so that any difference in the backend, the scope,
    or a target's endpoint, name, role, mode or principal is refused. *)
Theorem topology_fences_generation (t1 t2 : EffectiveStorageTopology) o source id now g g' m
    (Htyped : typed_topology t1 = true ∧ typed_topology t2 = true)
    (Halloc : allocate t1 o source id now g = (Ok m, g')) :
  validate_storage_target t2 m = Ok () ↔ for_generation (gm_generation_id m) t2 = for_generation (gm_generation_id m) t1.
Proof.
  destruct Htyped as [H1 H2].
  assert (∃ b1, for_generation (gm_generation_id m) t1 = Ok b1 ∧ gm_validation m = [("storage_compatibility", JObj (compatibility_metadata b1))]) as (b1 & Hb1 & Hval).
  { revert Halloc. unfold Generation.allocate, mbind, st_bind, st_lift.
    destruct (_safe_generation_id id) as [i|]; [|done]. unfold _storage_compatibility_for.
    destruct (for_generation i t1) as [b1|] eqn:Hb; [|done]. cbn [mbind result_bind mret result_ret].
    destruct (_write_generation_record _ _ _ _ _) as [[u|] g1]; [|done]. unfold mret, st_ret. intros [= <- <-]. exists b1. by split. }
  rewrite Hb1. unfold Generation._validate_storage_target, _storage_compatibility_for.
  destruct (for_generation (gm_generation_id m) t2) as [b2|] eqn:Hb2; [|done]. cbn [mbind result_bind mret result_ret].
  rewrite Hval. change (get "storage_compatibility" [("storage_compatibility", ?v)]) with v. cbv iota. split.
  - rewrite whole_metadata. destruct (json_equal _ _) eqn:Hj; [|done]. intros _.
    f_equal. symmetry. by apply (compatibility_inj (gm_generation_id m) t1 t2).
  - intros [= ->]. by rewrite whole_metadata, json_equal_refl.
Qed.
End fence.

(** * Instances *)

#[local] Instance text_digest : Sha256 := λ s, s.
Definition local_example : EffectiveStorageTarget :=
  MkTarget "graph" "falkordb" "file" "embedded" "hyper_graph" "code" false None JNull JNull (JInt 1).
Definition local_args : target_args :=
  MkTargetArgs (JStr "graph") (JStr "falkordb") (JStr "file") (JStr "embedded") (JStr "hyper_graph") (JStr "code")
    (JBool false) JNull JNull JNull (JInt 1).
Lemma target_reads_back_witness :
  make_target id local_args = Ok local_example ∧
  target_from_json id (target_canonical_json local_example) = Ok local_example ∧
  (target_fingerprint <$> target_from_json id (target_canonical_json local_example)) = Ok (target_fingerprint local_example).
Proof. split; [reflexivity|]. apply (target_reads_back id local_args local_example); [reflexivity|reflexivity|by split]. Defined.
Lemma child_target_agrees_witness :
  let env : environment := {["CORTEX_EFFECTIVE_GRAPH_TARGET" := target_canonical_json local_example]} in
  effective_graph_target_from_env id env = Ok local_example.
Proof.
  intros env. change (effective_graph_target_from_env id env = if bool_decide (local_example = local_example) then Ok local_example else Err ValueError).
  assert (_runtime_graph_target_from_env id env = Ok local_example) as Hr by (vm_compute; reflexivity).
  pose proof (proj2 (child_target_agrees id env) local_args local_example eq_refl eq_refl (conj eq_refl eq_refl) eq_refl eq_refl) as H.
  rewrite Hr in H. exact H.
Defined.
Definition example_topology (scope : string) : EffectiveStorageTopology :=
  MkTopology scope "local" true local_example
    (MkTarget "vector" "qdrant" "file" "embedded" "code_chunks" "code" false None JNull JNull (JInt 1)) "unbound" 1.
Lemma topology_fences_generation_witness :
  ∃ m g, allocate ["store"] (MkPhysicalTargetKey (JStr "i") (JStr "o") (JStr "g") (JStr "v"))
    (_storage_compatibility_for (example_topology "one")) id (λ _, false) Written "r1" "gen-1" "now" (MkManager empty_files fresh_memory) = (Ok m, g) ∧
  _validate_storage_target (_storage_compatibility_for (example_topology "one")) m = Ok () ∧
  _validate_storage_target (_storage_compatibility_for (example_topology "two")) m ≠ Ok ().
Proof.
  destruct (allocate _ _ _ _ _ _ _ _ _ _) as [[m|e] g] eqn:E; [|vm_compute in E; discriminate].
  assert (gm_generation_id m = "gen-1") as Hid by (vm_compute in E; by injection E as <- _).
  assert (CollisionFree text_digest) as Hsha by (intros ? ?; exact id).
  exists m, g. split; [done|]. split.
  - by apply (topology_fences_generation Hsha _ _ _ _ (example_topology "one") (example_topology "one") _ _ _ _ _ _ m (conj eq_refl eq_refl) E).
  - intros Hv. apply (topology_fences_generation Hsha _ _ _ _ (example_topology "one") (example_topology "two") _ _ _ _ _ _ m (conj eq_refl eq_refl) E) in Hv.
    rewrite Hid in Hv. vm_compute in Hv. discriminate.
Defined.
