(* ===== verification/Reliability.v ===== *)
(** Outcomes of runs ([code-tiny/tools/common/reliability.py]): the phases of a
    run, the records a child process leaves for its parent, their bounded
    details, and the exit codes.  [float(value)] and [round(value, 3)] are
    parameters: a float is the text JSON has for it. *)
From S2P Require Import Prelude Json Text PyValue Models Store Identity Db Contracts Scope Url.
#[local] Open Scope string_scope.

Definition RELIABILITY_SCHEMA_VERSION : string := "1.0".
Definition MAX_DETAIL_ITEMS : nat := 100.
Definition MAX_DETAIL_STRING_CHARS : nat := 2048.

(** * Enumerations *)

Module RunPhase.
Inductive RunPhase :=
  | CREATED | DISCOVERING | PARSING | VALIDATING | PREPARING | WRITING_NODES | VERIFYING_NODES
  | WRITING_RELATIONS | VERIFYING_GENERATION | PUBLISHING | RECONCILING | FINISHED.
#[export] Instance eq_dec : EqDecision RunPhase.
Proof. solve_decision. Defined.
Definition value (p : RunPhase) : string :=
  match p with
  | CREATED => "created" | DISCOVERING => "discovering" | PARSING => "parsing" | VALIDATING => "validating"
  | PREPARING => "preparing" | WRITING_NODES => "writing_nodes" | VERIFYING_NODES => "verifying_nodes"
  | WRITING_RELATIONS => "writing_relations" | VERIFYING_GENERATION => "verifying_generation"
  | PUBLISHING => "publishing" | RECONCILING => "reconciling" | FINISHED => "finished"
  end.
Definition members : list RunPhase :=
  [CREATED; DISCOVERING; PARSING; VALIDATING; PREPARING; WRITING_NODES; VERIFYING_NODES; WRITING_RELATIONS;
   VERIFYING_GENERATION; PUBLISHING; RECONCILING; FINISHED].
(** [_ALLOWED_TRANSITIONS] *)
Definition _ALLOWED_TRANSITIONS (p : RunPhase) : list RunPhase :=
  match p with
  | CREATED => [DISCOVERING]
  | DISCOVERING => [PARSING; VALIDATING; FINISHED]
  | PARSING => [VALIDATING; FINISHED]
  | VALIDATING => [PREPARING; FINISHED]
  | PREPARING => [WRITING_NODES; FINISHED]
  | WRITING_NODES => [VERIFYING_NODES; FINISHED]
  | VERIFYING_NODES => [WRITING_RELATIONS; FINISHED]
  | WRITING_RELATIONS => [VERIFYING_GENERATION; FINISHED]
  | VERIFYING_GENERATION => [PUBLISHING; FINISHED]
  | PUBLISHING => [FINISHED]
  | RECONCILING => [WRITING_NODES; VERIFYING_NODES; WRITING_RELATIONS; VERIFYING_GENERATION; PUBLISHING; FINISHED]
  | FINISHED => []
  end.
Definition validate_transition (current target : RunPhase) : res unit :=
  if bool_decide (target ∈ _ALLOWED_TRANSITIONS current) then Ok () else Err ValueError.
End RunPhase.
Abbreviation RunPhase := RunPhase.RunPhase.
#[export] Existing Instance RunPhase.eq_dec.

Module RunOutcome.
Inductive RunOutcome :=
  | SUCCESS | SUCCESS_WITH_QUARANTINE | NO_CHANGES | FAILED_RETRYABLE | FAILED_TERMINAL | CANCELLED | AMBIGUOUS.
#[export] Instance eq_dec : EqDecision RunOutcome.
Proof. solve_decision. Defined.
Definition value (o : RunOutcome) : string :=
  match o with
  | SUCCESS => "success" | SUCCESS_WITH_QUARANTINE => "success_with_quarantine" | NO_CHANGES => "no_changes"
  | FAILED_RETRYABLE => "failed_retryable" | FAILED_TERMINAL => "failed_terminal" | CANCELLED => "cancelled"
  | AMBIGUOUS => "ambiguous"
  end.
Definition members : list RunOutcome :=
  [SUCCESS; SUCCESS_WITH_QUARANTINE; NO_CHANGES; FAILED_RETRYABLE; FAILED_TERMINAL; CANCELLED; AMBIGUOUS].
(** Membership in the two sets of the code. *)
Definition failed (o : RunOutcome) : bool :=
  match o with FAILED_RETRYABLE | FAILED_TERMINAL | AMBIGUOUS => true | _ => false end.
Definition successful (o : RunOutcome) : bool :=
  match o with SUCCESS | SUCCESS_WITH_QUARANTINE | NO_CHANGES => true | _ => false end.
End RunOutcome.
Abbreviation RunOutcome := RunOutcome.RunOutcome.
#[export] Existing Instance RunOutcome.eq_dec.

Module FailureClass.
Inductive FailureClass :=
  | INPUT_VALIDATION | PARSER_ISOLATION | SOURCE_CHANGED | LOCK | CAPACITY | STORAGE_UNAVAILABLE | TIMEOUT
  | AMBIGUOUS_MUTATION | INTEGRITY | JOURNAL_RECOVERY | CONFIGURATION | INTERNAL_DEFECT.
#[export] Instance eq_dec : EqDecision FailureClass.
Proof. solve_decision. Defined.
Definition value (c : FailureClass) : string :=
  match c with
  | INPUT_VALIDATION => "input_validation" | PARSER_ISOLATION => "parser_isolation" | SOURCE_CHANGED => "source_changed"
  | LOCK => "lock" | CAPACITY => "capacity" | STORAGE_UNAVAILABLE => "storage_unavailable" | TIMEOUT => "timeout"
  | AMBIGUOUS_MUTATION => "ambiguous_mutation" | INTEGRITY => "integrity" | JOURNAL_RECOVERY => "journal_recovery"
  | CONFIGURATION => "configuration" | INTERNAL_DEFECT => "internal_defect"
  end.
Definition members : list FailureClass :=
  [INPUT_VALIDATION; PARSER_ISOLATION; SOURCE_CHANGED; LOCK; CAPACITY; STORAGE_UNAVAILABLE; TIMEOUT;
   AMBIGUOUS_MUTATION; INTEGRITY; JOURNAL_RECOVERY; CONFIGURATION; INTERNAL_DEFECT].
End FailureClass.
Abbreviation FailureClass := FailureClass.FailureClass.
#[export] Existing Instance FailureClass.eq_dec.

(** * Bounded details *)

(** [s[:n]]: the first [n] characters of a UTF-8 text. *)
Definition is_continuation (c : ascii) : bool := let n := Ascii.nat_of_ascii c in ((128 <=? n) && (n <? 192))%nat.
Fixpoint take_chars (n : nat) (s : string) : string :=
  match s with
  | EmptyString => EmptyString
  | String c s =>
      if is_continuation c then String c (take_chars n s)
      else match n with O => EmptyString | S n => String c (take_chars n s) end
  end.
(** [_SENSITIVE_KEY_RE], on ASCII letters. *)
Definition sensitive_words : list string :=
  ["authorization"; "cookie"; "password"; "passwd"; "secret"; "token"; "apikey"; "api_key"; "api-key";
   "privatekey"; "private_key"; "private-key"].
Definition sensitive_key (key : string) : bool := existsb (λ w, contains w (casefold key)) sensitive_words.
(** The loop over the items of a mapping, which are sorted and bounded. *)
Fixpoint collect_items (n : nat) (items : list (string * json)) (acc : dict) {struct items} : dict :=
  match items with
  | [] => acc
  | (k, v) :: items =>
      match n with
      | O => setitem "_truncated" (JBool true) acc
      | S n => collect_items n items (setitem k v acc)
      end
  end.
Definition detail_key (k : string) : string := take_chars 128 k.
(** [_bounded_json_value]; [room] is how many levels may follow.  Details are JSON
    values here: the branch for an [Enum], whose value is returned as it is, and the
    text of any other object, which ends the function, are not modelled. *)
Fixpoint bounded_value (room : nat) (key : string) (v : json) : json :=
  if sensitive_key key then JStr "<redacted>"
  else match room with
  | O => JStr "<depth-limit>"
  | S room =>
      match v with
      | JStr s => JStr (take_chars MAX_DETAIL_STRING_CHARS s)
      | JObj l =>
          JObj (collect_items MAX_DETAIL_ITEMS
            (map (λ kv, (detail_key kv.1, bounded_value room (detail_key kv.1) kv.2)) (order_by fst l)) [])
      | JArr l =>
          JArr (map (bounded_value room "") (firstn MAX_DETAIL_ITEMS l)
                ++ if (MAX_DETAIL_ITEMS <? length l)%nat then [JStr "<truncated>"] else [])
      | v => v
      end
  end.
Definition _bounded_json_value (v : json) : json := bounded_value 9 "" v.
Definition bounded_details (d : dict) : dict := match _bounded_json_value (JObj d) with JObj d => d | _ => [] end.

(** * Records *)

(** [for item in value], where each item is then indexed by a text: the items
    of a text or an object are texts, which refuse that. *)
Definition items_of (v : json) : res (list json) :=
  match v with
  | JArr l => Ok l
  | JStr s => if is_empty s then Ok [] else Err TypeError
  | JObj [] => Ok []
  | _ => Err TypeError
  end.
(** [item["key"]] and [item.get("key")] on what is no mapping. *)
Definition mapping_of (v : json) : res dict := match v with JObj d => Ok d | _ => Err TypeError end.
Definition str_item (k : string) (d : dict) : res string := v ← getitem k d; mret (py_str v).
(** [str(d.get(k) or "")] and [int(d.get(k) or 0)] *)
Definition str_or_empty (k : string) (d : dict) : string := py_str (py_or (get k d) (JStr "")).
Definition int_or_zero (k : string) (d : dict) : res Z := py_int (py_or (get k d) (JInt 0)).
Definition blank (s : string) : bool := is_empty (strip s).

Record ArtifactReference := MkArtifactReference {
  ar_kind : string; ar_path : string; ar_sha256 : string; ar_byte_count : Z; ar_item_count : Z;
}.
Definition make_artifact (a : ArtifactReference) : res ArtifactReference :=
  if blank (ar_kind a) || blank (ar_path a) then Err ValueError
  else if (ar_byte_count a <? 0)%Z || (ar_item_count a <? 0)%Z then Err ValueError
  else Ok a.
Definition artifact_to_dict (a : ArtifactReference) : dict :=
  [("kind", JStr (ar_kind a)); ("path", JStr (ar_path a)); ("sha256", JStr (ar_sha256 a));
   ("byte_count", JInt (ar_byte_count a)); ("item_count", JInt (ar_item_count a))].
Definition artifact_from_dict (payload : dict) : res ArtifactReference :=
  kind ← str_item "kind" payload; path ← str_item "path" payload;
  byte_count ← int_or_zero "byte_count" payload; item_count ← int_or_zero "item_count" payload;
  make_artifact (MkArtifactReference kind path (str_or_empty "sha256" payload) byte_count item_count).
Definition artifacts_of (v : json) : res (list ArtifactReference) :=
  items ← items_of v; mapM (λ item, d ← mapping_of item; artifact_from_dict d) items.

Record FailureRecord := MkFailureRecord {
  fl_code : string; fl_class : FailureClass; fl_phase : RunPhase; fl_component : string; fl_retryable : bool;
  fl_run_id : string; fl_correlation_id : string; fl_summary : string; fl_safe_action : string;
  fl_artifacts : list ArtifactReference; fl_details : dict;
}.
#[export] Instance failure_eta : Eta FailureRecord := λ f,
  MkFailureRecord (fl_code f) (fl_class f) (fl_phase f) (fl_component f) (fl_retryable f) (fl_run_id f)
    (fl_correlation_id f) (fl_summary f) (fl_safe_action f) (fl_artifacts f) (fl_details f).
Definition make_failure (f : FailureRecord) : res FailureRecord :=
  if existsb blank [fl_code f; fl_component f; fl_run_id f; fl_correlation_id f; fl_summary f; fl_safe_action f]
  then Err ValueError
  else Ok (f <| fl_details ::= bounded_details |>).
Definition failure_to_dict (f : FailureRecord) : dict :=
  [("code", JStr (fl_code f)); ("class", JStr (FailureClass.value (fl_class f))); ("phase", JStr (RunPhase.value (fl_phase f)));
   ("component", JStr (fl_component f)); ("retryable", JBool (fl_retryable f)); ("run_id", JStr (fl_run_id f));
   ("correlation_id", JStr (fl_correlation_id f)); ("summary", JStr (take_chars MAX_DETAIL_STRING_CHARS (fl_summary f)));
   ("safe_action", JStr (take_chars MAX_DETAIL_STRING_CHARS (fl_safe_action f)));
   ("artifacts", JArr (map (λ a, JObj (artifact_to_dict a)) (fl_artifacts f)));
   ("details", _bounded_json_value (JObj (fl_details f)))].
Definition failure_from_dict (payload : dict) : res FailureRecord :=
  code ← str_item "code" payload;
  class ← str_item "class" payload; class ← enum_of_value FailureClass.value FailureClass.members class;
  phase ← str_item "phase" payload; phase ← enum_of_value RunPhase.value RunPhase.members phase;
  component ← str_item "component" payload;
  run_id ← str_item "run_id" payload; correlation_id ← str_item "correlation_id" payload;
  summary ← str_item "summary" payload; safe_action ← str_item "safe_action" payload;
  artifacts ← artifacts_of (get_default "artifacts" (JArr []) payload);
  details ← py_dict (py_or (get "details" payload) (JObj []));
  make_failure (MkFailureRecord code class phase component (truthy (get_default "retryable" (JBool false) payload))
    run_id correlation_id summary safe_action artifacts details).

Record PhaseResult := MkPhaseResult {
  ph_phase : RunPhase; ph_expected : Z; ph_accepted : Z; ph_quarantined : Z; ph_rejected : Z; ph_attempted : Z;
  ph_persisted : Z; ph_unresolved : Z; ph_ambiguous : Z; ph_elapsed_ms : string; ph_fingerprint : string;
}.
Definition phase_counts (p : PhaseResult) : list Z :=
  [ph_expected p; ph_accepted p; ph_quarantined p; ph_rejected p; ph_attempted p; ph_persisted p; ph_unresolved p; ph_ambiguous p].
Definition make_phase (p : PhaseResult) : res PhaseResult :=
  if existsb (λ n, n <? 0)%Z (phase_counts p) then Err ValueError
  else if negb (ph_expected p =? ph_accepted p + ph_quarantined p + ph_rejected p)%Z then Err ValueError
  else if negb (ph_attempted p =? ph_persisted p + ph_unresolved p + ph_ambiguous p)%Z then Err ValueError
  else Ok p.

Record RunResult := MkRunResult {
  rr_run_id : string; rr_correlation_id : string; rr_outcome : RunOutcome; rr_phase : RunPhase; rr_component : string;
  rr_failure : option FailureRecord; rr_phase_results : list PhaseResult; rr_artifacts : list ArtifactReference;
  rr_current_generation : string; rr_retained_generation : string; rr_retry_after_seconds : option string;
  rr_started_at : string; rr_finished_at : string; rr_schema_version : string;
}.
(** [x < 0], for the text of a float. *)
Definition negative_float (r : string) : bool := startswith "-" r && truthy (JFloat r).
Definition retryable_failure (f : option FailureRecord) : bool := match f with Some f => fl_retryable f | None => false end.
Definition has_failure (f : option FailureRecord) : bool := match f with Some _ => true | None => false end.
#[export] Instance run_result_eta : Eta RunResult := λ r,
  MkRunResult (rr_run_id r) (rr_correlation_id r) (rr_outcome r) (rr_phase r) (rr_component r) (rr_failure r)
    (rr_phase_results r) (rr_artifacts r) (rr_current_generation r) (rr_retained_generation r)
    (rr_retry_after_seconds r) (rr_started_at r) (rr_finished_at r) (rr_schema_version r).
(** [__post_init__] *)
Definition make_run_result (r : RunResult) : res RunResult :=
  if blank (rr_run_id r) || blank (rr_correlation_id r) || blank (rr_component r) then Err ValueError
  else if negb (Bool.eqb (RunOutcome.failed (rr_outcome r)) (has_failure (rr_failure r))) then Err ValueError
  else if bool_decide (rr_outcome r = RunOutcome.FAILED_RETRYABLE) && negb (retryable_failure (rr_failure r)) then Err ValueError
  else if bool_decide (rr_outcome r = RunOutcome.AMBIGUOUS) && retryable_failure (rr_failure r) then Err ValueError
  else if from_option negative_float false (rr_retry_after_seconds r) then Err ValueError
  else Ok r.
Definition should_retry (r : RunResult) : bool :=
  bool_decide (rr_outcome r = RunOutcome.FAILED_RETRYABLE) && has_failure (rr_failure r) && retryable_failure (rr_failure r).

Section floats.
Context (py_float : json → res string) (round3 : string → string).

Definition phase_to_dict (p : PhaseResult) : dict :=
  [("phase", JStr (RunPhase.value (ph_phase p))); ("expected", JInt (ph_expected p)); ("accepted", JInt (ph_accepted p));
   ("quarantined", JInt (ph_quarantined p)); ("rejected", JInt (ph_rejected p)); ("attempted", JInt (ph_attempted p));
   ("persisted", JInt (ph_persisted p)); ("unresolved", JInt (ph_unresolved p)); ("ambiguous", JInt (ph_ambiguous p));
   ("elapsed_ms", JFloat (round3 (ph_elapsed_ms p))); ("fingerprint", JStr (ph_fingerprint p))].
Definition phase_from_dict (payload : dict) : res PhaseResult :=
  phase ← str_item "phase" payload; phase ← enum_of_value RunPhase.value RunPhase.members phase;
  expected ← int_or_zero "expected" payload; accepted ← int_or_zero "accepted" payload;
  quarantined ← int_or_zero "quarantined" payload; rejected ← int_or_zero "rejected" payload;
  attempted ← int_or_zero "attempted" payload; persisted ← int_or_zero "persisted" payload;
  unresolved ← int_or_zero "unresolved" payload; ambiguous ← int_or_zero "ambiguous" payload;
  elapsed ← py_float (py_or (get "elapsed_ms" payload) (JFloat "0.0"));
  make_phase (MkPhaseResult phase expected accepted quarantined rejected attempted persisted unresolved ambiguous
    elapsed (str_or_empty "fingerprint" payload)).
Definition run_result_to_dict (r : RunResult) : dict :=
  [("schema_version", JStr (rr_schema_version r)); ("run_id", JStr (rr_run_id r)); ("correlation_id", JStr (rr_correlation_id r));
   ("outcome", JStr (RunOutcome.value (rr_outcome r))); ("phase", JStr (RunPhase.value (rr_phase r)));
   ("component", JStr (rr_component r));
   ("failure", match rr_failure r with Some f => JObj (failure_to_dict f) | None => JNull end);
   ("phase_results", JArr (map (λ p, JObj (phase_to_dict p)) (rr_phase_results r)));
   ("artifacts", JArr (map (λ a, JObj (artifact_to_dict a)) (rr_artifacts r)));
   ("current_generation", JStr (rr_current_generation r)); ("retained_generation", JStr (rr_retained_generation r));
   ("retry_after_seconds", match rr_retry_after_seconds r with Some s => JFloat s | None => JNull end);
   ("started_at", JStr (rr_started_at r)); ("finished_at", JStr (rr_finished_at r))].
(** The text before the first dot. *)
Definition major (version : string) : string := (partition "." version).1.
Definition run_result_fields (payload : dict) : res RunResult :=
  let version := str_or_empty "schema_version" payload in
  if negb (String.eqb (major version) (major RELIABILITY_SCHEMA_VERSION)) then Err ValueError
  else
    run_id ← str_item "run_id" payload; correlation_id ← str_item "correlation_id" payload;
    outcome ← str_item "outcome" payload; outcome ← enum_of_value RunOutcome.value RunOutcome.members outcome;
    phase ← str_item "phase" payload; phase ← enum_of_value RunPhase.value RunPhase.members phase;
    component ← str_item "component" payload;
    failure ← match get "failure" payload with JObj d => f ← failure_from_dict d; mret (Some f) | _ => mret None end;
    items ← items_of (get_default "phase_results" (JArr []) payload);
    phase_results ← mapM (λ item, d ← mapping_of item; phase_from_dict d) items;
    artifacts ← artifacts_of (get_default "artifacts" (JArr []) payload);
    retry ← match get "retry_after_seconds" payload with JNull => mret None | v => s ← py_float v; mret (Some s) end;
    make_run_result (MkRunResult run_id correlation_id outcome phase component failure phase_results artifacts
      (str_or_empty "current_generation" payload) (str_or_empty "retained_generation" payload) retry
      (str_or_empty "started_at" payload) (str_or_empty "finished_at" payload) version).
Definition run_result_from_dict (payload : dict) : res RunResult :=
  match assoc "run_result" payload with
  | Some (JObj nested) => run_result_fields nested
  | Some _ => Err ValueError
  | None => run_result_fields payload
  end.
(** [load_run_result], of the value in the file. *)
Definition load_run_result (v : json) : res RunResult :=
  match v with JObj payload => run_result_from_dict payload | _ => Err ValueError end.
End floats.

(** * Exit codes *)

Module ReliabilityExitCode.
Definition SUCCESS : Z := 0.
Definition LEGACY_FAILURE : Z := 1.
Definition LEGACY_LOCK_BUSY : Z := 2.
Definition TERMINAL_FAILURE : Z := 10.
Definition RETRYABLE_FAILURE : Z := 11.
Definition AMBIGUOUS : Z := 12.
Definition CANCELLED : Z := 13.
Definition INTERNAL_DEFECT : Z := 14.
End ReliabilityExitCode.
Definition failure_is (c : FailureClass) (f : option FailureRecord) : bool :=
  match f with Some f => bool_decide (fl_class f = c) | None => false end.
Definition exit_code_for (r : RunResult) (observe_only : bool) : Z :=
  if RunOutcome.successful (rr_outcome r) then ReliabilityExitCode.SUCCESS
  else if observe_only then
    if failure_is FailureClass.LOCK (rr_failure r) then ReliabilityExitCode.LEGACY_LOCK_BUSY
    else ReliabilityExitCode.LEGACY_FAILURE
  else match rr_outcome r with
    | RunOutcome.FAILED_RETRYABLE => ReliabilityExitCode.RETRYABLE_FAILURE
    | RunOutcome.AMBIGUOUS => ReliabilityExitCode.AMBIGUOUS
    | RunOutcome.CANCELLED => ReliabilityExitCode.CANCELLED
    | _ => if failure_is FailureClass.INTERNAL_DEFECT (rr_failure r) then ReliabilityExitCode.INTERNAL_DEFECT
           else ReliabilityExitCode.TERMINAL_FAILURE
    end.
(** [fingerprint_rows] *)
Definition fingerprint_rows `{Sha256} (rows : list dict) : string :=
  sha256_hex (String.concat "" (map (λ row, row +:+ String (Ascii.ascii_of_nat 10) "")
    (order_by id (map (λ row, canonical_json (JObj (bounded_details row))) rows)))).

(** * Details are bounded *)


(** * Phases in order *)

Import RunPhase.
(** A run that starts in [p] and goes through the phases [ps]. *)
Fixpoint run_from (p : RunPhase) (ps : list RunPhase) : bool :=
  match ps with [] => true | q :: ps => is_ok (validate_transition p q) && run_from q ps end.
Definition phase_rank (p : RunPhase) : nat :=
  match p with
  | CREATED => 0 | DISCOVERING => 1 | PARSING => 2 | VALIDATING => 3 | PREPARING => 4 | RECONCILING => 4
  | WRITING_NODES => 5 | VERIFYING_NODES => 6 | WRITING_RELATIONS => 7 | VERIFYING_GENERATION => 8
  | PUBLISHING => 9 | FINISHED => 10
  end.
Lemma transition_ok p q : is_ok (validate_transition p q) = true ↔ q ∈ _ALLOWED_TRANSITIONS p.
Proof. unfold validate_transition. case_bool_decide; by split. Qed.
Lemma transition_advances p q : is_ok (validate_transition p q) = true → (phase_rank p < phase_rank q)%nat.
Proof. destruct p, q; vm_compute; (lia || done). Qed.
Lemma run_length p ps : run_from p ps = true → (length ps + phase_rank p <= 10)%nat.
Proof.
  revert p. induction ps as [|q ps IH]; intros p; cbn; [destruct p; cbn; lia|].
  intros [Hq%transition_advances Hps%IH]%andb_true_iff. lia.
Qed.
(** All runs of at most [n] phases. *)
Fixpoint runs (n : nat) (p : RunPhase) : list (list RunPhase) :=
  match n with
  | O => [[]]
  | S n => [] :: List.concat (map (λ q, map (cons q) (runs n q)) (_ALLOWED_TRANSITIONS p))
  end.
Lemma runs_complete n p ps : run_from p ps = true → (length ps <= n)%nat → In ps (runs n p).
Proof.
  revert p ps. induction n as [|n IH]; intros p [|q ps] Hr Hn; [by left|cbn in Hn; lia|by left|].
  cbn in Hr, Hn. apply andb_true_iff in Hr as [Hq%transition_ok Hps]. right. apply in_concat.
  exists (map (cons q) (runs n q)). split; [|apply in_map, IH; [done|lia]].
  apply in_map_iff. exists q. split; [done|]. by apply list_elem_of_In.
Qed.
(** The phases of [ps] up to the first [q] include [before], in this order. *)
Fixpoint ordered_before (before : list RunPhase) (q : RunPhase) (ps : list RunPhase) : bool :=
  match ps with
  | [] => true
  | p :: ps =>
      if bool_decide (p = q) then bool_decide (before = [])
      else match before with
           | b :: before' => if bool_decide (p = b) then ordered_before before' q ps else ordered_before before q ps
           | [] => ordered_before [] q ps
           end
  end.
(** From its creation a run goes through at most ten phases, never twice
    through one and never into reconciliation; relations are written only after
    the nodes were written and verified, and a generation is published only after
    that and its own verification. *)
Theorem phases_in_order (ps : list RunPhase) (Hrun : run_from CREATED ps = true) :
  (length ps <= 10)%nat ∧ NoDup (CREATED :: ps) ∧ (RECONCILING ∉ ps) ∧
  ordered_before [VALIDATING; PREPARING; WRITING_NODES; VERIFYING_NODES] WRITING_RELATIONS ps = true ∧
  ordered_before [VALIDATING; PREPARING; WRITING_NODES; VERIFYING_NODES; WRITING_RELATIONS; VERIFYING_GENERATION] PUBLISHING ps = true.
Proof.
  pose proof (run_length _ _ Hrun) as Hl. cbn [phase_rank] in Hl.
  assert (forallb (λ ps, bool_decide (NoDup (CREATED :: ps)) && bool_decide (RECONCILING ∉ ps)
    && ordered_before [VALIDATING; PREPARING; WRITING_NODES; VERIFYING_NODES] WRITING_RELATIONS ps
    && ordered_before [VALIDATING; PREPARING; WRITING_NODES; VERIFYING_NODES; WRITING_RELATIONS; VERIFYING_GENERATION] PUBLISHING ps)
    (runs 10 CREATED) = true) as Hall by (vm_compute; reflexivity).
  rewrite forallb_forall in Hall. specialize (Hall ps). rewrite !andb_true_iff, !bool_decide_eq_true in Hall.
  destruct Hall as [[[H1 H2] H3] H4]; [apply runs_complete; [done|lia]|]. split_and!; (done || lia).
Qed.
Lemma phases_in_order_witness :
  let ps := [DISCOVERING; PARSING; VALIDATING; PREPARING; WRITING_NODES; VERIFYING_NODES; WRITING_RELATIONS; VERIFYING_GENERATION; PUBLISHING; FINISHED] in
  run_from CREATED ps = true ∧ (length ps <= 10)%nat.
Proof. intros ps. split; [reflexivity|]. apply (phases_in_order ps). reflexivity. Defined.
(** No phase leads to reconciliation: only a run that starts there is ever in it. *)
Lemma reconciling_unreachable p : validate_transition p RECONCILING = Err ValueError.
Proof. by destruct p. Qed.

(** * Exit codes *)

(** The exit code tells the parent exactly what the record says: with
    enforced codes, zero stands for a successful outcome, 11 for a result to retry,
    12 for an ambiguous one, whose failure must not be retried, and 13 for a
    cancelled one; without them, zero for success still, and 2 for a lock that was
    held. *)
Theorem exit_code_faithful (r r' : RunResult) (Hmade : make_run_result r = Ok r') :
  let code := exit_code_for r' false in
  (code = 0%Z ↔ RunOutcome.successful (rr_outcome r') = true) ∧
  (code = 11%Z ↔ should_retry r' = true) ∧
  (code = 12%Z ↔ rr_outcome r' = RunOutcome.AMBIGUOUS) ∧
  (code = 12%Z → retryable_failure (rr_failure r') = false) ∧
  (code = 13%Z ↔ rr_outcome r' = RunOutcome.CANCELLED) ∧
  (exit_code_for r' true = 0%Z ↔ code = 0%Z) ∧
  (exit_code_for r' true = 2%Z ↔ code ≠ 0%Z ∧ failure_is FailureClass.LOCK (rr_failure r') = true).
Proof.
  unfold make_run_result in Hmade. destruct (blank _ || _ || _); [done|].
  destruct (negb (Bool.eqb _ _)) eqn:E1; [done|]. destruct (_ && _) eqn:E2; [done|]. destruct (_ && _) eqn:E3 in Hmade; [done|].
  destruct (from_option _ _ _); [done|]. injection Hmade as <-. apply negb_false_iff, eqb_prop in E1.
  unfold exit_code_for, should_retry. destruct (rr_outcome r) eqn:Eo; cbn [RunOutcome.failed RunOutcome.successful] in *;
    destruct (rr_failure r) as [f|] eqn:Ef; cbn [has_failure retryable_failure failure_is] in *; try discriminate;
    repeat case_bool_decide; cbn in *; try discriminate; rewrite ?negb_false_iff in *; intuition (congruence || lia || done).
Qed.
Definition lock_failure : FailureRecord :=
  MkFailureRecord "lock_busy" FailureClass.LOCK DISCOVERING "sync" true "run" "run" "busy" "retry" [] [].
Definition busy_result : RunResult :=
  MkRunResult "run" "run" RunOutcome.FAILED_RETRYABLE DISCOVERING "sync" (Some lock_failure) [] [] "" "" None "" "" "1.0".
Lemma exit_code_faithful_witness :
  make_run_result busy_result = Ok busy_result ∧ should_retry busy_result = true ∧ exit_code_for busy_result false = 11%Z.
Proof. split; [reflexivity|]. split; [reflexivity|]. by apply (exit_code_faithful busy_result busy_result). Defined.

(** * Fingerprints of rows *)

(** The order of the rows does not matter. *)
Lemma fingerprint_rows_perm `{Sha256} rows1 rows2 : rows1 ≡ₚ rows2 → fingerprint_rows rows1 = fingerprint_rows rows2.
Proof. intros Hp. unfold fingerprint_rows. do 3 f_equal. apply order_by_id_perm. by apply Permutation_map. Qed.
(** Rows are redacted before they are hashed, so the fingerprint does not see a
    column whose name looks like a secret. *)
Lemma fingerprint_ignores_secrets `{Sha256} :
  fingerprint_rows [[("id", JInt 1); ("token_kind", JStr "IDENT")]] = fingerprint_rows [[("id", JInt 1); ("token_kind", JStr "NUMBER")]].
Proof. reflexivity. Qed.
(** A hundred and one details lose one when the record is made and another one
    when it is written. *)
Definition many_details : dict := map (λ n, ("k" +:+ print_int (100 + Z.of_nat n), JInt (Z.of_nat n))) (seq 0 101).
Lemma details_shrink_again :
  match make_failure (lock_failure <| fl_details := many_details |>) with
  | Ok f => length (fl_details f) = 101%nat ∧ get "k199" (fl_details f) = JInt 99 ∧
      match get "details" (failure_to_dict f) with JObj d => length d = 100%nat ∧ get "k199" d = JNull | _ => False end
  | Err _ => False
  end.
Proof. vm_compute. by repeat split. Qed.

(** * Records read back *)

Lemma sorted_str_item k d : str_item k (sorted_dict d) = v ← getitem k d; mret (py_str (sort_keys v)).
Proof. unfold str_item. rewrite getitem_sorted. by destruct (getitem k d). Qed.
Lemma phase_value p : enum_of_value RunPhase.value RunPhase.members (RunPhase.value p) = Ok p.
Proof. by destruct p. Qed.
Lemma outcome_value o : enum_of_value RunOutcome.value RunOutcome.members (RunOutcome.value o) = Ok o.
Proof. by destruct o. Qed.
Lemma class_value c : enum_of_value FailureClass.value FailureClass.members (FailureClass.value c) = Ok c.
Proof. by destruct c. Qed.
Lemma str_back s : py_str (py_or (JStr s) (JStr "")) = s.
Proof. by destruct s. Qed.
Lemma int_back n : py_int (py_or (JInt n) (JInt 0)) = Ok n.
Proof. unfold py_or. cbn. by destruct (Z.eqb_spec n 0) as [->|]. Qed.

Lemma artifact_back a : make_artifact a = Ok a → artifact_from_dict (sorted_dict (artifact_to_dict a)) = Ok a.
Proof.
  intros Ha. unfold artifact_from_dict, int_or_zero, str_or_empty. rewrite !sorted_str_item, !get_sorted.
  cbn [artifact_to_dict getitem get assoc String.eqb Ascii.eqb Bool.eqb default from_option id sort_keys mbind result_bind mret result_ret py_str].
  rewrite !int_back. cbn [mbind result_bind]. rewrite str_back. by destruct a.
Qed.
Lemma mapM_back {A B} (f : B → res A) (g : A → B) l : (∀ x, In x l → f (g x) = Ok x) → mapM f (map g l) = Ok l.
Proof.
  induction l as [|x l IH]; intros Hf; [done|]. cbn. rewrite Hf by by left. cbn [mbind result_bind].
  rewrite IH; [done|]. intros y Hy. apply Hf. by right.
Qed.
Lemma artifacts_back l : Forall (λ a, make_artifact a = Ok a) l →
  artifacts_of (sort_keys (JArr (map (λ a, JObj (artifact_to_dict a)) l))) = Ok l.
Proof.
  intros Hl. unfold artifacts_of. cbn [sort_keys items_of mbind result_bind]. rewrite map_map.
  apply mapM_back. intros a Ha. cbn [mapping_of sort_keys mbind result_bind]. fold (sorted_dict (artifact_to_dict a)).
  apply artifact_back. rewrite List.Forall_forall in Hl. by apply Hl.
Qed.
(** What storing and writing a failure leaves alone. *)
Record settled_failure (f : FailureRecord) : Prop := {
  sf_made : make_failure f = Ok f;
  sf_summary : take_chars MAX_DETAIL_STRING_CHARS (fl_summary f) = fl_summary f;
  sf_action : take_chars MAX_DETAIL_STRING_CHARS (fl_safe_action f) = fl_safe_action f;
  sf_details : sort_keys (JObj (fl_details f)) = JObj (fl_details f);
  sf_artifacts : Forall (λ a, make_artifact a = Ok a) (fl_artifacts f);
}.
Lemma settled_details f : make_failure f = Ok f → _bounded_json_value (JObj (fl_details f)) = JObj (fl_details f).
Proof.
  unfold make_failure. destruct (existsb _ _); [done|]. intros Hf. apply (f_equal (λ r, match r with Ok f => fl_details f | Err _ => [] end)) in Hf.
  change (bounded_details (fl_details f) = fl_details f) in Hf. rewrite <- Hf at 2. unfold bounded_details, _bounded_json_value.
  cbn [bounded_value]. by change (sensitive_key "") with false.
Qed.
Lemma failure_back f : settled_failure f → failure_from_dict (sorted_dict (failure_to_dict f)) = Ok f.
Proof.
  intros [Hm Hs Ha Hd Har]. pose proof (settled_details f Hm) as Hb.
  unfold failure_from_dict. rewrite !sorted_str_item, !get_default_sorted_keys, !get_sorted by done.
  unfold failure_to_dict. rewrite Hs, Ha, Hb.
  cbn [getitem get get_default assoc String.eqb Ascii.eqb Bool.eqb default from_option id mbind result_bind mret result_ret].
  cbn [sort_keys py_str]. rewrite phase_value, class_value. cbn [mbind result_bind].
  rewrite (artifacts_back (fl_artifacts f) Har : artifacts_of (JArr (map sort_keys _)) = _). cbn [mbind result_bind].
  assert (order_by fst (map (λ kv : string * json, (kv.1, sort_keys kv.2)) (fl_details f)) = fl_details f) as ->.
  { exact (f_equal (λ v, match v with JObj d => d | _ => [] end) Hd). }
  assert (py_dict (py_or (JObj (fl_details f)) (JObj [])) = Ok (fl_details f)) as -> by (by destruct (fl_details f)).
  cbn [mbind result_bind truthy]. by destruct f.
Qed.

Section read_back.
Context (py_float : json → res string) (round3 : string → string).
(** [float(x)] of a float is that float. *)
Context (Hfloat : ∀ r, py_float (JFloat r) = Ok r).

(** An accounting whose time is rounded, and zero only as [0.0]. *)
Record settled_phase (p : PhaseResult) : Prop := {
  sp_made : make_phase p = Ok p;
  sp_rounded : round3 (ph_elapsed_ms p) = ph_elapsed_ms p;
  sp_zero : truthy (JFloat (ph_elapsed_ms p)) = true ∨ ph_elapsed_ms p = "0.0";
}.
Lemma phase_back p : settled_phase p → phase_from_dict py_float (sorted_dict (phase_to_dict round3 p)) = Ok p.
Proof.
  intros [Hm Hr Hz]. unfold phase_from_dict, int_or_zero, str_or_empty. rewrite !sorted_str_item, !get_sorted.
  unfold phase_to_dict. rewrite Hr.
  cbn [getitem get assoc String.eqb Ascii.eqb Bool.eqb default from_option id sort_keys mbind result_bind mret result_ret py_str].
  rewrite phase_value. cbn [mbind result_bind]. rewrite !int_back. cbn [mbind result_bind].
  assert (py_or (JFloat (ph_elapsed_ms p)) (JFloat "0.0") = JFloat (ph_elapsed_ms p)) as ->.
  { unfold py_or. destruct Hz as [->| ->]; done. }
  rewrite Hfloat. cbn [mbind result_bind]. rewrite str_back. by destruct p.
Qed.
(** C40: A run result is read back from its file as it was written: the parent
    sees the outcome, the failure, the accounting and the artifacts the child
    recorded.  This is so for the valid results whose schema has the major version
    1, whose failure has a summary and a safe action of at most 2048 characters and
    details that are as bounding leaves them with keys in order, and whose times are
    rounded to three digits, a zero time being [0.0]; and provided reading a float
    returns the float.  Others may change: the writer cuts long texts again, and
    details with too many keys shrink twice ([details_shrink_again]). *)
Theorem run_result_reads_back (r : RunResult) (Hmade : make_run_result r = Ok r)
    (Hfailure : from_option settled_failure True (rr_failure r)) (Hphases : Forall settled_phase (rr_phase_results r))
    (Hartifacts : Forall (λ a, make_artifact a = Ok a) (rr_artifacts r))
    (Hversion : major (rr_schema_version r) = "1") :
  load_run_result py_float (sort_keys (JObj (run_result_to_dict round3 r))) = Ok r.
Proof.
  cbn [sort_keys load_run_result]. fold (sorted_dict (run_result_to_dict round3 r)).
  unfold run_result_from_dict. unfold sorted_dict at 1. rewrite assoc_order_by, assoc_map.
  cbn [run_result_to_dict assoc String.eqb Ascii.eqb Bool.eqb fmap option_fmap option_map]. fold (run_result_to_dict round3 r).
  unfold run_result_fields, str_or_empty. rewrite !sorted_str_item, !get_default_sorted_keys, !get_sorted by done.
  cbn [run_result_to_dict getitem get get_default assoc String.eqb Ascii.eqb Bool.eqb default from_option id mbind result_bind mret result_ret].
  cbn [sort_keys]. rewrite !str_back, Hversion. change (String.eqb "1" (major RELIABILITY_SCHEMA_VERSION)) with true.
  cbn [negb py_str]. rewrite outcome_value. cbn [mbind result_bind]. rewrite phase_value. cbn [mbind result_bind].
  assert (match sort_keys match rr_failure r with Some f => JObj (failure_to_dict f) | None => JNull end with
    | JObj d => f ← failure_from_dict d; mret (Some f) | _ => mret None end = Ok (rr_failure r)) as ->.
  { destruct (rr_failure r) as [f|]; [|done]. cbn [sort_keys]. fold (sorted_dict (failure_to_dict f)). by rewrite failure_back. }
  cbn [mbind result_bind items_of].
  assert (mapM (λ item, d ← mapping_of item; phase_from_dict py_float d) (map sort_keys (map (λ p, JObj (phase_to_dict round3 p)) (rr_phase_results r)))
    = Ok (rr_phase_results r)) as ->.
  { rewrite map_map. apply mapM_back. intros p Hp. rewrite List.Forall_forall in Hphases. by apply phase_back, Hphases. }
  cbn [mbind result_bind]. rewrite (artifacts_back (rr_artifacts r) Hartifacts : artifacts_of (JArr (map sort_keys _)) = _).
  cbn [mbind result_bind].
  assert (match sort_keys match rr_retry_after_seconds r with Some x => JFloat x | None => JNull end with
    | JNull => mret None | v => x ← py_float v; mret (Some x) end = Ok (rr_retry_after_seconds r)) as ->.
  { destruct (rr_retry_after_seconds r); [|done]. cbn. by rewrite Hfloat. }
  cbn [mbind result_bind]. by destruct r.
Qed.
End read_back.
Definition float_of_floats (v : json) : res string := match v with JFloat r => Ok r | _ => Err TypeError end.
Definition written_phase : PhaseResult := MkPhaseResult WRITING_NODES 3 2 1 0 2 2 0 0 "12.5" "f".
Definition written_result : RunResult :=
  busy_result <| rr_phase_results := [written_phase] |> <| rr_retry_after_seconds := Some "1.5" |>
    <| rr_artifacts := [MkArtifactReference "log" "run.log" "" 0 0] |>.
Lemma run_result_reads_back_witness :
  make_run_result written_result = Ok written_result ∧
  load_run_result float_of_floats (sort_keys (JObj (run_result_to_dict id written_result))) = Ok written_result.
Proof.
  split; [reflexivity|]. apply run_result_reads_back; [done|reflexivity| | |by repeat constructor|reflexivity].
  - cbn. constructor; (reflexivity || constructor).
  - repeat constructor.
Defined.
