(* ===== verification/CallEvidence.v ===== *)
(** The call-evidence contract ([code-tiny/tools/common/call_evidence.py]): what
    a row must carry to count as a strict call, the identities of call sites, and
    the coverage a query must have before an empty answer means anything.  UUIDs
    are a parameter, as SHA-256 is. *)
From S2P Require Import Prelude Json Text PyValue Models Store Identity Db Contracts Url Reliability.
#[local] Open Scope string_scope.

(** [uuid.uuid5(uuid.NAMESPACE_URL, key)], printed. *)
Class Uuid5 : Type := uuid5 : string → string.

Definition CALL_EVIDENCE_SCHEMA_VERSION : string := "2".
Definition RESOLUTION_CLASS_DIRECT_RESOLVED : string := "direct_resolved".
Definition RESOLUTION_CLASS_LEXICAL_CANDIDATE : string := "lexical_candidate".
Definition RESOLUTION_CLASS_UNRESOLVED : string := "unresolved".
Definition CONSERVATIVE_EXTRA_CLASSES : list string :=
  ["declared_virtual_target"; "possible_dispatch_target"; "indirect_callsite"; "dependent_template_call";
   RESOLUTION_CLASS_LEXICAL_CANDIDATE; "constructor_call"; RESOLUTION_CLASS_UNRESOLVED].
Definition RESOLUTION_CLASSES : list string := RESOLUTION_CLASS_DIRECT_RESOLVED :: CONSERVATIVE_EXTRA_CLASSES.
Definition SEMANTIC_PROVIDERS : list string := ["clang_worker"].
Definition COVERAGE_STATUSES : list string := ["complete"; "partial"; "ineligible"; "failed"; "not_analyzed"].
Definition STRONG_CALL_REQUIRED_PROPS : list string :=
  ["resolution_class"; "semantic_provider"; "tu_key"; "config_fingerprint"; "callee_usr"; "context_attestation"; "manifest_key"].

(** [value in frozenset(texts)]: what cannot be hashed is a [TypeError]. *)
Definition in_texts (v : json) (texts : list string) : res bool :=
  match v with JStr s => Ok (in_list s texts) | JArr _ | JObj _ => Err TypeError | _ => Ok false end.
(** [value == text] *)
Definition is_text (v : json) (text : string) : bool := match v with JStr s => String.eqb s text | _ => false end.
(** [isinstance(value, str) and value.strip()] *)
Definition text_given (v : json) : bool := match v with JStr s => negb (blank s) | _ => false end.

(** * Strict call evidence *)

Definition context_is_strictly_eligible (props : dict) : bool :=
  is_text (get "context_fidelity" props) "faithful" && is_text (get "context_admission" props) "accepted"
  && is_text (get "execution_coverage" props) "complete"
  && text_given (get "context_attestation" props) && text_given (get "manifest_key" props).
Definition is_strong_call_evidence (props : dict) : res bool :=
  if negb (is_text (get "resolution_class" props) RESOLUTION_CLASS_DIRECT_RESOLVED) then Ok false
  else
    approved ← in_texts (get "semantic_provider" props) SEMANTIC_PROVIDERS;
    mret (approved && context_is_strictly_eligible props
          && forallb (λ prop, text_given (get prop props)) STRONG_CALL_REQUIRED_PROPS).
Definition check_class (v : json) : res unit :=
  known ← in_texts v RESOLUTION_CLASSES; if known : bool then Ok () else Err ValueError.
(** [d.setdefault(k, v)] *)
Definition setdefault (k : string) (v : json) (d : dict) : dict :=
  match assoc k d with Some _ => d | None => setitem k v d end.
Definition normalize_call_row (row : dict) : res dict :=
  let normalized := match get "resolution_class" row with
    | JNull => setdefault "semantic_provider" (JStr "tree_sitter") (setitem "resolution_class" (JStr RESOLUTION_CLASS_LEXICAL_CANDIDATE) row)
    | _ => row end in
  _ ← check_class (get "resolution_class" normalized);
  mret normalized.
(** [row.get("props") if isinstance(row.get("props"), Mapping) else row] *)
Definition props_of (row : dict) : dict := match get "props" row with JObj props => props | _ => row end.
(** The row claims to be direct and is not. *)
Definition refuse_weak_direct (props : dict) : res unit :=
  if is_text (get "resolution_class" props) RESOLUTION_CLASS_DIRECT_RESOLVED then
    strong ← is_strong_call_evidence props; if strong : bool then Ok () else Err ValueError
  else Ok ().
Definition enforce_strong_call_row (row : dict) : res unit :=
  let props := props_of row in
  match assoc "resolution_class" props with
  | None => Ok ()
  | Some c => _ ← check_class c; refuse_weak_direct props
  end.

(** * Identities of call sites *)

Section sites.
Context `{Sha256} `{Uuid5}.
Definition callsite_site_id (caller_id callee_id file_path : string) (line column : Z) (call_type : string) : string :=
  uuid5 (join ":" [caller_id; callee_id; file_path; print_int line; print_int column; call_type]).
(** [s.replace(a, b)] for two characters *)
Fixpoint replace_char (a b : ascii) (s : string) : string :=
  match s with EmptyString => EmptyString | String c s => String (if Ascii.eqb c a then b else c) (replace_char a b s) end.
Definition backslash : ascii := Ascii.ascii_of_nat 92.
Definition logical_callsite_id (caller_id file_path : string) (spelling_offset : Z) (expansion_offset : option Z) (ordinal : Z)
    (call_type : string) : string :=
  let expansion := default spelling_offset expansion_offset in
  uuid5 (canonical_json (JObj
    [("schema", JStr CALL_EVIDENCE_SCHEMA_VERSION); ("caller", JStr caller_id);
     ("file", JStr (replace_char backslash "/" file_path)); ("spelling_offset", JInt (Z.max 0 spelling_offset));
     ("expansion_offset", JInt (Z.max 0 expansion)); ("ordinal", JInt (Z.max 0 ordinal));
     ("call_type", JStr (if is_empty call_type then "call" else call_type))])).
End sites.

(** * Coverage *)

Definition coverage_is_complete (records : list dict) : bool :=
  negb (bool_decide (records = [])) && forallb (λ r, is_text (get "status" r) "complete") records.
Definition class_allowed_in_profile (resolution_class profile : string) : bool :=
  let normalized := casefold (strip (if is_empty profile then "default" else profile)) in
  if String.eqb normalized "strict" then String.eqb resolution_class RESOLUTION_CLASS_DIRECT_RESOLVED
  else if String.eqb normalized "conservative"
  then String.eqb resolution_class RESOLUTION_CLASS_DIRECT_RESOLVED || in_list resolution_class CONSERVATIVE_EXTRA_CLASSES
  else String.eqb resolution_class RESOLUTION_CLASS_DIRECT_RESOLVED.
Definition _record_status (r : dict) : string := str_or_empty "status" r.
Definition _record_detail (r : dict) : string := str_or_empty "detail" r.
Definition _record_identity (r : dict) : string := py_str (py_or (py_or (get "tu_key" r) (get "frontier" r)) (JStr "")).
(** [counts[k] = counts.get(k, 0) + 1] *)
Fixpoint count_key (k : string) (counts : list (string * Z)) : list (string * Z) :=
  match counts with
  | [] => [(k, 1%Z)]
  | (k', n) :: counts => if String.eqb k k' then (k', (n + 1)%Z) :: counts else (k', n) :: count_key k counts
  end.
Record coverage_block := MkCoverageBlock {
  cb_status : string; cb_reasons : list string; cb_counts : list (string * Z); cb_record_count : Z;
}.
Definition incomplete_reason (r : dict) : option string :=
  let status := _record_status r in
  if String.eqb status "complete" then None
  else let identity := _record_identity r in let detail := _record_detail r in
    Some ((if is_empty identity then "frontier" else identity) +:+ ": " +:+ status
          +:+ if is_empty detail then "" else " (" +:+ detail +:+ ")").
Fixpoint sum_counts (counts : list (string * Z)) : Z := match counts with [] => 0%Z | (_, n) :: counts => (n + sum_counts counts)%Z end.
Definition frontier_coverage (records : list dict) : coverage_block :=
  let counts := foldl (λ counts r, count_key (_record_status r) counts) [] records in
  match counts with
  | [] => MkCoverageBlock "unknown" ["no semantic coverage records found for the visited frontier"] [] 0
  | _ =>
      let complete := default 0%Z (assoc "complete" counts) in
      MkCoverageBlock (if (complete =? sum_counts counts)%Z then "complete" else "partial")
        (omap incomplete_reason records) counts (sum_counts counts)
  end.
Definition traversal_outcome (coverage_status : string) (result_is_empty : bool) : string :=
  if result_is_empty && negb (String.eqb coverage_status "complete") then "incomplete" else "complete".
(** The scopes named by the reasons, which are texts. *)
Definition suggested_next_semantic_scope (status : string) (reasons : list string) : list string :=
  let named := List.filter (contains ": ") reasons in
  let scopes := firstn 10 (map (λ r, (partition ":" r).1) named) in
  match scopes with
  | [] => if String.eqb status "complete" then [] else ["run semantic analysis to produce coverage records"]
  | _ => scopes
  end.

(** ** The exact frontier *)

Definition _SCOPE_KEY_FIELDS : list string :=
  ["project_id"; "generation_id"; "revision"; "policy_version"; "tu_key"; "config_fingerprint"].
Abbreviation scope_key := (list string).
Definition semantic_scope_key (r : dict) : scope_key := map (λ field, str_or_empty field r) _SCOPE_KEY_FIELDS.
Record exact_coverage := MkExactCoverage {
  ec_status : string; ec_expected : Z; ec_actual : Z; ec_missing : Z; ec_unexpected : Z; ec_duplicate : Z;
  ec_incomplete : Z; ec_reasons : list string; ec_fingerprint : option string;
}.
Definition records_of (key : scope_key) (actual : list dict) : list dict :=
  List.filter (λ r, bool_decide (semantic_scope_key r = key)) actual.
Definition incomplete_scope (actual : list dict) (key : scope_key) : bool :=
  match records_of key actual with [r] => negb (String.eqb (_record_status r) "complete") | _ => true end.
Definition counted {A} (l : list A) : Z := Z.of_nat (length l).
Definition reason_when {A} (l : list A) (reason : string) : list string := match l with [] => [] | _ => [reason] end.
Definition exact_frontier_coverage `{Sha256} (expected_keys actual : list dict) : exact_coverage :=
  let expected := map semantic_scope_key expected_keys in
  match expected with
  | [] => MkExactCoverage "unknown" 0 (counted actual) 0 0 0 0 ["semantic_scope_manifest_missing"] None
  | _ =>
      let expected_set := remove_dups expected in
      let actual_set := remove_dups (map semantic_scope_key actual) in
      let missing := List.filter (λ k, negb (bool_decide (k ∈ actual_set))) expected_set in
      let unexpected := List.filter (λ k, negb (bool_decide (k ∈ expected_set))) actual_set in
      let duplicates := List.filter (λ k, negb (length (records_of k actual) =? 1)%nat) actual_set in
      let incomplete := List.filter (λ k, bool_decide (k ∈ actual_set) && incomplete_scope actual k) expected_set in
      let reasons := (reason_when missing "scope_keys_missing" ++ reason_when unexpected "scope_keys_unexpected"
                      ++ reason_when duplicates "scope_keys_duplicate" ++ reason_when incomplete "scope_keys_incomplete")%list in
      MkExactCoverage (match reasons with [] => "complete" | _ => "partial" end) (counted expected_set) (counted actual)
        (counted missing) (counted unexpected) (counted duplicates) (counted incomplete) reasons
        (Some (sha256_hex (canonical_json (JArr (map (λ k, JArr (map JStr k)) (order_by id expected_set))))))
  end.

(** ** Coverage records *)

Record SemanticCoverageRecord := MkCoverageRecord {
  cr_project_id : string; cr_revision : string; cr_language : string; cr_tu_key : string; cr_config_fingerprint : string;
  cr_analyzer_version : string; cr_policy_version : string; cr_status : string; cr_detail : string;
}.
Definition make_coverage_record (r : SemanticCoverageRecord) : res SemanticCoverageRecord :=
  if negb (in_list (cr_status r) COVERAGE_STATUSES) then Err ValueError
  else if existsb blank [cr_project_id r; cr_language r; cr_tu_key r; cr_analyzer_version r; cr_policy_version r] then Err ValueError
  else Ok r.
Definition coverage_identity (r : SemanticCoverageRecord) : dict :=
  [("project_id", JStr (cr_project_id r)); ("revision", JStr (cr_revision r)); ("language", JStr (cr_language r));
   ("tu_key", JStr (cr_tu_key r)); ("config_fingerprint", JStr (cr_config_fingerprint r));
   ("analyzer_version", JStr (cr_analyzer_version r)); ("policy_version", JStr (cr_policy_version r));
   ("status", JStr (cr_status r))].
Definition coverage_record_dict `{Sha256} (r : SemanticCoverageRecord) : dict :=
  ([("schema_version", JStr CALL_EVIDENCE_SCHEMA_VERSION)] ++ coverage_identity r
   ++ [("detail", JStr (cr_detail r)); ("fingerprint", JStr (sha256_hex (canonical_json (JObj (coverage_identity r)))))])%list.

(** * Pro*C source bundles *)

Definition GENERATED_CODE_CLASSES : list string :=
  ["original_application"; "macro_expansion"; "precompiler_wrapper"; "precompiler_runtime"; "generated_declaration"; "unmapped_generated"].
Definition SOURCE_MAP_QUALITY_STATES : list string := ["exact"; "aligned"; "partial"; "missing"; "conflicting"].
Definition PROC_NODE_LABELS : list string := ["SqlStatement"; "SqlDirective"; "SqlCursor"; "SqlHostVariable"; "DatabaseTable"].
Record GeneratedArtifactRef := MkGeneratedArtifactRef { ga_path : string; ga_sha256 : string; ga_class : string }.
(** The second character is a colon, as after a drive letter. *)
Definition drive_path (path : string) : bool :=
  match path with String _ (String c _) => Ascii.eqb c ":" | _ => false end.
Definition make_artifact_ref (a : GeneratedArtifactRef) : res GeneratedArtifactRef :=
  let path := strip (ga_path a) in
  let normalized := replace_char backslash "/" path in
  if is_empty path || blank (ga_sha256 a) then Err ValueError
  else if startswith "/" normalized || drive_path normalized then Err ValueError
  else if String.eqb normalized ".." || startswith "../" normalized then Err ValueError
  else if negb (in_list (ga_class a) GENERATED_CODE_CLASSES) then Err ValueError
  else Ok a.
Record ProcSourceBundle := MkProcSourceBundle {
  pb_original_path : string; pb_original_sha256 : string; pb_masked_sha256 : string;
  pb_artifacts : list GeneratedArtifactRef; pb_map_quality : string; pb_compile_context : string;
  pb_precompiler_context : string; pb_schema_version : string;
}.
Definition make_bundle (b : ProcSourceBundle) : res ProcSourceBundle :=
  if blank (pb_original_path b) || blank (pb_original_sha256 b) then Err ValueError
  else if blank (pb_masked_sha256 b) then Err ValueError
  else if negb (in_list (pb_map_quality b) SOURCE_MAP_QUALITY_STATES) then Err ValueError
  else Ok b.
Definition semantic_eligible (b : ProcSourceBundle) : bool :=
  in_list (pb_map_quality b) ["exact"; "aligned"] && negb (blank (pb_compile_context b))
  && existsb (λ a, negb (String.eqb (ga_class a) "unmapped_generated")) (pb_artifacts b).
Definition artifact_ref_dict (a : GeneratedArtifactRef) : json :=
  JObj [("artifact_path", JStr (ga_path a)); ("sha256", JStr (ga_sha256 a)); ("generated_code_class", JStr (ga_class a))].
Definition bundle_dict (b : ProcSourceBundle) : dict :=
  [("schema_version", JStr (pb_schema_version b)); ("original_path", JStr (pb_original_path b));
   ("original_sha256", JStr (pb_original_sha256 b)); ("masked_sha256", JStr (pb_masked_sha256 b));
   ("generated_artifacts", JArr (map artifact_ref_dict (pb_artifacts b)));
   ("source_map_quality", JStr (pb_map_quality b)); ("compile_context_fingerprint", JStr (pb_compile_context b));
   ("precompiler_context_fingerprint", JStr (pb_precompiler_context b))].
Definition bundle_fingerprint `{Sha256} (b : ProcSourceBundle) : string := sha256_hex (canonical_json (JObj (bundle_dict b))).
(** [proc_source_map.py] *)
Definition bundle_state_allows_strict_calls (state : string) : bool := String.eqb state "semantic_complete".
Definition ALLOW_EXACT_LINE_PROMOTION : bool := false.
Definition _STRICT_QUALITIES : list string := if ALLOW_EXACT_LINE_PROMOTION then ["exact_span"; "exact_line"] else ["exact_span"].
Definition is_strict_map_quality (quality : string) : bool := in_list quality _STRICT_QUALITIES.
Record bundle_facts := MkBundleFacts {
  bf_masked : bool; bf_generated : bool; bf_map : bool; bf_map_stale : bool; bf_map_invalid : bool; bf_strict_map : bool;
  bf_context : bool; bf_worker : string; bf_reconciled : bool;
}.
Definition classify_proc_bundle_state (f : bundle_facts) : string :=
  if bf_map_invalid f then "invalid"
  else if bf_map_stale f then "stale"
  else if negb (bf_generated f) || negb (bf_map f) then if bf_masked f then "lexical_ready" else "sql_only"
  else if negb (bf_strict_map f) || negb (bf_context f) then "lexical_ready"
  else if String.eqb (bf_worker f) "failed" then "failed"
  else if negb (bf_reconciled f) then "partial"
  else if in_list (bf_worker f) ["ok"; "truncated"] then "semantic_complete"
  else "semantic_eligible".

(** * Lemmas *)

Lemma count_key_sum k counts : sum_counts (count_key k counts) = (sum_counts counts + 1)%Z.
Proof. induction counts as [|[k' n] counts IH]; cbn; [done|]. destruct (String.eqb k k'); cbn; [lia|]. rewrite IH. lia. Qed.
Lemma count_key_get k k' counts :
  default 0%Z (assoc k' (count_key k counts)) = (default 0%Z (assoc k' counts) + if String.eqb k' k then 1 else 0)%Z.
Proof.
  induction counts as [|[k2 n] counts IH]; cbn [count_key assoc].
  - by destruct (String.eqb k' k).
  - destruct (String.eqb k k2) eqn:E; cbn [assoc].
    + apply String.eqb_eq in E as <-. destruct (String.eqb k' k); cbn; lia.
    + destruct (String.eqb k' k2) eqn:E2; [|exact IH]. apply String.eqb_eq in E2 as ->. rewrite String.eqb_sym, E. cbn. lia.
Qed.
Lemma status_counts records counts :
  let counts' := foldl (λ counts r, count_key (_record_status r) counts) counts records in
  sum_counts counts' = (sum_counts counts + counted records)%Z ∧
  default 0%Z (assoc "complete" counts') = (default 0%Z (assoc "complete" counts)
    + counted (List.filter (λ r, String.eqb (_record_status r) "complete") records))%Z.
Proof.
  revert counts. induction records as [|r records IH]; intros counts; cbn [foldl]; [unfold counted; cbn; lia|].
  destruct (IH (count_key (_record_status r) counts)) as [-> ->]. rewrite count_key_sum, count_key_get. unfold counted.
  rewrite String.eqb_sym. cbn [List.filter]. destruct (String.eqb (_record_status r) "complete"); cbn [length]; lia.
Qed.
Lemma filter_all {A} (p : A → bool) l : length (List.filter p l) = length l ↔ ∀ x, In x l → p x = true.
Proof.
  induction l as [|x l IH]; [by split|]. cbn [List.filter]. pose proof (filter_length_le p l). destruct (p x) eqn:E.
  - cbn [length]. split; [intros [= Hl] y [<-|Hy]; [done|by apply IH]|]. intros Ha. f_equal. apply IH. intros y Hy. apply Ha. by right.
  - split; [cbn [length]; lia|]. intros Ha. rewrite (Ha x) in E by by left. done.
Qed.
(** The block of a frontier is complete exactly when there are records and all of
    them are, and it counts each of them. *)
Lemma frontier_complete records :
  (cb_status (frontier_coverage records) = "complete" ↔ records ≠ [] ∧ ∀ r, In r records → _record_status r = "complete")
  ∧ cb_record_count (frontier_coverage records) = counted records.
Proof.
  destruct (status_counts records []) as [Hs Hc]. cbn in Hs, Hc. unfold frontier_coverage.
  destruct (foldl _ [] records) as [|kv counts] eqn:E.
  - cbn in Hs. destruct records as [|r records]; [|unfold counted in Hs; cbn [length] in Hs; lia]. cbn. split; [|done].
    split; [done|by intros [? _]].
  - cbn [cb_status cb_record_count]. rewrite Hs. split; [|lia].
    assert (records ≠ []) as Hne by (by intros ->). rewrite Hc.
    rewrite !Z.add_0_l. pose proof (filter_all (λ r, String.eqb (_record_status r) "complete") records) as Hf.
    destruct (Z.eqb_spec (counted (List.filter (λ r, String.eqb (_record_status r) "complete") records)) (counted records)) as [He|He]; unfold counted in He.
    + split; [|done]. intros _. split; [done|]. intros r Hr. apply String.eqb_eq. apply Hf; [lia|done].
    + split; [done|]. intros [_ Ha]. destruct He. f_equal. apply Hf. intros r Hr. by apply String.eqb_eq, Ha.
Qed.

Lemma filter_nil {A} (p : A → bool) l : List.filter p l = [] ↔ ∀ x, In x l → p x = false.
Proof.
  induction l as [|x l IH]; [by split|]. cbn [List.filter]. destruct (p x) eqn:E.
  - split; [done|]. intros Ha. rewrite (Ha x) in E by by left. done.
  - rewrite IH. split; [intros Ha y [<-|Hy]; [done|by apply Ha]|]. intros Ha y Hy. apply Ha. by right.
Qed.
Lemma reason_when_nil {A} (l : list A) r : reason_when l r = [] ↔ l = [].
Proof. by destruct l. Qed.
Lemma records_of_unique key actual : length (records_of key actual) = length (List.filter (λ k, bool_decide (k = key)) (map semantic_scope_key actual)).
Proof. unfold records_of. induction actual as [|r actual IH]; [done|]. cbn [map List.filter]. case_bool_decide; cbn [length]; by rewrite IH. Qed.
Lemma filter_once (key : scope_key) keys : NoDup keys → key ∈ keys → length (List.filter (λ k, bool_decide (k = key)) keys) = 1%nat.
Proof.
  induction 1 as [|k keys Hk _ IH]; [by intros ?%not_elem_of_nil|]. cbn. case_bool_decide as E.
  - intros _. subst k. cbn. f_equal. apply length_zero_iff_nil, filter_nil. intros k' Hk'. apply bool_decide_eq_false. intros ->.
    apply Hk. by apply list_elem_of_In.
  - intros [->|Hin]%elem_of_cons; [done|by apply IH].
Qed.
Lemma once_no_dup (keys : list scope_key) : (∀ k, k ∈ keys → length (List.filter (λ k', bool_decide (k' = k)) keys) = 1%nat) → NoDup keys.
Proof.
  induction keys as [|k keys IH]; [constructor|]. intros Ha. constructor.
  - intros Hk. specialize (Ha k (list_elem_of_here _ _)). cbn in Ha. rewrite bool_decide_true in Ha by done. cbn in Ha. injection Ha as Ha.
    apply length_zero_iff_nil in Ha. rewrite filter_nil in Ha. apply list_elem_of_In in Hk. specialize (Ha k Hk). by apply bool_decide_eq_false in Ha.
  - apply IH. intros k' Hk'. specialize (Ha k' (list_elem_of_further _ _ _ Hk')). cbn in Ha. case_bool_decide as E; [|done].
    cbn in Ha. injection Ha as Ha. apply length_zero_iff_nil in Ha. rewrite filter_nil in Ha. apply list_elem_of_In in Hk'.
    specialize (Ha k' Hk'). by apply bool_decide_eq_false in Ha.
Qed.
Lemma one_record key actual r : In r actual → semantic_scope_key r = key → length (records_of key actual) = 1%nat → records_of key actual = [r].
Proof.
  intros Hin Hk Hl. assert (In r (records_of key actual)) as Hr by (apply filter_In; split; [done|by apply bool_decide_eq_true]).
  destruct (records_of key actual) as [|x [|]]; try done. by destruct Hr as [->|[]].
Qed.
Section exact.
Context `{Sha256}.
(** C38: The exact coverage of a frontier is complete exactly when at least one
    scope is expected (without any the status is unknown), the expected scopes are
    those of the actual records, each recorded once, and every record is complete: a scope that is missing, extra, recorded twice
    or incomplete always shows, and traversal results cannot shrink the domain. *)
Theorem exact_coverage_complete (expected_keys actual : list dict) :
  ec_status (exact_frontier_coverage expected_keys actual) = "complete" ↔
  expected_keys ≠ [] ∧ NoDup (map semantic_scope_key actual) ∧
  (∀ k, k ∈ map semantic_scope_key expected_keys ↔ k ∈ map semantic_scope_key actual) ∧
  (∀ r, In r actual → _record_status r = "complete").
Proof.
  unfold exact_frontier_coverage. destruct (map semantic_scope_key expected_keys) as [|k0 ks] eqn:Eexp.
  { destruct expected_keys; [|done]. cbn. split; [done|by intros [? _]]. }
  assert (expected_keys ≠ []) as Hne by (by intros ->). cbv zeta. cbn [ec_status].
  set (es := remove_dups (k0 :: ks)). set (as_ := remove_dups (map semantic_scope_key actual)).
  assert (∀ k, k ∈ es ↔ k ∈ k0 :: ks) as Hes by (intros k; apply elem_of_remove_dups).
  assert (∀ k, k ∈ as_ ↔ k ∈ map semantic_scope_key actual) as Has by (intros k; apply elem_of_remove_dups).
  trans (List.filter (λ k, negb (bool_decide (k ∈ as_))) es = [] ∧ List.filter (λ k, negb (bool_decide (k ∈ es))) as_ = []
    ∧ List.filter (λ k, negb (length (records_of k actual) =? 1)%nat) as_ = [] ∧ List.filter (λ k, bool_decide (k ∈ as_) && incomplete_scope actual k) es = []).
  { repeat match goal with |- context [reason_when ?l _] => lazymatch l with List.filter _ _ => destruct l; cbn [reason_when app] end end; intuition done. }
  rewrite !filter_nil. split.
  - intros (H1 & H2 & H3 & H4).
    assert (∀ k, k ∈ k0 :: ks → k ∈ map semantic_scope_key actual) as K1.
    { intros k Hk%Hes%list_elem_of_In%H1. by apply negb_false_iff, bool_decide_eq_true, Has in Hk. }
    assert (∀ k, k ∈ map semantic_scope_key actual → k ∈ k0 :: ks) as K2.
    { intros k Hk%Has%list_elem_of_In%H2. by apply negb_false_iff, bool_decide_eq_true, Hes in Hk. }
    assert (∀ k, k ∈ map semantic_scope_key actual → length (records_of k actual) = 1%nat) as K3.
    { intros k Hk%Has%list_elem_of_In%H3. by apply negb_false_iff, Nat.eqb_eq in Hk. }
    assert (∀ k, k ∈ map semantic_scope_key actual → incomplete_scope actual k = false) as K4.
    { intros k Hk. pose proof (K2 k Hk) as Hk2%Hes%list_elem_of_In. specialize (H4 k Hk2). by rewrite bool_decide_true in H4 by by apply Has. }
    assert (NoDup (map semantic_scope_key actual)) as Hnd.
    { apply once_no_dup. intros k Hk. rewrite <- records_of_unique. by apply K3. }
    split_and!; [done|done|by split; auto|]. intros r Hr.
    assert (semantic_scope_key r ∈ map semantic_scope_key actual) as Hk by (apply list_elem_of_In, in_map_iff; by exists r).
    specialize (K4 _ Hk). unfold incomplete_scope in K4. rewrite (one_record _ actual r) in K4 by (done || by apply K3).
    apply negb_false_iff in K4. by apply String.eqb_eq.
  - intros (_ & Hnd & Hiff & Hc). split_and!.
    + intros k Hk%list_elem_of_In%Hes%Hiff. by apply negb_false_iff, bool_decide_eq_true, Has.
    + intros k Hk%list_elem_of_In%Has%Hiff. by apply negb_false_iff, bool_decide_eq_true, Hes.
    + intros k Hk%list_elem_of_In%Has. apply negb_false_iff, Nat.eqb_eq. rewrite records_of_unique. by apply filter_once.
    + intros k Hk%list_elem_of_In%Hes%Hiff. rewrite bool_decide_true by by apply Has. cbn. unfold incomplete_scope.
      pose proof Hk as Hk'. apply list_elem_of_In, in_map_iff in Hk' as (r & <- & Hr).
      rewrite (one_record _ actual r) by (try done; rewrite records_of_unique; by apply filter_once). by rewrite Hc.
Qed.
End exact.

(** An empty answer is final only when the exact frontier is complete. *)
Lemma empty_answer_final `{Sha256} expected actual : traversal_outcome (ec_status (exact_frontier_coverage expected actual)) true = "complete" ↔
  ec_status (exact_frontier_coverage expected actual) = "complete".
Proof.
  unfold traversal_outcome. cbn [andb]. destruct (String.eqb _ "complete") eqn:E; cbn; [by apply String.eqb_eq in E|].
  by apply String.eqb_neq in E.
Qed.

(** * What counts as strict evidence *)

Lemma strong_evidence_spec props : is_strong_call_evidence props = Ok true ↔
  get "resolution_class" props = JStr RESOLUTION_CLASS_DIRECT_RESOLVED ∧ get "semantic_provider" props = JStr "clang_worker" ∧
  context_is_strictly_eligible props = true ∧ (∀ k, In k STRONG_CALL_REQUIRED_PROPS → text_given (get k props) = true).
Proof.
  unfold is_strong_call_evidence. destruct (is_text _ _) eqn:E1.
  - assert (get "resolution_class" props = JStr RESOLUTION_CLASS_DIRECT_RESOLVED) as Hc.
    { destruct (get "resolution_class" props); try done. by apply String.eqb_eq in E1 as ->. }
    cbn [negb]. unfold in_texts. destruct (get "semantic_provider" props) as [| | | |s| |]; cbn [mbind result_bind];
      try (split; [done|by intros (_ & ? & _)]).
    unfold in_list, SEMANTIC_PROVIDERS. cbn [existsb]. rewrite orb_false_r. destruct (String.eqb s "clang_worker") eqn:E2.
    + apply String.eqb_eq in E2 as ->. cbn [andb]. rewrite <- forallb_forall.
      destruct (context_is_strictly_eligible props); cbn [andb]; [|split; [done|by intros (_ & _ & ? & _)]].
      destruct (forallb _ _); split; try done. by intros (_ & _ & _ & ?).
    + cbn [andb]. split; [done|]. intros (_ & Hs & _). injection Hs as ->. by apply String.eqb_neq in E2.
  - split; [done|]. intros (Hc & _). by rewrite Hc in E1.
Qed.
(** Classifying a row never makes it direct. *)
Lemma normalize_keeps_class row row' : normalize_call_row row = Ok row' →
  (get "resolution_class" row' = get "resolution_class" row ∨
   get "resolution_class" row = JNull ∧ get "resolution_class" row' = JStr RESOLUTION_CLASS_LEXICAL_CANDIDATE) ∧
  ∃ c, get "resolution_class" row' = JStr c ∧ in_list c RESOLUTION_CLASSES = true.
Proof.
  unfold normalize_call_row, check_class. intros Hn.
  assert (∀ d : dict, (known ← in_texts (get "resolution_class" d) RESOLUTION_CLASSES; if known : bool then Ok () else Err ValueError) = Ok () →
    ∃ c, get "resolution_class" d = JStr c ∧ in_list c RESOLUTION_CLASSES = true) as Hcheck.
  { intros d. unfold in_texts. destruct (get _ d) as [| | | |s| |]; try done. cbn [mbind result_bind]. destruct (in_list s _) eqn:E; [|done]. eauto. }
  assert (∀ d : dict, get "resolution_class" (setdefault "semantic_provider" (JStr "tree_sitter") d) = get "resolution_class" d) as Hd.
  { intros d. unfold setdefault. destruct (assoc "semantic_provider" d); [done|]. unfold get. by rewrite assoc_setitem_ne. }
  destruct (get "resolution_class" row) as [| | | |s| |] eqn:E; cbv zeta in Hn;
    (destruct (mbind _ (in_texts _ _)) as [[]|] eqn:Ec in Hn; [|done]); cbn [mbind result_bind] in Hn; injection Hn as <-;
    (split; [|by apply Hcheck]); try by left.
  right. split; [done|]. rewrite Hd. unfold get. by rewrite assoc_setitem_eq.
Qed.
(** A path may climb out of the repository once it has gone down. *)
Lemma climbing_artifact_accepted : make_artifact_ref (MkGeneratedArtifactRef "gen/../../secret.c" "00" "unmapped_generated")
  = Ok (MkGeneratedArtifactRef "gen/../../secret.c" "00" "unmapped_generated").
Proof. done. Qed.
