(* ===== verification/Evidence.v ===== *)
(** Merging of call observations ([code-tiny/tools/cplus/evidence_merge.py]) into
    call sites, and the strict calls that may be derived from them.  A row is
    shared between the table of identities and its site, and a repeat changes it
    in place: sites hold evidence identifiers here, and the table the rows. *)
From S2P Require Import Prelude Json Text PyValue Models Store Identity Contracts Url Reliability CallEvidence.
#[local] Open Scope string_scope.

Definition EVIDENCE_MERGE_SCHEMA_VERSION : string := "2".

(** [str(d.get(a) or d.get(b) or c)] and [int(d.get(a) or d.get(b) or 0)] *)
Definition str_either (a b default_ : string) (d : dict) : string := py_str (py_or (py_or (get a d) (get b d)) (JStr default_)).
Definition int_either (a b : string) (d : dict) : res Z := py_int (py_or (py_or (get a d) (get b d)) (JInt 0)).
Definition opt_int (v : json) : res (option Z) := match v with JNull => Ok None | v => n ← py_int v; mret (Some n) end.

(** * Identities *)

Record site_parts := MkSiteParts {
  sp_caller_id : string; sp_file_path : string; sp_line : Z; sp_column : Z; sp_call_type : string;
}.
Definition _observation_site_parts (row : dict) : res site_parts :=
  let caller_id := str_either "caller_id" "caller_symbol_id" "" row in
  let file_path := str_either "file_path" "file" "" row in
  line ← int_either "line" "start_line" row;
  column ← int_either "column" "start_column" row;
  let call_type := py_str (py_or (get "call_type" row) (JStr "call")) in
  if is_empty caller_id || is_empty file_path || (line <=? 0)%Z then Err ValueError
  else Ok (MkSiteParts caller_id file_path line column call_type).

Section merge.
Context `{Sha256} `{Uuid5}.
Definition callsite_node_id (p : site_parts) (spelling_offset expansion_offset : option Z) (ordinal : Z) : string :=
  match spelling_offset with
  | Some offset => logical_callsite_id (sp_caller_id p) (sp_file_path p) offset expansion_offset ordinal (sp_call_type p)
  | None => uuid5 (join ":" [sp_caller_id p; sp_file_path p; print_int (sp_line p); print_int (sp_column p); sp_call_type p])
  end.
Definition identity_payload (row : dict) (p : site_parts) : dict :=
  [("schema_version", JStr CALL_EVIDENCE_SCHEMA_VERSION);
   ("site", JArr [JStr (sp_caller_id p); JStr (sp_file_path p); JInt (sp_line p); JInt (sp_column p); JStr (sp_call_type p)]);
   ("callee_id", JStr (str_either "callee_id" "callee_symbol_id" "" row)); ("callee_usr", JStr (str_or_empty "callee_usr" row));
   ("resolution_class", get "resolution_class" row); ("semantic_provider", get "semantic_provider" row);
   ("tu_key", JStr (str_or_empty "tu_key" row)); ("config_fingerprint", JStr (str_or_empty "config_fingerprint" row));
   ("generated_code_class", JStr (str_or_empty "generated_code_class" row));
   ("source_map_quality", JStr (str_or_empty "source_map_quality" row))].
Definition evidence_identity (row : dict) : res string :=
  normalized ← normalize_call_row row;
  p ← _observation_site_parts normalized;
  mret (sha256_hex (canonical_json (JObj (identity_payload normalized p)))).
(** The identifier of the call site of an observation. *)
Definition site_id_of (row : dict) (p : site_parts) : res string :=
  let raw := match get "spelling_start_byte" row with JNull => get "call_start_byte" row | v => v end in
  spelling ← opt_int raw;
  expansion ← opt_int (get "expansion_start_byte" row);
  ordinal ← int_or_zero "call_ordinal" row;
  mret (callsite_node_id p spelling expansion ordinal).

(** * The merge *)

Record MergedCallSite := MkSite {
  cs_site_id : string; cs_parts : site_parts; cs_observations : list string; cs_project_id : string;
}.
Record merge_state := MkMerge {
  mg_in : Z; mg_duplicates : Z; mg_identities : list (string * dict); mg_sites : list MergedCallSite;
}.
#[local] Instance merge_eta : Eta merge_state := λ g, MkMerge (mg_in g) (mg_duplicates g) (mg_identities g) (mg_sites g).
Definition no_observations : merge_state := MkMerge 0 0 [] [].

(** A list of texts; anything else that is not falsy is refused here. *)
Definition texts_of (v : json) : res (list string) :=
  if truthy v then match v with JArr l => mapM text_of l | _ => Err TypeError end else Ok [].
Fixpoint set_row (k : string) (row : dict) (rows : list (string * dict)) : list (string * dict) :=
  match rows with
  | [] => [(k, row)]
  | (k', r) :: rows => if String.eqb k k' then (k, row) :: rows else (k', r) :: set_row k row rows
  end.
(** What an exact repeat changes in the row that is there. *)
Definition repeat_row (existing row : dict) : res dict :=
  runs ← texts_of (get "_repeat_runs" existing);
  let runs := (runs ++ [str_or_empty "parse_run_id" existing; str_or_empty "parse_run_id" row])%list in
  count ← py_int (py_or (get "observation_count" existing) (JInt 1));
  mret (setitem "observation_count" (JInt (count + 1))
         (setitem "_repeat_runs" (JArr (map JStr (List.filter (λ r, negb (is_empty r)) (sorted_set runs)))) existing)).
(** [sites[site_id].observations.append(row)], where the site may be new. *)
Fixpoint add_observation (site_id evidence_id : string) (p : site_parts) (project_id : string) (sites : list MergedCallSite)
    : list MergedCallSite :=
  match sites with
  | [] => [MkSite site_id p [evidence_id] project_id]
  | s :: sites =>
      if String.eqb (cs_site_id s) site_id
      then MkSite site_id (cs_parts s) (cs_observations s ++ [evidence_id])%list (cs_project_id s) :: sites
      else s :: add_observation site_id evidence_id p project_id sites
  end.
(** The checks a row passes before it is identified. *)
Definition admit_row (project_id : string) (raw : dict) : res dict :=
  normalized ← normalize_call_row raw;
  _ ← check_class (get "resolution_class" normalized);
  _ ← refuse_weak_direct normalized;
  let row_project := py_str (py_or (get "project_id" normalized) (JStr project_id)) in
  if negb (is_empty project_id) && negb (is_empty row_project) && negb (String.eqb row_project project_id) then Err ValueError
  else mret (setitem "project_id" (JStr (if is_empty row_project then project_id else row_project)) normalized).
Definition merge_row (project_id : string) (raw : dict) (g : merge_state) : res merge_state :=
  normalized ← admit_row project_id raw;
  identity ← evidence_identity normalized;
  match assoc identity (mg_identities g) with
  | Some existing =>
      existing ← repeat_row existing normalized;
      mret (MkMerge (mg_in g + 1) (mg_duplicates g + 1) (set_row identity existing (mg_identities g)) (mg_sites g))
  | None =>
      let row := setdefault "observation_count" (JInt 1) (setitem "evidence_id" (JStr identity) normalized) in
      p ← _observation_site_parts row;
      site_id ← site_id_of row p;
      mret (MkMerge (mg_in g + 1) (mg_duplicates g) (mg_identities g ++ [(identity, row)])%list
              (add_observation site_id identity p (str_or_empty "project_id" row) (mg_sites g)))
  end.
Fixpoint merge_rows (project_id : string) (rows : list dict) (g : merge_state) : res merge_state :=
  match rows with [] => Ok g | row :: rows => g ← merge_row project_id row g; merge_rows project_id rows g end.

(** * What is derived from a site *)

Definition site_rows (g : merge_state) (s : MergedCallSite) : list dict := omap (λ id, assoc id (mg_identities g)) (cs_observations s).
Fixpoint strong_rows (rows : list dict) : res (list dict) :=
  match rows with
  | [] => Ok []
  | row :: rows => strong ← is_strong_call_evidence row; rest ← strong_rows rows; mret (if strong : bool then row :: rest else rest)
  end.
(** An element of a set: what cannot be hashed is a [TypeError]. *)
Definition hashable (v : json) : res json := match v with JArr _ | JObj _ => Err TypeError | _ => Ok v end.
Definition callee_of (row : dict) : json := py_or (get "callee_id" row) (get "callee_symbol_id" row).
(** The callee of an observation; [1] and [True] are told apart here. *)
Definition callee_key (row : dict) : res (json * json) :=
  c ← hashable (callee_of row); u ← hashable (get "callee_usr" row); mret (c, u).
Definition accepted_observation (rows : list dict) : res (option dict) :=
  accepted ← strong_rows rows;
  callees ← mapM callee_key accepted;
  mret (if (length (remove_dups callees) =? 1)%nat then head accepted else None).
Definition _CLASS_STRENGTH : list (string * Z) :=
  [(RESOLUTION_CLASS_LEXICAL_CANDIDATE, 0); ("constructor_call", 1); ("dependent_template_call", 2); ("indirect_callsite", 3);
   ("declared_virtual_target", 4); ("possible_dispatch_target", 5); (RESOLUTION_CLASS_UNRESOLVED, 6); (RESOLUTION_CLASS_DIRECT_RESOLVED, 7)]%Z.
Definition class_strength (c : string) : Z := default 0%Z (assoc c _CLASS_STRENGTH).
(** [max(..., key=...)]: the first of the strongest. *)
Fixpoint strongest (best : string) (classes : list string) : string :=
  match classes with
  | [] => best
  | c :: classes => strongest (if (class_strength best <? class_strength c)%Z then c else best) classes
  end.
Definition resolved_class (rows : list dict) : res string :=
  accepted ← accepted_observation rows;
  match accepted with
  | Some _ => Ok RESOLUTION_CLASS_DIRECT_RESOLVED
  | None => match map (λ r, py_str (py_or (get "resolution_class" r) (JStr RESOLUTION_CLASS_LEXICAL_CANDIDATE))) rows with
            | [] => Err ValueError
            | c :: classes => Ok (strongest c classes)
            end
  end.
Definition site_configs (rows : list dict) : list string :=
  foldl (λ seen r, let c := str_or_empty "config_fingerprint" r in if is_empty c || in_list c seen then seen else (seen ++ [c])%list) [] rows.
(** [value in (None, [], {})] *)
Definition absent (v : json) : bool := match v with JNull | JArr [] | JObj [] => true | _ => false end.
(** [props.update(...)] *)
Definition update (props : dict) (items : dict) : dict := foldl (λ d kv, setitem kv.1 kv.2 d) props items.
Definition strict_props (s : MergedCallSite) (accepted : dict) : dict :=
  update (List.filter (λ kv : string * json, negb (in_list kv.1 ["caller_id"; "callee_id"; "site_id"; "props"; "_repeat_runs"]) && negb (absent kv.2)) accepted)
    [("resolution_class", JStr RESOLUTION_CLASS_DIRECT_RESOLVED); ("evidence_id", get "evidence_id" accepted);
     ("site_id", JStr (cs_site_id s)); ("project_id", JStr (cs_project_id s));
     ("merge_schema_version", JStr EVIDENCE_MERGE_SCHEMA_VERSION); ("observation_count", get "observation_count" accepted)].
Record strict_row := MkStrictRow { sr_caller_id : string; sr_callee_id : json; sr_site_id : string; sr_props : dict }.
Definition strict_row_of (s : MergedCallSite) (accepted : dict) : strict_row :=
  let p := cs_parts s in
  let callee := callee_of accepted in
  MkStrictRow (sp_caller_id p) callee
    (callsite_site_id (sp_caller_id p) (py_str callee) (sp_file_path p) (sp_line p) (sp_column p) (sp_call_type p))
    (strict_props s accepted).
Fixpoint strict_rows (g : merge_state) (sites : list MergedCallSite) : res (list strict_row) :=
  match sites with
  | [] => Ok []
  | s :: sites =>
      accepted ← accepted_observation (site_rows g s);
      rest ← strict_rows g sites;
      mret (match accepted with Some a => strict_row_of s a :: rest | None => rest end)
  end.
Definition site_order (s : MergedCallSite) : string * (Z * (Z * string)) :=
  let p := cs_parts s in (sp_file_path p, (sp_line p, (sp_column p, sp_caller_id p))).

(** ** Configurations and coverage *)

Fixpoint merge_configs (project_id : string) (configs : list dict) (seen : list string) : res (list string) :=
  match configs with
  | [] => Ok seen
  | c :: configs =>
      let fingerprint := str_or_empty "config_fingerprint" c in
      let project := str_or_empty "project_id" c in
      if is_empty fingerprint then merge_configs project_id configs seen
      else if negb (is_empty project_id) && negb (is_empty project) && negb (String.eqb project project_id) then Err ValueError
      else merge_configs project_id configs (if in_list fingerprint seen then seen else (seen ++ [fingerprint])%list)
  end.
Definition admit_coverage (records : list dict) : res (list dict) :=
  if existsb (λ r, let status := str_or_empty "status" r in negb (is_empty status) && negb (in_list status COVERAGE_STATUSES)) records
  then Err ValueError else Ok records.
Record EvidenceMergeResult := MkMergeResult {
  er_state : merge_state; er_call_sites : list MergedCallSite; er_strict_rows : list strict_row; er_coverage : list dict;
  er_configuration_count : Z;
}.
Definition merge_call_evidence (observations coverage configurations : list dict) (project_id : string) : res EvidenceMergeResult :=
  g ← merge_rows project_id observations no_observations;
  let sites := order_by site_order (mg_sites g) in
  strict ← strict_rows g sites;
  configs ← merge_configs project_id configurations [];
  coverage ← admit_coverage coverage;
  mret (MkMergeResult g sites strict coverage (counted configs)).

(** ** Rows for the writers *)

(** [isinstance(value, (str, int, float, bool))] *)
Definition scalar (v : json) : bool := match v with JStr _ | JInt _ | JFloat _ | JBool _ => true | _ => false end.
(** Without a set of accepted functions nothing dangles. *)
Definition dangling (accepted_ids : option (list string)) (callee_id : string) : bool :=
  match accepted_ids with Some ids => negb (is_empty callee_id) && negb (in_list callee_id ids) | None => false end.
Definition observed_callee (row : dict) : string := str_either "callee_id" "callee_symbol_id" "" row.
Definition dangling_observation_ids (accepted_ids : option (list string)) (rows : list dict) : list string :=
  omap (λ r, if dangling accepted_ids (observed_callee r)
             then let id := str_or_empty "evidence_id" r in if is_empty id then None else Some id
             else None) rows.
Definition observation_writer_row (site_id : string) (accepted_ids : option (list string)) (row : dict) : dict :=
  let callee_id := observed_callee row in
  update (List.filter (λ kv : string * json, negb (in_list kv.1 ["_repeat_runs"; "caller_id"; "props"]) && scalar kv.2) row)
    [("site_id", JStr site_id); ("callee_id", JStr callee_id); ("evidence_id", JStr (str_or_empty "evidence_id" row));
     ("dangling", JBool (dangling accepted_ids callee_id))].
Definition to_staging_row (g : merge_state) (s : MergedCallSite) : res dict :=
  let rows := site_rows g s in let p := cs_parts s in
  accepted ← accepted_observation rows;
  class ← resolved_class rows;
  mret [("site_id", JStr (cs_site_id s)); ("caller_id", JStr (sp_caller_id p));
        ("callee_id", py_or (match accepted with Some a => callee_of a | None => JNull end) (JStr ""));
        ("file_path", JStr (sp_file_path p)); ("line", JInt (sp_line p)); ("column", JInt (sp_column p));
        ("call_type", JStr (sp_call_type p)); ("resolution_class", JStr class);
        ("observation_count", JInt (counted (cs_observations s))); ("config_fingerprints", JArr (map JStr (site_configs rows)));
        ("accepted", JBool (match accepted with Some _ => true | None => false end)); ("project_id", JStr (cs_project_id s));
        ("schema_version", JStr EVIDENCE_MERGE_SCHEMA_VERSION)].
Definition to_writer_rows (accepted_ids : option (list string)) (g : merge_state) (s : MergedCallSite) : res dict :=
  staging ← to_staging_row g s;
  let rows := site_rows g s in
  let props := setitem "config_fingerprints" (JStr (join "," (site_configs rows))) (List.filter (λ kv : string * json, scalar kv.2) staging) in
  let ids := dangling_observation_ids accepted_ids rows in
  let props := match ids with [] => props | _ => setitem "dangling_observation_ids" (JArr (map JStr ids)) props end in
  mret [("site_id", JStr (cs_site_id s)); ("caller_id", JStr (sp_caller_id (cs_parts s))); ("callee_id", get "callee_id" staging);
        ("resolution_class", get "resolution_class" staging); ("props", JObj props)].
End merge.
