(* ===== verification/EvidenceFacts.v ===== *)
(** What the merge of call observations keeps and derives: nothing is lost or
    counted twice, repeats change no site, and strict calls rest on strong evidence
    that a site agrees on. *)
From S2P Require Import Prelude Json Text PyValue Models Store Identity Contracts Url Reliability CallEvidence Evidence.
#[local] Open Scope string_scope.

(** * Changes that identities do not see *)

Lemma get_setitem_ne k k' v d : k ≠ k' → get k' (setitem k v d) = get k' d.
Proof. intros Hk. unfold get. by rewrite assoc_setitem_ne. Qed.
Lemma get_setitem_eq k v d : get k (setitem k v d) = v.
Proof. unfold get. by rewrite assoc_setitem_eq. Qed.
Lemma get_setdefault_ne k k' v d : k ≠ k' → get k' (setdefault k v d) = get k' d.
Proof. intros Hk. unfold setdefault. destruct (assoc k d); [done|by apply get_setitem_ne]. Qed.
(** The fields the merge writes into a row. *)
Definition merge_fields : list string := ["_repeat_runs"; "observation_count"; "evidence_id"; "project_id"].
Definition same_evidence (row row' : dict) : Prop := ∀ k, k ∉ merge_fields → get k row' = get k row.
#[local] Instance same_evidence_preorder : PreOrder same_evidence.
Proof. split; [by intros ? ? ?|]. intros r1 r2 r3 H1 H2 k Hk. by rewrite H2, H1. Qed.
Lemma setitem_same k v row : k ∈ merge_fields → same_evidence row (setitem k v row).
Proof. intros Hk k' Hk'. apply get_setitem_ne. by intros ->. Qed.
Lemma setdefault_same k v row : k ∈ merge_fields → same_evidence row (setdefault k v row).
Proof. intros Hk k' Hk'. apply get_setdefault_ne. by intros ->. Qed.
Ltac not_merge_field := apply (bool_decide_unpack _); vm_compute; exact I.
Lemma given_class row : (∃ c, get "resolution_class" row = JStr c) → normalize_call_row row = _ ← check_class (get "resolution_class" row); mret row.
Proof. intros [c Hc]. unfold normalize_call_row. cbv zeta. rewrite Hc. cbv iota. by rewrite Hc. Qed.

Section facts.
Context `{Sha256} `{Uuid5}.
Lemma same_parts row row' : same_evidence row row' → _observation_site_parts row' = _observation_site_parts row.
Proof. intros Hs. unfold _observation_site_parts, str_either, int_either. rewrite !Hs by not_merge_field. done. Qed.
Lemma same_site row row' p : same_evidence row row' → site_id_of row' p = site_id_of row p.
Proof. intros Hs. unfold site_id_of, int_or_zero. rewrite !Hs by not_merge_field. done. Qed.
Lemma same_payload row row' p : same_evidence row row' → identity_payload row' p = identity_payload row p.
Proof. intros Hs. unfold identity_payload, str_either, str_or_empty. rewrite !Hs by not_merge_field. done. Qed.
Lemma same_identity row row' : same_evidence row row' → (∃ c, get "resolution_class" row = JStr c) → evidence_identity row' = evidence_identity row.
Proof.
  intros Hs Hc. assert (∃ c, get "resolution_class" row' = JStr c) as Hc' by (rewrite Hs; [done|not_merge_field]).
  unfold evidence_identity. rewrite !given_class by done. rewrite (Hs "resolution_class") by not_merge_field.
  destruct (check_class _); [|done]. cbn [mbind result_bind mret result_ret]. rewrite (same_parts row row') by done.
  destruct (_observation_site_parts row) as [p|]; [|done]. cbn [mbind result_bind]. by rewrite (same_payload row row').
Qed.
Lemma same_strong row row' : same_evidence row row' → is_strong_call_evidence row' = is_strong_call_evidence row.
Proof.
  intros Hs. unfold is_strong_call_evidence, context_is_strictly_eligible, STRONG_CALL_REQUIRED_PROPS. cbn [forallb].
  rewrite !Hs by not_merge_field. done.
Qed.
(** A row in the table of identities. *)
Record identified (id : string) (row : dict) : Prop := {
  id_class : ∃ c, get "resolution_class" row = JStr c ∧ in_list c RESOLUTION_CLASSES = true;
  id_direct : refuse_weak_direct row = Ok ();
  id_identity : evidence_identity row = Ok id;
  id_evidence : get "evidence_id" row = JStr id;
}.
Lemma same_direct row row' : same_evidence row row' → refuse_weak_direct row' = refuse_weak_direct row.
Proof. intros Hs. unfold refuse_weak_direct. rewrite (same_strong row row'), (Hs "resolution_class") by (done || not_merge_field). done. Qed.
Lemma admit_spec project raw row : admit_row project raw = Ok row →
  ∃ normalized, normalize_call_row raw = Ok normalized ∧ same_evidence normalized row ∧
  (∃ c, get "resolution_class" row = JStr c ∧ in_list c RESOLUTION_CLASSES = true) ∧ refuse_weak_direct row = Ok () ∧
  (project ≠ "" → get "project_id" row = JStr project).
Proof.
  unfold admit_row. destruct (normalize_call_row raw) as [n|] eqn:En; [|done]. cbn [mbind result_bind].
  destruct (check_class _) as [[]|] eqn:Ec; [|done]. cbn [mbind result_bind]. destruct (refuse_weak_direct n) as [[]|] eqn:Er; [|done].
  cbn [mbind result_bind]. cbv zeta. destruct (_ && _ && _) eqn:Ep; [done|]. intros [= <-].
  set (p := if is_empty _ then project else _). pose proof (setitem_same "project_id" (JStr p) n ltac:(apply list_elem_of_In; cbn; tauto)) as Hs.
  exists n. split_and!; [done|done| |by rewrite (same_direct n)|].
  - destruct (normalize_keeps_class _ _ En) as [_ (c & Hc & Hin)]. exists c. rewrite Hs by not_merge_field. done.
  - intros Hne. rewrite get_setitem_eq. f_equal. subst p. destruct (is_empty (py_str _)) eqn:E1; [done|].
    cbn [negb andb] in Ep. rewrite andb_true_r in Ep. destruct (is_empty project) eqn:E2; [by apply String.eqb_eq in E2|].
    cbn [negb andb] in Ep. by apply negb_false_iff, String.eqb_eq in Ep.
Qed.
Lemma repeat_same existing row row' : repeat_row existing row = Ok row' →
  same_evidence existing row' ∧ get "evidence_id" row' = get "evidence_id" existing.
Proof.
  unfold repeat_row. destruct (texts_of _); [|done]. cbn [mbind result_bind]. destruct (py_int _); [|done]. cbn [mbind result_bind].
  intros [= <-]. split.
  - etrans; apply setitem_same; apply list_elem_of_In; cbn; tauto.
  - by rewrite !get_setitem_ne.
Qed.

(** * The invariant *)

Lemma set_row_keys k r r' rows : assoc k rows = Some r' → map fst (set_row k r rows) = map fst rows.
Proof.
  induction rows as [|[k' x] rows IH]; [done|]. cbn. destruct (String.eqb k k') eqn:E; [by apply String.eqb_eq in E as ->|].
  intros Hr. cbn. by rewrite IH.
Qed.
Lemma assoc_set_row k r k' rows : assoc k' (set_row k r rows) = if String.eqb k' k then Some r else assoc k' rows.
Proof.
  induction rows as [|[k2 x] rows IH]; cbn [set_row assoc].
  - done.
  - destruct (String.eqb k k2) eqn:E; cbn [assoc].
    + apply String.eqb_eq in E as <-. by destruct (String.eqb k' k).
    + rewrite IH. destruct (String.eqb k' k2) eqn:E2; [|done]. apply String.eqb_eq in E2 as ->. by rewrite String.eqb_sym, E.
Qed.
Lemma assoc_None_key {A} k (rows : list (string * A)) : assoc k rows = None ↔ k ∉ map fst rows.
Proof.
  induction rows as [|[k' x] rows IH]; cbn; [by split; [intros _ ?%not_elem_of_nil|]|]. rewrite not_elem_of_cons, <- IH.
  destruct (String.eqb k k') eqn:E.
  - apply String.eqb_eq in E. split; [done|]. by intros [? _].
  - apply String.eqb_neq in E. tauto.
Qed.
Lemma assoc_snoc {A} k k' (x : A) rows : assoc k (rows ++ [(k', x)]) = match assoc k rows with Some y => Some y | None => if String.eqb k k' then Some x else None end.
Proof. induction rows as [|[k2 y] rows IH]; [done|]. cbn. by destruct (String.eqb k k2). Qed.
Lemma add_observation_ids sid eid p pr sites :
  List.concat (map cs_observations (add_observation sid eid p pr sites)) ≡ₚ eid :: List.concat (map cs_observations sites).
Proof.
  induction sites as [|s sites IH]; [done|]. cbn. destruct (String.eqb _ _); cbn.
  - rewrite <- app_assoc. symmetry. apply (Permutation_middle (cs_observations s) (List.concat (map cs_observations sites)) eid).
  - rewrite IH. by rewrite Permutation_middle.
Qed.
Lemma NoDup_snoc {A} (l : list A) x : NoDup l → x ∉ l → NoDup (l ++ [x]).
Proof.
  intros Hl Hx. apply NoDup_app. split_and!; [done| |apply NoDup_singleton]. intros y Hy Hyx. apply list_elem_of_singleton in Hyx as ->. done.
Qed.
Lemma add_observation_sites sid eid p pr sites : NoDup (map cs_site_id sites) → NoDup (map cs_site_id (add_observation sid eid p pr sites)).
Proof.
  assert (map cs_site_id (add_observation sid eid p pr sites) =
    if bool_decide (sid ∈ map cs_site_id sites) then map cs_site_id sites else (map cs_site_id sites ++ [sid])%list) as ->.
  { induction sites as [|s sites IH]; [done|]. cbn [add_observation map]. destruct (String.eqb (cs_site_id s) sid) eqn:E.
    - apply String.eqb_eq in E as <-. by rewrite bool_decide_true by left.
    - apply String.eqb_neq in E. cbn [map]. rewrite IH.
      rewrite (bool_decide_ext (sid ∈ cs_site_id s :: map cs_site_id sites) (sid ∈ map cs_site_id sites)) by (rewrite elem_of_cons; intuition congruence).
      by case_bool_decide. }
  intros Hnd. case_bool_decide as Hb; [done|]. by apply NoDup_snoc.
Qed.
Record merged (g : merge_state) : Prop := {
  mi_ids : NoDup (map fst (mg_identities g));
  mi_observed : List.concat (map cs_observations (mg_sites g)) ≡ₚ map fst (mg_identities g);
  mi_sites : NoDup (map cs_site_id (mg_sites g));
  mi_rows : ∀ id row, assoc id (mg_identities g) = Some row → identified id row;
  mi_count : mg_in g = (mg_duplicates g + counted (mg_identities g))%Z;
}.
Lemma merged_start : merged no_observations.
Proof. by constructor; try constructor. Qed.
(** What one row does. *)
Lemma merge_row_step project raw g g' : merge_row project raw g = Ok g' → ∃ row id, admit_row project raw = Ok row ∧ evidence_identity row = Ok id ∧
  mg_in g' = (mg_in g + 1)%Z ∧
  match assoc id (mg_identities g) with
  | Some existing => ∃ existing', repeat_row existing row = Ok existing' ∧ mg_duplicates g' = (mg_duplicates g + 1)%Z ∧
      mg_identities g' = set_row id existing' (mg_identities g) ∧ mg_sites g' = mg_sites g
  | None => ∃ row' p sid, same_evidence row row' ∧ get "evidence_id" row' = JStr id ∧ get "project_id" row' = get "project_id" row ∧
      mg_duplicates g' = mg_duplicates g ∧ mg_identities g' = (mg_identities g ++ [(id, row')])%list ∧
      mg_sites g' = add_observation sid id p (str_or_empty "project_id" row') (mg_sites g)
  end.
Proof.
  unfold merge_row. destruct (admit_row project raw) as [row|]; [|done]. cbn [mbind result_bind].
  destruct (evidence_identity row) as [id|] eqn:Eid; [|done]. cbn [mbind result_bind]. intros Hm. exists row, id. split; [done|]. split; [done|].
  destruct (assoc id (mg_identities g)) as [existing|].
  - destruct (repeat_row existing row) as [existing'|]; [|done]. cbn [mbind result_bind] in Hm. injection Hm as <-. split; [done|]. by exists existing'.
  - destruct (_observation_site_parts _) as [p|]; [|done]. cbn [mbind result_bind] in Hm. destruct (site_id_of _ p) as [sid|]; [|done].
    cbn [mbind result_bind] in Hm. injection Hm as <-. split; [done|].
    eexists _, p, sid. split_and!; [| | |done|done|done].
    + etrans; [apply (setitem_same "evidence_id")|apply setdefault_same]; apply list_elem_of_In; cbn; tauto.
    + rewrite get_setdefault_ne by done. apply get_setitem_eq.
    + rewrite get_setdefault_ne by done. by apply get_setitem_ne.
Qed.
Lemma merged_row project raw g g' : merged g → merge_row project raw g = Ok g' → merged g'.
Proof.
  intros [Hi Ho Hs Hr Hc] (row & id & Ha & Hid & Hin & Hm)%merge_row_step.
  destruct (admit_spec _ _ _ Ha) as (_ & _ & _ & Hclass & Hdirect & _).
  assert (∃ c, get "resolution_class" row = JStr c) as Hclass' by (destruct Hclass as (c & ? & _); by exists c).
  destruct (assoc id (mg_identities g)) as [existing|] eqn:Ex.
  - destruct Hm as (existing' & Hrep & Hd & Hids & Hsites). destruct (repeat_same _ _ _ Hrep) as [Hsame Hev].
    constructor; rewrite ?Hsites, ?Hids, ?Hin, ?Hd; [..|].
    + by rewrite (set_row_keys _ _ existing).
    + by rewrite (set_row_keys _ _ existing).
    + done.
    + intros id' row'. rewrite assoc_set_row. destruct (String.eqb id' id) eqn:E; [|apply Hr].
      apply String.eqb_eq in E as ->. intros [= <-]. destruct (Hr _ _ Ex) as [(c & C1 & C2) D I V].
      constructor; [exists c; by rewrite Hsame by not_merge_field|by rewrite (same_direct existing)| |by rewrite Hev].
      rewrite (same_identity existing); [done|done|by exists c].
    + unfold counted in *. rewrite <- (length_map fst (set_row _ _ _)), (set_row_keys _ _ existing), length_map by done. lia.
  - destruct Hm as (row' & p & sid & Hsame & Hev & _ & Hd & Hids & Hsites). apply assoc_None_key in Ex as Hfresh.
    constructor; rewrite ?Hsites, ?Hids, ?Hin, ?Hd, ?map_app; [..|].
    + by apply NoDup_snoc.
    + rewrite add_observation_ids, Ho. cbn [map fst]. apply Permutation_cons_append.
    + by apply add_observation_sites.
    + intros id' r. rewrite assoc_snoc. destruct (assoc id' (mg_identities g)) eqn:E; [intros [= <-]; by apply Hr|].
      destruct (String.eqb id' id) eqn:E2; [|done]. apply String.eqb_eq in E2 as ->. intros [= <-].
      destruct Hclass as (c & C1 & C2). constructor; [exists c; by rewrite Hsame by not_merge_field|by rewrite (same_direct row)| |done].
      by rewrite (same_identity row).
    + unfold counted in *. rewrite length_app. cbn [length]. lia.
Qed.
Lemma merged_rows project rows g g' : merged g → merge_rows project rows g = Ok g' → merged g' ∧ mg_in g' = (mg_in g + counted rows)%Z.
Proof.
  revert g. induction rows as [|row rows IH]; intros g Hg; cbn [merge_rows]; [intros [= <-]; unfold counted; cbn; split; [done|lia]|].
  destruct (merge_row project row g) as [g1|] eqn:E; [|done]. cbn [mbind result_bind]. intros Hr.
  destruct (IH _ (merged_row _ _ _ _ Hg E) Hr) as [Hm Hin]. split; [done|].
  apply merge_row_step in E as (? & ? & _ & _ & E & _). unfold counted in *. cbn [length]. lia.
Qed.

(** * Every observation once *)

Definition known (project : string) (g : merge_state) (raw : dict) : Prop :=
  ∃ row id, admit_row project raw = Ok row ∧ evidence_identity row = Ok id ∧ id ∈ map fst (mg_identities g).
Lemma merge_row_keys project raw g g' : merge_row project raw g = Ok g' → ∀ id, id ∈ map fst (mg_identities g) → id ∈ map fst (mg_identities g').
Proof.
  intros (row & id0 & _ & _ & _ & Hm)%merge_row_step id Hid. destruct (assoc id0 (mg_identities g)) as [ex|] eqn:Ex.
  - destruct Hm as (ex' & _ & _ & -> & _). by rewrite (set_row_keys _ _ ex).
  - destruct Hm as (? & ? & ? & _ & _ & _ & _ & -> & _). rewrite map_app. apply elem_of_app. by left.
Qed.
Lemma merge_row_known project raw g g' : merge_row project raw g = Ok g' → known project g' raw.
Proof.
  intros (row & id & Ha & Hid & _ & Hm)%merge_row_step. exists row, id. split_and!; [done|done|].
  destruct (assoc id (mg_identities g)) as [ex|] eqn:Ex.
  - destruct Hm as (ex' & _ & _ & -> & _). rewrite (set_row_keys _ _ ex) by done. apply assoc_elem in Ex. apply list_elem_of_fmap. by exists (id, ex).
  - destruct Hm as (? & ? & ? & _ & _ & _ & _ & -> & _). rewrite map_app. apply elem_of_app. right. by left.
Qed.
Lemma merge_rows_known project rows g g' : merge_rows project rows g = Ok g' →
  (∀ id, id ∈ map fst (mg_identities g) → id ∈ map fst (mg_identities g')) ∧ ∀ raw, In raw rows → known project g' raw.
Proof.
  revert g. induction rows as [|row rows IH]; intros g; cbn [merge_rows]; [intros [= <-]; by split|].
  destruct (merge_row project row g) as [g1|] eqn:E; [|done]. cbn [mbind result_bind]. intros [Hk Hr]%IH. split.
  - intros id Hid. by apply Hk, (merge_row_keys _ _ _ _ E).
  - intros raw [<-|Hin]; [|by apply Hr]. destruct (merge_row_known _ _ _ _ E) as (r & id & ? & ? & ?). exists r, id. split_and!; [done|done|by apply Hk].
Qed.
(** A site has observations, and each was made of an input of that site. *)
Definition placed (project : string) (obs : list dict) (s : MergedCallSite) : Prop :=
  cs_observations s ≠ [] ∧ ∀ id, id ∈ cs_observations s → ∃ raw row p, In raw obs ∧ admit_row project raw = Ok row ∧
    evidence_identity row = Ok id ∧ _observation_site_parts row = Ok p ∧ site_id_of row p = Ok (cs_site_id s).
Lemma merge_row_site project raw g g' : merge_row project raw g = Ok g' → mg_sites g' = mg_sites g ∨
  ∃ row id p q sid pr, admit_row project raw = Ok row ∧ evidence_identity row = Ok id ∧ _observation_site_parts row = Ok p ∧
    site_id_of row p = Ok sid ∧ mg_sites g' = add_observation sid id q pr (mg_sites g).
Proof.
  unfold merge_row. destruct (admit_row project raw) as [row|]; [|done]. cbn [mbind result_bind].
  destruct (evidence_identity row) as [id|] eqn:Eid; [|done]. cbn [mbind result_bind].
  destruct (assoc id (mg_identities g)) as [existing|].
  - destruct (repeat_row existing row); [|done]. cbn [mbind result_bind]. intros [= <-]. by left.
  - set (row' := setdefault _ _ _). assert (same_evidence row row') as Hsame
      by (etrans; [apply (setitem_same "evidence_id")|apply setdefault_same]; apply list_elem_of_In; cbn; tauto).
    rewrite (same_parts row row') by done. destruct (_observation_site_parts row) as [p|] eqn:Ep; [|done]. cbn [mbind result_bind].
    rewrite (same_site row row') by done. destruct (site_id_of row p) as [sid|] eqn:Es; [|done]. cbn [mbind result_bind]. intros [= <-].
    right. exists row, id, p, p, sid, (str_or_empty "project_id" row'). by split_and!.
Qed.
Lemma add_observation_placed (P : string → string → Prop) sid eid q pr sites : P sid eid →
  (∀ s, s ∈ sites → cs_observations s ≠ [] ∧ ∀ id, id ∈ cs_observations s → P (cs_site_id s) id) →
  ∀ s, s ∈ add_observation sid eid q pr sites → cs_observations s ≠ [] ∧ ∀ id, id ∈ cs_observations s → P (cs_site_id s) id.
Proof.
  intros Hp. induction sites as [|s0 sites IH]; intros Hall s; cbn [add_observation].
  - intros ->%list_elem_of_singleton. cbn. split; [done|]. by intros id ->%list_elem_of_singleton.
  - destruct (Hall s0 (list_elem_of_here _ _)) as [H1 H2]. destruct (String.eqb_spec (cs_site_id s0) sid) as [E|_];
      intros [-> | Hs]%elem_of_cons; [|by apply Hall; right|done|by apply IH; [intros; apply Hall; right|]].
    cbn. split; [by destruct (cs_observations s0)|]. rewrite <- E in *.
    intros id [Hid|Hid%list_elem_of_singleton]%elem_of_app; [by apply H2|by subst].
Qed.
Lemma merge_rows_placed project obs rows g g' : (∀ raw, In raw rows → In raw obs) → (∀ s, s ∈ mg_sites g → placed project obs s) →
  merge_rows project rows g = Ok g' → ∀ s, s ∈ mg_sites g' → placed project obs s.
Proof.
  revert g. induction rows as [|raw rows IH]; intros g Hobs Hg; cbn [merge_rows]; [by intros [= <-]|].
  destruct (merge_row project raw g) as [g1|] eqn:E; [|done]. cbn [mbind result_bind]. apply IH; [intros; apply Hobs; by right|].
  destruct (merge_row_site _ _ _ _ E) as [->|(row & id & p & q & sid & pr & Ha & Hi & Hp & Hs & ->)]; [done|].
  apply (add_observation_placed (λ sid id, ∃ raw row p, In raw obs ∧ admit_row project raw = Ok row ∧ evidence_identity row = Ok id ∧
    _observation_site_parts row = Ok p ∧ site_id_of row p = Ok sid)); [|exact Hg].
  exists raw, row, p. split_and!; try done. apply Hobs. by left.
Qed.
Lemma merge_result obs cov conf project r : merge_call_evidence obs cov conf project = Ok r →
  merge_rows project obs no_observations = Ok (er_state r) ∧ er_call_sites r = order_by site_order (mg_sites (er_state r)) ∧
  strict_rows (er_state r) (er_call_sites r) = Ok (er_strict_rows r).
Proof.
  unfold merge_call_evidence. destruct (merge_rows _ _ _) as [g|]; [|done]. cbn [mbind result_bind]. cbv zeta.
  destruct (strict_rows _ _) as [st|] eqn:E; [|done]. cbn [mbind result_bind]. destruct (merge_configs _ _ _); [|done].
  cbn [mbind result_bind]. destruct (admit_coverage _); [|done]. cbn [mbind result_bind]. by intros [= <-].
Qed.
(** C36: No evidence identity is lost or counted twice: when the merge succeeds, the
    identity of every observation is found in exactly one call site, each identity
    and each site occurs once, and the observations are the distinct identities plus
    the collapsed repeats.  Every site has at least one identity, and each of its
    identities is that of an observation whose own site it is.  Observations of one
    identity count as repeats, also when they belong to two sites: then only the
    first one's site is there ([macro_calls_collapse]). *)
Theorem merge_conserves (obs cov conf : list dict) (project : string) (r : EvidenceMergeResult)
    (Hmerge : merge_call_evidence obs cov conf project = Ok r) :
  let ids := List.concat (map cs_observations (er_call_sites r)) in
  counted obs = (mg_duplicates (er_state r) + counted ids)%Z ∧ NoDup ids ∧ NoDup (map cs_site_id (er_call_sites r)) ∧
  (∀ raw, In raw obs → ∃ row id, admit_row project raw = Ok row ∧ evidence_identity row = Ok id ∧ id ∈ ids) ∧
  (∀ id, id ∈ ids → ∃ row, assoc id (mg_identities (er_state r)) = Some row ∧ identified id row) ∧
  (∀ s, s ∈ er_call_sites r → placed project obs s).
Proof.
  destruct (merge_result _ _ _ _ _ Hmerge) as (Hrows & Hsites & _). cbv zeta. rewrite Hsites.
  destruct (merged_rows _ _ _ _ merged_start Hrows) as [[Hi Ho Hs Hr Hc] Hin]. cbn [no_observations mg_in] in Hin.
  assert (List.concat (map cs_observations (order_by site_order (mg_sites (er_state r)))) ≡ₚ map fst (mg_identities (er_state r))) as Hp.
  { rewrite <- Ho, <- !flat_map_concat_map. apply Permutation_flat_map, order_by_perm. }
  split_and!.
  - unfold counted in *. rewrite (Permutation_length Hp), length_map. lia.
  - by rewrite Hp.
  - by rewrite order_by_perm.
  - intros raw Hraw. destruct (proj2 (merge_rows_known _ _ _ _ Hrows) raw Hraw) as (row & id & ? & ? & ?). exists row, id. by rewrite Hp.
  - intros id Hid. rewrite Hp in Hid. destruct (assoc id (mg_identities (er_state r))) as [row|] eqn:E; [exists row; by split; [|apply Hr]|].
    by apply assoc_None_key in E.
  - intros s. rewrite order_by_perm. revert s. refine (merge_rows_placed _ _ _ _ _ (λ _ H, H) _ Hrows). by intros s ?%elem_of_nil.
Qed.

(** * Repeats *)

Lemma merge_known_row project raw g g' : known project g raw → merge_row project raw g = Ok g' →
  mg_sites g' = mg_sites g ∧ map fst (mg_identities g') = map fst (mg_identities g) ∧ mg_duplicates g' = (mg_duplicates g + 1)%Z.
Proof.
  intros (row & id & Ha & Hid & Hk) (row' & id' & Ha' & Hid' & _ & Hm)%merge_row_step. rewrite Ha in Ha'. injection Ha' as <-.
  rewrite Hid in Hid'. injection Hid' as <-. destruct (assoc id (mg_identities g)) as [ex|] eqn:Ex; [|by apply assoc_None_key in Ex].
  destruct Hm as (ex' & _ & -> & -> & ->). split_and!; [done| |done]. by apply (set_row_keys _ _ ex).
Qed.
Lemma merge_known_rows project rows g g' : (∀ raw, In raw rows → known project g raw) → merge_rows project rows g = Ok g' →
  mg_sites g' = mg_sites g ∧ map fst (mg_identities g') = map fst (mg_identities g) ∧ mg_duplicates g' = (mg_duplicates g + counted rows)%Z.
Proof.
  revert g. induction rows as [|row rows IH]; intros g Hk; cbn [merge_rows]; [intros [= <-]; unfold counted; cbn; split_and!; (done || lia)|].
  destruct (merge_row project row g) as [g1|] eqn:E; [|done]. cbn [mbind result_bind].
  destruct (merge_known_row _ _ _ _ (Hk row (or_introl eq_refl)) E) as (E1 & E2 & E3). intros (F1 & F2 & F3)%IH.
  - split_and!; [by rewrite F1|by rewrite F2|]. rewrite F3, E3. unfold counted. cbn [length]. lia.
  - intros raw Hraw. destruct (Hk raw (or_intror Hraw)) as (r & id & ? & ? & ?). exists r, id. by rewrite E2.
Qed.
Lemma merge_rows_app project rows1 rows2 g : merge_rows project (rows1 ++ rows2) g = g1 ← merge_rows project rows1 g; merge_rows project rows2 g1.
Proof.
  revert g. induction rows1 as [|row rows1 IH]; intros g; [done|]. cbn. destruct (merge_row project row g); [|done]. cbn. apply IH.
Qed.
(** Analysing the same sources again adds nothing: observations that are exact
    repeats of earlier ones leave every call site and the list of its observations
    as they were, and each is counted as a collapsed duplicate. *)
Theorem repeats_change_no_site (obs again cov conf : list dict) (project : string) (r1 r2 : EvidenceMergeResult)
    (Hagain : ∀ raw, In raw again → In raw obs)
    (Hmerge1 : merge_call_evidence obs cov conf project = Ok r1)
    (Hmerge2 : merge_call_evidence (obs ++ again) cov conf project = Ok r2) :
  er_call_sites r2 = er_call_sites r1 ∧
  mg_duplicates (er_state r2) = (mg_duplicates (er_state r1) + counted again)%Z.
Proof.
  destruct (merge_result _ _ _ _ _ Hmerge1) as (H1 & -> & _), (merge_result _ _ _ _ _ Hmerge2) as (H2 & -> & _).
  rewrite merge_rows_app, H1 in H2. cbn [mbind result_bind] in H2.
  destruct (merge_known_rows project again (er_state r1) (er_state r2)) as (-> & _ & ->); [|done|done].
  intros raw Hraw. by apply (proj2 (merge_rows_known _ _ _ _ H1)), Hagain.
Qed.

(** * Strict calls *)

Lemma strong_rows_spec rows acc : strong_rows rows = Ok acc → ∀ a, In a acc ↔ In a rows ∧ is_strong_call_evidence a = Ok true.
Proof.
  revert acc. induction rows as [|row rows IH]; intros acc; cbn [strong_rows]; [intros [= <-]; cbn; tauto|].
  destruct (is_strong_call_evidence row) as [b|] eqn:E; [|done]. cbn [mbind result_bind].
  destruct (strong_rows rows) as [rest|]; [|done]. cbn [mbind result_bind]. intros [= <-] a. specialize (IH rest eq_refl a).
  destruct b; cbn [In]; rewrite IH; split; intros Ha; intuition (subst; congruence).
Qed.
Lemma remove_dups_one {A} `{EqDecision A} (l : list A) : length (remove_dups l) = 1%nat → ∀ x y, x ∈ l → y ∈ l → x = y.
Proof.
  intros Hl x y. rewrite <- !(elem_of_remove_dups l). destruct (remove_dups l) as [|z [|]]; try done.
  by intros ->%list_elem_of_singleton ->%list_elem_of_singleton.
Qed.
Lemma mapM_in {A B} (f : A → res B) l l' : mapM f l = Ok l' → ∀ a, In a l → ∃ b, f a = Ok b ∧ b ∈ l'.
Proof.
  revert l'. induction l as [|x l IH]; intros l'; cbn; [done|]. destruct (f x) as [y|] eqn:E; [|done]. cbn [mbind result_bind].
  destruct (mapM f l) as [r|]; [|done]. cbn [mbind result_bind]. intros [= <-] a [<-|Ha]; [exists y; split; [done|by left]|].
  destruct (IH r eq_refl a Ha) as (b & ? & ?). exists b. split; [done|by right].
Qed.
(** The accepted observation of a site: strong, and every other strong observation
    has the same callee. *)
Lemma accepted_spec rows a : accepted_observation rows = Ok (Some a) →
  In a rows ∧ is_strong_call_evidence a = Ok true ∧ ∀ b, In b rows → is_strong_call_evidence b = Ok true → callee_key b = callee_key a.
Proof.
  unfold accepted_observation. destruct (strong_rows rows) as [acc|] eqn:Eacc; [|done]. cbn [mbind result_bind].
  destruct (mapM callee_key acc) as [keys|] eqn:Ek; [|done]. cbn [mbind result_bind]. destruct (_ =? 1)%nat eqn:E; [|done].
  apply Nat.eqb_eq in E. intros [= Ha]. pose proof (strong_rows_spec _ _ Eacc) as Hs.
  assert (In a acc) as Hin by (destruct acc; [done|]; injection Ha as ->; by left).
  destruct (proj1 (Hs a) Hin) as [H1 H2]. split_and!; [done|done|]. intros b Hb Hbs.
  destruct (mapM_in _ _ _ Ek a Hin) as (ka & -> & Hka). destruct (mapM_in _ _ _ Ek b) as (kb & -> & Hkb); [by apply Hs|].
  f_equal. by apply (remove_dups_one keys).
Qed.
Lemma mapM_origin {A B} (f : A → res B) l l' : mapM f l = Ok l' → ∀ b, b ∈ l' → ∃ a, In a l ∧ f a = Ok b.
Proof.
  revert l'. induction l as [|x l IH]; intros l'; cbn; [intros [= <-] b []%not_elem_of_nil|]. destruct (f x) as [y|] eqn:E; [|done].
  cbn [mbind result_bind]. destruct (mapM f l) as [r|]; [|done]. cbn [mbind result_bind]. intros [= <-] b [->|Hb]%elem_of_cons.
  - exists x. split; [by left|done].
  - destruct (IH r eq_refl b Hb) as (a & ? & ?). exists a. split; [by right|done].
Qed.
Lemma remove_dups_all_same {A} `{EqDecision A} (x : A) l : x ∈ l → (∀ y, y ∈ l → y = x) → length (remove_dups l) = 1%nat.
Proof.
  intros Hx Hl. assert (remove_dups l ≡ₚ [x]) as ->; [|done]. apply NoDup_Permutation; [apply NoDup_remove_dups|apply NoDup_singleton|].
  intros y. rewrite elem_of_remove_dups, list_elem_of_singleton. split; [apply Hl|by intros ->].
Qed.
(** No call is derived from a site only when it has no strong observation or two
    that disagree. *)
Lemma accepted_none rows : accepted_observation rows = Ok None →
  ∀ a, In a rows → is_strong_call_evidence a = Ok true → ∃ b, In b rows ∧ is_strong_call_evidence b = Ok true ∧ callee_key b ≠ callee_key a.
Proof.
  unfold accepted_observation. destruct (strong_rows rows) as [acc|] eqn:Eacc; [|done]. cbn [mbind result_bind].
  destruct (mapM callee_key acc) as [keys|] eqn:Ek; [|done]. cbn [mbind result_bind]. intros Hn a Ha Has.
  pose proof (strong_rows_spec _ _ Eacc) as Hs. assert (In a acc) as Hin by by apply Hs.
  destruct (mapM_in _ _ _ Ek a Hin) as (ka & Hka & Hkin).
  destruct (List.find (λ b, match callee_key b with Ok k => negb (bool_decide (k = ka)) | Err _ => true end) acc) as [b|] eqn:Ef.
  - apply find_some in Ef as [Hb Hne]. apply Hs in Hb as [? ?]. exists b. rewrite Hka. split_and!; [done|done|]. cbv beta in Hne.
    intros Hk. rewrite Hk in Hne. by apply negb_true_iff, bool_decide_eq_false in Hne.
  - exfalso. assert (∀ y, y ∈ keys → y = ka) as Hall.
    { intros y Hy. destruct (mapM_origin _ _ _ Ek y Hy) as (b & Hb & Hyb). pose proof (find_none _ _ Ef b Hb) as Hf. cbv beta in Hf. rewrite Hyb in Hf.
      by apply negb_false_iff, bool_decide_eq_true in Hf. }
    rewrite (remove_dups_all_same ka) in Hn by done. cbn in Hn. by destruct acc.
Qed.
Lemma assoc_filter (p : string * json → bool) k v d : assoc k d = Some v → p (k, v) = true → assoc k (List.filter p d) = Some v.
Proof.
  intros Hd Hp. induction d as [|[k' w] d IH]; [done|]. cbn [assoc] in Hd. cbn [List.filter].
  destruct (String.eqb k k') eqn:E.
  - apply String.eqb_eq in E as <-. injection Hd as ->. rewrite Hp. cbn [assoc]. by rewrite String.eqb_refl.
  - destruct (p (k', w)); [|by apply IH]. cbn [assoc]. rewrite E. by apply IH.
Qed.
Lemma assoc_filter_none (p : string * json → bool) k d : (∀ v, p (k, v) = false) → assoc k (List.filter p d) = None.
Proof.
  intros Hp. induction d as [|[k' w] d IH]; [done|]. cbn [List.filter]. destruct (p (k', w)) eqn:E; [|done]. cbn [assoc].
  destruct (String.eqb k k') eqn:E2; [|done]. apply String.eqb_eq in E2 as <-. by rewrite Hp in E.
Qed.
Lemma get_update k props items : k ∉ map fst items → get k (update props items) = get k props.
Proof.
  unfold update. revert props. induction items as [|[k' v] items IH]; intros props Hk; [done|]. cbn [map fst] in Hk. cbn [foldl fst snd]. apply not_elem_of_cons in Hk as [Hk1 Hk2].
  rewrite IH by done. by apply get_setitem_ne.
Qed.
Lemma strict_get s a k : In k ["semantic_provider"; "context_fidelity"; "context_admission"; "execution_coverage"; "tu_key"; "config_fingerprint"; "callee_usr"; "context_attestation"; "manifest_key"] →
  absent (get k a) = false → get k (strict_props s a) = get k a.
Proof.
  intros Hk Ha. unfold strict_props. rewrite get_update; [|by repeat destruct Hk as [<-|Hk]; [not_merge_field..|]].
  unfold get in *. destruct (assoc k a) as [v|] eqn:E; [|done]. cbn [default from_option id] in *.
  rewrite (assoc_filter _ k v); [done|done|]. cbn [fst snd]. rewrite Ha, andb_true_r.
  by repeat destruct Hk as [<-|Hk].
Qed.
Lemma strict_class s a : get "resolution_class" (strict_props s a) = JStr RESOLUTION_CLASS_DIRECT_RESOLVED.
Proof. unfold strict_props, update. cbn [foldl fst snd]. rewrite !get_setitem_ne by done. apply get_setitem_eq. Qed.
Lemma strict_evidence_id s a : get "evidence_id" (strict_props s a) = get "evidence_id" a.
Proof. unfold strict_props, update. cbn [foldl fst snd]. rewrite !get_setitem_ne by done. apply get_setitem_eq. Qed.
Lemma text_given_present v : text_given v = true → absent v = false.
Proof. by destruct v. Qed.
Lemma is_text_present v t : is_text v t = true → absent v = false.
Proof. by destruct v. Qed.
(** The row derived from strong evidence is strong evidence. *)
Lemma strict_props_strong s a : is_strong_call_evidence a = Ok true → is_strong_call_evidence (strict_props s a) = Ok true.
Proof.
  rewrite !strong_evidence_spec. intros (H1 & H2 & H3 & H4). unfold context_is_strictly_eligible in H3 |- *.
  rewrite !andb_true_iff in H3. destruct H3 as [[[[C1 C2] C3] C4] C5].
  assert (∀ k, In k STRONG_CALL_REQUIRED_PROPS → text_given (get k (strict_props s a)) = true) as Hreq.
  { intros k Hk. destruct (String.eqb k "resolution_class") eqn:E; [apply String.eqb_eq in E as ->; by rewrite strict_class|].
    apply String.eqb_neq in E. specialize (H4 k Hk). rewrite strict_get; [done| |by apply text_given_present].
    cbn in Hk |- *. intuition congruence. }
  split_and!; [apply strict_class| | |done].
  - rewrite strict_get; [done|cbn; tauto|by rewrite H2].
  - rewrite !strict_get by first [cbn; tauto|by eapply is_text_present|by apply text_given_present]. by rewrite C1, C2, C3, C4, C5.
Qed.
Lemma strict_props_accepted s a : is_strong_call_evidence a = Ok true → enforce_strong_call_row (strict_props s a) = Ok ().
Proof.
  intros Hs%(strict_props_strong s). unfold enforce_strong_call_row.
  assert (get "props" (strict_props s a) = JNull) as Hp.
  { unfold strict_props. rewrite get_update by not_merge_field. unfold get. rewrite assoc_filter_none; [done|]. intros v. done. }
  unfold props_of. rewrite Hp. pose proof (strict_class s a) as Hc. unfold get in Hc.
  destruct (assoc "resolution_class" (strict_props s a)) as [c|] eqn:E; [|done]. cbn in Hc. subst c. cbn [check_class in_texts mbind result_bind].
  unfold refuse_weak_direct. rewrite strict_class. change (is_text _ _) with true. cbn iota. by rewrite Hs.
Qed.
Lemma strict_rows_spec g sites l : strict_rows g sites = Ok l →
  (∀ row, In row l → ∃ s a, In s sites ∧ accepted_observation (site_rows g s) = Ok (Some a) ∧ row = strict_row_of s a) ∧
  (∀ s, In s sites → ∃ o, accepted_observation (site_rows g s) = Ok o ∧ match o with Some a => In (strict_row_of s a) l | None => True end).
Proof.
  revert l. induction sites as [|s sites IH]; intros l; cbn [strict_rows]; [by intros [= <-]|].
  destruct (accepted_observation (site_rows g s)) as [o|] eqn:E; [|done]. cbn [mbind result_bind].
  destruct (strict_rows g sites) as [rest|]; [|done]. cbn [mbind result_bind]. intros [= <-]. destruct (IH rest eq_refl) as [I1 I2]. split.
  - intros row Hrow. assert (In row rest ∨ ∃ a, o = Some a ∧ row = strict_row_of s a) as [Hr|(a & -> & ->)].
    { destruct o as [a|]; [destruct Hrow as [<-|Hrow]; [right; by exists a|by left]|by left]. }
    + destruct (I1 row Hr) as (s' & a & ? & ? & ?). exists s', a. split; [by right|done].
    + exists s, a. split; [by left|done].
  - intros s' [<-|Hs']; [exists o; split; [done|]; destruct o; [by left|done]|].
    destruct (I2 s' Hs') as (o' & ? & Ho'). exists o'. split; [done|]. destruct o' as [a|]; [|done]. destruct o; [by right|done].
Qed.
(** C37: A strict call rests on strong evidence that its site agrees on: it is
    derived from an observation of the site by an approved provider with complete
    identity, every other such observation of the site names the same callee, and
    the derived row passes the writer's own gate; and a site with strong evidence
    yields its call unless two strong observations disagree. *)
Theorem strict_calls_backed (obs cov conf : list dict) (project : string) (r : EvidenceMergeResult)
    (Hmerge : merge_call_evidence obs cov conf project = Ok r) :
  (∀ row, In row (er_strict_rows r) → ∃ s a, In s (er_call_sites r) ∧ In a (site_rows (er_state r) s) ∧
     is_strong_call_evidence a = Ok true ∧ sr_caller_id row = sp_caller_id (cs_parts s) ∧ sr_callee_id row = callee_of a ∧
     (∀ b, In b (site_rows (er_state r) s) → is_strong_call_evidence b = Ok true → callee_key b = callee_key a) ∧
     get "evidence_id" (sr_props row) = get "evidence_id" a ∧ enforce_strong_call_row (sr_props row) = Ok ()) ∧
  (∀ s a, In s (er_call_sites r) → In a (site_rows (er_state r) s) → is_strong_call_evidence a = Ok true →
     (∃ row, In row (er_strict_rows r) ∧ get "site_id" (sr_props row) = JStr (cs_site_id s)) ∨
     ∃ b, In b (site_rows (er_state r) s) ∧ is_strong_call_evidence b = Ok true ∧ callee_key b ≠ callee_key a).
Proof.
  destruct (merge_result _ _ _ _ _ Hmerge) as (_ & _ & Hstrict). destruct (strict_rows_spec _ _ _ Hstrict) as [S1 S2]. split.
  - intros row Hrow. destruct (S1 row Hrow) as (s & a & Hs & Ha & ->). destruct (accepted_spec _ _ Ha) as (A1 & A2 & A3).
    exists s, a. split_and!; try done; [apply strict_evidence_id|by apply strict_props_accepted].
  - intros s a Hs Ha Hstrong. destruct (S2 s Hs) as ([x|] & Ho & Hx).
    + left. exists (strict_row_of s x). split; [done|]. unfold strict_row_of, strict_props, update. cbn [sr_props foldl fst snd].
      rewrite !get_setitem_ne by done. apply get_setitem_eq.
    + right. by apply (accepted_none _ Ho).
Qed.
End facts.

(** * Instances *)

#[local] Instance text_digest : Sha256 := λ s, s.
#[local] Instance text_uuid : Uuid5 := λ s, s.
Definition direct_observation (callee : string) (offset : Z) (config : string) : dict :=
  [("caller_id", JStr "f"); ("callee_id", JStr callee); ("file_path", JStr "a.c"); ("line", JInt 3); ("column", JInt 5);
   ("resolution_class", JStr "direct_resolved"); ("semantic_provider", JStr "clang_worker"); ("tu_key", JStr "a.c");
   ("config_fingerprint", JStr config); ("callee_usr", JStr ("c:" +:+ callee)); ("context_attestation", JStr "t");
   ("manifest_key", JStr "m"); ("context_fidelity", JStr "faithful"); ("context_admission", JStr "accepted");
   ("execution_coverage", JStr "complete"); ("spelling_start_byte", JInt offset)].
Definition lexical_observation : dict := [("caller_id", JStr "f"); ("file_path", JStr "a.c"); ("line", JInt 9)].
Definition example_rows : list dict := [direct_observation "g" 40 "debug"; direct_observation "g" 40 "release"; lexical_observation].
Definition merged_example (rows : list dict) : option EvidenceMergeResult :=
  match merge_call_evidence rows [] [] "p" with Ok r => Some r | Err _ => None end.
Lemma merge_conserves_witness : ∃ r, merge_call_evidence example_rows [] [] "p" = Ok r ∧
  length (er_call_sites r) = 2%nat ∧ length (er_strict_rows r) = 1%nat ∧
  NoDup (List.concat (map cs_observations (er_call_sites r))).
Proof.
  destruct (merge_call_evidence example_rows [] [] "p") as [r|e] eqn:E; [|vm_compute in E; discriminate].
  exists r. split; [done|]. pose proof (merge_conserves _ _ _ _ _ E) as (_ & Hn & _).
  split_and!; [..|exact Hn]; vm_compute in E; by injection E as <-.
Defined.
Lemma repeats_change_no_site_witness : ∃ r1 r2, merge_call_evidence example_rows [] [] "p" = Ok r1 ∧
  merge_call_evidence (example_rows ++ [lexical_observation]) [] [] "p" = Ok r2 ∧ er_call_sites r2 = er_call_sites r1 ∧
  mg_duplicates (er_state r2) = 1%Z.
Proof.
  destruct (merge_call_evidence example_rows [] [] "p") as [r1|e] eqn:E1; [|vm_compute in E1; discriminate].
  destruct (merge_call_evidence (example_rows ++ [lexical_observation]) [] [] "p") as [r2|e] eqn:E2; [|vm_compute in E2; discriminate].
  exists r1, r2. split; [done|]. split; [done|].
  assert (mg_duplicates (er_state r1) = 0%Z) as H1 by (vm_compute in E1; by injection E1 as <-).
  destruct (repeats_change_no_site example_rows [lexical_observation] [] [] "p" r1 r2) as [-> ->]; [|exact E1|exact E2|].
  - intros raw [<-|[]]. do 2 right. by left.
  - rewrite H1. by split.
Defined.
Lemma strict_calls_backed_witness : ∃ r, merge_call_evidence example_rows [] [] "p" = Ok r ∧
  ∃ row, In row (er_strict_rows r) ∧ sr_callee_id row = JStr "g" ∧ enforce_strong_call_row (sr_props row) = Ok ().
Proof.
  destruct (merge_call_evidence example_rows [] [] "p") as [r|e] eqn:E; [|vm_compute in E; discriminate].
  exists r. split; [done|]. destruct (strict_calls_backed _ _ _ _ _ E) as [Hall _].
  destruct (er_strict_rows r) as [|row rows] eqn:Er; [vm_compute in E; by injection E as <-|].
  exists row. destruct (Hall row) as (s & a & _ & _ & _ & _ & Hc & _ & _ & Hok); [by left|]. split; [by left|]. split; [|exact Hok].
  vm_compute in E. injection E as <-. vm_compute in Er. by injection Er as <- _.
Defined.
(** Two calls that a macro puts at one line and column, at different offsets of the
    file, belong to two sites but have one evidence identity: the second call is
    counted as a repeat and its site is lost. *)
Lemma macro_calls_collapse :
  option_map (λ r, (length (er_call_sites r), mg_duplicates (er_state r))) (merged_example [direct_observation "g" 40 "c"; direct_observation "g" 60 "c"])
    = Some (1%nat, 1%Z) ∧
  option_map (λ r, map cs_site_id (er_call_sites r)) (merged_example [direct_observation "g" 40 "c"])
    ≠ option_map (λ r, map cs_site_id (er_call_sites r)) (merged_example [direct_observation "g" 60 "c"]).
Proof. split_and!; vm_compute; done. Qed.
(** Sites that agree in file, line, column and caller stay in the order of the
    observations, so the merge depends on it. *)
Lemma merge_depends_on_order :
  option_map (λ r, map cs_site_id (er_call_sites r)) (merged_example [direct_observation "g" 40 "c"; direct_observation "h" 60 "c"])
    ≠ option_map (λ r, map cs_site_id (er_call_sites r)) (merged_example [direct_observation "h" 60 "c"; direct_observation "g" 40 "c"]).
Proof. vm_compute. done. Qed.
