(* ===== verification/ProcMap.v ===== *)
(** Source maps of Pro*C ([code-tiny/tools/cplus/proc_source_map.py]): which original
    source a span of precompiled C stands for, from a sidecar manifest or from line
    directives, and the reconciliation of the calls found in the precompiled code. *)
From S2P Require Import Prelude Json Text PyValue Models Identity Db Contracts Url Reliability CallEvidence.
#[local] Open Scope string_scope.

Definition PROC_SOURCE_MAP_VERSION : string := "proc-source-map-v1".
Definition MAP_QUALITY_STATES : list string :=
  ["exact_span"; "exact_line"; "line_directive"; "inferred"; "missing"; "stale"; "invalid"].
Definition MAX_MAP_ENTRIES : nat := Z.to_nat 200000.
Definition IndexError : exn := OtherException "IndexError".

(** [_digest]: each value is followed by a null byte. *)
Definition _digest `{Sha256} (values : list string) : string :=
  sha256_hex (String.concat "" (map (λ v, v +:+ String (Ascii.ascii_of_nat 0) "") values)).
Definition proc_masking_fingerprint `{Sha256} (source_sha256 : string) : string :=
  "proc-mask-v2:" +:+ take 16 (_digest ["proc-masking"; "proc-mask-v2"; PROC_SOURCE_MAP_VERSION; source_sha256]).

(** * Entries and lookup *)

Record ProcMapEntry := MkEntry {
  me_generated_start : Z; me_generated_end : Z; me_original_start : Z; me_original_end : Z; me_original_path : string;
  me_quality : string; me_class : string; me_original_start_line : Z; me_original_end_line : Z;
}.
Definition make_entry (e : ProcMapEntry) : res ProcMapEntry :=
  if negb (in_list (me_quality e) MAP_QUALITY_STATES) then Err ValueError
  else if (me_generated_end e <? me_generated_start e)%Z then Err ValueError
  else if (0 <=? me_original_start e)%Z && (me_original_end e <? me_original_start e)%Z then Err ValueError
  else if (me_original_start e <? 0)%Z && (me_original_start_line e <=? 0)%Z then Err ValueError
  else if (0 <? me_original_start_line e)%Z && (me_original_end_line e <? me_original_start_line e)%Z then Err ValueError
  else Ok e.
Definition covers (e : ProcMapEntry) (from to : Z) : bool := ((me_generated_start e <=? from) && (to <=? me_generated_end e))%Z.

Record SpanLookup := MkLookup {
  lu_status : string; lu_quality : string; lu_original_path : string; lu_original_start : Z; lu_original_end : Z;
  lu_original_start_line : Z; lu_original_end_line : Z; lu_class : string; lu_reason : string;
}.
Definition failed_lookup (status quality reason : string) : SpanLookup :=
  MkLookup status quality "" (-1) (-1) 0 0 "unmapped_generated" reason.
Record ProcSourceMap := MkSourceMap {
  sm_map_id : string; sm_provider : string; sm_original_path : string; sm_generated_path : string;
  sm_entries : list ProcMapEntry; sm_diagnostics : list (string * string);
}.
Definition entry_json (e : ProcMapEntry) : json :=
  JArr [JInt (me_generated_start e); JInt (me_generated_end e); JInt (me_original_start e); JInt (me_original_end e);
        JStr (me_original_path e); JStr (me_quality e); JStr (me_class e); JInt (me_original_start_line e); JInt (me_original_end_line e)].
Definition map_fingerprint `{Sha256} (m : ProcSourceMap) : string :=
  sha256_hex (canonical_json (JObj
    [("version", JStr PROC_SOURCE_MAP_VERSION); ("map_id", JStr (sm_map_id m)); ("provider", JStr (sm_provider m));
     ("original_path", JStr (sm_original_path m)); ("generated_path", JStr (sm_generated_path m));
     ("entries", JArr (map entry_json (sm_entries m)))])).
Definition is_stale (e : ProcMapEntry) : bool := String.eqb (me_quality e) "stale".
Definition has_stale (m : ProcSourceMap) : bool := existsb is_stale (sm_entries m).
Definition invalid_reason (m : ProcSourceMap) : string := default "" (assoc "map_invalid" (sm_diagnostics m)).
Definition has_invalid (m : ProcSourceMap) : bool := negb (is_empty (invalid_reason m)).
Definition quality_distribution (m : ProcSourceMap) : list (string * Z) :=
  order_by fst (foldl (λ counts e, count_key (me_quality e) counts) [] (sm_entries m)).

(** [(original_path, original_start, ...)] of an entry *)
Definition target_of (e : ProcMapEntry) : string * (Z * (Z * (Z * Z))) :=
  (me_original_path e, (me_original_start e, (me_original_end e, (me_original_start_line e, me_original_end_line e)))).
Definition usable (e : ProcMapEntry) : bool := negb (in_list (me_quality e) ["missing"; "invalid"]).
Definition _line_distance (byte_a byte_b : Z) : Z := if (byte_a =? byte_b)%Z then 0 else 1.
(** The span, projected through an entry that covers it. *)
Definition project (e : ProcMapEntry) (from to : Z) : SpanLookup :=
  let offset := (from - me_generated_start e)%Z in
  let has_bytes := (0 <=? me_original_start e)%Z in
  let line := if (0 <? me_original_start_line e)%Z
              then (me_original_start_line e + Z.max 0 (_line_distance (me_generated_start e) from))%Z else 0%Z in
  MkLookup "mapped" (me_quality e) (me_original_path e)
    (if has_bytes then me_original_start e + offset else -1)%Z
    (if has_bytes then me_original_start e + offset + (to - from) else -1)%Z line line (me_class e) "".
Definition lookup (m : ProcSourceMap) (from to : Z) : SpanLookup :=
  if has_invalid m then failed_lookup "invalid" "invalid" (invalid_reason m)
  else
    let covering := List.filter (λ e, covers e from to) (sm_entries m) in
    if existsb is_stale covering then failed_lookup "stale" "stale" "covering map entry is stale; quarantine previous evidence"
    else match List.filter usable covering with
    | [] => failed_lookup "missing" "missing" "no usable map entry covers the generated span"
    | e :: rest =>
        if forallb (λ e', bool_decide (target_of e' = target_of e)) rest then project e from to
        else failed_lookup "conflict" "invalid" "multiple map entries disagree on the original target"
    end.

(** * Lines *)

Definition newline_char : ascii := Ascii.ascii_of_nat 10.
(** The pieces between newlines. *)
Fixpoint split_newline (s : string) : list string :=
  match s with
  | EmptyString => [""]
  | String c s =>
      if Ascii.eqb c newline_char then "" :: split_newline s
      else match split_newline s with l :: ls => String c l :: ls | [] => [String c ""] end
  end.
(** [len(text)]: characters, of a text in UTF-8. *)
Fixpoint char_len (s : string) : Z :=
  match s with EmptyString => 0 | String c s => (if is_continuation c then 0 else 1) + char_len s end%Z.
Fixpoint starts_from (offset : Z) (lines : list string) : list Z :=
  match lines with [] => [] | l :: lines => offset :: starts_from (offset + char_len l + 1) lines end.
Definition _line_starts (text : string) : list Z := if is_empty text then [] else starts_from 0 (split_newline text).
(** The binary search of [line_of_position] and [_line_of]; the distance of [low]
    and [high] is fuel enough. *)
Fixpoint bisect (fuel : nat) (starts : list Z) (pos : Z) (low high : nat) : nat :=
  match fuel with
  | O => low
  | S fuel =>
      if (low <? high)%nat then
        let mid := ((low + high + 1) / 2)%nat in
        if (nth mid starts 0 <=? pos)%Z then bisect fuel starts pos mid high else bisect fuel starts pos low (mid - 1)
      else low
  end.
Definition search_line (starts : list Z) (pos : Z) : Z := Z.of_nat (bisect (length starts) starts pos 0 (length starts - 1)) + 1.
Definition _line_of (starts : list Z) (offset : Z) : Z :=
  if (offset <? 0)%Z then 0%Z else match starts with [] => 0%Z | _ => search_line starts offset end.

(** ** Line directives *)

Definition is_blank (c : ascii) : bool := Ascii.eqb c " " || Ascii.eqb c (Ascii.ascii_of_nat 9).
Definition blanks (s : string) : string := (span is_blank s).2.
(** Some blanks, and what follows them. *)
Definition blanks1 (s : string) : option string := match span is_blank s with (EmptyString, _) => None | (_, rest) => Some rest end.
Definition double_quote : ascii := Ascii.ascii_of_nat 34.
(** A line directive at the start of a line: its number, its quoted target if it has
    one, and what follows.  The quotes may hold newlines. *)
Definition match_directive (s : string) : option (string * option string * string) :=
  rest ← strip_prefix "#" (blanks s);
  rest ← strip_prefix "line" (blanks rest);
  rest ← blanks1 rest;
  match span is_digit rest with
  | (EmptyString, _) => None
  | (digits, rest) =>
      let rest := blanks rest in
      match rest with
      | String c quoted =>
          if Ascii.eqb c double_quote then
            match span (λ c, negb (Ascii.eqb c double_quote)) quoted with
            | (target, String _ rest) => Some (digits, Some target, rest)
            | (_, EmptyString) => Some (digits, None, rest)
            end
          else Some (digits, None, rest)
      | EmptyString => Some (digits, None, rest)
      end
  end.
(** [finditer]: the characters before the match, and its groups.  [skip] bytes
    belong to the last match; [bol] tells whether a line starts here. *)
Fixpoint directives (pos : Z) (skip : nat) (bol : bool) (s : string) : list (Z * (string * option string)) :=
  match s with
  | EmptyString => []
  | String c s' =>
      let next := if is_continuation c then pos else (pos + 1)%Z in
      match skip with
      | S skip => directives next skip (Ascii.eqb c newline_char) s'
      | O =>
          match (if bol then match_directive s else None) with
          | Some (digits, target, rest) =>
              (pos, (digits, target)) :: directives next (String.length s - String.length rest - 1) false s'
          | None => directives next 0 (Ascii.eqb c newline_char) s'
          end
      end
  end.
(** The line after the directive, the original line, and the target. *)
Definition mark_of (starts : list Z) (original_path : string) (d : Z * (string * option string)) : res (Z * (Z * string)) :=
  n ← int_of_text d.2.1;
  let target := default "" d.2.2 in
  mret (search_line starts d.1 + 1, (n, if is_empty target then original_path else target))%Z.
Definition foreign_diagnostic (gen_line : Z) (target : string) : string * string :=
  ("map_foreign_line_target",
   "#line region at generated line " +:+ print_int gen_line +:+ " targets " +:+ repr_string target +:+ ", not the bundle original").
Definition total_length (text : string) : Z := if is_empty text then 0 else (char_len text + 1)%Z.
(** The region of a mark that the next one (or the end of the text) closes. *)
Definition region_entry (text : string) (starts : list Z) (original_path : string) (gen_line end_line orig_line : Z) : ProcMapEntry :=
  let from := nth (Z.to_nat (gen_line - 1)) starts 0%Z in
  let to := if (end_line <? Z.of_nat (length starts))%Z then nth (Z.to_nat end_line) starts 0%Z else Z.max (total_length text) from in
  MkEntry from to (-1) (-1) original_path "line_directive" "unmapped_generated" orig_line (orig_line + (end_line - gen_line)).
Fixpoint regions (text : string) (starts : list Z) (original_path : string) (marks : list (Z * (Z * string)))
    : list ProcMapEntry * list (string * string) :=
  match marks with
  | [] => ([], [])
  | (gen_line, (orig_line, target)) :: marks =>
      let end_line := match marks with (next, _) :: _ => (next - 1)%Z | [] => Z.of_nat (length starts) end in
      let '(entries, diagnostics) := regions text starts original_path marks in
      if (end_line <? gen_line)%Z then (entries, diagnostics)
      else if negb (String.eqb target original_path) then (entries, foreign_diagnostic gen_line target :: diagnostics)
      else (region_entry text starts original_path gen_line end_line orig_line :: entries, diagnostics)
  end.
(** [map_id or default] *)
Definition parse_line_directive_map `{Sha256} (text original_path generated_path map_id : string) : res ProcSourceMap :=
  let starts := starts_from 0 (split_newline text) in
  marks ← mapM (mark_of starts original_path) (directives 0 0 true text);
  let '(found, diagnostics) := regions text starts original_path marks in
  entries ← mapM make_entry (firstn MAX_MAP_ENTRIES found);
  mret (MkSourceMap (if is_empty map_id then take 16 (_digest ["line-directive"; original_path; generated_path]) else map_id)
    "line_directive" original_path generated_path entries
    (diagnostics ++ (if (MAX_MAP_ENTRIES <? length found)%nat then [("map_entry_cap", "map regions capped at 200000")] else [])
     ++ match marks with [] => [("map_no_line_directives", "generated artifact contains no #line directives")] | _ => [] end)%list).

(** ** Sidecar manifests *)

(** The [n]th character of a text. *)
Definition char_at (n : nat) (s : string) : option string :=
  let before := String.length (take_chars n s) in
  let upto := String.length (take_chars (S n) s) in
  if (before <? upto)%nat then Some (String.substring before (upto - before) s) else None.
(** [value[n]] *)
Definition item_at (n : nat) (v : json) : res json :=
  match v with
  | JArr l => match nth_error l n with Some x => Ok x | None => Err IndexError end
  | JStr s => match char_at n s with Some c => Ok (JStr c) | None => Err IndexError end
  | JObj _ => Err KeyError
  | _ => Err TypeError
  end.
Definition int_at (n : nat) (v : json) : res Z := x ← item_at n v; py_int x.
Definition sidecar_entry (original_path : string) (stale : bool) (raw : json) : res ProcMapEntry :=
  d ← mapping_of raw;
  gen_span ← getitem "generated" d; orig_span ← getitem "original" d;
  let quality := py_str (py_or (get "quality" d) (JStr "exact_span")) in
  if negb (in_list quality MAP_QUALITY_STATES) then Err ValueError
  else
    gen_start ← int_at 0 gen_span; gen_end ← int_at 1 gen_span;
    orig_start ← int_at 0 orig_span; orig_end ← int_at 1 orig_span;
    make_entry (MkEntry gen_start gen_end orig_start orig_end original_path (if stale then "stale" else quality)
      (py_str (py_or (get "generated_code_class" d) (JStr "unmapped_generated"))) 0 0).
(** [except (KeyError, IndexError, TypeError, ValueError)] *)
Definition malformed (e : exn) : bool := bool_decide (e ∈ [KeyError; IndexError; TypeError; ValueError]).
(** The loop: the first malformed entry ends it. *)
Fixpoint sidecar_entries (original_path : string) (stale : bool) (index : Z) (raws : list json) : result (Z * exn) (list ProcMapEntry) :=
  match raws with
  | [] => Ok []
  | raw :: raws =>
      match sidecar_entry original_path stale raw with
      | Err e => Err (index, e)
      | Ok entry =>
          match sidecar_entries original_path stale (index + 1) raws with Ok entries => Ok (entry :: entries) | Err e => Err e end
      end
  end.
Definition invalid_map (data : dict) (reason : string) : ProcSourceMap :=
  MkSourceMap (str_or_empty "map_id" data) "sidecar" (str_or_empty "original_path" data) (str_or_empty "generated_path" data) []
    [("map_invalid", reason)].
Definition hash_differs (data : dict) (key expected : string) : bool :=
  negb (is_empty expected) && negb (String.eqb (str_or_empty key data) expected).
(** [exc_text] is [str(exc)]. *)
Definition parse_sidecar_map (exc_text : exn → string) (data : dict) (expected_original_sha256 expected_generated_sha256 : string) : res ProcSourceMap :=
  if negb (String.eqb (str_or_empty "version" data) PROC_SOURCE_MAP_VERSION)
  then Ok (invalid_map data ("unsupported sidecar map version: " +:+ py_repr (get "version" data)))
  else match get "entries" data with
  | JArr raws =>
      if blank (str_or_empty "original_path" data) then Ok (invalid_map data "sidecar map requires original_path")
      else if blank (str_or_empty "generated_path" data) then Ok (invalid_map data "sidecar map requires generated_path")
      else
        let stale := hash_differs data "original_sha256" expected_original_sha256 || hash_differs data "generated_sha256" expected_generated_sha256 in
        match sidecar_entries (py_str (get "original_path" data)) stale 0 (firstn MAX_MAP_ENTRIES raws) with
        | Err (index, e) =>
            if malformed e then Ok (invalid_map data ("malformed map entry " +:+ print_int index +:+ ": " +:+ exc_text e)) else Err e
        | Ok entries =>
            Ok (MkSourceMap (str_or_empty "map_id" data) "sidecar" (py_str (get "original_path" data)) (py_str (get "generated_path" data)) entries
              ((if (MAX_MAP_ENTRIES <? length raws)%nat then [("map_entry_cap", "map entries capped at 200000")] else [])
               ++ (if stale then [("map_stale", "sidecar map hashes do not match the supplied original/generated artifacts")] else []))%list)
        end
  | _ => Ok (invalid_map data "sidecar map requires an entries list")
  end.
(** [os.path.realpath] of the absolute path, and the JSON of the file, are arguments. *)
Definition load_sidecar_map (exc_text : exn → string) (realpath : string → string) (read_json : string → res json)
    (path root expected_original_sha256 expected_generated_sha256 : string) : res ProcSourceMap :=
  let real := realpath path in
  if negb (is_empty root) && negb (String.eqb real (realpath root)) && negb (startswith (realpath root +:+ "/") real) then Err ValueError
  else
    v ← read_json real;
    match v with
    | JObj data => parse_sidecar_map exc_text data expected_original_sha256 expected_generated_sha256
    | _ => Err ValueError
    end.

(** * Reconciliation *)

(** [_PROC_RUNTIME_NAME_RE] and [_PROC_WRAPPER_NAME_RE]: one of the prefixes, then
    letters, digits and underscores, and perhaps one last newline. *)
Definition runtime_prefixes : list string := ["sql"; "sqlca"; "oraca"; "sqlglm"; "sqlror"; "sqlld"; "ori"; "orl"; "orup"].
Definition wrapper_prefixes : list string := ["proc_"; "sqlproc_"; "epc_"; "EPC"].
Definition name_tail (s : string) : bool :=
  match span is_word s with
  | (_, EmptyString) => true
  | (_, String c EmptyString) => Ascii.eqb c newline_char
  | _ => false
  end.
Definition name_like (prefixes : list string) (name : string) : bool :=
  existsb (λ p, match strip_prefix p name with Some tail => name_tail tail | None => false end) prefixes.
Definition refine_generated_class (worker_class callee_name : string) (l : SpanLookup) (original_text : string) : string :=
  let shaped (otherwise : string) :=
    if name_like runtime_prefixes callee_name then "precompiler_runtime"
    else if name_like wrapper_prefixes callee_name then "precompiler_wrapper" else otherwise in
  if negb (String.eqb (lu_status l) "mapped") then shaped "unmapped_generated"
  else if String.eqb worker_class "macro_expansion" then "macro_expansion"
  else shaped (
    if negb (is_empty original_text) && negb (is_empty callee_name) && contains callee_name original_text then "original_application"
    else if String.eqb worker_class "original_application" then "unmapped_generated"
    else if is_empty worker_class then "unmapped_generated" else worker_class).

(** Why a call stays conservative evidence, if it does. *)
Definition reject_reason (class : string) (l : SpanLookup) (resolution : json) (state worker_status : string) : option string :=
  if in_list class ["precompiler_runtime"; "precompiler_wrapper"] then Some ("generated_class_" +:+ class)
  else if negb (String.eqb (lu_status l) "mapped") then Some ("map_" +:+ lu_status l)
  else if negb (String.eqb class "original_application") then Some ("generated_class_" +:+ class)
  else if negb (is_text resolution "direct_resolved") then Some ("resolution_" +:+ py_str resolution)
  else if negb (is_strict_map_quality (lu_quality l)) then Some ("map_quality_" +:+ lu_quality l)
  else if negb (String.eqb state "semantic_complete") || String.eqb worker_status "failed" then Some ("bundle_state_" +:+ state)
  else None.
Section reconcile.
Context (m : ProcSourceMap) (bundle_id original_text worker_status bundle_state : string).
Definition map_state : string :=
  classify_proc_bundle_state (MkBundleFacts true true true (has_stale m) (has_invalid m)
    (existsb (λ e, is_strict_map_quality (me_quality e)) (sm_entries m)) true worker_status true).
Definition reconcile_state : string := if is_empty bundle_state then map_state else bundle_state.
Definition reconciled_row (site : dict) (from to line column : Z) (class : string) (l : SpanLookup) (reason : option string) : dict :=
  let mapped := String.eqb (lu_status l) "mapped" in
  [("schema_version", JStr PROC_SOURCE_MAP_VERSION); ("bundle_id", JStr bundle_id); ("source_map_id", JStr (sm_map_id m));
   ("source_map_provider", JStr (sm_provider m)); ("resolution_class", get "resolution_class" site);
   ("semantic_provider", get "semantic_provider" site); ("config_fingerprint", get_default "config_fingerprint" (JStr "") site);
   ("callee_name", JStr (str_or_empty "callee_name" site)); ("callee_usr", get_default "callee_usr" (JStr "") site);
   ("caller_usr", get_default "caller_usr" (JStr "") site); ("caller_symbol_id", get_default "caller_symbol_id" (JStr "") site);
   ("callee_symbol_id", get_default "callee_symbol_id" (JStr "") site); ("generated_file", get_default "file_path" (JStr "") site);
   ("generated_start_byte", JInt from); ("generated_end_byte", JInt to); ("generated_line", JInt line); ("generated_column", JInt column);
   ("generated_code_class", JStr class); ("source_map_quality", JStr (lu_quality l)); ("mapping_status", JStr (lu_status l));
   ("file_path", JStr (if mapped then lu_original_path l else ""));
   ("start_line", JInt (if mapped && (0 <=? lu_original_start l)%Z then _line_of (_line_starts original_text) (lu_original_start l)
                        else if mapped then lu_original_start_line l else 0%Z));
   ("call_start_byte", JInt (if mapped then lu_original_start l else -1)%Z); ("call_end_byte", JInt (if mapped then lu_original_end l else -1)%Z);
   ("strict_eligible", JBool (match reason with None => true | Some _ => false end)); ("reject_reason", JStr (default "" reason))].
(** One call: its row, and why it was rejected. *)
Definition reconcile_site (site : dict) : res (dict * option string) :=
  from ← int_or_zero "call_start_byte" site; to ← int_or_zero "call_end_byte" site;
  let l := lookup m from to in
  let class := refine_generated_class (py_str (py_or (get "generated_code_class" site) (JStr "unmapped_generated")))
                 (str_or_empty "callee_name" site) l original_text in
  line ← int_or_zero "call_line" site; column ← int_or_zero "call_column" site;
  let reason := reject_reason class l (get "resolution_class" site) reconcile_state worker_status in
  mret (reconciled_row site from to line column class l reason, reason).
Record proc_reconciliation := MkProcReconciliation {
  pr_bundle_state : string; pr_rows : list dict; pr_strict_rows : list dict; pr_rejected : list (string * Z);
}.
Fixpoint reconcile_sites (sites : list dict) : res (list (dict * option string)) :=
  match sites with [] => Ok [] | site :: sites => r ← reconcile_site site; rs ← reconcile_sites sites; mret (r :: rs) end.
Definition accepted_row (r : dict * option string) : option dict := match r.2 with None => Some r.1 | Some _ => None end.
Definition count_rejection (counts : list (string * Z)) (r : dict * option string) : list (string * Z) :=
  match r.2 with Some reason => count_key reason counts | None => counts end.
Definition reconcile_proc_semantic_callsites (sites : list dict) : res proc_reconciliation :=
  rs ← reconcile_sites sites;
  mret (MkProcReconciliation reconcile_state (map fst rs) (omap accepted_row rs) (order_by fst (foldl count_rejection [] rs))).
Definition proc_reconciliation_dict `{Sha256} (r : proc_reconciliation) : dict :=
  let counts_json (l : list (string * Z)) := JObj (map (λ kv, (kv.1, JInt kv.2)) l) in
  [("schema_version", JStr PROC_SOURCE_MAP_VERSION); ("bundle_id", JStr bundle_id); ("bundle_state", JStr (pr_bundle_state r));
   ("map_fingerprint", JStr (map_fingerprint m)); ("map_quality_distribution", counts_json (quality_distribution m));
   ("rows", JArr (map JObj (pr_rows r))); ("strict_rows", JArr (map JObj (pr_strict_rows r))); ("rejected", counts_json (pr_rejected r));
   ("row_count", JInt (counted (pr_rows r))); ("strict_count", JInt (counted (pr_strict_rows r))); ("sql_facts_preserved", JBool true)].
End reconcile.
