(* ===== verification/ProcJoins.v ===== *)
(** Joins of Pro*C facts with semantic identities
    ([code-tiny/tools/cplus/evidence_merge.py]): the functions around SQL regions, the
    declarations of host variables, and the coverage of a data impact. *)
From S2P Require Import Prelude Json Text PyValue Models Identity Contracts Stateful Url Reliability CallEvidence Evidence.
#[local] Open Scope string_scope.

Definition PROC_RELATION_TYPES : list string :=
  ["DECLARES_STATEMENT"; "DECLARES_DIRECTIVE"; "BINDS_PARAMETER"; "DECLARES_CURSOR"; "REFERENCES_CURSOR"; "REFERENCES_STATEMENT";
   "READS_FROM"; "WRITES_TO"; "REFERENCES_TABLE"].
(** [for item in (value or [])], where [item.get] is called: texts have no such method. *)
Definition mappings_in (v : json) : res (list dict) :=
  match py_or v (JArr []) with
  | JArr l => mapM (λ x, match x with JObj d => Ok d | _ => Err AttributeError end) l
  | JStr _ | JObj _ => Err AttributeError
  | _ => Err TypeError
  end.
(** The candidates whose identifier is not blank. *)
Definition named_candidates (key : string) (candidates : list dict) : list dict :=
  List.filter (λ c, negb (blank (str_or_empty key c))) candidates.
Definition distinct_ids (key : string) (candidates : list dict) : list string := sorted_set (map (str_or_empty key) candidates).

(** * Functions *)

(** The quality of a join and its function. *)
Definition joined_function (lexical : string) (function_ids : list string) : string * string :=
  match function_ids with
  | [] => ("unresolved", lexical)
  | [id] => ("unique", id)
  | id :: _ => ("ambiguous", if is_empty lexical then id else lexical)
  end.
Definition function_join (project_id : string) (region : dict) : res dict :=
  let statement_id := str_or_empty "statement_id" region in
  if is_empty statement_id then Err ValueError
  else
    let lexical := str_or_empty "enclosing_function_id" region in
    candidates ← mappings_in (get "semantic_candidates" region);
    let function_ids := distinct_ids "function_id" (named_candidates "function_id" candidates) in
    let '(quality, function_id) := joined_function lexical function_ids in
    mret [("statement_id", JStr statement_id); ("function_id", JStr function_id); ("lexical_function_id", JStr lexical);
          ("semantic_function_ids", JArr (map JStr function_ids)); ("join_quality", JStr quality);
          ("source_map_quality", JStr (str_or_empty "source_map_quality" region)); ("bundle_id", JStr (str_or_empty "bundle_id" region));
          ("is_dynamic_sql", JBool (truthy (get "is_dynamic_sql" region))); ("project_id", JStr project_id);
          ("schema_version", JStr EVIDENCE_MERGE_SCHEMA_VERSION)].
Definition merge_proc_function_joins (regions : list dict) (project_id : string) : res (list dict) := mapM (function_join project_id) regions.

(** * Host variables *)

Record declaration := MkDeclaration { dc_id : string; dc_kind : string; dc_config : string }.
Definition declaration_of (c : dict) : declaration :=
  MkDeclaration (str_or_empty "declaration_id" c) (str_or_empty "declaration_kind" c) (str_or_empty "config_fingerprint" c).
Definition declaration_order (d : declaration) : string * string := (dc_config d, dc_id d).
(** [row_for]; the kind is that of the first candidate with this identifier. *)
Definition host_row (host_variable_id project_id : string) (is_indicator : bool) (candidates : list declaration) (declaration_id quality : string) : dict :=
  [("host_variable_id", JStr host_variable_id); ("declaration_id", JStr declaration_id);
   ("declaration_kind", JStr (from_option dc_kind "" (List.find (λ d, String.eqb (dc_id d) declaration_id) candidates)));
   ("join_quality", JStr quality); ("is_indicator", JBool is_indicator); ("project_id", JStr project_id);
   ("schema_version", JStr EVIDENCE_MERGE_SCHEMA_VERSION)].
Definition host_rows (host_variable_id project_id : string) (is_indicator : bool) (candidates : list declaration) : list dict :=
  let row := host_row host_variable_id project_id is_indicator candidates in
  match sorted_set (map dc_id candidates) with
  | [] => [row "" "unresolved"]
  | [id] => [row id "unique"]
  | ids =>
      match remove_dups (map dc_config candidates) with
      | [_] => map (λ id, row id "ambiguous") ids
      | _ => map (λ d, setitem "config_fingerprint" (JStr (dc_config d)) (row (dc_id d) "cross_config")) (order_by declaration_order candidates)
      end
  end.
Definition host_join (project_id : string) (host : dict) : res (list dict) :=
  let host_variable_id := str_either "host_variable_id" "id" "" host in
  if is_empty host_variable_id then Err ValueError
  else
    candidates ← mappings_in (get "candidates" host);
    mret (host_rows host_variable_id project_id (truthy (get "is_indicator" host))
      (map declaration_of (named_candidates "declaration_id" candidates))).
Definition resolve_proc_host_declarations (hosts : list dict) (project_id : string) : res (list dict) :=
  rows ← mapM (host_join project_id) hosts; mret (List.concat rows).

(** * Coverage of a data impact *)

Definition join_reasons (join : dict) : list string :=
  let statement := str_either "statement_id" "host_variable_id" "join" join in
  let quality := str_or_empty "join_quality" join in
  ((if truthy (get "is_dynamic_sql" join) then [statement +:+ ": dynamic_sql (table targets cannot be enumerated)"] else [])
   ++ (if String.eqb quality "ambiguous" then [statement +:+ ": ambiguous_function_join"]
       else if String.eqb quality "unresolved" then [statement +:+ ": unresolved_function_join"] else []))%list.
Definition impact_status (total : Z) (reasons : list string) : string :=
  match reasons with [] => if (0 <? total)%Z then "complete" else "unknown" | _ => "partial" end.
Definition proc_data_impact_coverage (joins : list dict) : dict :=
  let reasons := List.concat (map join_reasons joins) in
  [("status", JStr (impact_status (counted joins) reasons)); ("reasons", JArr (map JStr reasons)); ("join_count", JInt (counted joins));
   ("evidence_relation_types", JArr (map JStr (order_by id PROC_RELATION_TYPES)))].

(** * Facts *)

(** The semantic functions of a region. *)
Definition region_functions (region : dict) : option (list string) :=
  match mappings_in (get "semantic_candidates" region) with
  | Ok candidates => Some (distinct_ids "function_id" (named_candidates "function_id" candidates))
  | Err _ => None
  end.
Lemma concat_nil {A} (ls : list (list A)) : List.concat ls = [] ↔ ∀ l, l ∈ ls → l = [].
Proof.
  induction ls as [|l ls IH]; cbn; [split; [by intros _ l ?%elem_of_nil|done]|]. rewrite app_nil. rewrite IH. split.
  - intros [-> Hls] l' [->|Hl']%elem_of_cons; [done|by apply Hls].
  - intros Hall. split; [apply Hall, elem_of_cons; by left|]. intros l' Hl'. apply Hall, elem_of_cons. by right.
Qed.
Lemma mapM_Forall2 {A B} (f : A → res B) l k : mapM f l = Ok k → Forall2 (λ x y, f x = Ok y) l k.
Proof.
  revert k. induction l as [|x l IH]; cbn [mapM]; intros k Hk; [by apply Ok_inj in Hk as <-|].
  destruct (f x) as [y|] eqn:E; cbn [mbind result_bind] in Hk; [|done].
  destruct (mapM f l) as [k'|]; cbn [mbind result_bind mret result_ret] in Hk; [|done]. apply Ok_inj in Hk as <-. constructor; [done|by apply IH].
Qed.
Lemma join_reasons_nil join dynamic quality : get "is_dynamic_sql" join = JBool dynamic → get "join_quality" join = JStr quality →
  join_reasons join = [] ↔ dynamic = false ∧ quality ≠ "ambiguous" ∧ quality ≠ "unresolved".
Proof.
  intros Hd Hq. unfold join_reasons. rewrite Hd. unfold str_or_empty. rewrite Hq, str_back. cbn [truthy].
  destruct dynamic, (String.eqb_spec quality "ambiguous"), (String.eqb_spec quality "unresolved"); cbn; intuition congruence.
Qed.
Lemma function_join_spec project_id region join : function_join project_id region = Ok join →
  ∃ ids, region_functions region = Some ids ∧ get "semantic_function_ids" join = JArr (map JStr ids) ∧
    (join_reasons join = [] ↔ truthy (get "is_dynamic_sql" region) = false ∧ ∃ id, ids = [id]) ∧
    (∀ id, ids = [id] → get "function_id" join = JStr id) ∧
    (get "lexical_function_id" join = JStr (str_or_empty "enclosing_function_id" region)).
Proof.
  unfold function_join, region_functions. destruct (is_empty _); [done|].
  destruct (mappings_in _) as [candidates|]; cbn [mbind result_bind]; [|done]. set (ids := distinct_ids _ _).
  destruct (joined_function _ ids) as [quality function_id] eqn:Ej. cbn [mret result_ret]. intros <-%Ok_inj.
  exists ids. split; [done|]. split; [done|]. split; [|split; [|done]].
  - rewrite (join_reasons_nil _ (truthy (get "is_dynamic_sql" region)) quality) by done.
    destruct ids as [|id [|id2 ids']]; cbn [joined_function] in Ej; injection Ej as <- <-;
      (split; [intros (? & ? & ?)|intros (? & ? & ?)]); try done; split_and!; try done; by eexists.
  - intros id ->. cbn in Ej. by injection Ej as <- <-.
Qed.
(** The coverage of the data impact of some SQL regions is complete exactly when
    there are regions, none of them runs dynamic SQL, and each lies in exactly one
    semantic function; then every join names this function. *)
Theorem impact_complete regions project_id joins (Hj : merge_proc_function_joins regions project_id = Ok joins) :
  length joins = length regions ∧
  (get "status" (proc_data_impact_coverage joins) = JStr "complete" ↔
   regions ≠ [] ∧ ∀ region, region ∈ regions → truthy (get "is_dynamic_sql" region) = false ∧ ∃ id, region_functions region = Some [id]) ∧
  (get "status" (proc_data_impact_coverage joins) = JStr "complete" → ∀ join, join ∈ joins → ∃ region id, (region ∈ regions) ∧
     region_functions region = Some [id] ∧ get "function_id" join = JStr id).
Proof.
  apply mapM_Forall2 in Hj. pose proof (Forall2_length _ _ _ Hj) as Hlen.
  assert (get "status" (proc_data_impact_coverage joins) = JStr "complete" ↔ regions ≠ [] ∧ ∀ join, join ∈ joins → join_reasons join = []) as Hst.
  { change (get "status" (proc_data_impact_coverage joins)) with (JStr (impact_status (counted joins) (List.concat (map join_reasons joins)))).
    unfold impact_status, counted. destruct (List.concat (map join_reasons joins)) as [|x l] eqn:Ec.
    - rewrite concat_nil in Ec. assert (∀ join, join ∈ joins → join_reasons join = []) as Hall
        by (intros join Hin; apply Ec, list_elem_of_fmap; by exists join).
      destruct regions as [|region regions], joins as [|join joins]; [|discriminate Hlen|discriminate Hlen|by split].
      split; [done|]. by intros [[] _].
    - split; [done|]. intros [_ Hall]. exfalso. assert (List.concat (map join_reasons joins) = []) as Hn; [|congruence].
      apply concat_nil. intros l' (join & -> & Hin)%list_elem_of_fmap. by apply Hall. }
  assert (∀ join, join ∈ joins → ∃ region ids, (region ∈ regions) ∧ region_functions region = Some ids ∧
    (join_reasons join = [] ↔ truthy (get "is_dynamic_sql" region) = false ∧ ∃ id, ids = [id]) ∧ (∀ id, ids = [id] → get "function_id" join = JStr id)) as Hjoin.
  { intros join Hin. destruct (Forall2_right _ _ _ _ Hj Hin) as (region & Hr & Hf). apply function_join_spec in Hf as (ids & H1 & _ & H2 & H3 & _).
    by exists region, ids. }
  split; [done|]. rewrite Hst. split.
  - split; intros [Hne Hall]; (split; [done|]).
    + intros region Hr. destruct (Forall2_left _ _ _ _ Hj Hr) as (join & Hin & Hf). apply function_join_spec in Hf as (ids & H1 & _ & H2 & _).
      specialize (Hall join Hin). destruct (proj1 H2 Hall) as [Hd [fid Hid]]. split; [done|]. exists fid. congruence.
    + intros join Hin. destruct (Hjoin join Hin) as (region & ids & Hr & H1 & H2 & _). destruct (Hall region Hr) as [Hd [id Hid]]. apply H2.
      split; [done|]. exists id. congruence.
  - intros [_ Hall] join Hin. destruct (Hjoin join Hin) as (region & ids & Hr & H1 & H2 & H3). specialize (Hall join Hin).
    destruct (proj1 H2 Hall) as [_ [fid Hid]]. exists region, fid. split_and!; [done|congruence|by apply H3].
Qed.
(** No declaration of a host variable is lost, and none is invented. *)
Lemma host_rows_declarations host project indicator candidates id : id ≠ "" →
  (∃ row, row ∈ host_rows host project indicator candidates ∧ get "declaration_id" row = JStr id) ↔ ∃ d, d ∈ candidates ∧ dc_id d = id.
Proof.
  intros Hne. assert (id ∈ sorted_set (map dc_id candidates) ↔ ∃ d, d ∈ candidates ∧ dc_id d = id) as Hids.
  { rewrite elem_of_sorted_set, list_elem_of_fmap. split; intros (d & H1 & H2); exists d; by split. }
  unfold host_rows. destruct (sorted_set (map dc_id candidates)) as [|i [|j ids]] eqn:Es.
  - split; [|intros Hd; apply Hids in Hd; by apply elem_of_nil in Hd]. intros (row & ->%list_elem_of_singleton & Hr). by injection Hr as <-.
  - rewrite <- Hids, list_elem_of_singleton. split; [intros (row & ->%list_elem_of_singleton & Hr); by injection Hr|].
    intros ->. eexists. split; [by apply list_elem_of_singleton|done].
  - destruct (remove_dups (map dc_config candidates)) as [|c [|c2 cs]].
    2:{ rewrite <- Hids. split.
      - intros (row & (i' & -> & Hi)%list_elem_of_fmap & Hr). by injection Hr as <-.
      - intros Hin. eexists. split; [apply list_elem_of_fmap; by exists id|done]. }
    all: split; [intros (row & (d & -> & Hd%elem_of_order_by)%list_elem_of_fmap & Hr); exists d; split; [done|by injection Hr]
      |intros (d & Hd & Hi); eexists; split; [apply list_elem_of_fmap; exists d; split; [done|by apply elem_of_order_by]|cbn; by rewrite Hi]].
Qed.
(** The lexically first of several semantic functions is chosen when a region has no
    enclosing function. *)
Lemma ambiguous_join_picks_first :
  merge_proc_function_joins [[("statement_id", JStr "s"); ("semantic_candidates", JArr
    [JObj [("function_id", JStr "g")]; JObj [("function_id", JStr "f")]])]] "p" = Ok
    [[("statement_id", JStr "s"); ("function_id", JStr "f"); ("lexical_function_id", JStr "");
      ("semantic_function_ids", JArr [JStr "f"; JStr "g"]); ("join_quality", JStr "ambiguous"); ("source_map_quality", JStr "");
      ("bundle_id", JStr ""); ("is_dynamic_sql", JBool false); ("project_id", JStr "p"); ("schema_version", JStr "2")]].
Proof. vm_compute. reflexivity. Qed.
Definition example_region : dict :=
  [("statement_id", JStr "s"); ("enclosing_function_id", JStr "h"); ("semantic_candidates", JArr [JObj [("function_id", JStr "f")]; JObj [("function_id", JStr "f")]])].
Lemma impact_complete_witness : ∃ joins, merge_proc_function_joins [example_region] "p" = Ok joins ∧
  get "status" (proc_data_impact_coverage joins) = JStr "complete" ∧ ∀ join, join ∈ joins → get "function_id" join = JStr "f".
Proof.
  destruct (merge_proc_function_joins [example_region] "p") as [joins|] eqn:Ej; [|vm_compute in Ej; discriminate].
  exists joins. split; [done|]. destruct (impact_complete _ _ _ Ej) as (_ & H1 & H2).
  assert (get "status" (proc_data_impact_coverage joins) = JStr "complete") as Hc.
  { apply H1. split; [done|]. intros region Hr. apply list_elem_of_singleton in Hr as ->. split; [reflexivity|]. exists "f". vm_compute. reflexivity. }
  split; [done|]. intros join Hin. destruct (H2 Hc join Hin) as (region & fid & Hr & Hf & Hg). apply list_elem_of_singleton in Hr as ->.
  vm_compute in Hf. injection Hf as <-. exact Hg.
Defined.
