(* ===== verification/Publication.v ===== *)
(** Guarded publication of call evidence
    ([code-tiny/tools/cplus/guarded_publication.py]): the gate of a strict edge,
    the staged replacement with the stale edges it removes, its validation, the
    atomic publication with the ledger of valid generations, rollback, and what may
    be embedded.  The database deletion of stale edges is the driver's. *)
From S2P Require Import Prelude Json Text PyValue Models Store Identity Db Contracts Stateful Url Reliability CallEvidence Evidence.
#[local] Open Scope string_scope.

Definition GUARDED_PUBLICATION_SCHEMA_VERSION : string := "1".
Definition SEMANTIC_PUBLICATION_POLICY_VERSION : string := "semantic-publication-v1".
Definition SEMANTIC_PUBLICATION_MODES : list string := ["gated"; "off"; "rollback"].
Definition ENV_SEMANTIC_PUBLICATION_MODE : string := "CORTEX_SEMANTIC_PUBLICATION_MODE".
Definition PARSE_TIERS_ALLOWING_STRONG : list string := ["clean"; "recovered"].
Definition VECTOR_FORBIDDEN_GENERATED_CLASSES : list string :=
  ["precompiler_wrapper"; "precompiler_runtime"; "generated_declaration"; "unmapped_generated"].
Definition _CREDENTIAL_MARKERS : list string :=
  ["password="; "passwd="; "identified by"; "user id="; "userid="; "connect_data"; "oracle_sid"; "sqlca.connect"].
(** The first marker in the text, if any. *)
Definition secret_bearing_text (text : string) : option string :=
  List.find (λ marker, contains marker (casefold text)) _CREDENTIAL_MARKERS.

(** * The policy and the gate *)

Record SemanticPublicationPolicy := MkPolicy {
  po_mode : string; po_version : string; po_relations : list string; po_tiers : list string;
}.
Definition default_policy : SemanticPublicationPolicy :=
  MkPolicy "gated" SEMANTIC_PUBLICATION_POLICY_VERSION ["CALLS"] PARSE_TIERS_ALLOWING_STRONG.
Definition make_policy (p : SemanticPublicationPolicy) : res SemanticPublicationPolicy :=
  if negb (in_list (po_mode p) SEMANTIC_PUBLICATION_MODES) then Err ValueError
  else if negb (existsb (λ r, negb (blank r)) (po_relations p)) then Err ValueError
  else Ok p.
Definition semantic_publication_allowed (p : SemanticPublicationPolicy) : bool := String.eqb (po_mode p) "gated".
Definition with_environment (env : gmap string string) (p : SemanticPublicationPolicy) : res SemanticPublicationPolicy :=
  let raw_mode := casefold (strip (default "" (env !! ENV_SEMANTIC_PUBLICATION_MODE))) in
  if is_empty raw_mode then Ok p
  else if negb (in_list raw_mode SEMANTIC_PUBLICATION_MODES) then Err ValueError
  else make_policy (MkPolicy raw_mode (po_version p) (po_relations p) (po_tiers p)).
Definition policy_to_dict (p : SemanticPublicationPolicy) : dict :=
  [("schema_version", JStr GUARDED_PUBLICATION_SCHEMA_VERSION); ("mode", JStr (po_mode p)); ("policy_version", JStr (po_version p));
   ("strong_relation_types", JArr (map JStr (po_relations p)));
   ("parse_tiers_allowing_strong", JArr (map JStr (sorted_set (po_tiers p))));
   ("semantic_publication_allowed", JBool (semantic_publication_allowed p))].

Record PublicationGateDecision := MkDecision { gd_allowed : bool; gd_reason : string; gd_parse_trust : string; gd_semantic_trust : string }.
(** [value is False] *)
Definition is_false (v : json) : bool := match v with JBool false => true | _ => false end.
Definition parse_trust_for (file_quality evidence_policy : dict) : string * option string :=
  let tier := casefold (strip (str_or_empty "tier" file_quality)) in
  let tier := if is_empty tier then "unknown" else tier in
  (tier, if is_false (get "strong_relations_allowed" evidence_policy) then Some "evidence_policy_forbids_strong_relations"
         else if String.eqb tier "quarantined" then Some "parse_quality_quarantined"
         else if String.eqb tier "unknown" then Some "parse_quality_unknown" else None).
Record gate_inputs := MkGateInputs {
  gi_file_quality : dict; gi_evidence_policy : dict; gi_evidence_row : dict; gi_bundle_state : string; gi_map_quality : string;
  gi_generated_class : string;
}.
Definition strong_edge_publication_decision (policy : SemanticPublicationPolicy) (i : gate_inputs) : res PublicationGateDecision :=
  let '(tier, parse_reason) := parse_trust_for (gi_file_quality i) (gi_evidence_policy i) in
  if negb (semantic_publication_allowed policy) then Ok (MkDecision false ("semantic_publication_" +:+ po_mode policy) tier "none")
  else match parse_reason with
  | Some reason => Ok (MkDecision false reason tier "none")
  | None =>
      if negb (in_list tier (po_tiers policy)) then Ok (MkDecision false ("parse_tier_" +:+ tier) tier "none")
      else match gi_evidence_row i with
      | [] => Ok (MkDecision false "missing_evidence_row" tier "none")
      | row =>
          strong ← is_strong_call_evidence row;
          mret (if negb strong then MkDecision false "not_strong_call_evidence" tier "weak"
                else if negb (is_empty (gi_generated_class i)) && negb (String.eqb (gi_generated_class i) "original_application")
                then MkDecision false ("generated_class_" +:+ gi_generated_class i) tier "weak"
                else if negb (is_empty (gi_map_quality i)) && negb (is_strict_map_quality (gi_map_quality i))
                then MkDecision false ("map_quality_" +:+ gi_map_quality i) tier "weak"
                else if negb (is_empty (gi_bundle_state i)) && negb (bundle_state_allows_strict_calls (gi_bundle_state i))
                then MkDecision false ("bundle_state_" +:+ gi_bundle_state i) tier "weak"
                else MkDecision true "accepted" tier "strong")
      end
  end.

(** * Accounting and the two results of Pro*C *)

Record SubResultAccounting := MkAccounting { ac_discovered : Z; ac_accepted : Z; ac_quarantined : Z; ac_rejected : Z; ac_deleted : Z }.
Definition make_accounting (a : SubResultAccounting) : res SubResultAccounting :=
  if existsb (λ n, n <? 0)%Z [ac_discovered a; ac_accepted a; ac_quarantined a; ac_rejected a; ac_deleted a] then Err ValueError
  else if negb (ac_discovered a =? ac_accepted a + ac_quarantined a + ac_rejected a)%Z then Err ValueError
  else Ok a.
Definition accounting_to_dict (a : SubResultAccounting) : dict :=
  [("discovered", JInt (ac_discovered a)); ("accepted", JInt (ac_accepted a)); ("quarantined", JInt (ac_quarantined a));
   ("rejected", JInt (ac_rejected a)); ("deleted", JInt (ac_deleted a))].
Record StagedSubResult := MkSubResult {
  ss_name : string; ss_status : string; ss_rows : list dict; ss_reasons : list string; ss_accounting : SubResultAccounting;
  ss_preserves : bool;
}.
Definition sub_to_dict (s : StagedSubResult) : dict :=
  [("name", JStr (ss_name s)); ("status", JStr (ss_status s)); ("row_count", JInt (counted (ss_rows s)));
   ("reasons", JArr (map JStr (ss_reasons s))); ("accounting", JObj (accounting_to_dict (ss_accounting s)));
   ("preserves_prior_facts", JBool (ss_preserves s))].
Definition SQL_ORIGINAL_RESULT : string := "sql_original_result".
Definition SEMANTIC_MAPPED_RESULT : string := "semantic_mapped_result".
(** The entries of the reconciler's mapping that are read. *)
Record reconciliation := MkReconciliation {
  rc_strict_rows : list dict; rc_rows : list dict; rc_rejected : list string; rc_bundle_state : string;
}.
Definition no_accounting : SubResultAccounting := MkAccounting 0 0 0 0 0.
Definition build_sql_sub_result (rows relations : list dict) (quarantined : Z) (grammar_failed integrity_failed : bool) : res StagedSubResult :=
  let rejected := grammar_failed || integrity_failed in
  let facts := counted (rows ++ relations)%list in
  accounting ← make_accounting (MkAccounting (facts + quarantined) (if rejected then 0 else facts) quarantined (if rejected then facts else 0) 0);
  mret (MkSubResult SQL_ORIGINAL_RESULT (if rejected then "rejected" else "accepted") (if rejected then [] else rows ++ relations)%list
    ((if grammar_failed then ["sql_grammar_enrichment_failed"] else []) ++ (if integrity_failed then ["original_region_integrity_failed"] else []))%list
    accounting (negb rejected)).
Definition build_semantic_sub_result (r : option reconciliation) (lane_unavailable integrity_failed : bool) : res StagedSubResult :=
  match r with
  | None => Ok (MkSubResult SEMANTIC_MAPPED_RESULT "rejected" []
      [if lane_unavailable then "semantic_lane_unavailable" else "semantic_lane_not_attempted"] no_accounting false)
  | Some r =>
      let all := counted (rc_rows r) in let strict := counted (rc_strict_rows r) in
      if integrity_failed then
        accounting ← make_accounting (MkAccounting all 0 0 all 0);
        mret (MkSubResult SEMANTIC_MAPPED_RESULT "rejected" [] ["original_region_integrity_failed"] accounting false)
      else
        accounting ← make_accounting (MkAccounting all strict (Z.max 0 (all - strict)) 0 0);
        mret (MkSubResult SEMANTIC_MAPPED_RESULT (match rc_strict_rows r with [] => "quarantined" | _ => "accepted" end) (rc_strict_rows r)
          (match rc_rejected r with
           | [] => if is_empty (rc_bundle_state r) then [] else ["bundle_state_" +:+ rc_bundle_state r]
           | keys => order_by id keys end) accounting true)
  end.
Definition build_proc_staged_sub_results (sql_rows sql_relations : list dict) (sql_quarantined : Z) (sql_grammar_failed : bool)
    (semantic : option reconciliation) (semantic_lane_unavailable original_region_integrity_failed : bool) : res (list (string * StagedSubResult)) :=
  sql ← build_sql_sub_result sql_rows sql_relations sql_quarantined sql_grammar_failed original_region_integrity_failed;
  mapped ← build_semantic_sub_result semantic semantic_lane_unavailable original_region_integrity_failed;
  mret [(SQL_ORIGINAL_RESULT, sql); (SEMANTIC_MAPPED_RESULT, mapped)].

(** * The staged replacement *)

Record StaleStrongEdge := MkStaleEdge {
  se_caller_id : string; se_callee_id : string; se_site_id : string; se_file_path : string; se_reason : string;
}.
Definition edge_to_dict (e : StaleStrongEdge) : dict :=
  [("caller_id", JStr (se_caller_id e)); ("callee_id", JStr (se_callee_id e)); ("site_id", JStr (se_site_id e));
   ("file_path", JStr (se_file_path e)); ("reason", JStr (se_reason e))].
Record StagedReplacementSet := MkStaged {
  sg_project_id : string; sg_revision : string; sg_policy : SemanticPublicationPolicy;
  sg_strict_call_rows : list dict; sg_stale_strong_edges : list StaleStrongEdge; sg_evidence_sites : list dict;
  sg_evidence_observations : list dict; sg_build_configurations : list dict; sg_coverage_records : list dict;
  sg_proc_sub_results : list (string * StagedSubResult); sg_vector_point_ids : list string;
}.
(** [(row.get("props") or {}).get("site_id")] *)
Definition props_site_id (row : dict) : res json :=
  match py_or (get "props" row) (JObj []) with JObj props => Ok (get "site_id" props) | _ => Err AttributeError end.
(** The identity of the site a row is for: its own entry first, or its properties'. *)
Definition row_site_id (row : dict) : res string :=
  if truthy (get "site_id" row) then Ok (py_str (get "site_id" row))
  else id ← props_site_id row; mret (py_str (py_or id (JStr ""))).
Definition staged_site_id (row : dict) : res string :=
  id ← props_site_id row; mret (py_str (py_or (py_or id (get "site_id" row)) (JStr ""))).
Definition reaccepted_site_ids (rows : list dict) : res (list string) := mapM row_site_id rows.
Definition sub_result (s : StagedReplacementSet) (name : string) : StagedSubResult :=
  default (MkSubResult name "rejected" [] ["not_staged"] no_accounting true) (assoc name (sg_proc_sub_results s)).
Definition sorted_texts (l : list string) : json := JArr (map JStr (order_by id l)).
Definition sub_results_dict (s : StagedReplacementSet) : json :=
  JObj (map (λ kv, (kv.1, JObj (sub_to_dict kv.2))) (order_by fst (sg_proc_sub_results s))).
(** What [fingerprint] hashes. *)
Definition fingerprint_payload (s : StagedReplacementSet) : res dict :=
  strict ← mapM staged_site_id (sg_strict_call_rows s);
  mret [("schema_version", JStr GUARDED_PUBLICATION_SCHEMA_VERSION); ("project_id", JStr (sg_project_id s));
        ("revision", JStr (sg_revision s)); ("policy", JObj (policy_to_dict (sg_policy s)));
        ("strict_calls", sorted_texts strict);
        ("stale_strong_edges", sorted_texts (map se_site_id (sg_stale_strong_edges s)));
        ("evidence_sites", sorted_texts (map (λ r, py_str (get "site_id" r)) (sg_evidence_sites s)));
        ("evidence_observations", sorted_texts (map (λ r, py_str (get "evidence_id" r)) (sg_evidence_observations s)));
        ("build_configurations", sorted_texts (map (str_either "config_fingerprint" "configuration_id" "") (sg_build_configurations s)));
        ("coverage_records", sorted_texts (map (λ r, py_str (get "fingerprint" r)) (sg_coverage_records s)));
        ("proc_sub_results", sub_results_dict s); ("vector_point_ids", sorted_texts (sg_vector_point_ids s))].
Definition fingerprint `{Sha256} (s : StagedReplacementSet) : res string :=
  payload ← fingerprint_payload s; mret (sha256_hex (canonical_json (JObj payload))).
Definition staged_to_dict `{Sha256} (s : StagedReplacementSet) : res dict :=
  hash ← fingerprint s;
  mret [("schema_version", JStr GUARDED_PUBLICATION_SCHEMA_VERSION); ("project_id", JStr (sg_project_id s));
        ("revision", JStr (sg_revision s)); ("policy", JObj (policy_to_dict (sg_policy s)));
        ("strict_call_count", JInt (counted (sg_strict_call_rows s)));
        ("stale_strong_edges", JArr (map (λ e, JObj (edge_to_dict e)) (sg_stale_strong_edges s)));
        ("evidence_site_count", JInt (counted (sg_evidence_sites s)));
        ("evidence_observation_count", JInt (counted (sg_evidence_observations s)));
        ("build_configuration_count", JInt (counted (sg_build_configurations s)));
        ("coverage_record_count", JInt (counted (sg_coverage_records s)));
        ("proc_sub_results", sub_results_dict s); ("vector_point_count", JInt (counted (sg_vector_point_ids s)));
        ("fingerprint", JStr hash)].

Definition baseline_edge_file_path (edge : dict) : string := str_or_empty "file_path" edge.
Definition stale_edge_of (affected_reason : string) (file_reasons : list (string * string)) (edge : dict) : StaleStrongEdge :=
  let file := baseline_edge_file_path edge in
  let reason := default "" (assoc file file_reasons) in
  MkStaleEdge (str_or_empty "caller_id" edge) (str_or_empty "callee_id" edge) (str_or_empty "site_id" edge) file
    (if is_empty reason then affected_reason else reason).
(** The loop, with the sites [seen] so far. *)
Fixpoint stale_edges (reaccepted affected seen : list string) (make : dict → StaleStrongEdge) (baseline : list dict) : list StaleStrongEdge :=
  match baseline with
  | [] => []
  | edge :: baseline =>
      let site_id := str_or_empty "site_id" edge in
      if is_empty site_id || in_list site_id seen then stale_edges reaccepted affected seen make baseline
      else if negb (in_list (baseline_edge_file_path edge) affected) then stale_edges reaccepted affected seen make baseline
      else if in_list site_id reaccepted then stale_edges reaccepted affected seen make baseline
      else make edge :: stale_edges reaccepted affected (site_id :: seen) make baseline
  end.
Definition compute_stale_strong_edges (baseline : list dict) (reaccepted affected : list string) (affected_reason : string)
    (file_reasons : list (string * string)) : list StaleStrongEdge :=
  stale_edges (List.filter (λ s, negb (is_empty s)) reaccepted) affected [] (stale_edge_of affected_reason file_reasons) baseline.

(** The rows of a merge: its mapping form, and that of its result. *)
Record merge_rows_of := MkMergeRows { mw_strict_call_rows : list dict; mw_call_sites : list dict }.
Definition strict_row_dict (r : strict_row) : dict :=
  [("caller_id", JStr (sr_caller_id r)); ("callee_id", sr_callee_id r); ("site_id", JStr (sr_site_id r)); ("props", JObj (sr_props r))].
Definition merge_mapping (accepted_ids : option (list string)) (m : EvidenceMergeResult) : res merge_rows_of :=
  sites ← mapM (to_writer_rows accepted_ids (er_state m)) (er_call_sites m);
  mret (MkMergeRows (map strict_row_dict (er_strict_rows m)) sites).
(** The arguments of [build_staged_replacement]; a merge is given in its mapping form. *)
Record replacement_inputs := MkReplacementInputs {
  ri_merge : option merge_rows_of; ri_strict_call_rows : option (list dict); ri_evidence_sites : option (list dict);
  ri_evidence_observations : list dict; ri_build_configurations : list dict; ri_coverage_records : list dict;
  ri_baseline : list dict; ri_affected_files : list string; ri_file_reasons : list (string * string);
  ri_proc_sub_results : list (string * StagedSubResult); ri_vector_point_ids : list string;
}.
Definition strict_rows_given (i : replacement_inputs) : list dict :=
  match ri_strict_call_rows i with Some rows => rows | None => from_option mw_strict_call_rows [] (ri_merge i) end.
Definition verified_rows (policy : SemanticPublicationPolicy) (rows : list dict) : res (list dict) :=
  if negb (semantic_publication_allowed policy) then Ok []
  else mapM (λ row, _ ← refuse_weak_direct (props_of row); mret row) rows.
Definition build_staged_replacement (project_id revision : string) (policy : SemanticPublicationPolicy) (i : replacement_inputs)
    : res StagedReplacementSet :=
  let sites := match ri_evidence_sites i with Some rows => rows | None => from_option mw_call_sites [] (ri_merge i) end in
  strict ← verified_rows policy (strict_rows_given i);
  reaccepted ← reaccepted_site_ids strict;
  mret (MkStaged project_id revision policy strict
    (compute_stale_strong_edges (ri_baseline i) reaccepted (ri_affected_files i) "downgraded" (ri_file_reasons i))
    sites (ri_evidence_observations i) (ri_build_configurations i) (ri_coverage_records i)
    (ri_proc_sub_results i) (ri_vector_point_ids i)).

(** * Validation before publication *)

Record PublicationExpectation := MkExpectation {
  ex_strict_call_count : Z; ex_evidence_site_count : Z; ex_evidence_observation_count : Z; ex_stale_strong_edge_survivors : Z;
  ex_vector_item_count : Z; ex_coverage_status : string;
}.
Record PublicationValidationResult := MkValidation { va_ok : bool; va_violations : list string; va_checked : list (string * Z) }.
Definition validation_to_dict (v : PublicationValidationResult) : dict :=
  [("ok", JBool (va_ok v)); ("violations", JArr (map JStr (va_violations v))); ("checked", JObj (map (λ kv, (kv.1, JInt kv.2)) (va_checked v)))].
(** The observation has an edge: it does not dangle and names its callee. *)
Definition linkable (row : dict) : bool := negb (truthy (get "dangling" row)) && negb (is_empty (str_either "callee_id" "callee_symbol_id" "" row)).
Definition expected_effects (s : StagedReplacementSet) : PublicationExpectation :=
  MkExpectation (counted (sg_strict_call_rows s)) (counted (sg_evidence_sites s))
    (counted (List.filter linkable (sg_evidence_observations s))) 0 (counted (sg_vector_point_ids s)) "".
(** One exact count: the violation, or what was checked. *)
Definition check_count (readback : list (string * Z)) (name : string) (expected : Z) : list string * list (string * Z) :=
  match assoc name readback with
  | None => (["missing_readback:" +:+ name], [])
  | Some actual =>
      (if (actual =? expected)%Z then []
       else ["count_mismatch:" +:+ name +:+ ":expected=" +:+ print_int expected +:+ ":actual=" +:+ print_int actual], [(name, actual)])
  end.
Definition stale_key : string := "stale_strong_edge_survivors".
Definition check_stale (readback : list (string * Z)) (expected : Z) : list string * list (string * Z) :=
  let actual := default (-1)%Z (assoc stale_key readback) in
  if (actual <? 0)%Z then (["missing_readback:" +:+ stale_key], [])
  else (if (actual =? expected)%Z then [] else ["stale_strong_edges_survived:expected=0:actual=" +:+ print_int actual], [(stale_key, actual)]).
Definition check_coverage (coverage_block : dict) (expected : string) : list string :=
  let status := str_or_empty "status" coverage_block in
  if is_empty expected || String.eqb status expected then []
  else ["coverage_mismatch:expected=" +:+ expected +:+ ":actual=" +:+ status].
Definition expected_counts (e : PublicationExpectation) : list (string * Z) :=
  [("strict_calls", ex_strict_call_count e); ("evidence_sites", ex_evidence_site_count e);
   ("evidence_observations", ex_evidence_observation_count e); ("vector_items", ex_vector_item_count e)].
Definition validate_staged_publication (s : StagedReplacementSet) (readback : list (string * Z)) (coverage_block : dict)
    (expectation : option PublicationExpectation) : PublicationValidationResult :=
  let expected := default (expected_effects s) expectation in
  let counts := map (λ ne, check_count readback ne.1 ne.2) (expected_counts expected) in
  let stale := check_stale readback (ex_stale_strong_edge_survivors expected) in
  let violations := (List.concat counts.*1 ++ stale.1 ++ check_coverage coverage_block (ex_coverage_status expected))%list in
  MkValidation (match violations with [] => true | _ => false end) violations (List.concat counts.*2 ++ stale.2)%list.

(** * What may be embedded *)

Definition embedded_fields : list string :=
  ["code"; "summary"; "note"; "comment"; "raw_text"; "command"; "raw_command"; "cli_args"; "conn_str"].
(** The first field whose text has a credential marker. *)
Definition credential_field (item : dict) : option string :=
  List.find (λ field, bool_decide (is_Some (secret_bearing_text (str_or_empty field item)))) embedded_fields.
Definition vector_item_rejection_reason (item : dict) : option string :=
  let generated_class := str_or_empty "generated_code_class" item in
  if in_list generated_class VECTOR_FORBIDDEN_GENERATED_CLASSES then Some ("generated_class_" +:+ generated_class)
  else if String.eqb (str_or_empty "source_origin" item) "generated" then Some "generated_origin"
  else match credential_field item with
  | Some field => Some ("credential_bearing_" +:+ field)
  | None =>
      if in_list (str_or_empty "label" item) PROC_NODE_LABELS && String.eqb (str_or_empty "vector_origin" item) "masked"
      then Some "masked_origin" else None
  end.
Definition rejection (item : dict) (reason : string) : string * string := (str_either "id" "symbol_id" "" item, reason).
Fixpoint sanitize_vector_items (items : list dict) : list dict * list (string * string) :=
  match items with
  | [] => ([], [])
  | item :: items =>
      let '(safe, rejections) := sanitize_vector_items items in
      match vector_item_rejection_reason item with
      | Some reason => (safe, rejection item reason :: rejections)
      | None => (item :: safe, rejections)
      end
  end.
