(* ===== verification/Ledger.v ===== *)
(** The ledger of valid semantic generations, publication and rollback
    ([code-tiny/tools/cplus/guarded_publication.py]).  The owner of the generations
    is an argument, with a state of its own; [owner_publisher] is the manager of
    [Generation.v]. *)
From S2P Require Import Prelude Json PyValue Models Store Artifacts Identity Contracts Stateful Url Reliability CallEvidence Evidence Publication Generation.
#[local] Open Scope string_scope.

Definition LEDGER_HISTORY_LIMIT : nat := 8.
(** The file: none, one that cannot be read, one that is no UTF-8, one that is no
    JSON, and one that holds a value. *)
Inductive ledger_file : Type := Absent | Unreadable | Undecodable | Corrupt | Holds (v : json).
(** What [load] returns. *)
Record ledger := MkLedger { ld_generations : list dict; ld_unreadable : bool }.
Definition mappings_of (v : json) : list dict :=
  match v with JArr l => omap (λ e, match e with JObj d => Some d | _ => None end) l | _ => [] end.
Definition load (f : ledger_file) : res ledger :=
  match f with
  | Absent => Ok (MkLedger [] false)
  | Undecodable => Err ValueError
  | Holds (JObj payload) => Ok (MkLedger (mappings_of (get "generations" payload)) false)
  | Unreadable | Corrupt | Holds _ => Ok (MkLedger [] true)
  end.
Definition last_valid (f : ledger_file) : res (option dict) := payload ← load f; mret (last (ld_generations payload)).
Definition ledger_entry (generation_id revision fingerprint : string) (policy : dict) (now : string) : dict :=
  [("generation_id", JStr generation_id); ("revision", JStr revision); ("fingerprint", JStr fingerprint);
   ("policy_version", JStr (str_or_empty "policy_version" policy)); ("mode", JStr (str_or_empty "mode" policy)); ("recorded_at", JStr now)].
(** [l[-n:]] *)
Definition last_n {A} (n : nat) (l : list A) : list A := drop (length l - n) l.
Definition with_entry (generations : list dict) (generation_id : string) (entry : dict) : list dict :=
  last_n LEDGER_HISTORY_LIMIT (List.filter (λ g, negb (is_text (get "generation_id" g) generation_id)) generations ++ [entry])%list.
Definition ledger_payload (l : ledger) (generations : list dict) : dict :=
  [("schema_version", JStr GUARDED_PUBLICATION_SCHEMA_VERSION); ("generations", JArr (map JObj generations))]
  ++ (if ld_unreadable l then [("unreadable", JBool true)] else []).
(** [record]; the write reaches the replacement of the file, or fails before it. *)
Definition record (written : bool) (generation_id revision fingerprint : string) (policy : dict) (now : string) : st ledger_file exn dict :=
  f ← st_gets id;
  payload ← st_lift (load f);
  let entry := ledger_entry generation_id revision fingerprint policy now in
  _ ← st_reject (negb written) OSError;
  _ ← st_modify (λ _, Holds (sort_keys (JObj (ledger_payload payload (with_entry (ld_generations payload) generation_id entry)))));
  mret entry.
Definition unreadable_detail : string := "ledger file exists but could not be read; rollback history is incomplete until repaired".
Definition ledger_status (f : ledger_file) : res dict :=
  payload ← load f;
  let flag := if ld_unreadable payload then [("unreadable", JBool true); ("detail", JStr unreadable_detail)] else [] in
  match last (ld_generations payload) with
  | None => mret ([("last_valid_generation", JNull); ("generation_count", JInt 0)] ++ flag)%list
  | Some entry =>
      id ← getitem "generation_id" entry;
      mret (update (([("last_valid_generation", JNull); ("generation_count", JInt 0)] ++ flag)%list)
        [("last_valid_generation", id); ("last_valid_revision", py_or (get "revision" entry) (JStr ""));
         ("last_valid_fingerprint", py_or (get "fingerprint" entry) (JStr ""));
         ("last_valid_policy_version", py_or (get "policy_version" entry) (JStr ""));
         ("generation_count", JInt (counted (ld_generations payload)))])
  end.

(** * Publication *)

Record PublicationOutcome := MkOutcome {
  oc_outcome : RunOutcome.RunOutcome; oc_generation_id : string; oc_retained_generation : string;
  oc_validation : option PublicationValidationResult; oc_failure : option FailureRecord; oc_accounting : dict;
}.
Definition outcome_to_dict (o : PublicationOutcome) : dict :=
  [("outcome", JStr (RunOutcome.value (oc_outcome o))); ("generation_id", JStr (oc_generation_id o));
   ("retained_generation", JStr (oc_retained_generation o));
   ("validation", from_option (λ v, JObj (validation_to_dict v)) JNull (oc_validation o));
   ("failure", from_option (λ f, JObj (failure_to_dict f)) JNull (oc_failure o)); ("accounting", JObj (oc_accounting o))].
Definition transient (c : FailureClass.FailureClass) : bool :=
  match c with FailureClass.STORAGE_UNAVAILABLE | FailureClass.TIMEOUT | FailureClass.CAPACITY => true | _ => false end.
Definition _publication_failure (code : string) (failure_class : FailureClass.FailureClass) (summary safe_action run_id correlation_id : string)
    (details : dict) : res FailureRecord :=
  make_failure (MkFailureRecord code failure_class RunPhase.PUBLISHING "cplus.guarded_publication" (transient failure_class)
    run_id correlation_id summary safe_action [] details).

(** What the caller passes besides the staged set and the boundary. *)
Record publish_request := MkRequest {
  rq_generation_id : string; rq_revision : string; rq_readback : list (string * Z); rq_coverage_block : dict;
  rq_run_id : string; rq_correlation_id : string; rq_queue_drained : bool;
}.
Definition either (a b : string) : string := if is_empty a then b else a.
Definition ACTION_DRAIN : string := "re-run ingestion after the queue drains; the active generation is unchanged".
Definition ACTION_INSPECT : string := "inspect the staged replacement accounting; the active generation is unchanged".
Definition ACTION_CORRECT : string := "correct the generation/target configuration; the active generation is unchanged".
Definition ACTION_RECONCILE : string := "reconcile the active-generation manifest before retrying publication".
Definition ACTION_LEDGER : string := "reconcile the ledger entry for the published generation; rollback history is incomplete until then".
(** [except ValueError] and [except Exception]; the rest goes on. *)
Inductive raised : Type := Rejected | Ambiguous | Escapes.
Definition caught (e : exn) : raised := match e with ValueError => Rejected | BaseException => Escapes | _ => Ambiguous end.

(** [_PublishedManifest], with the validation that is put into it. *)
Record _PublishedManifest := MkPublished {
  pm_generation_id : string; pm_source_revision : string; pm_fingerprint : string; pm_validation : PublicationValidationResult;
}.

Section publish.
Context `{Sha256} `{Uuid5}.
(** The state of the boundary, and the boundary, which publishes a manifest: the
    one it is given, or, for an owner of generations, the one it allocates for its
    revision and identifier.  The identifier of what was published comes back, empty
    where it has none.  Then [str(exc)], the name of its class, whether the ledger's
    file can be written, and the time. *)
Context {B : Type} (publisher : _PublishedManifest → st B exn string).
Context (exc_text exc_name : exn → string) (ledger_written : bool) (now : string).
(** The boundary and the ledger's file; without a ledger the file is not looked at. *)
Abbreviation M := (st (B * ledger_file) exn).
Definition at_boundary {A} (m : st B exn A) : st (B * ledger_file) exn A := λ s, let '(r, b) := m s.1 in (r, (b, s.2)).
Definition at_ledger {A} (m : st ledger_file exn A) : st (B * ledger_file) exn A := λ s, let '(r, l) := m s.2 in (r, (s.1, l)).
(** [try: m; except ...], with the exception as a value. *)
Definition attempt {A} (m : M A) : M (result exn A) := λ s, let '(r, s') := m s in (Ok r, s').

Section request.
Context (has_ledger : bool) (s : StagedReplacementSet) (rq : publish_request).
Definition request_run_id : string := either (rq_run_id rq) (either (sg_revision s) "semantic-publication").
Definition request_correlation_id : string := either (rq_correlation_id rq) request_run_id.
Definition source_revision : string := either (rq_revision rq) (sg_revision s).
Definition failed_outcome (outcome : RunOutcome.RunOutcome) (generation_id retained : string) (validation : option PublicationValidationResult)
    (code : string) (class : FailureClass.FailureClass) (summary safe_action : string) (details : dict) : res PublicationOutcome :=
  failure ← _publication_failure code class summary safe_action request_run_id request_correlation_id details;
  accounting ← staged_to_dict s;
  mret (MkOutcome outcome generation_id retained validation (Some failure) accounting).
(** What became of the boundary's exception. *)
Definition boundary_failure (generation_id retained : string) (validation : PublicationValidationResult) (e : exn) : res PublicationOutcome :=
  match caught e with
  | Rejected =>
      failed_outcome RunOutcome.FAILED_TERMINAL generation_id retained (Some validation) "semantic_publication_contract_rejected"
        FailureClass.CONFIGURATION ("publication boundary rejected the generation manifest: " +:+ exc_text e) ACTION_CORRECT
        [("error_type", JStr (exc_name e))]
  | Ambiguous =>
      failed_outcome RunOutcome.AMBIGUOUS generation_id retained (Some validation) "semantic_publication_ambiguous"
        FailureClass.AMBIGUOUS_MUTATION ("publication boundary raised before the atomic flip: " +:+ exc_name e) ACTION_RECONCILE
        [("error_type", JStr (exc_name e))]
  | Escapes => Err e
  end.
(** After the flip: the ledger records the generation. *)
Definition record_published (published_id retained hash : string) (validation : PublicationValidationResult) : M PublicationOutcome :=
  recorded ← (if has_ledger
              then attempt (at_ledger (record ledger_written published_id source_revision hash (policy_to_dict (sg_policy s)) now))
              else mret (Ok []));
  match recorded with
  | Err OSError =>
      st_lift (failed_outcome RunOutcome.FAILED_RETRYABLE published_id retained (Some validation) "semantic_ledger_write_failed"
        FailureClass.STORAGE_UNAVAILABLE "generation published but the semantic generation ledger could not record it" ACTION_LEDGER
        [("error_type", JStr (exc_name OSError)); ("published_generation", JStr published_id)])
  | Err e => st_raise e
  | Ok _ =>
      accounting ← st_lift (staged_to_dict s);
      mret (MkOutcome RunOutcome.SUCCESS published_id retained (Some validation) None accounting)
  end.
Definition publish_staged_generation : M PublicationOutcome :=
  f ← st_gets snd;
  retained ← st_lift (if has_ledger then last_valid f else Ok None);
  let retained := from_option (str_or_empty "generation_id") "" retained in
  if negb (rq_queue_drained rq) then
    st_lift (failed_outcome RunOutcome.FAILED_RETRYABLE "" retained None "semantic_queue_not_drained" FailureClass.INTEGRITY
      "semantic evidence queue did not drain before publication" ACTION_DRAIN [("generation", JStr (rq_generation_id rq))])
  else
    let validation := validate_staged_publication s (rq_readback rq) (rq_coverage_block rq) None in
    if negb (va_ok validation) then
      st_lift (failed_outcome RunOutcome.FAILED_TERMINAL "" retained (Some validation) "semantic_publication_validation_failed"
        FailureClass.INTEGRITY "staged generation failed exact-count publication validation" ACTION_INSPECT
        [("violations", JArr (map JStr (va_violations validation)))])
    else
      hash ← st_lift (fingerprint s);
      let generation_id := either (rq_generation_id rq) (uuid5 (sg_project_id s +:+ ":" +:+ hash)) in
      published ← attempt (at_boundary (publisher (MkPublished generation_id source_revision hash validation)));
      match published with
      | Err e => st_lift (boundary_failure generation_id retained validation e)
      | Ok id => record_published (either id generation_id) retained hash validation
      end.
End request.
End publish.

(** [hasattr(publisher, "allocate") and hasattr(publisher, "publish")]: the manager
    builds its own manifest for the revision and the identifier, and publishes it;
    [_validate] leaves it alone. *)
Definition owner_publisher (root : path) (target : PhysicalTargetKey) (compatibility_for : string → res dict) (cwd : path)
    (realpath : path → path) (is_symlink : path → bool) (allocated recorded selected : io_outcome) (now1 now2 now3 : string)
    (pm : _PublishedManifest) : st manager exn string :=
  m ← allocate root target compatibility_for realpath is_symlink allocated (pm_source_revision pm) (pm_generation_id pm) now1;
  published ← publish root target compatibility_for cwd realpath is_symlink recorded selected m (λ m, Ok (gm_validation m)) now2 now3;
  mret (gm_generation_id published).

(** * Rollback and status *)

Record RollbackState := MkRollback {
  rs_active : bool; rs_served_generation : string; rs_served_revision : string; rs_mode : string;
  rs_weak_evidence_preserved : bool; rs_detail : string;
}.
Definition rollback_to_dict (r : RollbackState) : dict :=
  [("active", JBool (rs_active r)); ("served_generation", JStr (rs_served_generation r)); ("served_revision", JStr (rs_served_revision r));
   ("mode", JStr (rs_mode r)); ("weak_evidence_preserved", JBool (rs_weak_evidence_preserved r)); ("detail", JStr (rs_detail r))].
Definition rollback_to_last_valid_generation (f : ledger_file) (policy : option SemanticPublicationPolicy)
    : res (SemanticPublicationPolicy * RollbackState) :=
  let p := default default_policy policy in
  rolled_back ← make_policy (MkPolicy "rollback" (po_version p) (po_relations p) (po_tiers p));
  payload ← load f;
  mret (rolled_back,
    match last (ld_generations payload) with
    | None => MkRollback true "" "" "rollback" true
        (if ld_unreadable payload then "ledger unreadable; repair it before relying on rollback history"
         else "containment active; no recorded semantic generation, serving structure plus weak evidence")
    | Some entry => MkRollback true (str_or_empty "generation_id" entry) (str_or_empty "revision" entry) "rollback" true
        "containment active; serving the last valid semantic generation without reparsing source"
    end).
Definition publication_status `{Sha256} (policy : SemanticPublicationPolicy) (queue coverage_block : option dict) (f : option ledger_file)
    (revision : string) (staged : option StagedReplacementSet) (rollback : option RollbackState) : res dict :=
  generation ← match f with Some f => ledger_status f | None => mret [("last_valid_generation", JNull)] end;
  staged_dict ← match staged with Some s => d ← staged_to_dict s; mret [("staged_replacement", JObj d)] | None => mret [] end;
  mret ([("schema_version", JStr GUARDED_PUBLICATION_SCHEMA_VERSION); ("semantic_policy", JObj (policy_to_dict policy));
         ("queue", JObj (match queue with Some (kv :: q) => kv :: q | _ => [("state", JStr "unknown")] end));
         ("coverage", JObj (match coverage_block with Some (kv :: c) => kv :: c | _ => [("status", JStr "unknown")] end));
         ("generation", JObj generation);
         ("revision", JStr (either revision (from_option sg_revision "" staged)))] ++ staged_dict
        ++ from_option (λ r, [("rollback", JObj (rollback_to_dict r))]) [] rollback)%list.
