(* ===== verification/PublicationFacts.v ===== *)
(** What guarded publication promises: the gate of a strict edge, the strong edges
    that go stale, publication that fails closed, its composition with the manager
    of generations, the history of the ledger, and what is embedded. *)
From S2P Require Import Prelude Json Text PyValue Models Store Artifacts Identity Db Contracts Stateful Url Reliability CallEvidence Evidence.
From S2P Require Import Publication.
From S2P Require Import Ledger.
From S2P Require Import Generation.
From S2P Require Import Generations.
From S2P Require Import EvidenceFacts.
#[local] Open Scope string_scope.

(** * The gate *)

(** What is not given does not matter. *)
Definition empty_or (ok : string → bool) (s : string) : bool := is_empty s || ok s.
(** What has to hold before an edge is published as a strict call. *)
Record gate_open (policy : SemanticPublicationPolicy) (i : gate_inputs) : Prop := {
  go_mode : po_mode policy = "gated";
  go_policy : get "strong_relations_allowed" (gi_evidence_policy i) ≠ JBool false;
  go_tier : (parse_trust_for (gi_file_quality i) (gi_evidence_policy i)).1 ∈ po_tiers policy;
  go_known : (parse_trust_for (gi_file_quality i) (gi_evidence_policy i)).1 ∉ ["quarantined"; "unknown"];
  go_row : gi_evidence_row i ≠ [] ∧ is_strong_call_evidence (gi_evidence_row i) = Ok true;
  go_class : empty_or (String.eqb "original_application") (gi_generated_class i) = true;
  go_map : empty_or is_strict_map_quality (gi_map_quality i) = true;
  go_bundle : empty_or bundle_state_allows_strict_calls (gi_bundle_state i) = true;
}.
Lemma is_false_spec v : is_false v = true ↔ v = JBool false.
Proof. by destruct v as [|[]| | | | |]. Qed.
Lemma parse_trust_spec q p tier reason : parse_trust_for q p = (tier, reason) →
  reason = None ↔ get "strong_relations_allowed" p ≠ JBool false ∧ tier ∉ ["quarantined"; "unknown"].
Proof.
  unfold parse_trust_for. rewrite <- is_false_spec. generalize (casefold (strip (str_or_empty "tier" q))). intros t [= <- <-].
  generalize (if is_empty t then "unknown" else t). clear t. intros t. rewrite not_elem_of_cons, list_elem_of_singleton.
  destruct (is_false _); [intuition congruence|].
  destruct (String.eqb_spec t "quarantined"), (String.eqb_spec t "unknown"); intuition congruence.
Qed.
(** The gate lets an edge through exactly when semantic publication is on, the
    file was parsed well enough, its evidence is strong, and what is known of the
    generated code, the map and the bundle allows strict calls; an edge that it
    holds back is never of strong trust. *)
Theorem gate_spec policy i d (Hd : strong_edge_publication_decision policy i = Ok d) :
  (gd_allowed d = true ↔ gate_open policy i) ∧ (gd_allowed d = true ↔ gd_semantic_trust d = "strong") ∧
  (gd_allowed d = true ↔ gd_reason d = "accepted").
Proof.
  unfold strong_edge_publication_decision in Hd. destruct (parse_trust_for _ _) as [tier reason] eqn:Ep.
  pose proof (parse_trust_spec _ _ _ _ Ep) as Hr.
  assert (∀ (P : Prop) r s, ¬ P → s ≠ "strong" → r ≠ "accepted" → Ok (E:=exn) (MkDecision false r tier s) = Ok d →
    (gd_allowed d = true ↔ P) ∧ (gd_allowed d = true ↔ gd_semantic_trust d = "strong") ∧ (gd_allowed d = true ↔ gd_reason d = "accepted"))
    as Hshut by (intros P r s Hn Hs Ha <-%Ok_inj; cbn; intuition congruence).
  unfold semantic_publication_allowed in Hd. destruct (String.eqb_spec (po_mode policy) "gated") as [Hm|Hm]; cbn [negb] in Hd.
  2:{ revert Hd. apply Hshut; [by intros []|done|done]. }
  destruct reason as [reason|].
  { revert Hd. apply Hshut; [|done|].
    - intros [? ? ? Hk ? ? ? ?]. rewrite Ep in Hk. by destruct Hr as [_ Hr]; specialize (Hr (conj go_policy0 Hk)).
    - intros ->. unfold parse_trust_for in Ep. injection Ep as _ Ep. by repeat case_match. }
  apply proj1 in Hr. specialize (Hr eq_refl) as [Hp Hk].
  destruct (in_list tier (po_tiers policy)) eqn:Et; cbn [negb] in Hd.
  2:{ revert Hd. apply Hshut; [|done|done]. intros [? ? Ht]. rewrite Ep in Ht. cbn in Ht. apply in_list_elem in Ht. congruence. }
  apply in_list_elem in Et.
  destruct (gi_evidence_row i) as [|kv row] eqn:Erow.
  { revert Hd. apply Hshut; [|done|done]. intros []. by destruct go_row0. }
  destruct (is_strong_call_evidence (kv :: row)) as [strong|] eqn:Es; cbn [mbind result_bind mret result_ret] in Hd; [|done].
  destruct strong; cbn [negb] in Hd.
  2:{ revert Hd. apply Hshut; [|done|done]. intros []. rewrite Erow in *. destruct go_row0. congruence. }
  assert (∀ ok s, negb (is_empty s) && negb (ok s) = negb (empty_or ok s)) as Hn by (intros; unfold empty_or; by destruct (is_empty s), (ok s)).
  rewrite (String.eqb_sym _ "original_application"), !Hn in Hd. clear Hn.
  repeat (lazymatch type of Hd with context [negb (empty_or ?f ?s)] => let H := fresh "Hg" in destruct (empty_or f s) eqn:H; cbn [negb] in Hd;
    [|revert Hd; apply Hshut; [intros []; congruence|done|done]] end).
  apply Ok_inj in Hd as <-. cbn. split_and!; [|done|done]. split; [|done]. intros _. constructor; rewrite ?Ep, ?Erow; cbn; done.
Qed.

(** * Stale edges *)

Lemma mapM_elem {A B} (f : A → res B) l ys : mapM f l = Ok ys → ∀ y, y ∈ ys ↔ ∃ x, (x ∈ l) ∧ f x = Ok y.
Proof.
  revert ys. induction l as [|x l IH]; cbn [mapM]; intros ys Hm y.
  - apply Ok_inj in Hm as <-. split; [by intros ?%elem_of_nil|intros (x & ?%elem_of_nil & _); done].
  - destruct (f x) as [z|] eqn:Ex; cbn [mbind result_bind] in Hm; [|done].
    destruct (mapM f l) as [zs|]; cbn [mbind result_bind mret result_ret] in Hm; [|done]. apply Ok_inj in Hm as <-.
    rewrite elem_of_cons, (IH zs eq_refl). split.
    + intros [->|(x' & Hx & Hy)]; [exists x; split; [apply elem_of_cons; by left|done]|exists x'; split; [apply elem_of_cons; by right|done]].
    + intros (x' & [->|Hx]%elem_of_cons & Hy); [left; congruence|right; by exists x'].
Qed.
Lemma is_empty_false s : is_empty s = false ↔ s ≠ "".
Proof. unfold is_empty. by rewrite String.eqb_neq. Qed.
Lemma in_list_false s l : in_list s l = false ↔ s ∉ l.
Proof. rewrite <- in_list_elem. by rewrite not_true_iff_false. Qed.
#[local] Abbreviation edge_site edge := (str_or_empty "site_id" edge).
(** Which edges the loop lists, and under which sites. *)
Lemma stale_edges_spec re aff seen make baseline :
  (∀ edge, se_site_id (make edge) = edge_site edge) →
  let l := stale_edges re aff seen make baseline in
  (∀ e, e ∈ l → ∃ edge, (edge ∈ baseline) ∧ e = make edge ∧ se_site_id e ≠ "" ∧ (se_site_id e ∉ seen) ∧ (se_site_id e ∉ re)
     ∧ baseline_edge_file_path edge ∈ aff) ∧
  NoDup (map se_site_id l) ∧
  (∀ edge, edge ∈ baseline → edge_site edge ≠ "" → baseline_edge_file_path edge ∈ aff →
     (edge_site edge ∈ re) ∨ (edge_site edge ∈ seen) ∨ edge_site edge ∈ map se_site_id l).
Proof.
  intros Hmake. revert seen. induction baseline as [|edge baseline IH]; intros seen; cbn [stale_edges].
  { split_and!; [by intros e ?%elem_of_nil|constructor|by intros e ?%elem_of_nil]. }
  assert (∀ seen', (∀ e, e ∈ stale_edges re aff seen' make baseline → ∃ edge, (edge ∈ baseline) ∧ e = make edge ∧ se_site_id e ≠ ""
      ∧ (se_site_id e ∉ seen') ∧ (se_site_id e ∉ re) ∧ baseline_edge_file_path edge ∈ aff) →
    ∀ e, e ∈ stale_edges re aff seen' make baseline → ∃ edge', (edge' ∈ edge :: baseline) ∧ e = make edge' ∧ se_site_id e ≠ ""
      ∧ (se_site_id e ∉ seen') ∧ (se_site_id e ∉ re) ∧ baseline_edge_file_path edge' ∈ aff) as Hmore.
  { intros seen' H e He. destruct (H e He) as (edge' & Hin & Hrest). exists edge'. split; [apply elem_of_cons; by right|done]. }
  destruct (IH seen) as (Hl & Hn & Hc).
  destruct (is_empty (edge_site edge)) eqn:E1; cbn [orb].
  { split_and!; [by apply Hmore|done|]. intros edge' [->|Hin]%elem_of_cons; [|by apply Hc]. unfold is_empty in E1. apply String.eqb_eq in E1. done. }
  apply is_empty_false in E1. destruct (in_list (edge_site edge) seen) eqn:E2; cbn [orb].
  { apply in_list_elem in E2. split_and!; [by apply Hmore|done|]. intros edge' [->|Hin]%elem_of_cons; [by right; left|by apply Hc]. }
  apply in_list_false in E2. destruct (in_list (baseline_edge_file_path edge) aff) eqn:E3; cbn [negb].
  2:{ apply in_list_false in E3. split_and!; [by apply Hmore|done|]. intros edge' [->|Hin]%elem_of_cons; [done|by apply Hc]. }
  apply in_list_elem in E3. destruct (in_list (edge_site edge) re) eqn:E4.
  { apply in_list_elem in E4. split_and!; [by apply Hmore|done|]. intros edge' [->|Hin]%elem_of_cons; [by left|by apply Hc]. }
  apply in_list_false in E4. clear Hl Hn Hc. destruct (IH (edge_site edge :: seen)) as (Hl & Hn & Hc). cbn [map]. split_and!.
  - intros e [->|He]%elem_of_cons.
    + exists edge. rewrite Hmake. split_and!; try done. apply elem_of_cons; by left.
    + destruct (Hmore _ Hl e He) as (edge' & ? & ? & ? & Hs & ? & ?). exists edge'. split_and!; try done.
      intros Hs'. apply Hs. apply elem_of_cons; by right.
  - constructor; [|done]. rewrite Hmake. intros (e & He1 & He2)%list_elem_of_fmap. destruct (Hl e He2) as (_ & _ & _ & _ & Hs & _).
    apply Hs. rewrite <- He1. apply elem_of_cons; by left.
  - intros edge' [->|Hin]%elem_of_cons Hne Haff; [right; right; rewrite Hmake; apply elem_of_cons; by left|].
    destruct (Hc edge' Hin Hne Haff) as [H|[[->|H]%elem_of_cons|H]]; [by left| |by right; left|].
    + right; right. rewrite Hmake. apply elem_of_cons; by left.
    + right; right. apply elem_of_cons; by right.
Qed.
Definition reaccepts (rows : list dict) (site_id : string) : Prop := ∃ row, (row ∈ rows) ∧ row_site_id row = Ok site_id.
Lemma verified_rows_spec policy rows ys : verified_rows policy rows = Ok ys →
  (semantic_publication_allowed policy = false → ys = []) ∧
  ∀ row, row ∈ ys → (row ∈ rows) ∧ refuse_weak_direct (props_of row) = Ok ().
Proof.
  unfold verified_rows. destruct (semantic_publication_allowed policy); cbn [negb].
  - intros Hm. split; [done|]. intros row Hrow. rewrite (mapM_elem _ _ _ Hm) in Hrow. destruct Hrow as (row' & Hin & Hr).
    destruct (refuse_weak_direct _) as [[]|] eqn:E; cbn in Hr; [|done]. apply Ok_inj in Hr as ->. done.
  - intros <-%Ok_inj. split; [done|]. by intros row ?%elem_of_nil.
Qed.
(** C30: A staged replacement accounts for every trusted site, by the text of its
    site id: the site id of each baseline edge that has one and lies in an affected
    file is the site id of a staged strict row or of exactly one stale entry; every
    stale entry is made from a baseline edge, lies in an affected file, and its site
    id is that of no staged row.  Each staged row was given and passes the writer's
    check, and none is staged unless publication is gated.  Sites are what is
    accounted for, not edges: of several edges with one site id one entry is made.
    Site ids are compared as texts: an edge whose row was staged under another text
    counts as stale ([reaccepted_edge_listed_stale]). *)
Theorem no_trusted_edge_left project_id revision policy i s
    (Hs : build_staged_replacement project_id revision policy i = Ok s) :
  (∀ edge, edge ∈ ri_baseline i → edge_site edge ≠ "" → baseline_edge_file_path edge ∈ ri_affected_files i →
     reaccepts (sg_strict_call_rows s) (edge_site edge)
     ∨ edge_site edge ∈ map se_site_id (sg_stale_strong_edges s)) ∧
  (∀ e, e ∈ sg_stale_strong_edges s → (se_file_path e ∈ ri_affected_files i) ∧ ¬ reaccepts (sg_strict_call_rows s) (se_site_id e) ∧
     ∃ edge, (edge ∈ ri_baseline i) ∧ e = stale_edge_of "downgraded" (ri_file_reasons i) edge) ∧
  NoDup (map se_site_id (sg_stale_strong_edges s)) ∧
  (po_mode policy ≠ "gated" → sg_strict_call_rows s = []) ∧
  (∀ row, row ∈ sg_strict_call_rows s → (row ∈ strict_rows_given i) ∧ refuse_weak_direct (props_of row) = Ok ()).
Proof.
  unfold build_staged_replacement in Hs. destruct (verified_rows policy _) as [strict|] eqn:Ev; cbn [mbind result_bind] in Hs; [|done].
  destruct (reaccepted_site_ids strict) as [ids|] eqn:Er; cbn [mbind result_bind mret result_ret] in Hs; [|done]. apply Ok_inj in Hs as <-.
  destruct (verified_rows_spec _ _ _ Ev) as [Hoff Hv]. pose proof (mapM_elem _ _ _ Er) as Hids.
  cbn [sg_strict_call_rows sg_stale_strong_edges]. unfold compute_stale_strong_edges.
  set (re := List.filter (λ s, negb (is_empty s)) ids).
  assert (∀ id, id ≠ "" → id ∈ re ↔ reaccepts strict id) as Hre.
  { intros id Hne. unfold re. rewrite list_elem_of_In, filter_In, <- list_elem_of_In, Hids, negb_true_iff, is_empty_false.
    unfold reaccepts. intuition. }
  destruct (stale_edges_spec re (ri_affected_files i) [] (stale_edge_of "downgraded" (ri_file_reasons i)) (ri_baseline i)) as (Hl & Hn & Hc); [done|].
  split_and!; [| |done| |done].
  - intros edge Hin Hne Haff. destruct (Hc edge Hin Hne Haff) as [H|[H|H]]; [left; by apply Hre|by apply elem_of_nil in H|by right].
  - intros e He. destruct (Hl e He) as (edge & Hin & -> & Hne & _ & Hr & Haff). split_and!; [done| |by exists edge].
    rewrite <- Hre; done.
  - intros Hm. apply Hoff. unfold semantic_publication_allowed. by apply String.eqb_neq.
Qed.

(** * Publication fails closed *)

(** What was read back is exactly what was staged, and no stale edge survived. *)
Record exact_readback (s : StagedReplacementSet) (readback : list (string * Z)) : Prop := {
  xr_strict : assoc "strict_calls" readback = Some (counted (sg_strict_call_rows s));
  xr_sites : assoc "evidence_sites" readback = Some (counted (sg_evidence_sites s));
  xr_observations : assoc "evidence_observations" readback = Some (counted (List.filter linkable (sg_evidence_observations s)));
  xr_vectors : assoc "vector_items" readback = Some (counted (sg_vector_point_ids s));
  xr_stale : assoc stale_key readback = Some 0%Z;
}.
Lemma check_count_ok readback name n : (check_count readback name n).1 = [] ↔ assoc name readback = Some n.
Proof. unfold check_count. destruct (assoc name readback) as [m|]; cbn; [|done]. destruct (Z.eqb_spec m n); split; congruence. Qed.
Lemma check_stale_ok readback : (check_stale readback 0).1 = [] ↔ assoc stale_key readback = Some 0%Z.
Proof.
  unfold check_stale. destruct (assoc stale_key readback) as [m|]; cbn; [|done].
  destruct (Z.ltb_spec m 0); cbn; [split; [done|intros [= ->]; lia]|]. destruct (Z.eqb_spec m 0); split; congruence.
Qed.
Lemma validation_spec s readback coverage : va_ok (validate_staged_publication s readback coverage None) = true ↔ exact_readback s readback.
Proof.
  unfold validate_staged_publication. cbn [va_ok default expected_effects expected_counts map fmap list_fmap List.concat
    ex_strict_call_count ex_evidence_site_count ex_evidence_observation_count ex_vector_item_count ex_stale_strong_edge_survivors ex_coverage_status fst snd].
  change (check_coverage coverage "") with (@nil string). rewrite !app_nil_r.
  split.
  - intros Hv. destruct (_ ++ _)%list as [|] eqn:E in Hv; [|done]. rewrite <- !(assoc_L (++)) in E.
    repeat (apply app_eq_nil in E as [?%check_count_ok E]). apply check_stale_ok in E. by constructor.
  - intros [H1 H2 H3 H4 H5]. apply check_count_ok in H1, H2, H3, H4. apply check_stale_ok in H5. by rewrite H1, H2, H3, H4, H5.
Qed.

Lemma sort_ledger_load l gens : load (Holds (sort_keys (JObj (ledger_payload l gens)))) = Ok (MkLedger (map sorted_dict gens) false).
Proof.
  cbn [sort_keys load]. fold (sorted_dict (ledger_payload l gens)). rewrite get_sorted.
  change (get "generations" (ledger_payload l gens)) with (JArr (map JObj gens)). cbn [sort_keys mappings_of]. do 2 f_equal.
  induction gens as [|g gens IH]; [done|]. cbn. by rewrite IH.
Qed.
Lemma last_map {A B} (f : A → B) l : last (map f l) = f <$> last l.
Proof. induction l as [|x [|y l] IH]; [done..|]. exact IH. Qed.
Lemma last_app_drop {A} n (l : list A) x : (0 < n)%nat → last (last_n n (l ++ [x])) = Some x.
Proof.
  intros Hn. unfold last_n. rewrite length_app. cbn. rewrite drop_app_le by lia. apply last_snoc.
Qed.
(** What one recording does to the file. *)
Lemma record_spec written gid revision hash policy now f r f' : record written gid revision hash policy now f = (r, f') →
  (written = true ∧ r = Ok (ledger_entry gid revision hash policy now) ∧ ∃ l, load f = Ok l ∧
     load f' = Ok (MkLedger (map sorted_dict (with_entry (ld_generations l) gid (ledger_entry gid revision hash policy now))) false)) ∨
  (f' = f ∧ ((r = Err OSError ∧ written = false) ∨ ∃ e, r = Err e ∧ load f = Err e)).
Proof.
  unfold record, mbind, st_bind, st_gets, st_lift. cbn beta iota. change (id f) with f. destruct (load f) as [l|e] eqn:El.
  - unfold st_reject, st_modify. destruct written; intros [= <- <-]; [left|right; split; [done|by left]]. do 2 (split; [done|]). exists l. split; [done|]. apply sort_ledger_load.
  - intros [= <- <-]. right. split; [done|]. right. by exists e.
Qed.

Section publish.
Context `{Sha256} `{Uuid5} {B : Type} (publisher : _PublishedManifest → st B exn string).
Context (exc_text exc_name : exn → string) (ledger_written : bool) (now : string).
Abbreviation publish_staged := (publish_staged_generation publisher exc_text exc_name ledger_written now).

(** The manifest of the staged set, with the identifier its content gives where
    none is asked for. *)
Definition manifest_of (s : StagedReplacementSet) (rq : publish_request) (hash : string) : _PublishedManifest :=
  MkPublished (either (rq_generation_id rq) (uuid5 (sg_project_id s +:+ ":" +:+ hash))) (source_revision s rq) hash
    (validate_staged_publication s (rq_readback rq) (rq_coverage_block rq) None).
Definition ready (s : StagedReplacementSet) (rq : publish_request) : Prop := rq_queue_drained rq = true ∧ exact_readback s (rq_readback rq).
Lemma failed_outcome_inv s rq oc gid retained v code class summary action details o :
  failed_outcome s rq oc gid retained v code class summary action details = Ok o →
  oc_outcome o = oc ∧ oc_generation_id o = gid ∧ oc_retained_generation o = retained ∧
  ∃ fl, oc_failure o = Some fl ∧ fl_code fl = code ∧ fl_class fl = class ∧ fl_retryable fl = transient class.
Proof.
  unfold failed_outcome, _publication_failure, make_failure. destruct (existsb _ _); cbn [mbind result_bind]; [done|].
  destruct (staged_to_dict s); cbn [mbind result_bind mret result_ret]; [|done]. intros <-%Ok_inj. split_and!; try done. eexists. split; [done|]. done.
Qed.
Lemma boundary_failure_inv s rq gid retained v e o : boundary_failure exc_text exc_name s rq gid retained v e = Ok o →
  oc_retained_generation o = retained ∧ oc_generation_id o = gid ∧ has_failure (oc_failure o) = true ∧
  oc_outcome o = (if bool_decide (e = ValueError) then RunOutcome.FAILED_TERMINAL else RunOutcome.AMBIGUOUS).
Proof.
  unfold boundary_failure. intros Ho. destruct e; cbn [caught] in Ho; try discriminate Ho;
    apply failed_outcome_inv in Ho as (Ho & Hg & Hret & fl & Hf & _); by rewrite Hf.
Qed.
(** The ways a publication that returns can end. *)
Lemma publish_cases has_ledger s rq b f o b' f' : publish_staged has_ledger s rq (b, f) = (Ok o, (b', f')) →
  oc_retained_generation o = (if has_ledger then match last_valid f with Ok (Some e) => str_or_empty "generation_id" e | _ => "" end else "") ∧
  ((¬ ready s rq ∧ b' = b ∧ f' = f ∧ oc_outcome o = (if rq_queue_drained rq then RunOutcome.FAILED_TERMINAL else RunOutcome.FAILED_RETRYABLE)
      ∧ oc_generation_id o = "" ∧ has_failure (oc_failure o) = true)
   ∨ (ready s rq ∧ ∃ hash, fingerprint s = Ok hash ∧ let pm := manifest_of s rq hash in
      (∃ e, publisher pm b = (Err e, b') ∧ f' = f ∧ oc_outcome o = (if bool_decide (e = ValueError) then RunOutcome.FAILED_TERMINAL else RunOutcome.AMBIGUOUS)
         ∧ oc_generation_id o = pm_generation_id pm ∧ has_failure (oc_failure o) = true)
      ∨ (∃ id, publisher pm b = (Ok id, b') ∧ oc_generation_id o = either id (pm_generation_id pm) ∧
           ((oc_outcome o = RunOutcome.SUCCESS ∧ oc_failure o = None ∧
             if has_ledger then last_valid f' = Ok (Some (sorted_dict (ledger_entry (oc_generation_id o) (source_revision s rq) hash (policy_to_dict (sg_policy s)) now)))
             else f' = f)
            ∨ (oc_outcome o = RunOutcome.FAILED_RETRYABLE ∧ f' = f ∧ has_ledger = true ∧ ledger_written = false ∧ retryable_failure (oc_failure o) = true))))).
Proof.
  unfold publish_staged_generation, mbind, st_bind, st_gets, st_lift. cbn beta iota. change ((b, f).2) with f.
  destruct (if has_ledger then last_valid f else Ok None) as [retained|] eqn:Er; [|intros [=]].
  assert (from_option (str_or_empty "generation_id") "" retained =
    (if has_ledger then match last_valid f with Ok (Some e) => str_or_empty "generation_id" e | _ => "" end else "")) as <-.
  { destruct has_ledger; [|by apply Ok_inj in Er as <-]. rewrite Er. by destruct retained. }
  set (ret := from_option _ "" retained).
  destruct (rq_queue_drained rq) eqn:Eq; cbn [negb].
  2:{ intros [= Ho <- <-]. apply failed_outcome_inv in Ho as (Ho & Hg & Hret & fl & Hf & _). split; [done|]. left.
      split; [by intros [? _]; congruence|]. rewrite Hf. split_and!; done. }
  pose proof (validation_spec s (rq_readback rq) (rq_coverage_block rq)) as Hv.
  set (v := validate_staged_publication s (rq_readback rq) (rq_coverage_block rq) None) in *.
  destruct (va_ok v) eqn:Ev; cbn [negb].
  2:{ intros [= Ho <- <-]. apply failed_outcome_inv in Ho as (Ho & Hg & Hret & fl & Hf & _). split; [done|]. left.
      split; [intros [_ Hx]; apply Hv in Hx; congruence|]. rewrite Hf. split_and!; done. }
  assert (ready s rq) as Hready by (split; [done|by apply Hv]).
  destruct (fingerprint s) as [hash|] eqn:Eh; [|intros [=]].
  change (MkPublished (either (rq_generation_id rq) (uuid5 (sg_project_id s +:+ ":" +:+ hash))) (source_revision s rq) hash v) with (manifest_of s rq hash).
  unfold attempt at 1, at_boundary. change ((b, f).1) with b. destruct (publisher (manifest_of s rq hash) b) as [[id|e] b1] eqn:Ep; cbn [fst snd].
  - unfold record_published, mbind, st_bind, st_lift. destruct has_ledger; cbn [mret st_ret].
    + unfold attempt, at_ledger. cbn [fst snd]. destruct (record _ _ _ _ _ _ f) as [r f1] eqn:Erec.
      apply record_spec in Erec as [(_ & -> & l & Hl & Hl')|(-> & [[-> Hw]|(e & -> & He)])].
      * destruct (staged_to_dict s) as [acc|]; [|intros [=]]. intros [= <- <- <-]. split; [done|]. right. split; [done|].
        exists hash. split; [done|]. right. exists id. split_and!; [done..|]. left. split_and!; [done..|].
        cbn [oc_generation_id]. unfold last_valid. rewrite Hl'. cbn [mbind result_bind mret result_ret ld_generations].
        unfold with_entry. rewrite last_map, last_app_drop by (unfold LEDGER_HISTORY_LIMIT; lia). done.
      * intros [= Ho <- <-]. apply failed_outcome_inv in Ho as (Ho & Hg & Hret & fl & Hf & _ & _ & Hre). split; [done|]. right. split; [done|].
        exists hash. split; [done|]. right. exists id. split_and!; [done..|]. right. rewrite Hf. cbn. by rewrite Hre.
      * unfold last_valid in Er. rewrite He in Er. discriminate Er.
    + destruct (staged_to_dict s) as [acc|]; [|intros [=]]. intros [= <- <- <-]. split; [done|]. right. split; [done|].
      exists hash. split; [done|]. right. exists id. split_and!; [done..|]. by left.
  - intros [= (H1 & Hg & H2 & H3)%boundary_failure_inv <- <-]. split; [done|]. right. split; [done|]. exists hash. split; [done|]. left. by exists e.
Qed.
(** C29: Publication fails closed.  Only a drained queue and a read-back that is
    exactly what was staged let the boundary run; success means that it published
    the manifest of the staged set, and that the ledger's last entry is this
    generation; every other outcome carries a failure and leaves the ledger as it
    was, and a terminal or ambiguous one means that the boundary was not run or
    raised.  The generation reported as retained is the ledger's last one. *)
Theorem publication_fails_closed has_ledger s rq b f o b' f' (Hrun : publish_staged has_ledger s rq (b, f) = (Ok o, (b', f'))) :
  (¬ ready s rq → b' = b ∧ RunOutcome.failed (oc_outcome o) = true) ∧
  (oc_outcome o = RunOutcome.SUCCESS → ready s rq ∧ ∃ hash id, fingerprint s = Ok hash ∧
     publisher (manifest_of s rq hash) b = (Ok id, b') ∧ oc_generation_id o = either id (pm_generation_id (manifest_of s rq hash)) ∧
     (has_ledger = true → ∃ entry, last_valid f' = Ok (Some entry) ∧
        get "generation_id" entry = JStr (oc_generation_id o) ∧ get "fingerprint" entry = JStr hash ∧ get "revision" entry = JStr (source_revision s rq))) ∧
  (oc_outcome o ≠ RunOutcome.SUCCESS → f' = f ∧ has_failure (oc_failure o) = true) ∧
  (oc_outcome o ∈ [RunOutcome.FAILED_TERMINAL; RunOutcome.AMBIGUOUS] → b' = b ∨ ∃ hash e, publisher (manifest_of s rq hash) b = (Err e, b')) ∧
  (has_ledger = true → ∀ e, last_valid f = Ok (Some e) → oc_retained_generation o = str_or_empty "generation_id" e).
Proof.
  apply publish_cases in Hrun as [Hret Hcases].
  assert (has_ledger = true → ∀ e, last_valid f = Ok (Some e) → oc_retained_generation o = str_or_empty "generation_id" e) as Hr by (intros -> e He; by rewrite Hret, He).
  destruct Hcases as [(Hn & -> & -> & Ho & _ & Hf)|(Hy & hash & Hh & [(e & Hp & -> & Ho & _ & Hf)|(id & Hp & Hid & [(Ho & Hf & Hl)|(Ho & -> & _ & _ & Hf)])])].
  - split_and!; try done; [intros _; rewrite Ho; by destruct (rq_queue_drained rq)|intros Hs; rewrite Ho in Hs; by destruct (rq_queue_drained rq)|by left].
  - split_and!; try done; [intros Hs; rewrite Ho in Hs; by case_bool_decide|]. intros _. right. by exists hash, e.
  - split_and!; try done; [|rewrite Ho; intros Hx; by apply list_elem_of_In in Hx as [|[|[]]]]. intros _. split; [done|]. exists hash, id. split_and!; try done.
    intros ->. eexists. split; [exact Hl|]. by rewrite !get_sorted.
  - rewrite Ho. split_and!; try done; [intros _; split; [done|by destruct (oc_failure o)]|intros Hx; by apply list_elem_of_In in Hx as [|[|[]]]].
Qed.
End publish.

(** * The active generation *)

Section owner.
Context `{Sha256} `{Uuid5} (root : path) (target : PhysicalTargetKey) (compatibility_for : string → res dict).
Context (cwd : path) (realpath : path → path) (is_symlink : path → bool).
Context (allocated recorded selected : io_outcome) (now1 now2 now3 : string).
Abbreviation owner := (owner_publisher root target compatibility_for cwd realpath is_symlink allocated recorded selected now1 now2 now3).
Definition active_pointer (g : manager) : option json := f_pointer (g_files g).
(** The pointer shows the generation [id], published for this target. *)
Definition shows (g : manager) (id : string) : Prop :=
  ∃ m, active_pointer g = Some (stored m) ∧ gm_generation_id m = id ∧ gm_state m = GenerationState.PUBLISHED ∧ gm_target m = target.
Lemma kv_write_record o m : keeps_view active_pointer (_write_generation_record root realpath is_symlink o m).
Proof. unfold _write_generation_record, durable_write. kv_steps. Qed.
#[local] Hint Resolve kv_write_record : kept_views.
Lemma kv_require_compatible id : keeps_view active_pointer (require_compatible id).
Proof. unfold require_compatible, incompatibility. kv_steps. Qed.
#[local] Hint Resolve kv_require_compatible : kept_views.
Lemma kv_publish_prepare m validate n1 n2 :
  keeps_view active_pointer (publish_prepare root target compatibility_for cwd realpath is_symlink m validate n1 n2).
Proof. unfold publish_prepare. kv_steps. Qed.
Lemma kv_publish_fence p : keeps_view active_pointer (publish_fence p).
Proof. unfold publish_fence, require_not_retired. kv_steps. Qed.
Lemma kv_owner_allocate o rev id now : keeps_view active_pointer (allocate root target compatibility_for realpath is_symlink o rev id now).
Proof. unfold allocate. kv_steps. Qed.
Lemma kv_post {A} (m : st manager exn A) (g0 g : manager) : keeps_view active_pointer m → active_pointer g = active_pointer g0 →
  post m (λ _ g', active_pointer g' = active_pointer g0) g.
Proof. intros Hm Hg. unfold post. by rewrite Hm. Qed.
Lemma post_both {A} (m : st manager exn A) (P Q : result exn A → manager → Prop) g : post m P g → post m Q g → post m (λ r g', P r g' ∧ Q r g') g.
Proof. by split. Qed.
Lemma owner_allocate_post o rev id now g : post (allocate root target compatibility_for realpath is_symlink o rev id now)
  (λ r g', active_pointer g' = active_pointer g ∧ ∀ m, r = Ok m → gm_generation_id m = id ∧ gm_target m = target) g.
Proof.
  apply post_both; [apply kv_owner_allocate|]. unfold allocate. post_steps; try done.
  apply post_intro. intros r g' _. destruct r; post_steps; [|done]. intros m <-%Ok_inj.
  match goal with E : _safe_generation_id _ = Ok _ |- _ => apply safe_id_same in E as -> end. done.
Qed.
Lemma owner_prepare_post m validate n1 n2 g :
  post (publish_prepare root target compatibility_for cwd realpath is_symlink m validate n1 n2)
    (λ r g', active_pointer g' = active_pointer g ∧ ∀ p, r = Ok p →
       gm_generation_id p = gm_generation_id m ∧ gm_target p = gm_target m ∧ gm_state p = GenerationState.PUBLISHED) g.
Proof.
  apply post_both; [apply kv_publish_prepare|]. unfold publish_prepare. post_steps; try done.
  apply post_intro. intros [[]|e] g' _; [|done]. post_steps; try done. by intros p <-%Ok_inj.
Qed.
Lemma owner_select_post o p g : post (publish_select root compatibility_for cwd realpath is_symlink o p)
  (λ r g', match r with
   | Ok _ => active_pointer g' = Some (stored p)
   | Err e => active_pointer g' = active_pointer g ∨ (e = OSError ∧ o = FailedLate ∧ active_pointer g' = Some (stored p)) end) g.
Proof.
  unfold publish_select, require_not_retired. post_steps; try (by left).
  eapply post_mono; [exact (kv_post _ g g (kv_require_compatible _) eq_refl)|]. intros [[]|e] g' Hg'; [|by left].
  unfold _write_active_manifest_unlocked, durable_write, set_cache. post_steps; try (by left); try (by right); done.
Qed.
(** How the owner's boundary ends. *)
Lemma owner_post pm g : post (owner pm) (λ r g', match r with
  | Ok id => id = pm_generation_id pm ∧ shows g' id
  | Err e => active_pointer g' = active_pointer g ∨ (e = OSError ∧ selected = FailedLate ∧ shows g' (pm_generation_id pm)) end) g.
Proof.
  unfold owner_publisher. post_steps. eapply post_mono; [apply owner_allocate_post|]. intros [m|e] g1 [Hg1 Hm]; [|by left].
  destruct (Hm m eq_refl) as [Hid Ht]. unfold publish. post_steps.
  eapply post_mono; [apply owner_prepare_post|]. intros [p|e] g2 [Hg2 Hp]; [|left; congruence].
  destruct (Hp p eq_refl) as (Hpid & Hpt & Hps). cbv beta iota. post_steps.
  eapply post_mono; [exact (kv_post _ g1 g2 (kv_publish_fence _) Hg2)|]. intros [[]|e] g3 Hg3; [|left; congruence]. post_steps.
  eapply post_mono; [exact (kv_post _ g1 g3 (kv_write_record _ _) Hg3)|]. intros [[]|e] g4 Hg4; [|left; congruence]. post_steps.
  eapply post_mono; [apply owner_select_post|]. intros [[]|e] g5 Hg5.
  - post_steps. split; [congruence|]. exists p. split_and!; congruence.
  - destruct Hg5 as [Hg5|(He & Ho & Hg5)]; [left; congruence|right]. split_and!; [done..|]. exists p. split_and!; congruence.
Qed.
(** C28: With the manager of generations as the boundary, readers see the staged
    generation exactly when it was published: success shows it, and the ledger
    records it; a terminal failure leaves the active pointer and the ledger alone; an
    ambiguous one may have flipped the pointer, but only to this generation and only
    where the flip itself failed late; a retryable one either changed nothing or
    published and only the ledger lacks the entry. *)
Theorem active_generation_flips exc_text exc_name written now has_ledger s rq g f o g' f'
    (Hrun : publish_staged_generation owner exc_text exc_name written now has_ledger s rq (g, f) = (Ok o, (g', f'))) :
  (oc_outcome o = RunOutcome.SUCCESS → shows g' (oc_generation_id o) ∧
     (has_ledger = true → ∃ e, last_valid f' = Ok (Some e) ∧ get "generation_id" e = JStr (oc_generation_id o))) ∧
  (oc_outcome o = RunOutcome.FAILED_TERMINAL → active_pointer g' = active_pointer g ∧ f' = f) ∧
  (oc_outcome o = RunOutcome.AMBIGUOUS → f' = f ∧
     (active_pointer g' = active_pointer g ∨ (selected = FailedLate ∧ shows g' (oc_generation_id o)))) ∧
  (oc_outcome o = RunOutcome.FAILED_RETRYABLE → f' = f ∧
     (g' = g ∧ rq_queue_drained rq = false ∨ has_ledger = true ∧ written = false ∧ shows g' (oc_generation_id o))).
Proof.
  apply publish_cases in Hrun as [_ Hcases].
  destruct Hcases as [(_ & -> & -> & Ho & _)|(_ & hash & _ & [(e & Hp & -> & Ho & Hid & _)|(id & Hp & Hid & Hcases)])].
  - rewrite Ho. destruct (rq_queue_drained rq); split_and!; try done. intros _. split; [done|by left].
  - pose proof (post_elim _ _ _ _ _ (owner_post _ g) Hp) as Hpost. cbv beta iota in Hpost. rewrite Ho, Hid.
    case_bool_decide as He; split_and!; try done.
    + intros _. split; [|done]. by destruct Hpost as [|(-> & _)].
    + intros _. split; [done|]. by destruct Hpost as [|(_ & ? & ?)]; [left|right].
  - pose proof (post_elim _ _ _ _ _ (owner_post _ g) Hp) as [-> Hsh].
    assert (oc_generation_id o = pm_generation_id (manifest_of s rq hash)) as Hpm by (rewrite Hid; unfold either; by destruct (is_empty _)).
    rewrite <- Hpm in Hsh. destruct Hcases as [(Ho & _ & Hl)|(Ho & -> & Hh & Hw & _)]; rewrite Ho; split_and!; try done.
    + intros _. split; [done|]. intros ->. eexists. split; [exact Hl|]. by rewrite get_sorted.
    + intros _. split; [done|]. by right.
Qed.
End owner.

(** * The ledger's history *)

Record recording := MkRecording {
  rg_written : bool; rg_generation_id : string; rg_revision : string; rg_fingerprint : string; rg_policy : dict; rg_now : string;
}.
Definition recording_entry (r : recording) : dict :=
  ledger_entry (rg_generation_id r) (rg_revision r) (rg_fingerprint r) (rg_policy r) (rg_now r).
Definition record_one (f : ledger_file) (r : recording) : ledger_file :=
  (record (rg_written r) (rg_generation_id r) (rg_revision r) (rg_fingerprint r) (rg_policy r) (rg_now r) f).2.
(** The abstract history: every recorded generation once, the last recorded last. *)
Definition other_generation (r q : recording) : bool := negb (String.eqb (rg_generation_id q) (rg_generation_id r)).
Definition remember (l : list recording) (r : recording) : list recording :=
  if rg_written r then (List.filter (other_generation r) l ++ [r])%list else l.
Definition history (rs : list recording) : list recording := foldl remember [] rs.

Lemma last_n_map {A B} (f : A → B) n l : last_n n (map f l) = map f (last_n n l).
Proof. unfold last_n. by rewrite length_map, skipn_map. Qed.
Lemma last_n_NoDup {A} n (l : list A) : NoDup l → NoDup (last_n n l).
Proof. intros Hl. rewrite <- (take_drop (length l - n) l) in Hl. by apply NoDup_app in Hl as (_ & _ & Hl). Qed.
Lemma last_n_length {A} n (l : list A) : (length (last_n n l) <= n)%nat.
Proof. unfold last_n. rewrite length_drop. lia. Qed.
Lemma last_n_app {A} n (l1 l2 : list A) : (n <= length l2)%nat → last_n n (l1 ++ l2) = last_n n l2.
Proof.
  intros Hn. unfold last_n. rewrite length_app, drop_app_ge by lia. f_equal. lia.
Qed.
Lemma filter_none {A} (p : A → bool) l : (∀ x, x ∈ l → p x = true) → List.filter p l = l.
Proof.
  induction l as [|x l IH]; intros Hp; [done|]. cbn. rewrite Hp by (apply elem_of_cons; by left). f_equal.
  apply IH. intros y Hy. apply Hp. apply elem_of_cons; by right.
Qed.
(** One generation at most goes. *)
Lemma filter_other_length r l : NoDup (map rg_generation_id l) → (length l <= S (length (List.filter (other_generation r) l)))%nat.
Proof.
  induction l as [|q l IH]; [cbn; lia|]. cbn [map List.filter length]. intros [Hq Hn]%NoDup_cons.
  unfold other_generation at 1. destruct (String.eqb_spec (rg_generation_id q) (rg_generation_id r)) as [Heq|]; cbn [negb length]; [|specialize (IH Hn); lia].
  rewrite filter_none; [lia|]. intros x Hx. unfold other_generation. apply negb_true_iff, String.eqb_neq. intros Heq'. apply Hq.
  apply list_elem_of_fmap. exists x. split; [congruence|done].
Qed.
(** Forgetting before a recording is forgetting after it. *)
Lemma remember_last_n n r l : NoDup (map rg_generation_id l) → (0 < n)%nat →
  last_n n (List.filter (other_generation r) (last_n n l) ++ [r]) = last_n n (List.filter (other_generation r) l ++ [r]).
Proof.
  intros Hnd Hn. destruct (decide (length l <= n)%nat) as [Hl|Hl].
  { unfold last_n at 2. replace (length l - n)%nat with 0%nat by lia. done. }
  rewrite <- (take_drop (length l - n) l) in Hnd |- * at 2. fold (last_n n l) in Hnd |- *.
  rewrite List.filter_app, <- (assoc_L (++)). symmetry. apply last_n_app. rewrite length_app. cbn [length].
  rewrite map_app in Hnd. apply NoDup_app in Hnd as (_ & _ & Hnd). apply (filter_other_length r) in Hnd.
  assert (length (last_n n l) = n) as Hlen by (unfold last_n; rewrite length_drop; lia). lia.
Qed.
Lemma history_snoc rs r : history (rs ++ [r]) = remember (history rs) r.
Proof. unfold history. by rewrite foldl_app. Qed.
Lemma NoDup_remember l r : NoDup (map rg_generation_id l) → NoDup (map rg_generation_id (remember l r)).
Proof.
  intros Hn. unfold remember. destruct (rg_written r); [|done]. rewrite map_app. apply NoDup_app. split_and!.
  - induction l as [|q l IH]; [done|]. cbn in Hn |- *. apply NoDup_cons in Hn as [Hq Hn]. destruct (other_generation r q); [|by apply IH].
    cbn. apply NoDup_cons. split; [|by apply IH]. intros (x & Hx & [Hin _]%list_elem_of_In%filter_In)%list_elem_of_fmap. apply Hq.
    apply list_elem_of_fmap. exists x. split; [done|by apply list_elem_of_In].
  - intros x (q & -> & [_ Hq]%list_elem_of_In%filter_In)%list_elem_of_fmap Hr%list_elem_of_singleton.
    unfold other_generation in Hq. apply negb_true_iff, String.eqb_neq in Hq. done.
  - apply NoDup_singleton.
Qed.
Lemma history_NoDup rs : NoDup (map rg_generation_id (history rs)).
Proof. induction rs as [|r rs IH] using rev_ind; [constructor|]. rewrite history_snoc. by apply NoDup_remember. Qed.
Definition shelved (r : recording) : dict := sorted_dict (recording_entry r).
Lemma with_entry_shelved l r : map sorted_dict (with_entry (map shelved l) (rg_generation_id r) (recording_entry r))
  = map shelved (last_n LEDGER_HISTORY_LIMIT (List.filter (other_generation r) l ++ [r])).
Proof.
  unfold with_entry. rewrite <- !last_n_map. f_equal. rewrite !map_app. f_equal. induction l as [|q l IH]; [done|]. cbn [map List.filter].
  assert (negb (is_text (get "generation_id" (shelved q)) (rg_generation_id r)) = other_generation r q) as -> by (unfold shelved; by rewrite get_sorted).
  destruct (other_generation r q); [|done]. cbn [map]. rewrite IH. unfold shelved at 1. by rewrite sorted_dict_idemp.
Qed.
(** C31: Whatever recordings succeed or fail, the ledger shows the last eight
    distinct generations in the order in which they were last recorded, as the
    unbounded history of the recordings has them: forgetting the rest before a
    recording or after it is the same.  Rollback serves the generation recorded
    last. *)
Theorem ledger_refines_history rs f l (Hempty : load f = Ok l) (Hnew : ld_generations l = []) :
  ld_generations <$> load (foldl record_one f rs) = Ok (map shelved (last_n LEDGER_HISTORY_LIMIT (history rs))) ∧
  NoDup (map rg_generation_id (last_n LEDGER_HISTORY_LIMIT (history rs))) ∧
  (length (last_n LEDGER_HISTORY_LIMIT (history rs)) <= 8)%nat ∧
  ∀ policy p state, rollback_to_last_valid_generation (foldl record_one f rs) policy = Ok (p, state) →
    semantic_publication_allowed p = false ∧ rs_served_generation state = from_option rg_generation_id "" (last (history rs)).
Proof.
  assert (ld_generations <$> load (foldl record_one f rs) = Ok (map shelved (last_n LEDGER_HISTORY_LIMIT (history rs)))) as Hload.
  { induction rs as [|r rs IH] using rev_ind; [cbn; by rewrite Hempty; cbn; rewrite Hnew|].
    rewrite foldl_app, history_snoc. cbn [foldl]. unfold record_one at 1, remember. set (f1 := foldl record_one f rs) in *.
    destruct (load f1) as [l1|] eqn:El; [|done]. cbn in IH. apply Ok_inj in IH.
    destruct (record _ _ _ _ _ _ f1) as [o f2] eqn:Erec. cbn [snd].
    apply record_spec in Erec as [(Ew & _ & l2 & Hl2 & ->)|(-> & Hout)].
    - rewrite El in Hl2. apply Ok_inj in Hl2 as <-. rewrite Ew.
      cbn. f_equal. rewrite IH. fold (recording_entry r). rewrite with_entry_shelved. f_equal.
      apply remember_last_n; [apply history_NoDup|unfold LEDGER_HISTORY_LIMIT; lia].
    - destruct Hout as [[_ ->]|(e & _ & He)]; [|congruence]. rewrite El. cbn. by rewrite IH. }
  split_and!; [done| |apply last_n_length|].
  - rewrite <- last_n_map. apply last_n_NoDup, history_NoDup.
  - intros policy p state. unfold rollback_to_last_valid_generation, make_policy. cbn [po_mode].
    destruct (negb (existsb _ _)); cbn [mbind result_bind negb in_list]; [done|].
    destruct (load (foldl record_one f rs)) as [l1|]; [|done]. cbn in Hload. apply Ok_inj in Hload.
    cbn [mbind result_bind mret result_ret]. intros [= <- <-]. split; [done|]. rewrite Hload.
    destruct (history rs) as [|r h _] using rev_ind; [done|]. rewrite last_snoc, last_map, last_app_drop by (unfold LEDGER_HISTORY_LIMIT; lia).
    cbn [from_option fmap option_fmap option_map rs_served_generation]. unfold str_or_empty, shelved. rewrite get_sorted. apply str_back.
Qed.

(** * What is embedded *)

Definition carries_marker (text : string) : bool := existsb (λ m, contains m (casefold text)) _CREDENTIAL_MARKERS.
Lemma find_misses {A} (p : A → bool) l : List.find p l = None → ∀ x, x ∈ l → p x = false.
Proof. intros Hf x Hx. apply list_elem_of_In in Hx. by apply (find_none p l Hf). Qed.
Lemma secret_none text : secret_bearing_text text = None → carries_marker text = false.
Proof.
  unfold secret_bearing_text, carries_marker. intros Hf. apply not_true_iff_false. intros (m & Hm & Hc)%existsb_exists.
  by rewrite (find_misses _ _ Hf m (proj2 (list_elem_of_In _ _) Hm)) in Hc.
Qed.
Lemma not_rejected item : vector_item_rejection_reason item = None →
  (str_or_empty "generated_code_class" item ∉ VECTOR_FORBIDDEN_GENERATED_CLASSES) ∧ str_or_empty "source_origin" item ≠ "generated" ∧
  (∀ field, field ∈ embedded_fields → carries_marker (str_or_empty field item) = false) ∧
  (str_or_empty "label" item ∈ PROC_NODE_LABELS → str_or_empty "vector_origin" item ≠ "masked").
Proof.
  unfold vector_item_rejection_reason, credential_field.
  destruct (in_list (str_or_empty "generated_code_class" item) _) eqn:E1; [done|].
  destruct (String.eqb_spec (str_or_empty "source_origin" item) "generated") as [|E2]; [done|].
  destruct (List.find _ _) eqn:E3; [done|]. destruct (_ && _) eqn:E4; [done|]. intros _. split_and!; [by apply in_list_false|done| |].
  - intros field Hfield. apply secret_none. apply (find_misses _ _ E3) in Hfield. apply bool_decide_eq_false in Hfield.
    by apply eq_None_not_Some.
  - intros Hl Hm. apply andb_false_iff in E4 as [E4|E4]; [apply in_list_false in E4; done|]. rewrite Hm in E4. done.
Qed.
(** C32: Every candidate is either embedded or rejected with its reason, both in
    the order of the candidates; what is embedded is not from a forbidden generated class
    nor of generated origin, none of its nine texts carries a marker of credentials,
    whatever its case, and when its label is in [PROC_NODE_LABELS] it is not of
    masked origin (under another label the origin of the vector is not looked at). *)
Theorem only_safe_items_embedded items :
  let '(safe, rejections) := sanitize_vector_items items in
  safe = List.filter (λ item, bool_decide (vector_item_rejection_reason item = None)) items ∧
  (length safe + length rejections = length items)%nat ∧
  (∀ item, item ∈ safe → (str_or_empty "generated_code_class" item ∉ VECTOR_FORBIDDEN_GENERATED_CLASSES) ∧
     str_or_empty "source_origin" item ≠ "generated" ∧
     (∀ field, field ∈ embedded_fields → carries_marker (str_or_empty field item) = false) ∧
     (str_or_empty "label" item ∈ PROC_NODE_LABELS → str_or_empty "vector_origin" item ≠ "masked")) ∧
  rejections = omap (λ item, rejection item <$> vector_item_rejection_reason item) items.
Proof.
  induction items as [|item items IH]; cbn [sanitize_vector_items].
  { split_and!; [done|done|by intros ? ?%elem_of_nil|done]. }
  destruct (sanitize_vector_items items) as [safe rejections]. destruct IH as (Hs & Hl & Hsafe & Hrej).
  destruct (vector_item_rejection_reason item) as [reason|] eqn:Er; cbn [List.filter omap list_omap]; rewrite Er; cbn [fmap option_fmap option_map].
  - rewrite bool_decide_false by done. split_and!; [done|cbn; lia|done|by rewrite Hrej].
  - rewrite bool_decide_true by done. split_and!; [by rewrite Hs|cbn; lia| |done].
    intros i [->|Hi]%elem_of_cons; [by apply not_rejected|by apply Hsafe].
Qed.

(** * What the model shows besides *)

(** A publication whose queue did not drain is reported as retryable with a failure
    that is not, which no result of a run may carry. *)
Lemma undrained_unreportable `{Sha256} `{Uuid5} {B} (publisher : _PublishedManifest → st B exn string) exc_text exc_name written now has_ledger
    s rq b f o st' r : rq_queue_drained rq = false →
  publish_staged_generation publisher exc_text exc_name written now has_ledger s rq (b, f) = (Ok o, st') →
  rr_outcome r = oc_outcome o → rr_failure r = oc_failure o → make_run_result r = Err ValueError.
Proof.
  unfold publish_staged_generation, mbind, st_bind, st_gets, st_lift. intros ->. cbn [negb].
  destruct (if has_ledger then _ else _); [|done]. intros [= Ho _] Hr Hf.
  apply failed_outcome_inv in Ho as (Ho & _ & _ & fl & Hfl & _ & _ & Hret). unfold make_run_result. rewrite Hr, Hf, Ho, Hfl. cbn. rewrite Hret.
  by destruct (_ || _).
Qed.
(** A recording over a ledger that could not be parsed starts a new history, and the
    next reading no longer tells. *)
Lemma corrupt_ledger_forgotten r : rg_written r = true →
  load Corrupt = Ok (MkLedger [] true) ∧ load (record_one Corrupt r) = Ok (MkLedger [shelved r] false).
Proof.
  intros Hw. split; [done|]. unfold record_one. rewrite Hw. destruct (record _ _ _ _ _ _ Corrupt) as [o f'] eqn:Er. cbn [snd].
  apply record_spec in Er as [(_ & _ & l & Hl & ->)|(-> & [[_ ?]|(e & _ & He)])]; [|done|done]. apply Ok_inj in Hl as <-. done.
Qed.
(** A ledger that is no UTF-8 makes the publication raise. *)
Lemma undecodable_ledger_raises `{Sha256} `{Uuid5} {B} (publisher : _PublishedManifest → st B exn string) exc_text exc_name written now s rq b :
  publish_staged_generation publisher exc_text exc_name written now true s rq (b, Undecodable) = (Err ValueError, (b, Undecodable)).
Proof. done. Qed.
(** An edge of the baseline without a site is never stale. *)
Lemma unsited_edge_survives :
  compute_stale_strong_edges [[("caller_id", JStr "f"); ("callee_id", JStr "g"); ("file_path", JStr "a.c")]] [] ["a.c"] "downgraded" [] = [].
Proof. reflexivity. Qed.

(** * Instances *)

#[local] Instance text_digest : Sha256 := λ s, s.
#[local] Instance text_uuid : Uuid5 := λ s, s.
Definition strong_props (site_id : string) : dict :=
  [("site_id", JStr site_id); ("resolution_class", JStr "direct_resolved"); ("semantic_provider", JStr "clang_worker"); ("tu_key", JStr "a.c");
   ("config_fingerprint", JStr "debug"); ("callee_usr", JStr "c:g"); ("context_attestation", JStr "t"); ("manifest_key", JStr "m");
   ("context_fidelity", JStr "faithful"); ("context_admission", JStr "accepted"); ("execution_coverage", JStr "complete")].
Definition baseline_edge (site_id : string) : dict :=
  [("caller_id", JStr "f"); ("callee_id", JStr "g"); ("site_id", JStr site_id); ("file_path", JStr "a.c")].
Definition example_gate : gate_inputs := MkGateInputs [("tier", JStr "clean")] [] (strong_props "s1") "" "exact_span" "".
Lemma gate_spec_witness : ∃ d, strong_edge_publication_decision default_policy example_gate = Ok d ∧ gd_allowed d = true ∧
  gate_open default_policy example_gate.
Proof.
  destruct (strong_edge_publication_decision default_policy example_gate) as [d|e] eqn:E; [|vm_compute in E; discriminate].
  exists d. split; [done|]. destruct (gate_spec default_policy example_gate d E) as [H _].
  assert (gd_allowed d = true) as Hd by (vm_compute in E; by injection E as <-). split; [done|]. by apply H.
Defined.
Definition example_inputs : replacement_inputs :=
  MkReplacementInputs None (Some [[("caller_id", JStr "f"); ("props", JObj (strong_props "s1"))]]) None [] [] []
    [baseline_edge "s1"; baseline_edge "s2"] ["a.c"] [] [] [].
Definition example_staged : StagedReplacementSet :=
  match build_staged_replacement "p" "r1" default_policy example_inputs with
  | Ok s => s
  | Err _ => MkStaged "" "" default_policy [] [] [] [] [] [] [] []
  end.
Definition example_items : list dict :=
  [[("id", JStr "f"); ("label", JStr "Function"); ("code", JStr "int f(void);")];
   [("id", JStr "q"); ("label", JStr "SqlStatement"); ("vector_origin", JStr "masked")];
   [("id", JStr "s"); ("code", JStr "PASSWORD=1")]].
Lemma only_safe_items_embedded_witness :
  (sanitize_vector_items example_items).1 = firstn 1 example_items ∧
  (length (sanitize_vector_items example_items).2 = 2)%nat ∧
  carries_marker (str_or_empty "code" (default [] (head example_items))) = false.
Proof.
  assert (sanitize_vector_items example_items = (firstn 1 example_items, (sanitize_vector_items example_items).2)) as E by (vm_compute; reflexivity).
  pose proof (only_safe_items_embedded example_items) as H. rewrite E in H. destruct H as (_ & Hl & Hsafe & _).
  split; [exact (f_equal fst E)|]. split; [exact (proj1 (Nat.add_cancel_l _ 2 1) Hl)|].
  destruct (Hsafe _ (list_elem_of_here _ _)) as (_ & _ & Hm & _). apply Hm. apply elem_of_cons. left. reflexivity.
Defined.
Lemma no_trusted_edge_left_witness : build_staged_replacement "p" "r1" default_policy example_inputs = Ok example_staged ∧
  map se_site_id (sg_stale_strong_edges example_staged) = ["s2"] ∧ reaccepts (sg_strict_call_rows example_staged) "s1".
Proof.
  assert (build_staged_replacement "p" "r1" default_policy example_inputs = Ok example_staged) as E by (vm_compute; reflexivity).
  split; [done|]. split; [vm_compute; reflexivity|].
  destruct (no_trusted_edge_left _ _ _ _ _ E) as [H _].
  destruct (H (baseline_edge "s1")) as [Hs|Hs]; [by left|done|by left|exact Hs|].
  exfalso. vm_compute in Hs. by apply list_elem_of_In in Hs as [|[]].
Defined.
Definition example_request : publish_request :=
  MkRequest "g2" "" [("strict_calls", 1); ("evidence_sites", 0); ("evidence_observations", 0); ("vector_items", 0); (stale_key, 0)]%Z [] "" "" true.
Definition echo (pm : _PublishedManifest) : st nat exn string := _ ← st_modify S; mret (pm_generation_id pm).
Definition no_text (e : exn) : string := "".
Lemma publication_fails_closed_witness : ∃ o f',
  publish_staged_generation echo no_text no_text true "now" true example_staged example_request (0%nat, Absent) = (Ok o, (1%nat, f')) ∧
  oc_outcome o = RunOutcome.SUCCESS ∧ ready example_staged example_request ∧
  ∃ entry, last_valid f' = Ok (Some entry) ∧ get "generation_id" entry = JStr (oc_generation_id o).
Proof.
  destruct (publish_staged_generation echo no_text no_text true "now" true example_staged example_request (0%nat, Absent)) as [[o|e] [b' f']] eqn:E;
    [|vm_compute in E; discriminate]. exists o, f'.
  assert (oc_outcome o = RunOutcome.SUCCESS ∧ b' = 1%nat) as [Ho ->] by (vm_compute in E; by injection E as <- <- _).
  destruct (publication_fails_closed _ _ _ _ _ _ _ _ _ _ _ _ _ E) as (_ & Hs & _). destruct (Hs Ho) as (Hr & hash & id & _ & _ & _ & Hl).
  split_and!; [done..|]. destruct (Hl eq_refl) as (entry & H1 & H2 & _). by exists entry.
Defined.
Lemma active_generation_flips_witness : ∃ o g' f',
  publish_staged_generation (owner_publisher demo_root demo_target (λ _, Ok []) [] id (λ _, false) Written Written Written "t1" "t2" "t3")
    no_text no_text true "now" true example_staged example_request (MkManager empty_files fresh_memory, Absent) = (Ok o, (g', f')) ∧
  oc_outcome o = RunOutcome.SUCCESS ∧ shows demo_target g' "g2".
Proof.
  destruct (publish_staged_generation (owner_publisher demo_root demo_target (λ _, Ok []) [] id (λ _, false) Written Written Written "t1" "t2" "t3")
    no_text no_text true "now" true example_staged example_request (MkManager empty_files fresh_memory, Absent)) as [[o|e] [g' f']] eqn:E;
    [|vm_compute in E; discriminate]. exists o, g', f'.
  assert (oc_outcome o = RunOutcome.SUCCESS ∧ oc_generation_id o = "g2") as [Ho Hid] by (vm_compute in E; by injection E as <- _ _).
  split; [done|]. split; [done|]. rewrite <- Hid.
  apply active_generation_flips in E as [Hs _]. by apply Hs.
Defined.
Definition example_recordings : list recording :=
  [MkRecording true "g1" "r1" "x" [] "t1"; MkRecording true "g2" "r2" "y" [] "t2"; MkRecording false "g3" "r3" "z" [] "t3"; MkRecording true "g1" "r4" "w" [] "t4"].
Lemma ledger_refines_history_witness :
  map rg_generation_id (history example_recordings) = ["g2"; "g1"] ∧
  ld_generations <$> load (foldl record_one Corrupt example_recordings) = Ok (map shelved (history example_recordings)).
Proof.
  split; [reflexivity|].
  exact (proj1 (ledger_refines_history example_recordings Corrupt (MkLedger [] true) eq_refl eq_refl)).
Defined.
(** A strict row of a merge names its call twice: the row by the site of the call
    and its callee, its properties by the site that was merged.  The writer looks the
    edge up by the row's and then sets the properties, so the graph holds the other;
    an edge read back from it is listed as stale although its row is staged again. *)
Definition merged_replacement (edge_of : strict_row → string) : option (StagedReplacementSet * strict_row) :=
  match merged_example [direct_observation "g" 40 "c"] with
  | Some m =>
      match er_strict_rows m, merge_mapping None m with
      | [row], Ok rows =>
          let i := MkReplacementInputs (Some rows) None None [] [] [] [baseline_edge (edge_of row)] ["a.c"] [] [] [] in
          match build_staged_replacement "p" "r1" default_policy i with Ok s => Some (s, row) | Err _ => None end
      | _, _ => None
      end
  | None => None
  end.
Lemma reaccepted_edge_listed_stale :
  option_map (λ sr, length (sg_stale_strong_edges sr.1)) (merged_replacement sr_site_id) = Some 0%nat ∧
  option_map (λ sr, (length (sg_strict_call_rows sr.1), length (sg_stale_strong_edges sr.1)))
    (merged_replacement (λ row, py_str (get "site_id" (sr_props row)))) = Some (1%nat, 1%nat).
Proof. split; vm_compute; reflexivity. Qed.
