(* ===== verification/ProcFacts.v ===== *)
(** What source maps of Pro*C promise: lines are those of the text, a strict row is
    exact, every call is accounted for, and a sidecar fails closed. *)
From S2P Require Import Prelude Json Text PyValue Models Identity Db Contracts Stateful Url Reliability CallEvidence Evidence Publication ProcMap ProcJoins.
#[local] Open Scope string_scope.

(** * Lines *)

(** The line of a character, as a reader counts it. *)
Fixpoint newlines (s : string) : Z :=
  match s with EmptyString => 0 | String c s => (if Ascii.eqb c newline_char then 1 else 0) + newlines s end%Z.
Definition line_at (text : string) (offset : Z) : Z := (1 + newlines (take_chars (Z.to_nat offset) text))%Z.

Definition increasing (starts : list Z) : Prop := ∀ i j, (i < j < length starts)%nat → (nth i starts 0 < nth j starts 0)%Z.
(** The search ends at the last start that is not behind the position. *)
Lemma bisect_spec fuel starts pos low high : (low <= high < length starts)%nat → (high - low <= fuel)%nat →
  (nth low starts 0 <= pos)%Z → (∀ k, (high < k < length starts)%nat → (pos < nth k starts 0)%Z) → increasing starts →
  let r := bisect fuel starts pos low high in
  (r < length starts)%nat ∧ (nth r starts 0 <= pos)%Z ∧ ∀ k, (r < k < length starts)%nat → (pos < nth k starts 0)%Z.
Proof.
  revert low high. induction fuel as [|fuel IH]; intros low high Hb Hf Hlow Hhigh Hinc; cbn [bisect].
  { assert (low = high) as -> by lia. split_and!; [lia|done|done]. }
  destruct (Nat.ltb_spec low high); [|assert (low = high) as -> by lia; split_and!; [lia|done|done]].
  assert (low < (low + high + 1) / 2 <= high)%nat as Hmid.
  { pose proof (Nat.div_mod_eq (low + high + 1) 2). pose proof (Nat.mod_upper_bound (low + high + 1) 2). lia. }
  generalize dependent ((low + high + 1) / 2)%nat. intros mid Hmid. destruct (Z.leb_spec (nth mid starts 0%Z) pos).
  - apply IH; [lia|lia|done|done|done].
  - apply IH; [lia|lia|done| |done]. intros k Hk. destruct (decide (k = mid)) as [->|]; [done|].
    assert (mid < k)%nat by lia. specialize (Hinc mid k). lia.
Qed.
Lemma starts_length off lines : length (starts_from off lines) = length lines.
Proof. revert off. induction lines as [|l lines IH]; intros off; cbn; [done|by rewrite IH]. Qed.
Lemma char_len_nonneg s : (0 <= char_len s)%Z.
Proof. induction s as [|c s IH]; cbn; [lia|]. destruct (is_continuation c); lia. Qed.
Lemma starts_bound off lines k : (k < length lines)%nat → (off <= nth k (starts_from off lines) 0)%Z.
Proof.
  revert off k. induction lines as [|l lines IH]; intros off k Hk; cbn in *; [lia|]. destruct k as [|k]; [lia|].
  pose proof (IH (off + char_len l + 1)%Z k ltac:(lia)). pose proof (char_len_nonneg l). lia.
Qed.
Lemma starts_increasing off lines : increasing (starts_from off lines).
Proof.
  revert off. induction lines as [|l lines IH]; intros off i j Hij; rewrite starts_length in Hij; cbn in Hij; [lia|].
  destruct j as [|j]; [lia|]. cbn [starts_from nth]. destruct i as [|i].
  - pose proof (starts_bound (off + char_len l + 1) lines j ltac:(lia)). pose proof (char_len_nonneg l). lia.
  - apply IH. rewrite starts_length. lia.
Qed.
Definition count_le (pos : Z) (starts : list Z) : Z := counted (List.filter (λ x, x <=? pos)%Z starts).
Lemma count_le_cons pos x starts : count_le pos (x :: starts) = ((if (x <=? pos)%Z then 1 else 0) + count_le pos starts)%Z.
Proof. unfold count_le, counted. cbn [List.filter]. destruct (x <=? pos)%Z; cbn [length]; lia. Qed.
Lemma count_le_none pos starts : (∀ k, (k < length starts)%nat → (pos < nth k starts 0)%Z) → count_le pos starts = 0%Z.
Proof.
  induction starts as [|x starts IH]; intros Hall; [done|]. rewrite count_le_cons, IH.
  - specialize (Hall 0%nat ltac:(cbn; lia)). cbn in Hall. destruct (Z.leb_spec x pos); lia.
  - intros k Hk. exact (Hall (S k) ltac:(cbn; lia)).
Qed.
Lemma count_le_index pos starts r : increasing starts → (r < length starts)%nat → (nth r starts 0 <= pos)%Z →
  (∀ k, (r < k < length starts)%nat → (pos < nth k starts 0)%Z) → count_le pos starts = (Z.of_nat r + 1)%Z.
Proof.
  revert r. induction starts as [|x starts IH]; intros r Hinc Hr Hle Hgt; cbn [length] in *; [lia|]. rewrite count_le_cons. destruct r as [|r].
  - cbn in Hle. rewrite count_le_none; [destruct (Z.leb_spec x pos); lia|]. intros k Hk. exact (Hgt (S k) ltac:(lia)).
  - pose proof (Hinc 0%nat (S r) ltac:(cbn; lia)) as Hx. cbn [nth] in Hx, Hle.
    rewrite (IH r); [destruct (Z.leb_spec x pos); lia| |lia|done|].
    + intros i j Hij. exact (Hinc (S i) (S j) ltac:(cbn; lia)).
    + intros k Hk. exact (Hgt (S k) ltac:(lia)).
Qed.
Lemma split_newline_cons s : ∃ l ls, split_newline s = l :: ls.
Proof. destruct s as [|c s]; cbn; [by eexists _, _|]. destruct (Ascii.eqb _ _); [by eexists _, _|]. destruct (split_newline s); by eexists _, _. Qed.
Lemma newline_no_continuation c : Ascii.eqb c newline_char = true → is_continuation c = false.
Proof. intros ->%Ascii.eqb_eq. reflexivity. Qed.
Lemma count_starts s off pos : (off <= pos)%Z →
  count_le pos (starts_from off (split_newline s)) = (1 + newlines (take_chars (Z.to_nat (pos - off)) s))%Z.
Proof.
  revert off. induction s as [|c s IH]; intros off Hle.
  { cbn [split_newline starts_from take_chars newlines]. rewrite count_le_cons. destruct (Z.leb_spec off pos); [done|lia]. }
  assert (∀ lines d, (0 <= d)%Z → pos = off → count_le pos (starts_from (off + d + 1) lines) = 0%Z) as Hnone.
  { intros lines d Hd ->. apply count_le_none. intros k Hk. rewrite starts_length in Hk.
    pose proof (starts_bound (off + d + 1) lines k Hk). lia. }
  cbn [split_newline take_chars]. destruct (Ascii.eqb c newline_char) eqn:En.
  - rewrite (newline_no_continuation _ En). cbn [starts_from char_len]. rewrite count_le_cons. destruct (Z.leb_spec off pos); [|lia].
    destruct (decide (pos = off)) as [Heq|Hne].
    + rewrite Hnone by (done || lia). replace (Z.to_nat (pos - off)) with 0%nat by lia. done.
    + replace (Z.to_nat (pos - off)) with (S (Z.to_nat (pos - (off + 0 + 1)))) by lia. cbn [newlines]. rewrite En, IH by lia. lia.
  - destruct (split_newline_cons s) as (l & ls & Es). rewrite Es in IH |- *. cbn [starts_from char_len] in IH |- *.
    rewrite count_le_cons. destruct (Z.leb_spec off pos); [|lia]. destruct (is_continuation c) eqn:Ec.
    + specialize (IH off Hle). rewrite count_le_cons in IH. destruct (Z.leb_spec off pos); [|lia]. cbn [newlines]. rewrite En. exact IH.
    + destruct (decide (pos = off)) as [Heq|Hne].
      * pose proof (char_len_nonneg l). rewrite Hnone by (done || lia). replace (Z.to_nat (pos - off)) with 0%nat by lia. done.
      * specialize (IH (off + 1)%Z ltac:(lia)). rewrite count_le_cons in IH. destruct (Z.leb_spec (off + 1) pos); [|lia].
        replace (Z.to_nat (pos - off)) with (S (Z.to_nat (pos - (off + 1)))) by lia. cbn [newlines]. rewrite En.
        replace (off + (1 + char_len l) + 1)%Z with (off + 1 + char_len l + 1)%Z by lia. exact IH.
Qed.
Lemma search_line_at text pos : (0 <= pos)%Z → search_line (starts_from 0 (split_newline text)) pos = line_at text pos.
Proof.
  intros Hpos. destruct (split_newline_cons text) as (l & ls & Es).
  pose proof (count_starts text 0 pos Hpos) as Hc. rewrite Z.sub_0_r in Hc. unfold line_at. rewrite <- Hc. unfold search_line.
  set (starts := starts_from 0 (split_newline text)) in *.
  assert (0 < length starts)%nat as Hlen by (unfold starts; rewrite starts_length, Es; cbn; lia).
  assert (nth 0 starts 0 <= pos)%Z as H0 by (unfold starts; rewrite Es; cbn; lia).
  destruct (bisect_spec (length starts) starts pos 0 (length starts - 1)) as (Hr & Hle & Hgt); try lia; [apply starts_increasing|].
  symmetry. by apply count_le_index; [apply starts_increasing| | |].
Qed.
(** The binary search over the starts of the lines finds the line that a reader
    counts, for every text and every offset in characters. *)
Theorem line_of_counts text offset :
  _line_of (_line_starts text) offset = if (offset <? 0)%Z || is_empty text then 0%Z else line_at text offset.
Proof.
  unfold _line_of, _line_starts. destruct (Z.ltb_spec offset 0); cbn [orb]; [done|]. destruct (is_empty text) eqn:E; [done|].
  destruct (starts_from 0 (split_newline text)) eqn:Es; [|rewrite <- Es; by apply search_line_at].
  destruct (split_newline_cons text) as (l & ls & El). rewrite El in Es. done.
Qed.

(** * Lookup *)

(** Everything the map has to say about a span agrees on the entry. *)
Record maps_exactly (m : ProcSourceMap) (from to : Z) (e : ProcMapEntry) : Prop := {
  mx_valid : has_invalid m = false;
  mx_entry : e ∈ sm_entries m;
  mx_covers : covers e from to = true;
  mx_usable : usable e = true;
  mx_fresh : ∀ e', e' ∈ sm_entries m → covers e' from to = true → is_stale e' = false;
  mx_agree : ∀ e', e' ∈ sm_entries m → covers e' from to = true → usable e' = true → target_of e' = target_of e;
}.
Lemma elem_of_filterb {A} (p : A → bool) l x : x ∈ List.filter p l ↔ x ∈ l ∧ p x = true.
Proof. by rewrite list_elem_of_In, filter_In, <- list_elem_of_In. Qed.
Lemma existsb_false {A} (p : A → bool) l : existsb p l = false → ∀ x, x ∈ l → p x = false.
Proof.
  intros He x Hx. apply not_true_iff_false. intros Hp. apply not_true_iff_false in He. apply He. apply existsb_exists.
  exists x. split; [by apply list_elem_of_In|done].
Qed.
Lemma lookup_mapped m from to : lu_status (lookup m from to) = "mapped" → ∃ e, lookup m from to = project e from to ∧ maps_exactly m from to e.
Proof.
  unfold lookup. destruct (has_invalid m) eqn:Ei; [done|]. destruct (existsb is_stale _) eqn:Es; [done|].
  destruct (List.filter usable _) as [|e rest] eqn:Eu; [done|]. destruct (forallb _ rest) eqn:Ea; [|done]. intros _. exists e. split; [done|].
  assert (e ∈ List.filter usable (List.filter (λ e, covers e from to) (sm_entries m))) as He by (rewrite Eu; apply elem_of_cons; by left).
  rewrite !elem_of_filterb in He. destruct He as [[Hin Hc] Hu]. constructor; try done.
  - intros e' Hin' Hc'. apply (existsb_false _ _ Es). by rewrite elem_of_filterb.
  - intros e' Hin' Hc' Hu'. assert (e' ∈ e :: rest) as Hr by (rewrite <- Eu, !elem_of_filterb; done).
    apply elem_of_cons in Hr as [->|Hr]; [done|]. rewrite forallb_forall in Ea. specialize (Ea e' (proj1 (list_elem_of_In _ _) Hr)).
    by apply bool_decide_eq_true in Ea.
Qed.
Lemma lookup_project m from to e : maps_exactly m from to e → lu_status (lookup m from to) = "mapped".
Proof.
  intros [Hi Hin Hc Hu Hf Ha]. unfold lookup. rewrite Hi.
  destruct (existsb is_stale _) eqn:Es.
  { apply existsb_exists in Es as (e' & Hin'%list_elem_of_In & Hs). apply elem_of_filterb in Hin' as [? ?]. by rewrite Hf in Hs. }
  destruct (List.filter usable _) as [|e1 rest] eqn:Eu.
  { assert (e ∈ List.filter usable (List.filter (λ e, covers e from to) (sm_entries m))) as Hx by (by rewrite !elem_of_filterb).
    rewrite Eu in Hx. by apply elem_of_nil in Hx. }
  assert (∀ e', e' ∈ e1 :: rest → target_of e' = target_of e) as Hall.
  { intros e' Hr. rewrite <- Eu, !elem_of_filterb in Hr. destruct Hr as [[? ?] ?]. by apply Ha. }
  assert (forallb (λ e', bool_decide (target_of e' = target_of e1)) rest = true) as ->; [|done].
  apply forallb_forall. intros e' Hr. apply bool_decide_eq_true. rewrite (Hall e1), (Hall e'); [done|apply elem_of_cons; right; by apply list_elem_of_In|apply elem_of_cons; by left].
Qed.

(** * Reconciliation *)

Lemma shaped_application prefixes callee (other : string) :
  (if name_like runtime_prefixes callee then "precompiler_runtime" else if name_like prefixes callee then "precompiler_wrapper" else other)
    = "original_application" → other = "original_application".
Proof. destruct (name_like runtime_prefixes callee); [done|]. by destruct (name_like prefixes callee). Qed.
Lemma refined_application worker callee l text : refine_generated_class worker callee l text = "original_application" →
  lu_status l = "mapped" ∧ callee ≠ "" ∧ contains callee text = true.
Proof.
  unfold refine_generated_class. destruct (String.eqb_spec (lu_status l) "mapped"); cbn [negb]; [|by intros ?%shaped_application].
  destruct (String.eqb_spec worker "macro_expansion"); [done|]. intros Hs%shaped_application.
  destruct (is_empty text), (is_empty callee) eqn:Ec, (contains callee text); cbn [negb andb] in Hs;
    try (destruct (String.eqb_spec worker "original_application") as [|Hw]; [done|]; destruct (is_empty worker); [done|]; by destruct Hw).
  split_and!; [done| |done]. intros ->. done.
Qed.
Lemma accepted_reason class l resolution state worker : reject_reason class l resolution state worker = None →
  class = "original_application" ∧ lu_status l = "mapped" ∧ resolution = JStr "direct_resolved" ∧ lu_quality l = "exact_span" ∧
  state = "semantic_complete" ∧ worker ≠ "failed".
Proof.
  unfold reject_reason. destruct (in_list class _); [done|]. destruct (String.eqb_spec (lu_status l) "mapped"); cbn [negb]; [|done].
  destruct (String.eqb_spec class "original_application"); cbn [negb]; [|done].
  destruct resolution as [| | | |r| |]; cbn [is_text negb]; try done. destruct (String.eqb_spec r "direct_resolved") as [->|]; cbn [negb]; [|done].
  destruct (is_strict_map_quality (lu_quality l)) eqn:Eq; cbn [negb]; [|done].
  unfold is_strict_map_quality in Eq. apply in_list_elem, list_elem_of_singleton in Eq.
  destruct (String.eqb_spec state "semantic_complete"); cbn [negb orb]; [|done]. by destruct (String.eqb_spec worker "failed").
Qed.
Lemma map_state_complete m worker : map_state m worker = "semantic_complete" → has_stale m = false ∧ has_invalid m = false.
Proof. unfold map_state, classify_proc_bundle_state. cbn. by destruct (has_invalid m), (has_stale m). Qed.

Section reconcile.
Context (m : ProcSourceMap) (bundle_id original_text worker_status bundle_state : string).
Abbreviation reconcile := (reconcile_proc_semantic_callsites m bundle_id original_text worker_status bundle_state).
Abbreviation site_result := (reconcile_site m bundle_id original_text worker_status bundle_state).
Abbreviation state := (reconcile_state m worker_status bundle_state).
Lemma reconcile_sites_spec sites rs : reconcile_sites m bundle_id original_text worker_status bundle_state sites = Ok rs →
  Forall2 (λ site r, site_result site = Ok r) sites rs.
Proof.
  revert rs. induction sites as [|site sites IH]; cbn [reconcile_sites]; intros rs Hr; [by apply Ok_inj in Hr as <-|].
  destruct (site_result site) as [r|] eqn:Es; cbn [mbind result_bind] in Hr; [|done].
  destruct (reconcile_sites _ _ _ _ _ sites) as [rs'|]; cbn [mbind result_bind mret result_ret] in Hr; [|done]. apply Ok_inj in Hr as <-.
  constructor; [done|by apply IH].
Qed.
Lemma site_result_spec site r : site_result site = Ok r → ∃ from to line column class,
  int_or_zero "call_start_byte" site = Ok from ∧ int_or_zero "call_end_byte" site = Ok to ∧
  class = refine_generated_class (py_str (py_or (get "generated_code_class" site) (JStr "unmapped_generated"))) (str_or_empty "callee_name" site)
            (lookup m from to) original_text ∧
  r.2 = reject_reason class (lookup m from to) (get "resolution_class" site) state worker_status ∧
  r.1 = reconciled_row m bundle_id original_text site from to line column class (lookup m from to) r.2.
Proof.
  unfold reconcile_site. destruct (int_or_zero "call_start_byte" site) as [from|]; cbn [mbind result_bind]; [|done].
  destruct (int_or_zero "call_end_byte" site) as [to|]; cbn [mbind result_bind]; [|done].
  destruct (int_or_zero "call_line" site) as [line|]; cbn [mbind result_bind]; [|done].
  destruct (int_or_zero "call_column" site) as [column|]; cbn [mbind result_bind mret result_ret]; [|done].
  intros <-%Ok_inj. by exists from, to, line, column, (refine_generated_class (py_str (py_or (get "generated_code_class" site) (JStr "unmapped_generated")))
    (str_or_empty "callee_name" site) (lookup m from to) original_text).
Qed.
(** Where a call of an entry's generated span lies in its original span. *)
Definition inside (e : ProcMapEntry) (from to : Z) : Prop :=
  (me_original_start e <= me_original_start e + (from - me_generated_start e) ∧
   (me_generated_end e - me_generated_start e <= me_original_end e - me_original_start e →
    me_original_start e + (to - me_generated_start e) <= me_original_end e))%Z.
Lemma covers_inside e from to : covers e from to = true → inside e from to.
Proof. unfold covers, inside. intros [?%Z.leb_le ?%Z.leb_le]%andb_true_iff. lia. Qed.
(** C33: A strict row of the reconciliation stands for a direct call of the worker
    whose span an entry of a valid map covers: the entry is of the quality of exact
    spans, no entry that covers the span is stale, and all usable ones have the
    same original target (path, bytes and lines).  The callee is spelled in the
    original text and the bundle is complete.  When the entry gives original bytes
    (its original start is not negative) the row lies at them, shifted as the call
    is shifted in the generated span: not before the original span, and not behind
    it either when the original span is at least as long as the generated one.
    With a shorter original span it may lie behind ([exact_span_escapes]); entries
    with the same target may still shift it differently ([overlap_is_no_conflict]). *)
Theorem strict_rows_exact sites r (Hr : reconcile sites = Ok r) row (Hrow : row ∈ pr_strict_rows r) :
  state = "semantic_complete" ∧ worker_status ≠ "failed" ∧ get "generated_code_class" row = JStr "original_application" ∧
  ∃ site from to e, (site ∈ sites) ∧ get "resolution_class" site = JStr "direct_resolved" ∧
    int_or_zero "call_start_byte" site = Ok from ∧ int_or_zero "call_end_byte" site = Ok to ∧
    maps_exactly m from to e ∧ me_quality e = "exact_span" ∧
    get "file_path" row = JStr (me_original_path e) ∧
    (0 <= me_original_start e → get "call_start_byte" row = JInt (me_original_start e + (from - me_generated_start e)) ∧
       get "call_end_byte" row = JInt (me_original_start e + (to - me_generated_start e)) ∧ inside e from to)%Z ∧
    str_or_empty "callee_name" site ≠ "" ∧ contains (str_or_empty "callee_name" site) original_text = true ∧
    get "callee_name" row = JStr (str_or_empty "callee_name" site).
Proof.
  unfold reconcile_proc_semantic_callsites in Hr. destruct (reconcile_sites _ _ _ _ _ sites) as [rs|] eqn:Es; cbn [mbind result_bind mret result_ret] in Hr; [|done].
  apply Ok_inj in Hr as <-. cbn [pr_strict_rows] in Hrow. apply list_elem_of_omap in Hrow as (sr & Hsr & Hacc).
  unfold accepted_row in Hacc. destruct (sr.2) eqn:Ereason; [done|]. injection Hacc as Hacc.
  apply reconcile_sites_spec in Es. destruct (Forall2_right _ _ _ _ Es Hsr) as (site & Hin & Hsite).
  apply site_result_spec in Hsite as (from & to & line & column & class & Hfrom & Hto & Hclass & Hreason & Hrowdef).
  rewrite Ereason in Hreason. symmetry in Hreason. apply accepted_reason in Hreason as (-> & Hm & Hres & Hq & Hst & Hw).
  symmetry in Hclass. apply refined_application in Hclass as (_ & Hc & Hcont).
  destruct (lookup_mapped _ _ _ Hm) as (e & Hl & Hmx). rewrite <- Hacc, Hrowdef, Hl. rewrite Hl in Hq. cbn in Hq.
  split_and!; [done|done|done|]. exists site, from, to, e. split_and!; try done.
  intros Hb. unfold reconciled_row. cbn [project lu_status lu_original_start lu_original_end String.eqb]. 
  destruct (Z.leb_spec 0 (me_original_start e)); [|lia]. split_and!; [done|cbn; f_equal; lia|].
  apply covers_inside, Hmx.
Qed.

(** ** Accounts *)

Definition rejected_for (k : string) (rs : list (dict * option string)) : Z :=
  counted (List.filter (λ r, match r.2 with Some reason => String.eqb k reason | None => false end) rs).
Lemma count_rejections rs counts :
  let counts' := foldl count_rejection counts rs in
  sum_counts counts' = (sum_counts counts + counted rs - counted (omap accepted_row rs))%Z ∧
  ∀ k, default 0%Z (assoc k counts') = (default 0%Z (assoc k counts) + rejected_for k rs)%Z.
Proof.
  unfold counted. revert counts. induction rs as [|[row reason] rs IH]; intros counts; cbn [foldl]; [split; [cbn; lia|intros k; unfold rejected_for, counted; cbn; lia]|].
  destruct (IH (count_rejection counts (row, reason))) as [H1 H2]. split.
  - rewrite H1. unfold count_rejection, accepted_row. cbn [snd fst omap list_omap length]. destruct reason as [reason|]; cbn [length]; [rewrite count_key_sum|]; lia.
  - intros k. rewrite H2. unfold count_rejection, rejected_for, counted. cbn [snd List.filter]. destruct reason as [reason|]; [|lia].
    rewrite count_key_get. destruct (String.eqb k reason); cbn [length]; lia.
Qed.
Lemma sum_counts_perm l1 l2 : l1 ≡ₚ l2 → sum_counts l1 = sum_counts l2.
Proof. induction 1 as [|[k n] l1 l2 _ IH|[k1 n1] [k2 n2] l|]; cbn; lia. Qed.
Lemma row_reason site r : site_result site = Ok r →
  get "strict_eligible" r.1 = JBool (match r.2 with None => true | Some _ => false end) ∧ get "reject_reason" r.1 = JStr (default "" r.2).
Proof. intros (from & to & line & column & class & _ & _ & _ & _ & ->)%site_result_spec. by split. Qed.
(** The row made of a call: it repeats the call's span and callee, and says how the
    span is mapped and why the call is rejected, if it is. *)
Record row_of (site row : dict) : Prop := {
  ro_reconciled : ∃ reason, site_result site = Ok (row, reason) ∧ get "reject_reason" row = JStr (default "" reason);
  ro_span : ∃ from to, int_or_zero "call_start_byte" site = Ok from ∧ int_or_zero "call_end_byte" site = Ok to ∧
    get "generated_start_byte" row = JInt from ∧ get "generated_end_byte" row = JInt to ∧
    get "mapping_status" row = JStr (lu_status (lookup m from to));
  ro_callee : get "callee_name" row = JStr (str_or_empty "callee_name" site);
}.
Lemma row_of_result site x : site_result site = Ok x → row_of site x.1.
Proof.
  intros Hx. pose proof Hx as (from & to & line & column & class & Hf & Ht & _ & _ & Hrow)%site_result_spec. destruct x as [row reason].
  cbn [fst snd] in *. constructor; [exists reason|exists from, to|]; rewrite ?Hrow; [rewrite <- Hrow|..]; split_and?; try done.
  by rewrite Hrow.
Qed.
(** C34: The calls of the worker have one row each, in their order, made of that
    call; the strict rows are, in order, the rows marked as eligible, the others are
    counted under the reason they carry, and nothing else is counted.  The semantic result of a staged publication accepts
    the accounts of every reconciliation. *)
Theorem reconciliation_accounts sites r (Hr : reconcile sites = Ok r) :
  Forall2 row_of sites (pr_rows r) ∧
  pr_strict_rows r = List.filter (λ row, is_text (get "reject_reason" row) "" && bool_decide (get "strict_eligible" row = JBool true)) (pr_rows r) ∧
  (sum_counts (pr_rejected r) + counted (pr_strict_rows r) = counted (pr_rows r))%Z ∧
  (∀ k, k ≠ "" → default 0%Z (assoc k (pr_rejected r)) = counted (List.filter (λ row, is_text (get "reject_reason" row) k) (pr_rows r))) ∧
  ∀ lane integrity, is_ok (build_semantic_sub_result
    (Some (Publication.MkReconciliation (pr_strict_rows r) (pr_rows r) (map fst (pr_rejected r)) (pr_bundle_state r))) lane integrity) = true.
Proof.
  unfold reconcile_proc_semantic_callsites in Hr. destruct (reconcile_sites _ _ _ _ _ sites) as [rs|] eqn:Es; cbn [mbind result_bind mret result_ret] in Hr; [|done].
  apply Ok_inj in Hr as <-. cbn [pr_rows pr_strict_rows pr_rejected pr_bundle_state]. apply reconcile_sites_spec in Es.
  destruct (count_rejections rs []) as [Hsum Hk]. cbv zeta in Hsum, Hk.
  assert (∀ x, x ∈ rs → get "strict_eligible" x.1 = JBool (match x.2 with None => true | Some _ => false end)
    ∧ get "reject_reason" x.1 = JStr (default "" x.2) ∧ x.2 ≠ Some "") as Hrows.
  { intros x Hx. destruct (Forall2_right _ _ _ _ Es Hx) as (site & _ & Hsite). pose proof (row_reason _ _ Hsite) as [H1 H2]. split_and!; [done|done|].
    apply site_result_spec in Hsite as (from & to & line & column & class & _ & _ & _ & -> & _). unfold reject_reason.
    repeat case_match; done. }
  assert (counted (omap accepted_row rs) <= counted (map fst rs))%Z as Hle.
  { unfold counted. rewrite length_map. clear. induction rs as [|[row [reason|]] rs IH]; cbn in *; lia. }
  split_and!.
  - apply Forall2_fmap_r. eapply Forall2_impl; [exact Es|]. apply row_of_result.
  - clear Es Hsum Hk Hle. induction rs as [|[row reason] rs IH]; [done|]. cbn [map List.filter omap list_omap accepted_row snd fst].
    destruct (Hrows (row, reason)) as (H1 & H2 & H3); [apply elem_of_cons; by left|]. cbn [fst snd] in H1, H2, H3. rewrite H1, H2.
    assert (omap accepted_row rs = _) as Hrest by (apply IH; intros x Hx; apply Hrows; apply elem_of_cons; by right).
    destruct reason as [reason|]; cbn [is_text default from_option id].
    + rewrite (bool_decide_false (JBool false = JBool true)) by done. rewrite andb_false_r. exact Hrest.
    + cbn. by rewrite <- Hrest.
  - rewrite (sum_counts_perm _ _ (order_by_perm fst _)), Hsum. unfold counted. rewrite length_map. cbn. lia.
  - intros k Hne. rewrite assoc_order_by, Hk. cbn. unfold rejected_for. clear Es Hsum Hk Hle.
    induction rs as [|[row reason] rs IH]; [done|]. cbn [map List.filter snd fst].
    destruct (Hrows (row, reason)) as (_ & H2 & _); [apply elem_of_cons; by left|]. cbn [fst snd] in H2. rewrite H2.
    specialize (IH (λ x Hx, Hrows x (proj2 (elem_of_cons _ _ _) (or_intror Hx)))). unfold counted in *.
    destruct reason as [reason|]; cbn [is_text default from_option id]; [rewrite String.eqb_sym; destruct (String.eqb reason k); cbn [length]; lia|].
    destruct (String.eqb_spec "" k); [by destruct Hne|]. exact IH.
  - intros lane integrity. unfold build_semantic_sub_result. cbn [rc_rows rc_strict_rows].
    set (all := counted (map fst rs)) in *. set (strict := counted (omap accepted_row rs)) in *.
    assert (0 <= strict)%Z by (unfold strict, counted; lia).
    destruct integrity; unfold make_accounting; cbn [ac_discovered ac_accepted ac_quarantined ac_rejected ac_deleted existsb];
      repeat match goal with |- context [(?a <? 0)%Z] => destruct (Z.ltb_spec a 0); [lia|] end; cbn [orb];
      lazymatch goal with |- context [(?a =? ?b)%Z] => destruct (Z.eqb_spec a b); [done|lia] end.
Qed.
End reconcile.

(** * Providers *)

Lemma make_entry_id e e' : make_entry e = Ok e' → e' = e.
Proof. unfold make_entry. repeat case_match; congruence. Qed.
Lemma sidecar_entry_spec path stale raw e : sidecar_entry path stale raw = Ok e →
  make_entry e = Ok e ∧ me_original_path e = path ∧ (0 <= me_original_start e)%Z ∧ (stale = true → is_stale e = true).
Proof.
  unfold sidecar_entry. destruct (mapping_of raw) as [d|]; cbn [mbind result_bind]; [|done].
  destruct (getitem "generated" d) as [g|]; cbn [mbind result_bind]; [|done]. destruct (getitem "original" d) as [o|]; cbn [mbind result_bind]; [|done].
  destruct (in_list _ MAP_QUALITY_STATES); cbn [negb]; [|done].
  destruct (int_at 0 g) as [a|]; cbn [mbind result_bind]; [|done]. destruct (int_at 1 g) as [b|]; cbn [mbind result_bind]; [|done].
  destruct (int_at 0 o) as [x|]; cbn [mbind result_bind]; [|done]. destruct (int_at 1 o) as [y|]; cbn [mbind result_bind]; [|done].
  intros He. pose proof (make_entry_id _ _ He) as ->. split_and!; [done|done| |by intros ->].
  cbn [me_original_start]. unfold make_entry in He. cbn [me_original_start me_original_start_line] in He.
  destruct (negb _); [done|]. destruct (_ <? _)%Z; [done|]. destruct (_ && _); [done|].
  destruct (Z.ltb_spec x 0); [|lia]. done.
Qed.
Lemma sidecar_entries_spec path stale index raws es : sidecar_entries path stale index raws = Ok es →
  ∀ e, e ∈ es → make_entry e = Ok e ∧ me_original_path e = path ∧ (0 <= me_original_start e)%Z ∧ (stale = true → is_stale e = true).
Proof.
  revert index es. induction raws as [|raw raws IH]; intros index es; cbn [sidecar_entries]; [by intros [= <-] e ?%elem_of_nil|].
  destruct (sidecar_entry path stale raw) as [e0|] eqn:E0; [|done]. destruct (sidecar_entries path stale (index + 1) raws) as [es'|] eqn:E1; [|done].
  intros [= <-] e [->|He]%elem_of_cons; [by apply sidecar_entry_spec in E0|by eapply IH].
Qed.
Lemma all_stale_unmapped m from to : (∀ e, e ∈ sm_entries m → is_stale e = true) → lu_status (lookup m from to) ≠ "mapped".
Proof. intros Hall (e & _ & Hmx)%lookup_mapped. destruct Hmx as [_ Hin Hc _ Hf _]. specialize (Hf e Hin Hc). by rewrite Hall in Hf. Qed.
Lemma invalid_map_invalid data reason : reason ≠ "" → has_invalid (invalid_map data reason) = true.
Proof. intros Hne. unfold has_invalid, invalid_reason. cbn. unfold is_empty. by destruct (String.eqb_spec reason ""). Qed.
Lemma hash_differs_true data key expected : expected ≠ "" → str_or_empty key data ≠ expected → hash_differs data key expected = true.
Proof. intros H1%String.eqb_neq H2%String.eqb_neq. unfold hash_differs, is_empty. by rewrite H1, H2. Qed.
(** A sidecar that parses is invalid and empty, or has sound entries. *)
Lemma parse_sidecar_spec exc_text data eo eg m : parse_sidecar_map exc_text data eo eg = Ok m →
  (has_invalid m = true ∧ sm_entries m = []) ∨
  (str_or_empty "version" data = PROC_SOURCE_MAP_VERSION ∧ has_invalid m = false ∧
   ∀ e, e ∈ sm_entries m → make_entry e = Ok e ∧ me_original_path e = sm_original_path m ∧ (0 <= me_original_start e)%Z ∧
     (hash_differs data "original_sha256" eo || hash_differs data "generated_sha256" eg = true → is_stale e = true)).
Proof.
  unfold parse_sidecar_map. destruct (String.eqb_spec (str_or_empty "version" data) PROC_SOURCE_MAP_VERSION) as [Hv|]; cbn [negb].
  2:{ intros <-%Ok_inj. left. split; [by apply invalid_map_invalid|done]. }
  destruct (get "entries" data) as [| | | | |raws|]; try (intros <-%Ok_inj; left; split; [by apply invalid_map_invalid|done]).
  destruct (blank _); [intros <-%Ok_inj; left; split; [by apply invalid_map_invalid|done]|].
  destruct (blank _); [intros <-%Ok_inj; left; split; [by apply invalid_map_invalid|done]|].
  destruct (sidecar_entries _ _ _ _) as [es|[index e]] eqn:Ee.
  - intros <-%Ok_inj. right. split; [done|]. split; [|exact (sidecar_entries_spec _ _ _ _ _ Ee)].
    unfold has_invalid, invalid_reason. cbn [sm_diagnostics]. by destruct (MAX_MAP_ENTRIES <? _)%nat, (hash_differs _ _ _ || hash_differs _ _ _).
  - destruct (malformed e); [|done]. intros <-%Ok_inj. left. split; [by apply invalid_map_invalid|done].
Qed.
(** C35: A sidecar fails closed: a version or a hash that is not the expected one lets
    no span be mapped and no call be strict, whatever state the caller claims.  A
    span that is mapped is covered by a validated entry for the original that the
    manifest names; it keeps its length and is shifted as it is in the generated
    span, so it does not start before the entry's original span, nor end behind it
    when that is at least as long as the generated span (else it may:
    [exact_span_escapes]). *)
Theorem sidecar_fails_closed exc_text data eo eg m (Hm : parse_sidecar_map exc_text data eo eg = Ok m) :
  (str_or_empty "version" data ≠ PROC_SOURCE_MAP_VERSION ∨ (eo ≠ "" ∧ str_or_empty "original_sha256" data ≠ eo)
     ∨ (eg ≠ "" ∧ str_or_empty "generated_sha256" data ≠ eg) →
   (∀ from to, lu_status (lookup m from to) ≠ "mapped") ∧
   ∀ bundle text worker state sites r, reconcile_proc_semantic_callsites m bundle text worker state sites = Ok r → pr_strict_rows r = []) ∧
  ∀ from to, lu_status (lookup m from to) = "mapped" → ∃ e, maps_exactly m from to e ∧ make_entry e = Ok e ∧
    me_original_path e = sm_original_path m ∧ lu_original_path (lookup m from to) = sm_original_path m ∧
    lu_original_start (lookup m from to) = (me_original_start e + (from - me_generated_start e))%Z ∧
    (lu_original_end (lookup m from to) - lu_original_start (lookup m from to) = to - from)%Z ∧ inside e from to.
Proof.
  apply parse_sidecar_spec in Hm. split.
  - intros Hbad. assert (∀ from to, lu_status (lookup m from to) ≠ "mapped") as Hno.
    { intros from to. destruct Hm as [[Hi _]|(Hv & _ & He)]; [unfold lookup; by rewrite Hi|].
      apply all_stale_unmapped. intros e Hin. apply He in Hin as (_ & _ & _ & Hs). apply Hs.
      destruct Hbad as [|[[? ?]|[? ?]]]; [done| |]; apply orb_true_iff; [left|right]; by apply hash_differs_true. }
    split; [done|]. intros bundle text worker state sites r Hr. destruct (pr_strict_rows r) as [|row rows] eqn:Er; [done|].
    destruct (strict_rows_exact _ _ _ _ _ _ _ Hr row) as (_ & _ & _ & site & from & to & e & _ & _ & _ & _ & Hmx & _); [rewrite Er; apply elem_of_cons; by left|].
    by apply lookup_project, Hno in Hmx.
  - intros from to Hmap. destruct (lookup_mapped _ _ _ Hmap) as (e & Hl & Hmx). exists e. split; [done|].
    destruct Hm as [[Hi _]|(_ & _ & He)]; [by destruct Hmx as [Hi' _]; congruence|]. destruct (He e (mx_entry _ _ _ _ Hmx)) as (H1 & H2 & H3 & _).
    rewrite Hl. split_and!; [done|done|exact H2| | |apply covers_inside, Hmx]; cbn [project lu_original_start lu_original_end]; destruct (Z.leb_spec 0 (me_original_start e)); lia.
Qed.
(** Line directives give lines and never bytes. *)
Lemma mapM_make_entry l es : mapM make_entry l = Ok es → es = l.
Proof.
  revert es. induction l as [|e l IH]; cbn [mapM]; intros es He; [by apply Ok_inj in He as <-|].
  destruct (make_entry e) as [e'|] eqn:E; cbn [mbind result_bind] in He; [|done]. apply make_entry_id in E as ->.
  destruct (mapM make_entry l) as [es'|]; cbn [mbind result_bind mret result_ret] in He; [|done]. apply Ok_inj in He as <-. f_equal. by apply IH.
Qed.
Definition line_entry (original_path : string) (e : ProcMapEntry) : Prop :=
  me_quality e = "line_directive" ∧ me_original_path e = original_path ∧ me_original_start e = (-1)%Z.
Lemma regions_lines text starts path marks : ∀ e, e ∈ (regions text starts path marks).1 → line_entry path e.
Proof.
  induction marks as [|[gen_line [orig_line target]] marks IH]; cbn [regions]; [by intros e ?%elem_of_nil|].
  destruct (regions text starts path marks) as [entries diagnostics]. cbn [fst] in IH.
  set (end_line := match marks with [] => _ | _ => _ end). destruct (end_line <? gen_line)%Z; [exact IH|].
  destruct (negb (String.eqb target path)); [exact IH|]. cbn [fst]. intros e [->|He]%elem_of_cons; [by split_and!|by apply IH].
Qed.
Lemma line_map_entries `{Sha256} text path gen id m : parse_line_directive_map text path gen id = Ok m →
  (length (sm_entries m) <= MAX_MAP_ENTRIES)%nat ∧ ∀ e, e ∈ sm_entries m → line_entry path e.
Proof.
  unfold parse_line_directive_map. destruct (mapM _ (directives _ _ _ _)) as [marks|]; cbn [mbind result_bind]; [|done].
  pose proof (regions_lines text (starts_from 0 (split_newline text)) path marks) as Hr.
  destruct (regions _ _ _ marks) as [found diagnostics]. cbn [fst] in Hr.
  destruct (mapM make_entry _) as [entries|] eqn:Ee; cbn [mbind result_bind mret result_ret]; [|done]. apply mapM_make_entry in Ee as ->.
  intros <-%Ok_inj. cbn [sm_entries]. split; [apply firstn_le_length|]. intros e He. apply Hr. rewrite <- (firstn_skipn MAX_MAP_ENTRIES found).
  apply elem_of_app. by left.
Qed.
(** A map made from line directives never makes a call strict, whatever state
    the caller claims for its bundle: its entries are of the quality of lines, for the
    bundle's own original, and give no bytes. *)
Theorem line_maps_never_strict `{Sha256} text path gen id m (Hm : parse_line_directive_map text path gen id = Ok m) :
  (∀ e, e ∈ sm_entries m → line_entry path e) ∧
  (∀ from to, lu_original_start (lookup m from to) = (-1)%Z ∧ lu_quality (lookup m from to) ≠ "exact_span") ∧
  ∀ bundle original worker state sites r, reconcile_proc_semantic_callsites m bundle original worker state sites = Ok r → pr_strict_rows r = [].
Proof.
  apply line_map_entries in Hm as [_ He]. split; [done|]. split.
  - intros from to. destruct (decide (lu_status (lookup m from to) = "mapped")) as [Hmap|Hmap].
    + destruct (lookup_mapped _ _ _ Hmap) as (e & -> & Hmx). destruct (He e (mx_entry _ _ _ _ Hmx)) as (Hq & _ & Hs).
      cbn [project lu_original_start lu_quality]. by rewrite Hs, Hq.
    + unfold lookup in *. repeat case_match; try done.
  - intros bundle original worker state sites r Hr. destruct (pr_strict_rows r) as [|row rows] eqn:Er; [done|].
    destruct (strict_rows_exact _ _ _ _ _ _ _ Hr row) as (_ & _ & _ & site & from & to & e & _ & _ & _ & _ & Hmx & Hq & _); [rewrite Er; apply elem_of_cons; by left|].
    destruct (He e (mx_entry _ _ _ _ Hmx)) as (Hq' & _). congruence.
Qed.

(** * What the model shows besides *)

Definition plain_entry (from to ofrom oto : Z) (quality : string) : ProcMapEntry := MkEntry from to ofrom oto "a.pc" quality "original_application" 0 0.
Definition plain_map (entries : list ProcMapEntry) : ProcSourceMap := MkSourceMap "m" "sidecar" "a.pc" "a.c" entries [].
(** An entry of exact spans may stand for fewer bytes than it covers; a call behind
    them is mapped past the end of its original span. *)
Lemma exact_span_escapes : let e := plain_entry 0 100 0 10 "exact_span" in
  make_entry e = Ok e ∧ lu_quality (lookup (plain_map [e]) 90 95) = "exact_span" ∧ lu_original_start (lookup (plain_map [e]) 90 95) = 90%Z.
Proof. by split_and!. Qed.
(** Entries that differ in their generated span only are no conflict, and the first
    decides where the call lies and of which quality it is. *)
Lemma overlap_is_no_conflict :
  let a := plain_entry 0 50 100 150 "exact_span" in let b := plain_entry 20 70 100 150 "inferred" in
  (lu_original_start (lookup (plain_map [a; b]) 30 35), lu_quality (lookup (plain_map [a; b]) 30 35)) = (130%Z, "exact_span") ∧
  (lu_original_start (lookup (plain_map [b; a]) 30 35), lu_quality (lookup (plain_map [b; a]) 30 35)) = (110%Z, "inferred").
Proof. by split. Qed.
(** Behind a directive for line 10, the third line is looked up as line 11: the
    distance in lines is one wherever the offsets differ. *)
Definition nl : string := String newline_char "".
Definition quoted (s : string) : string := String double_quote (s +:+ String double_quote "").
Definition generated_text : string := "#line 10 " +:+ quoted "a.pc" +:+ nl +:+ "a();" +:+ nl +:+ "b();" +:+ nl +:+ "c();" +:+ nl.
Definition line_map (text : string) : option ProcSourceMap :=
  match @parse_line_directive_map (λ s, s) text "a.pc" "a.c" "m" with Ok m => Some m | Err _ => None end.
Lemma third_line_misplaced :
  option_map (λ m, map (λ p, lu_original_start_line (lookup m p (p + 3))) [16; 21; 26]%Z) (line_map generated_text) = Some [10; 11; 11]%Z ∧
  option_map (λ m, map (λ e, (me_original_start_line e, me_original_end_line e)) (sm_entries m)) (line_map generated_text) = Some [(10, 13)]%Z.
Proof. split; vm_compute; reflexivity. Qed.
(** A region holds the line of the directive that ends it, so two directives in a
    row make an entry of the second one's line. *)
Lemma directive_line_mapped :
  option_map (λ m, map (λ e, (me_generated_start e, me_generated_end e, me_original_start_line e)) (sm_entries m))
    (line_map ("#line 5" +:+ nl +:+ "#line 9" +:+ nl +:+ "a();")) = Some [(8, 16, 5); (16, 21, 9)]%Z.
Proof. vm_compute. reflexivity. Qed.
(** Positions are counted in characters, and compared with the worker's bytes. *)
Lemma positions_are_characters :
  option_map (λ m, map me_generated_start (sm_entries m))
    (line_map ("//" +:+ String (Ascii.ascii_of_nat 195) (String (Ascii.ascii_of_nat 169) "") +:+ nl +:+ "#line 5" +:+ nl +:+ "a();")) = Some [12]%Z.
Proof. vm_compute. reflexivity. Qed.
(** A directive for line zero makes the parser raise. *)
Lemma line_zero_raises : @parse_line_directive_map (λ s, s) ("#line 0" +:+ nl +:+ "a();") "a.pc" "a.c" "m" = Err ValueError.
Proof. vm_compute. reflexivity. Qed.

(** * Instances *)

Definition example_sidecar (hash : string) : dict :=
  [("version", JStr PROC_SOURCE_MAP_VERSION); ("map_id", JStr "m"); ("original_path", JStr "a.pc"); ("generated_path", JStr "a.c");
   ("original_sha256", JStr hash); ("generated_sha256", JStr "g");
   ("entries", JArr [JObj [("generated", JArr [JInt 100; JInt 120]); ("original", JArr [JInt 10; JInt 30]);
                           ("generated_code_class", JStr "original_application")]])].
Definition example_calls : list dict :=
  [[("call_start_byte", JInt 104); ("call_end_byte", JInt 109); ("callee_name", JStr "audit"); ("resolution_class", JStr "direct_resolved")];
   [("call_start_byte", JInt 300); ("call_end_byte", JInt 309); ("callee_name", JStr "sqlcxt"); ("resolution_class", JStr "direct_resolved")]].
Definition example_original : string := "void f() {    audit(); }".
Definition no_exc_text (e : exn) : string := "".
Definition example_map : ProcSourceMap :=
  match parse_sidecar_map no_exc_text (example_sidecar "o") "o" "g" with Ok m => m | Err _ => plain_map [] end.
Definition example_reconciled : proc_reconciliation :=
  match reconcile_proc_semantic_callsites example_map "b" example_original "ok" "" example_calls with
  | Ok r => r
  | Err _ => MkProcReconciliation "" [] [] []
  end.
Lemma example_reconciles : reconcile_proc_semantic_callsites example_map "b" example_original "ok" "" example_calls = Ok example_reconciled.
Proof. vm_compute. reflexivity. Qed.
Lemma strict_rows_exact_witness : ∃ row, (row ∈ pr_strict_rows example_reconciled) ∧ get "call_start_byte" row = JInt 14 ∧
  get "generated_code_class" row = JStr "original_application" ∧ reconcile_state example_map "ok" "" = "semantic_complete".
Proof.
  destruct (pr_strict_rows example_reconciled) as [|row rows] eqn:Er; [vm_compute in Er; discriminate|].
  exists row. assert (row ∈ pr_strict_rows example_reconciled) as Hin by (rewrite Er; by left).
  destruct (strict_rows_exact _ _ _ _ _ _ _ example_reconciles row Hin) as (H1 & _ & H2 & _).
  split; [by left|]. split; [vm_compute in Er; injection Er as <- _; vm_compute; reflexivity|]. by split.
Defined.
Lemma reconciliation_accounts_witness : pr_rejected example_reconciled = [("generated_class_precompiler_runtime", 1%Z)] ∧
  (1 + counted (pr_strict_rows example_reconciled) = counted (pr_rows example_reconciled))%Z ∧ length (pr_rows example_reconciled) = 2%nat.
Proof.
  destruct (reconciliation_accounts _ _ _ _ _ _ _ example_reconciles) as (H1%Forall2_length & _ & H2 & _).
  assert (pr_rejected example_reconciled = [("generated_class_precompiler_runtime", 1%Z)]) as Hr by (vm_compute; reflexivity).
  split; [exact Hr|]. split; [|symmetry; exact H1]. rewrite Hr in H2. exact H2.
Defined.
Lemma sidecar_fails_closed_witness : ∃ m, parse_sidecar_map no_exc_text (example_sidecar "o") "o2" "g" = Ok m ∧ length (sm_entries m) = 1%nat ∧
  lu_status (lookup m 104 109) ≠ "mapped".
Proof.
  destruct (parse_sidecar_map no_exc_text (example_sidecar "o") "o2" "g") as [m|] eqn:Em; [|vm_compute in Em; discriminate].
  exists m. split; [done|]. split; [vm_compute in Em; by injection Em as <-|].
  destruct (sidecar_fails_closed _ _ _ _ _ Em) as [H _]. apply H. right. left. by split.
Defined.
Lemma line_maps_never_strict_witness : ∃ m, @parse_line_directive_map (λ s, s) generated_text "a.pc" "a.c" "m" = Ok m ∧
  length (sm_entries m) = 1%nat ∧ lu_original_start (lookup m 16 19) = (-1)%Z.
Proof.
  destruct (@parse_line_directive_map (λ s, s) generated_text "a.pc" "a.c" "m") as [m|] eqn:Em; [|vm_compute in Em; discriminate].
  exists m. split; [done|]. split; [vm_compute in Em; by injection Em as <-|].
  destruct (@line_maps_never_strict (λ s, s) _ _ _ _ _ Em) as (_ & H & _). apply H.
Defined.
